(** * Bank-statement parsers: OCR text to categorized transactions

    A shallow embedding of the statement parsers of the repository
    (components/parsers: baseParser.js, hdfcParser.js, kotakParser.js,
    iciciParser.js and index.js) together with the JavaScript built-ins
    they rest on: strings, regular expressions and IEEE-754 numbers.

    JavaScript strings are modelled as Rocq strings read as ASCII text:
    one [ascii] per code unit.  White space, digits, letters and case
    mapping are the ASCII ones. *)

From Stdlib Require Import List String Ascii Bool Arith NArith ZArith Lia.
From Stdlib Require Import Floats.SpecFloat.
Import ListNotations.

Set Implicit Arguments.

(* ================================================================== *)
(** * Characters and strings *)

Module JSString.

Definition chars := list ascii.

Definition code (c : ascii) : N := N_of_ascii c.

Definition in_range (lo hi c : ascii) : bool :=
  ((code lo <=? code c) && (code c <=? code hi))%N.

Definition isDigit (c : ascii) : bool := in_range "0" "9" c.
Definition isUpper (c : ascii) : bool := in_range "A" "Z" c.
Definition isLower (c : ascii) : bool := in_range "a" "z" c.

(** [\w] *)
Definition isWordChar (c : ascii) : bool :=
  isDigit c || isUpper c || isLower c || Ascii.eqb c "_".

(** White space and line terminators, as [\s] and [trim] see them:
    TAB, LF, VT, FF, CR and SPACE. *)
Definition isWhiteSpace (c : ascii) : bool :=
  match code c with
  | 9 | 10 | 11 | 12 | 13 | 32 => true
  | _ => false
  end%N.

(** What [.] refuses. *)
Definition isLineTerminator (c : ascii) : bool :=
  match code c with
  | 10 | 13 => true
  | _ => false
  end%N.

Definition upperChar (c : ascii) : ascii :=
  if isLower c then ascii_of_N (code c - 32) else c.

Definition lowerChar (c : ascii) : ascii :=
  if isUpper c then ascii_of_N (code c + 32) else c.

Definition of_string : string -> chars := list_ascii_of_string.
Definition to_string : chars -> string := string_of_list_ascii.

(** ** String.prototype.trim *)

Fixpoint trimStart_l (s : chars) : chars :=
  match s with
  | c :: s' => if isWhiteSpace c then trimStart_l s' else s
  | [] => []
  end.

Definition trim_l (s : chars) : chars :=
  rev (trimStart_l (rev (trimStart_l s))).

Definition trim (s : string) : string := to_string (trim_l (of_string s)).

(** [!s] on a string: true exactly for the empty string. *)
Definition isEmpty (s : string) : bool :=
  match s with
  | EmptyString => true
  | String _ _ => false
  end.

(** ** String.prototype.toUpperCase *)

Definition toUpperCase (s : string) : string :=
  to_string (map upperChar (of_string s)).

(** ** String.prototype.startsWith, includes *)

Fixpoint isPrefix (p s : chars) : bool :=
  match p, s with
  | [], _ => true
  | a :: p', b :: s' => Ascii.eqb a b && isPrefix p' s'
  | _ :: _, [] => false
  end.

Definition startsWith (s p : string) : bool :=
  isPrefix (of_string p) (of_string s).

Fixpoint includes_l (s p : chars) : bool :=
  isPrefix p s ||
  match s with
  | [] => false
  | _ :: s' => includes_l s' p
  end.

Definition includes (s p : string) : bool :=
  includes_l (of_string s) (of_string p).

(** ** String.prototype.split with a (non-empty) string separator

    [skip] counts the characters of a separator still to be passed
    over; [cur] is the piece being collected, reversed. *)

Fixpoint split_go (sep s : chars) (skip : nat) (cur : chars)
  : list chars :=
  match s with
  | [] => [rev cur]
  | c :: s' =>
      match skip with
      | S k => split_go sep s' k cur
      | O =>
          if isPrefix sep s
          then rev cur :: split_go sep s' (List.length sep - 1) []
          else split_go sep s' 0 (c :: cur)
      end
  end.

Definition split (sep s : string) : list string :=
  map to_string (split_go (of_string sep) (of_string s) 0 []).

(** ** Array.prototype.join *)

Fixpoint join (sep : string) (l : list string) : string :=
  match l with
  | [] => ""
  | [x] => x
  | x :: l' => x ++ sep ++ join sep l'
  end%string.

(** ** String.prototype.replace with a string pattern: the first
    occurrence only. *)

Fixpoint replaceFirst_l (pat rep s : chars) : chars :=
  if isPrefix pat s then rep ++ skipn (List.length pat) s
  else match s with
       | [] => []
       | c :: s' => c :: replaceFirst_l pat rep s'
       end.

Definition replaceFirst (s pat rep : string) : string :=
  to_string (replaceFirst_l (of_string pat) (of_string rep) (of_string s)).

(** ** String.prototype.toLowerCase, repeat *)

Definition toLowerCase (s : string) : string :=
  to_string (map lowerChar (of_string s)).

(** [c.repeat(n)] for a one-character string [c]. *)
Definition repeatChar (c : ascii) (n : nat) : string :=
  to_string (repeat c n).

(** ** String.prototype.padStart with a one-character filler *)

Definition padStart (s : string) (targetLength : nat) (fill : ascii)
  : string :=
  to_string (repeat fill (targetLength - String.length s) ++ of_string s).

End JSString.

(* ================================================================== *)
(** * Regular expressions

    A backtracking matcher in continuation-passing style, after the
    matcher of the ECMAScript specification: a pattern is compiled to
    a function that takes the continuation (the rest of the pattern)
    and the current state, tries its alternatives in priority order
    and returns the first state the continuation accepts. *)

Module Regex.
Import JSString.

(** A member of a character class. *)
Inductive citem :=
| CChar (c : ascii)            (* a literal character *)
| CRange (lo hi : ascii)       (* lo-hi *)
| CDigit                       (* \d *)
| CSpace.                      (* \s *)

Inductive regex :=
| Empty                                    (* the empty pattern *)
| Chr (c : ascii)                          (* a literal character *)
| Any                                      (* . *)
| Class (items : list citem)               (* [...], \d, \s *)
| Bol                                      (* ^ *)
| Eol                                      (* $ *)
| WordB                                    (* \b *)
| Seq (r1 r2 : regex)                      (* r1 r2 *)
| Alt (r1 r2 : regex)                      (* r1 | r2 *)
| Group (n : nat) (r : regex)              (* the n-th ( ) *)
| Rep (r : regex) (min : nat) (max : option nat) (greedy : bool).
                                           (* r{min,max}, lazy with ? *)

(** A regular expression literal: the pattern and its [i] flag.  The
    [g] flag shows in the operation applied ([replaceAll],
    [matchAll]). *)
Record RegExp := { pattern : regex; ignoreCase : bool }.

(** ** Surface syntax *)

Definition digit : regex := Class [CDigit].                  (* \d *)
Definition space : regex := Class [CSpace].                  (* \s *)
Definition star (r : regex) : regex := Rep r 0 None true.    (* r* *)
Definition plus (r : regex) : regex := Rep r 1 None true.    (* r+ *)
Definition plusLazy (r : regex) : regex := Rep r 1 None false. (* r+? *)
Definition opt (r : regex) : regex := Rep r 0 (Some 1) true. (* r? *)
Definition times (n : nat) (r : regex) : regex :=
  Rep r n (Some n) true.                                     (* r{n} *)
Definition atLeast (n : nat) (r : regex) : regex :=
  Rep r n None true.                                         (* r{n,} *)
Definition between (n k : nat) (r : regex) : regex :=
  Rep r n (Some k) true.                                     (* r{n,k} *)

Fixpoint seqs (l : list regex) : regex :=
  match l with
  | [] => Empty
  | [r] => r
  | r :: l' => Seq r (seqs l')
  end.

Fixpoint alts (l : list regex) : regex :=
  match l with
  | [] => Empty
  | [r] => r
  | r :: l' => Alt r (alts l')
  end.

(** A run of literal characters. *)
Definition lit (s : string) : regex := seqs (map Chr (of_string s)).

Definition re (r : regex) : RegExp :=
  {| pattern := r; ignoreCase := false |}.
Definition rei (r : regex) : RegExp :=
  {| pattern := r; ignoreCase := true |}.

(** ** Matching characters *)

Definition canonicalize (ic : bool) (c : ascii) : ascii :=
  if ic then upperChar c else c.

Definition charMatches (ic : bool) (c x : ascii) : bool :=
  Ascii.eqb (canonicalize ic c) (canonicalize ic x).

Definition inItem (it : citem) (x : ascii) : bool :=
  match it with
  | CChar c => Ascii.eqb c x
  | CRange lo hi => in_range lo hi x
  | CDigit => isDigit x
  | CSpace => isWhiteSpace x
  end.

(** Under [i] a class holds [x] when it holds a character with the
    canonical form of [x]: [x] itself or its other case. *)
Definition inClass (ic : bool) (items : list citem) (x : ascii) : bool :=
  existsb (fun it => inItem it x) items ||
  (ic && (existsb (fun it => inItem it (upperChar x)) items ||
          existsb (fun it => inItem it (lowerChar x)) items)).

(** ** States and captures *)

Record mstate := {
  rest : chars;                  (* the input still ahead *)
  prev : option ascii;           (* the character just behind *)
  caps : list (nat * chars)      (* groups captured so far *)
}.

Definition cont := mstate -> option mstate.

Definition advance (st : mstate) (x : ascii) (xs : chars) : mstate :=
  {| rest := xs; prev := Some x; caps := caps st |}.

Definition remaining (st : mstate) : nat := List.length (rest st).

Fixpoint groups (r : regex) : list nat :=
  match r with
  | Group n r' => n :: groups r'
  | Seq r1 r2 | Alt r1 r2 => groups r1 ++ groups r2
  | Rep r' _ _ _ => groups r'
  | _ => []
  end.

Definition dropCaps (gs : list nat) (cs : list (nat * chars))
  : list (nat * chars) :=
  filter (fun p => negb (existsb (Nat.eqb (fst p)) gs)) cs.

(** Each round of a quantifier starts with the groups inside it
    unset. *)
Definition resetCaps (gs : list nat) (st : mstate) : mstate :=
  {| rest := rest st; prev := prev st; caps := dropCaps gs (caps st) |}.

Definition setCap (n : nat) (s : chars) (st : mstate) : mstate :=
  {| rest := rest st; prev := prev st;
     caps := (n, s) :: dropCaps [n] (caps st) |}.

Definition isWordAt (c : option ascii) : bool :=
  match c with
  | Some x => isWordChar x
  | None => false
  end.

(** ** Quantifiers

    The [min] compulsory rounds come first; after them each further
    round must consume input, which bounds their number by the
    length of the input still ahead. *)

Fixpoint repeatMin (mr : cont -> cont) (gs : list nat) (n : nat)
    (k : cont) : cont :=
  match n with
  | O => k
  | S n' => fun x => mr (repeatMin mr gs n' k) (resetCaps gs x)
  end.

Fixpoint repeatMax (mr : cont -> cont) (gs : list nat) (greedy : bool)
    (k : cont) (fuel : nat) (max : option nat) (x : mstate)
    : option mstate :=
  match fuel with
  | O => None
  | S fuel' =>
      match max with
      | Some O => k x
      | _ =>
          let d := fun y =>
            if remaining y <? remaining x
            then repeatMax mr gs greedy k fuel' (option_map pred max) y
            else None in
          if greedy
          then match mr d (resetCaps gs x) with
               | Some z => Some z
               | None => k x
               end
          else match k x with
               | Some z => Some z
               | None => mr d (resetCaps gs x)
               end
      end
  end.

Definition maxAfter (min : nat) (max : option nat) : option nat :=
  option_map (fun k => k - min) max.

(** ** The matcher *)

Fixpoint m (ic : bool) (r : regex) (k : cont) (st : mstate)
    {struct r} : option mstate :=
  match r with
  | Empty => k st
  | Chr c =>
      match rest st with
      | x :: xs => if charMatches ic c x then k (advance st x xs) else None
      | [] => None
      end
  | Any =>
      match rest st with
      | x :: xs => if isLineTerminator x then None else k (advance st x xs)
      | [] => None
      end
  | Class items =>
      match rest st with
      | x :: xs => if inClass ic items x then k (advance st x xs) else None
      | [] => None
      end
  | Bol => match prev st with None => k st | Some _ => None end
  | Eol => match rest st with [] => k st | _ :: _ => None end
  | WordB =>
      if xorb (isWordAt (prev st)) (isWordAt (hd_error (rest st)))
      then k st else None
  | Seq r1 r2 => m ic r1 (m ic r2 k) st
  | Alt r1 r2 =>
      match m ic r1 k st with
      | Some z => Some z
      | None => m ic r2 k st
      end
  | Group n r' =>
      m ic r'
        (fun y => k (setCap n (firstn (remaining st - remaining y) (rest st)) y))
        st
  | Rep r' min max greedy =>
      repeatMin (m ic r') (groups r') min
        (fun x => repeatMax (m ic r') (groups r') greedy k
                    (S (remaining x)) (maxAfter min max) x)
        st
  end.

(** ** RegExp.prototype.exec, test; String.prototype.match *)

Record MatchResult := {
  index : nat;                   (* where the match starts *)
  matched : chars;               (* the text matched *)
  captures : list (nat * chars)  (* the groups that took part *)
}.

Definition matchHere (rx : RegExp) (p : option ascii) (s : chars)
  : option mstate :=
  m (ignoreCase rx) (pattern rx) Some
    {| rest := s; prev := p; caps := [] |}.

(** The leftmost match: each start position in turn. *)
Fixpoint execFrom (rx : RegExp) (p : option ascii) (idx : nat) (s : chars)
  : option MatchResult :=
  match matchHere rx p s with
  | Some y =>
      Some {| index := idx;
              matched := firstn (List.length s - remaining y) s;
              captures := caps y |}
  | None =>
      match s with
      | [] => None
      | c :: s' => execFrom rx (Some c) (S idx) s'
      end
  end.

Definition exec (rx : RegExp) (s : string) : option MatchResult :=
  execFrom rx None 0 (of_string s).

Definition test (rx : RegExp) (s : string) : bool :=
  match exec rx s with
  | Some _ => true
  | None => false
  end.

(** The text of group [n] of a match (the empty string for a group
    that took no part). *)
Definition group (n : nat) (r : MatchResult) : string :=
  match find (fun p => Nat.eqb (fst p) n) (captures r) with
  | Some p => to_string (snd p)
  | None => ""
  end.

(** ** The [g] flag: every match, left to right

    [skip] counts the characters of the last match still to be
    passed over.  After an empty match the search moves on by one
    character. *)

Fixpoint matchAll_go (rx : RegExp) (p : option ascii) (s : chars)
    (skip : nat) : list chars :=
  match skip with
  | S k =>
      match s with
      | c :: s' => matchAll_go rx (Some c) s' k
      | [] => []
      end
  | O =>
      match matchHere rx p s with
      | Some y =>
          let n := List.length s - remaining y in
          firstn n s ::
          match s with
          | c :: s' => matchAll_go rx (Some c) s' (n - 1)
          | [] => []
          end
      | None =>
          match s with
          | c :: s' => matchAll_go rx (Some c) s' 0
          | [] => []
          end
      end
  end.

(** [s.match(rx)] for a global [rx]; the empty list stands for
    [null]. *)
Definition matchAll (rx : RegExp) (s : string) : list string :=
  map to_string (matchAll_go rx None (of_string s) 0).

(** [s.replace(rx, rep)] for a global [rx] and a replacement text
    without [$]. *)
Fixpoint replaceAll_go (rx : RegExp) (rep : chars) (p : option ascii)
    (s : chars) (skip : nat) : chars :=
  match skip with
  | S k =>
      match s with
      | c :: s' => replaceAll_go rx rep (Some c) s' k
      | [] => []
      end
  | O =>
      match matchHere rx p s with
      | Some y =>
          let n := List.length s - remaining y in
          rep ++
          match s with
          | c :: s' =>
              match n with
              | O => c :: replaceAll_go rx rep (Some c) s' 0
              | S n' => replaceAll_go rx rep (Some c) s' n'
              end
          | [] => []
          end
      | None =>
          match s with
          | c :: s' => c :: replaceAll_go rx rep (Some c) s' 0
          | [] => []
          end
      end
  end.

Definition replaceAll (rx : RegExp) (rep : string) (s : string) : string :=
  to_string (replaceAll_go rx (of_string rep) None (of_string s) 0).

(** [s.split(rx)] for a pattern without groups.  A match is looked
    for at each position from the start of the current piece on;
    [fresh] says that the position is that start, where an empty
    match does not split. *)
Fixpoint splitRe_go (rx : RegExp) (p : option ascii) (s : chars)
    (skip : nat) (cur : chars) (fresh : bool) : list chars :=
  match s with
  | [] => [rev cur]
  | c :: s' =>
      match skip with
      | S k => splitRe_go rx (Some c) s' k cur fresh
      | O =>
          match matchHere rx p s with
          | Some y =>
              match List.length s - remaining y with
              | O =>
                  if fresh
                  then splitRe_go rx (Some c) s' 0 (c :: cur) false
                  else rev cur :: splitRe_go rx (Some c) s' 0 [c] false
              | S n' => rev cur :: splitRe_go rx (Some c) s' n' [] true
              end
          | None => splitRe_go rx (Some c) s' 0 (c :: cur) false
          end
      end
  end.

Definition splitRe (rx : RegExp) (s : string) : list string :=
  match of_string s with
  | [] =>
      match matchHere rx None [] with
      | Some _ => []
      | None => [""%string]
      end
  | l => map to_string (splitRe_go rx None l 0 [] true)
  end.

(** [s.replace(rx, template)] for a global [rx] and a replacement
    text with [$n]: each match is replaced by the template with the
    text of group [n] for [$n] (nothing for a group that took no
    part). *)
Inductive piece :=
| Lit (s : string)
| Ref (n : nat).

Definition expand (template : list piece) (cs : list (nat * chars))
  : chars :=
  flat_map (fun pc =>
              match pc with
              | Lit s => of_string s
              | Ref n =>
                  match find (fun q => Nat.eqb (fst q) n) cs with
                  | Some q => snd q
                  | None => []
                  end
              end)
           template.

Fixpoint replaceAllBy_go (rx : RegExp) (template : list piece)
    (p : option ascii) (s : chars) (skip : nat) : chars :=
  match skip with
  | S k =>
      match s with
      | c :: s' => replaceAllBy_go rx template (Some c) s' k
      | [] => []
      end
  | O =>
      match matchHere rx p s with
      | Some y =>
          let n := List.length s - remaining y in
          expand template (caps y) ++
          match s with
          | c :: s' =>
              match n with
              | O => c :: replaceAllBy_go rx template (Some c) s' 0
              | S n' => replaceAllBy_go rx template (Some c) s' n'
              end
          | [] => []
          end
      | None =>
          match s with
          | c :: s' => c :: replaceAllBy_go rx template (Some c) s' 0
          | [] => []
          end
      end
  end.

Definition replaceAllBy (rx : RegExp) (template : list piece) (s : string)
  : string :=
  to_string (replaceAllBy_go rx template None (of_string s) 0).

(** [s.replace(rx, rep)] for an [rx] without the [g] flag and a
    replacement text without [$]: the leftmost match only. *)
Definition replaceRe (rx : RegExp) (rep : string) (s : string) : string :=
  match exec rx s with
  | Some r =>
      let l := of_string s in
      to_string (firstn (index r) l ++ of_string rep ++
                 skipn (index r + List.length (matched r)) l)
  | None => s
  end.

End Regex.

(* ================================================================== *)
(** * Numbers

    A JavaScript Number is an IEEE-754 binary64 value: [spec_float] at
    precision 53 and maximal exponent 1024, with the operations of the
    standard library's specification of floating-point arithmetic. *)

Module JSNumber.
Import JSString.

Definition number := spec_float.

Definition prec : Z := 53.
Definition emax : Z := 1024.

Definition NaN : number := S754_nan.
Definition zero : number := S754_zero false.

Definition add (x y : number) : number := SFadd prec emax x y.  (* x + y *)
Definition sub (x y : number) : number := SFsub prec emax x y.  (* x - y *)
Definition abs (x : number) : number := SFabs x.       (* Math.abs(x) *)
Definition ltb (x y : number) : bool := SFltb x y.              (* x < y *)
Definition gtb (x y : number) : bool := SFltb y x.              (* x > y *)
Definition leb (x y : number) : bool := SFleb x y.              (* x <= y *)
Definition eqb (x y : number) : bool := SFeqb x y.              (* x === y *)

(** The Number nearest to the integer [v]. *)
Definition ofZ (v : Z) : number := binary_normalize prec emax v 0 false.

(** The Number for the decimal [mant * 10^e10], negated when [neg]:
    the exact value rounded once, to nearest, ties to even. *)
Definition ofDecimal (neg : bool) (mant : N) (e10 : Z) : number :=
  match mant with
  | N0 => S754_zero neg
  | Npos p =>
      match e10 with
      | Zneg q =>
          SFdiv prec emax (S754_finite neg p 0)
                          (S754_finite false (Pos.pow 10 q) 0)
      | _ =>
          let v := (Zpos p * 10 ^ e10)%Z in
          binary_normalize prec emax (if neg then (- v)%Z else v) 0 false
      end
  end.

(** ** Reading decimal digits *)

Definition digitValue (c : ascii) : N := (code c - 48)%N.

Fixpoint digitsValue (acc : N) (ds : chars) : N :=
  match ds with
  | [] => acc
  | c :: ds' => digitsValue (acc * 10 + digitValue c)%N ds'
  end.

(** The longest prefix of [s] whose characters satisfy [p], and what
    follows it. *)
Fixpoint span (p : ascii -> bool) (s : chars) : chars * chars :=
  match s with
  | c :: s' =>
      if p c then let '(a, b) := span p s' in (c :: a, b) else ([], s)
  | [] => ([], [])
  end.

Definition readSign (s : chars) : bool * chars :=
  match s with
  | c :: s' =>
      if Ascii.eqb c "-" then (true, s')
      else if Ascii.eqb c "+" then (false, s')
      else (false, s)
  | [] => (false, [])
  end.

(** An exponent part [e], [E] with an optional sign and at least one
    digit; anything else counts for nothing. *)
Definition readExponent (s : chars) : Z :=
  match s with
  | c :: s' =>
      if Ascii.eqb c "e" || Ascii.eqb c "E" then
        let '(eneg, s1) := readSign s' in
        let '(ed, _) := span isDigit s1 in
        match ed with
        | [] => 0%Z
        | _ => let v := Z.of_N (digitsValue 0 ed) in
               if eneg then (- v)%Z else v
        end
      else 0%Z
  | [] => 0%Z
  end.

(** ** parseFloat: the longest prefix that is a decimal literal,
    after leading white space; NaN when there is none. *)

Definition parseFloat_l (s : chars) : number :=
  let '(neg, s1) := readSign (trimStart_l s) in
  if isPrefix (of_string "Infinity") s1 then S754_infinity neg
  else
    let '(ip, s2) := span isDigit s1 in
    let '(fp, s3) :=
      match s2 with
      | c :: t => if Ascii.eqb c "." then span isDigit t else ([], s2)
      | [] => ([], s2)
      end in
    match ip ++ fp with
    | [] => NaN
    | ds =>
        ofDecimal neg (digitsValue 0 ds)
                  (readExponent s3 - Z.of_nat (List.length fp))
    end.

Definition parseFloat (s : string) : number := parseFloat_l (of_string s).

(** ** Writing decimal digits *)

Definition digitChar (d : N) : ascii := ascii_of_N (48 + d).

Fixpoint decimal_go (fuel : nat) (n : N) (acc : chars) : chars :=
  let acc' := digitChar (n mod 10) :: acc in
  match fuel with
  | O => acc'
  | S f => if (n / 10 =? 0)%N then acc' else decimal_go f (n / 10) acc'
  end.

(** The decimal digits of [n], most significant first; a number has
    no more decimal digits than binary ones. *)
Definition decimal (n : N) : chars :=
  decimal_go (N.to_nat (N.log2 n)) n [].

(** ** Number.prototype.toString for a finite value of at least
    10^21: the shortest digits that read back as the same Number, in
    exponent form.  [X] is the exact (integer) value of [x]. *)

Definition sameNumber (x y : number) : bool :=
  match x, y with
  | S754_finite s1 m1 e1, S754_finite s2 m2 e2 =>
      Bool.eqb s1 s2 && Pos.eqb m1 m2 && Z.eqb e1 e2
  | S754_zero s1, S754_zero s2 => Bool.eqb s1 s2
  | S754_infinity s1, S754_infinity s2 => Bool.eqb s1 s2
  | _, _ => false
  end.

(** With [k] digits: the two [k]-digit decimals around [X], if one
    reads back as [x] (the nearer one, the even one on a tie). *)
Definition shortestWith (x : number) (X : Z) (p : Z) : option (Z * Z) :=
  let s1 := (X / 10 ^ p)%Z in
  let s2 := (s1 + 1)%Z in
  let ok1 := sameNumber (ofZ (s1 * 10 ^ p)) x in
  let ok2 := sameNumber (ofZ (s2 * 10 ^ p)) x in
  match ok1, ok2 with
  | true, true =>
      let d1 := (X - s1 * 10 ^ p)%Z in
      let d2 := (s2 * 10 ^ p - X)%Z in
      if (d1 <? d2)%Z then Some (s1, p)
      else if (d2 <? d1)%Z then Some (s2, p)
      else if Z.even s1 then Some (s1, p) else Some (s2, p)
  | true, false => Some (s1, p)
  | false, true => Some (s2, p)
  | false, false => None
  end.

Fixpoint shortest (x : number) (X : Z) (p : nat) : Z * Z :=
  match p with
  | O => (X, 0%Z)
  | S p' =>
      match shortestWith x X (Z.of_nat p) with
      | Some r => r
      | None => shortest x X p'
      end
  end.

Fixpoint dropZeros (fuel : nat) (s p : Z) : Z * Z :=
  match fuel with
  | O => (s, p)
  | S f =>
      if ((s mod 10 =? 0) && negb (s =? 0))%Z
      then dropZeros f (s / 10)%Z (p + 1)%Z
      else (s, p)
  end.

Definition toStringLarge (x : number) (X : Z) : string :=
  let dX := List.length (decimal (Z.to_N X)) in
  let '(s0, p0) := shortest x X (dX - 1) in
  let '(s, p) := dropZeros dX s0 p0 in
  let ds := decimal (Z.to_N s) in
  let n := (Z.of_nat (List.length ds) + p)%Z in
  to_string
    (match ds with
     | [] => []
     | d :: [] => [d]
     | d :: more => d :: "."%char :: more
     end ++ of_string "e+" ++ decimal (Z.to_N (n - 1))).

(** ** Number.prototype.toFixed(2) *)

(** The integer nearest to [m * 2^e * 100], the larger one of two. *)
Definition hundredths (mt : positive) (e : Z) : N :=
  match e with
  | Zneg q =>
      Z.to_N ((Zpos mt * 200 + 2 ^ Zpos q) / 2 ^ (Zpos q + 1))%Z
  | _ => Z.to_N (Zpos mt * 2 ^ e * 100)%Z
  end.

(** The digits of [n] with a point before the last two, padded with
    zeros to three digits. *)
Definition withPoint (n : N) : chars :=
  let ds := decimal n in
  let ds := repeat "0"%char (3 - List.length ds) ++ ds in
  let k := List.length ds in
  firstn (k - 2) ds ++ "."%char :: skipn (k - 2) ds.

Definition toFixed2 (x : number) : string :=
  match x with
  | S754_nan => "NaN"
  | S754_infinity s => if s then "-Infinity" else "Infinity"
  | S754_zero _ => "0.00"
  | S754_finite s mt e =>
      ((if s then "-" else "") ++
       (if (0 <=? e)%Z && (10 ^ 21 <=? Zpos mt * 2 ^ e)%Z
        then toStringLarge (S754_finite false mt e) (Zpos mt * 2 ^ e)
        else to_string (withPoint (hundredths mt e))))%string
  end.

(** ** Number.prototype.toFixed(1), and the arithmetic of the
    categorization rate *)

Definition mul (x y : number) : number := SFmul prec emax x y.  (* x * y *)
Definition div (x y : number) : number := SFdiv prec emax x y.  (* x / y *)

(** The integer nearest to [m * 2^e * 10], the larger one of two. *)
Definition tenths (mt : positive) (e : Z) : N :=
  match e with
  | Zneg q =>
      Z.to_N ((Zpos mt * 20 + 2 ^ Zpos q) / 2 ^ (Zpos q + 1))%Z
  | _ => Z.to_N (Zpos mt * 2 ^ e * 10)%Z
  end.

(** The digits of [n] with a point before the last one, padded with
    zeros to two digits. *)
Definition withPoint1 (n : N) : chars :=
  let ds := decimal n in
  let ds := repeat "0"%char (2 - List.length ds) ++ ds in
  let k := List.length ds in
  firstn (k - 1) ds ++ "."%char :: skipn (k - 1) ds.

Definition toFixed1 (x : number) : string :=
  match x with
  | S754_nan => "NaN"
  | S754_infinity s => if s then "-Infinity" else "Infinity"
  | S754_zero _ => "0.0"
  | S754_finite s mt e =>
      ((if s then "-" else "") ++
       (if (0 <=? e)%Z && (10 ^ 21 <=? Zpos mt * 2 ^ e)%Z
        then toStringLarge (S754_finite false mt e) (Zpos mt * 2 ^ e)
        else to_string (withPoint1 (tenths mt e))))%string
  end.

(** A count as a Number, and as the text a template literal writes
    for it. *)
Definition ofNat (n : nat) : number := ofZ (Z.of_nat n).

Definition natToString (n : nat) : string :=
  to_string (decimal (N.of_nat n)).

(** ** isNaN *)

Definition isNaN (x : number) : bool :=
  match x with
  | S754_nan => true
  | _ => false
  end.

(** ** parseInt without a radix: after leading white space and a
    sign, the digits after [0x] or [0X] in base 16, or else the
    leading decimal digits; NaN when there is none. *)

Definition isHexDigit (c : ascii) : bool :=
  isDigit c || in_range "a" "f" c || in_range "A" "F" c.

Definition hexValue (c : ascii) : N :=
  if isDigit c then (code c - 48)%N
  else if in_range "a" "f" c then (code c - 87)%N
  else (code c - 55)%N.

Fixpoint hexDigitsValue (acc : N) (ds : chars) : N :=
  match ds with
  | [] => acc
  | c :: ds' => hexDigitsValue (acc * 16 + hexValue c)%N ds'
  end.

Definition parseInt_l (s : chars) : number :=
  let '(neg, s1) := readSign (trimStart_l s) in
  let hex :=
    match s1 with
    | z :: x :: s2 =>
        if Ascii.eqb z "0" && (Ascii.eqb x "x" || Ascii.eqb x "X")
        then Some s2 else None
    | _ => None
    end in
  match hex with
  | Some s2 =>
      match fst (span isHexDigit s2) with
      | [] => NaN
      | ds => ofDecimal neg (hexDigitsValue 0 ds) 0
      end
  | None =>
      match fst (span isDigit s1) with
      | [] => NaN
      | ds => ofDecimal neg (digitsValue 0 ds) 0
      end
  end.

Definition parseInt (s : string) : number := parseInt_l (of_string s).

End JSNumber.

(* ================================================================== *)
(** * The parsers *)

Import JSString Regex JSNumber.
Open Scope string_scope.

(** The direction of a transaction, written out by its name. *)
Inductive direction := DEBIT | CREDIT | UNKNOWN.

Definition directionName (d : direction) : string :=
  match d with
  | DEBIT => "DEBIT"
  | CREDIT => "CREDIT"
  | UNKNOWN => "UNKNOWN"
  end.

(** A categorized transaction, and the line written for it:
    [`${date} | ${description} | ${amount} | ${type}`]. *)
Record Transaction := {
  txDate : string;
  txDescription : string;
  txAmount : string;
  txType : direction
}.

Definition render (t : Transaction) : string :=
  txDate t ++ " | " ++ txDescription t ++ " | " ++ txAmount t ++ " | "
         ++ directionName (txType t).

(** The pattern registry of a variant: what [getPatterns] returns. *)
Record Patterns := {
  transaction : RegExp;
  headers : list RegExp;
  continuation : list RegExp;
  personalInfo : list RegExp
}.

(** The line feed, ['\n']. *)
Definition LF : string := String "010" "".

(** [patterns.some(p => p.test(line))] *)
Definition some (ps : list RegExp) (line : string) : bool :=
  existsb (fun p => test p line) ps.

(** [/,/g], as in [s.replace(/,/g, '')]. *)
Definition commas : RegExp := re (Chr ",").

(** [/\s+/g] *)
Definition whiteSpaces : RegExp := re (plus space).

(** [parseFloat(s.replace(/,/g, ''))] *)
Definition amountOf (s : string) : number :=
  parseFloat (replaceAll commas "" s).

(** [[\d,]+\.\d{2}]: the body of the amount groups of the simplified
    lines. *)
Definition amountBody : regex :=
  seqs [plus (Class [CDigit; CChar ","]); Chr "."; times 2 digit].

(** The literal [0.01]. *)
Definition tolerance : number := ofDecimal false 1 (-2).

(** ** parsers/BaseParser.js: the utilities the variants inherit *)

Module BaseParser.

(** [/(\d{1,3}(?:,\d{3})*\.\d{2})/g] *)
Definition currencyAmount : RegExp :=
  re (Group 1 (seqs [between 1 3 digit;
                     star (seqs [Chr ","; times 3 digit]);
                     Chr "."; times 2 digit])).

Definition extractCurrencyAmounts (text : string) : list string :=
  matchAll currencyAmount text.

(** [/(\d{2}\/\d{2}\/\d{2})/g] *)
Definition shortDate : RegExp :=
  re (Group 1 (seqs [times 2 digit; Chr "/"; times 2 digit; Chr "/";
                     times 2 digit])).

Definition extractDates (text : string) : list string :=
  matchAll shortDate text.

Definition normalizeWhitespace (text : string) : string :=
  trim (replaceAll whiteSpaces " " text).

End BaseParser.

(** ** The record merger

    The three [cleanOCROutput] loops are one loop: an outer scan that
    skips empty, header and personal-information lines and starts a
    record at a transaction line, and an inner scan that extends the
    record line by line.  The variants differ in the lines the inner
    scan takes ([accepts]), in how it joins them ([append]) and in
    what is pushed at the end ([finish]). *)

Section Merger.

Variable isTransaction : string -> bool.      (* patterns.transaction.test *)
Variable isHeaderLine : string -> bool.
Variable isPersonalInfoLine : string -> bool.
Variable accepts : string -> bool.
Variable append : string -> string -> string.
Variable finish : string -> option string.

(** The inner [while (j < lines.length)]: [rest] are the lines from
    [j] on; the result is the record text and the lines not taken
    (the outer loop goes on from the first of them, as [i = j] on
    each line taken makes it do). *)
Fixpoint collect (rest : list string) (transactionText : string)
  : string * list string :=
  match rest with
  | [] => (transactionText, [])
  | l :: rest' =>
      let nextLine := trim l in
      if isEmpty nextLine || isTransaction nextLine || isHeaderLine nextLine
      then (transactionText, rest)
      else if accepts nextLine
           then collect rest' (append transactionText nextLine)
           else (transactionText, rest)
  end.

(** The outer [for (i = 0; i < lines.length; i++)]; every round
    passes at least one line, which [fuel] counts. *)
Fixpoint scan (fuel : nat) (lines : list string) : list string :=
  match fuel, lines with
  | S fuel', l :: rest =>
      let line := trim l in
      if isEmpty line then scan fuel' rest
      else if isHeaderLine line || isPersonalInfoLine line
           then scan fuel' rest
      else if isTransaction line then
        let '(transactionText, rest') := collect rest line in
        match finish transactionText with
        | Some t => t :: scan fuel' rest'
        | None => scan fuel' rest'
        end
      else scan fuel' rest
  | _, _ => []
  end.

(** The array [transactionLines] at the end of the loop. *)
Definition mergeLines (lines : list string) : list string :=
  scan (List.length lines) lines.

End Merger.

(** A line at which the merger starts a record: trimmed, it is not
    empty, matches no header and no personal-information pattern, and
    matches the transaction pattern. *)
Definition startsRecord (isTransaction isHeaderLine isPersonalInfoLine
    : string -> bool) (l : string) : bool :=
  let line := trim l in
  negb (isEmpty line) &&
  negb (isHeaderLine line || isPersonalInfoLine line) &&
  isTransaction line.

(** A line at which the inner loop stops without looking further:
    trimmed, it is empty, a transaction line or a header line. *)
Definition stopsRecord (isTransaction isHeaderLine : string -> bool)
    (l : string) : bool :=
  let nextLine := trim l in
  isEmpty nextLine || isTransaction nextLine || isHeaderLine nextLine.

(** ** parsers/HDFCParser.js *)

Module HDFCParser.

Definition getPatterns : Patterns := {|
  (* /^\d{2}\/\d{2}\/\d{2}\s*\|/ *)
  transaction :=
    re (seqs [Bol; times 2 digit; Chr "/"; times 2 digit; Chr "/";
              times 2 digit; star space; Chr "|"]);
  headers := [
    (* /^={3,}\s*PAGE/i *)
    rei (seqs [Bol; atLeast 3 (Chr "="); star space; lit "PAGE"]);
    (* /^(Page No|PageNo)[:.]?\s*\d+/i *)
    rei (seqs [Bol; Group 1 (Alt (lit "Page No") (lit "PageNo"));
               opt (Class [CChar ":"; CChar "."]); star space; plus digit]);
    (* /HDFC\s+BANK/i *)
    rei (seqs [lit "HDFC"; plus space; lit "BANK"]);
    (* /Account\s+Branch/i *)
    rei (seqs [lit "Account"; plus space; lit "Branch"]);
    (* /Address\s*:/i *)
    rei (seqs [lit "Address"; star space; Chr ":"]);
    (* /Phone\s+no/i *)
    rei (seqs [lit "Phone"; plus space; lit "no"]);
    (* /Cust\s+ID/i *)
    rei (seqs [lit "Cust"; plus space; lit "ID"]);
    (* /Account(No|Number)/i *)
    rei (seqs [lit "Account"; Group 1 (Alt (lit "No") (lit "Number"))]);
    (* /RTGS\/NEFT/i *)
    rei (lit "RTGS/NEFT");
    (* /Statement\s+of\s+account/i *)
    rei (seqs [lit "Statement"; plus space; lit "of"; plus space;
               lit "account"]);
    (* /From\s*:\s*\d{2}\/\d{2}/i *)
    rei (seqs [lit "From"; star space; Chr ":"; star space; times 2 digit;
               Chr "/"; times 2 digit]);
    (* /Closing\s+Balance/i *)
    rei (seqs [lit "Closing"; plus space; lit "Balance"]);
    (* /Withdrawal\s+Amt/i *)
    rei (seqs [lit "Withdrawal"; plus space; lit "Amt"]);
    (* /STATEMENT\s+SUMMARY/i *)
    rei (seqs [lit "STATEMENT"; plus space; lit "SUMMARY"]);
    (* /Generated\s+On:/i *)
    rei (seqs [lit "Generated"; plus space; lit "On:"]);
    (* /computer\s+generated/i *)
    rei (seqs [lit "computer"; plus space; lit "generated"]);
    (* /^\*.*funds.*earmarked/i *)
    rei (seqs [Bol; Chr "*"; star Any; lit "funds"; star Any;
               lit "earmarked"]);
    (* /Contents\s+of\s+this/i *)
    rei (seqs [lit "Contents"; plus space; lit "of"; plus space;
               lit "this"]);
    (* /Registered\s+Office/i *)
    rei (seqs [lit "Registered"; plus space; lit "Office"])
  ];
  continuation := [
    (* /@[A-Z0-9\-]+/ *)
    re (seqs [Chr "@";
              plus (Class [CRange "A" "Z"; CRange "0" "9"; CChar "-"])]);
    (* /[A-Z]{3,}BANK/ *)
    re (seqs [atLeast 3 (Class [CRange "A" "Z"]); lit "BANK"]);
    (* /-UPI$/ *)
    re (seqs [lit "-UPI"; Eol]);
    (* /-UPT$/ *)
    re (seqs [lit "-UPT"; Eol]);
    (* /-PAY$/ *)
    re (seqs [lit "-PAY"; Eol]);
    (* /^[A-Z0-9@\-]{8,}$/ *)
    re (seqs [Bol;
              atLeast 8 (Class [CRange "A" "Z"; CRange "0" "9"; CChar "@";
                                CChar "-"]);
              Eol]);
    (* /HDFC\d{7}/ *)
    re (seqs [lit "HDFC"; times 7 digit]);
    (* /ICIC\d{7}/ *)
    re (seqs [lit "ICIC"; times 7 digit])
  ];
  personalInfo := [
    (* /^(MR|MS|MRS)\s+[A-Z\s]+$/ *)
    re (seqs [Bol; Group 1 (alts [lit "MR"; lit "MS"; lit "MRS"]);
              plus space; plus (Class [CRange "A" "Z"; CSpace]); Eol]);
    (* /^FLAT\s+NO\s+\d+/i *)
    rei (seqs [Bol; lit "FLAT"; plus space; lit "NO"; plus space;
               plus digit]);
    (* /^(LIVING|APARTMENT|ROAD|STREET)/i *)
    rei (seqs [Bol; Group 1 (alts [lit "LIVING"; lit "APARTMENT";
                                   lit "ROAD"; lit "STREET"])]);
    (* /^(BANGALORE|BENGALURU|MUMBAI|DELHI|CHENNAI|KOLKATA)/i *)
    rei (seqs [Bol; Group 1 (alts [lit "BANGALORE"; lit "BENGALURU";
                                   lit "MUMBAI"; lit "DELHI";
                                   lit "CHENNAI"; lit "KOLKATA"])]);
    (* /^[A-Z\s]+(NAGAR|COLONY|LAYOUT|CROSS)/i *)
    rei (seqs [Bol; plus (Class [CRange "A" "Z"; CSpace]);
               Group 1 (alts [lit "NAGAR"; lit "COLONY"; lit "LAYOUT";
                              lit "CROSS"])])
  ]
|}.

Definition patterns : Patterns := getPatterns.

Definition isHeaderLine (line : string) : bool :=
  some (headers patterns) line.

(** [/^[A-Z0-9@\-\s]+$/] *)
Definition codeLine : RegExp :=
  re (seqs [Bol;
            plus (Class [CRange "A" "Z"; CRange "0" "9"; CChar "@";
                         CChar "-"; CSpace]);
            Eol]).

Definition isContinuationLine (line : string) : bool :=
  some (continuation patterns) line ||
  (Nat.ltb 5 (String.length line) && test codeLine line &&
   negb (isHeaderLine line)).

Definition isPersonalInfoLine (line : string) : bool :=
  some (personalInfo patterns) line.

(** [/\d{1,3}(?:,\d{3})*(?:\.\d{2})?/] *)
Definition amountLike : RegExp :=
  re (seqs [between 1 3 digit;
            star (seqs [Chr ","; times 3 digit]);
            opt (seqs [Chr "."; times 2 digit])]).

(** [/\d{2}\/\d{2}\/\d{2}/] *)
Definition dateLike : RegExp :=
  re (seqs [times 2 digit; Chr "/"; times 2 digit; Chr "/";
            times 2 digit]).

Definition isLikelyTransactionData (line : string) : bool :=
  test amountLike line || test dateLike line.

Definition isTransactionLine (line : string) : bool :=
  test (transaction patterns) line.

(** The inner loop takes a line that is a continuation or short
    likely data. *)
Definition takesLine (nextLine : string) : bool :=
  isContinuationLine nextLine ||
  (isLikelyTransactionData nextLine &&
   Nat.ltb (String.length nextLine) 100).

(** [transactionText += nextLine] *)
Definition appendLine (transactionText nextLine : string) : string :=
  transactionText ++ nextLine.

(** [transactionLines.push(transactionText)] *)
Definition pushRecord (transactionText : string) : option string :=
  Some transactionText.

Definition collectLines : list string -> string -> string * list string :=
  collect isTransactionLine isHeaderLine takesLine appendLine.

(** [transactionLines] of [cleanOCROutput]. *)
Definition transactionLines (lines : list string) : list string :=
  mergeLines isTransactionLine isHeaderLine isPersonalInfoLine
             takesLine appendLine pushRecord lines.

Definition startsLine : string -> bool :=
  startsRecord isTransactionLine isHeaderLine isPersonalInfoLine.

Definition stopsLine : string -> bool :=
  stopsRecord isTransactionLine isHeaderLine.

Definition cleanOCROutput (rawText : string) : string :=
  join (LF ++ LF) (transactionLines (split LF rawText)).

(** [/^(\d{2}\/\d{2}\/\d{2})/] *)
Definition leadingDate : RegExp :=
  re (seqs [Bol; Group 1 (seqs [times 2 digit; Chr "/"; times 2 digit;
                                Chr "/"; times 2 digit])]).

(** The substitutions that clean a description, in order; all
    global. *)
Definition descriptionNoise : list (RegExp * string) := [
  (* /(\d{2}\/\d{2}\/\d{2})/g *)
  (BaseParser.shortDate, "");
  (* /\|/g *)
  (re (Chr "|"), "");
  (* /\bUPL-/g *)
  (re (seqs [WordB; lit "UPL-"]), "");
  (* /@[A-Z0-9\-]+/g *)
  (re (seqs [Chr "@";
             plus (Class [CRange "A" "Z"; CRange "0" "9"; CChar "-"])]), "");
  (* /-KKBK\d+/g *)
  (re (seqs [lit "-KKBK"; plus digit]), "");
  (* /-UPI$/g *)
  (re (seqs [lit "-UPI"; Eol]), "");
  (* /-UPT$/g *)
  (re (seqs [lit "-UPT"; Eol]), "");
  (* /-PAY$/g *)
  (re (seqs [lit "-PAY"; Eol]), "");
  (* /AIR-BANK/g *)
  (re (lit "AIR-BANK"), "");
  (* /[A-Z0-9]{10,}/g *)
  (re (atLeast 10 (Class [CRange "A" "Z"; CRange "0" "9"])), "");
  (* /\s+/g *)
  (whiteSpaces, " ")
].

Definition replaceEach (subs : list (RegExp * string)) (s : string)
  : string :=
  fold_left (fun acc p => replaceAll (fst p) (snd p) acc) subs s.

(** [null] is [None]. *)
Definition parseTransactionLine (transactionLine : string)
  : option string :=
  let normalized := BaseParser.normalizeWhitespace transactionLine in
  match exec leadingDate normalized with
  | None => None
  | Some dateMatch =>
      let date := group 1 dateMatch in
      let currencyMatches :=
        BaseParser.extractCurrencyAmounts normalized in
      if Nat.ltb (List.length currencyMatches) 2 then None
      else
        let cleanAmounts := currencyMatches in
        let amount :=
          nth (List.length currencyMatches - 2) cleanAmounts "" in
        let balance :=
          nth (List.length currencyMatches - 1) cleanAmounts "" in
        let description :=
          trim (replaceFirst
                  (replaceFirst (replaceFirst normalized date "")
                                amount "")
                  balance "") in
        let description := trim (replaceEach descriptionNoise description) in
        let absoluteAmount := toFixed2 (abs (amountOf amount)) in
        Some (date ++ " | " ++ description ++ " | " ++ absoluteAmount
                   ++ " " ++ balance)
  end.

(** [simplifiedLines] of [cleanOCROutputSimplified]: a line is
    pushed when it is not blank and its simplified form is a
    non-empty string. *)
Definition simplifiedLines (lines : list string) : list string :=
  flat_map
    (fun line =>
       if isEmpty (trim line) then []
       else match parseTransactionLine line with
            | Some simplified =>
                if isEmpty simplified then [] else [simplified]
            | None => []
            end)
    lines.

Definition cleanOCROutputSimplified (rawText : string) : string :=
  join (LF ++ LF) (simplifiedLines (split LF rawText)).

(** The shape of a simplified line:
    [/^(\d{2}\/\d{2}\/\d{2})\s*\|\s*(.+?)\s*\|\s*([\d,]+\.\d{2})\s+([\d,]+\.\d{2})$/] *)
Definition simplifiedLine : RegExp :=
  re (seqs [Bol;
            Group 1 (seqs [times 2 digit; Chr "/"; times 2 digit; Chr "/";
                           times 2 digit]);
            star space; Chr "|"; star space;
            Group 2 (plusLazy Any);
            star space; Chr "|"; star space;
            Group 3 amountBody;
            plus space;
            Group 4 amountBody;
            Eol]).

(** The first transaction: there is no previous balance, the next
    line is looked at. *)
Definition resolveFirst (lines : list string) (currentBalanceNum : number)
  : direction :=
  match nth_error lines 1 with
  | Some l =>
      let nextLine := trim l in
      match exec simplifiedLine nextLine with
      | Some nextMatch =>
          let nextBalanceNum := amountOf (group 4 nextMatch) in
          let balanceDiff := sub currentBalanceNum nextBalanceNum in
          let nextAmountNum := amountOf (group 3 nextMatch) in
          if ltb (abs (sub balanceDiff nextAmountNum)) tolerance &&
             gtb currentBalanceNum nextBalanceNum
          then CREDIT
          else DEBIT
      | None => UNKNOWN
      end
  | None => UNKNOWN
  end.

(** A later transaction, against the balance of the line before. *)
Definition reconcile (prevBalanceNum currentAmountNum currentBalanceNum
    : number) : direction :=
  let expectedBalanceIfDebit := sub prevBalanceNum currentAmountNum in
  let expectedBalanceIfCredit := add prevBalanceNum currentAmountNum in
  let debitDiff := abs (sub expectedBalanceIfDebit currentBalanceNum) in
  let creditDiff := abs (sub expectedBalanceIfCredit currentBalanceNum) in
  if ltb debitDiff creditDiff && ltb debitDiff tolerance then DEBIT
  else if ltb creditDiff debitDiff && ltb creditDiff tolerance then CREDIT
  else if ltb currentBalanceNum prevBalanceNum then DEBIT else CREDIT.

Definition resolveLater (prevLine : string)
    (currentAmountNum currentBalanceNum : number) : direction :=
  match exec simplifiedLine prevLine with
  | Some prevMatch =>
      reconcile (amountOf (group 4 prevMatch))
                currentAmountNum currentBalanceNum
  | None => UNKNOWN
  end.

(** What a round of the loop of [categorizeTransactions] pushes: a
    line it could not parse, kept as it is, or a categorized
    transaction. *)
Inductive pushed :=
| Kept (line : string)
| Categorized (t : Transaction).

Definition pushedLine (p : pushed) : string :=
  match p with
  | Kept line => line
  | Categorized t => render t
  end.

(** Round [i] of the loop of [categorizeTransactions]: what it
    pushes, if anything. *)
Definition categorizeAt (lines : list string) (i : nat) : option pushed :=
  match nth_error lines i with
  | None => None
  | Some l =>
      let currentLine := trim l in
      if isEmpty currentLine then None
      else
        match exec simplifiedLine currentLine with
        | None => Some (Kept currentLine)
        | Some currentMatch =>
            let currentDate := group 1 currentMatch in
            let currentDesc := group 2 currentMatch in
            let currentAmount := group 3 currentMatch in
            let currentBalance := group 4 currentMatch in
            let currentBalanceNum := amountOf currentBalance in
            let currentAmountNum := amountOf currentAmount in
            let transactionType :=
              match i with
              | O => resolveFirst lines currentBalanceNum
              | S i' =>
                  resolveLater (trim (nth i' lines ""))
                               currentAmountNum currentBalanceNum
              end in
            let formatAmount := toFixed2 (abs currentAmountNum) in
            Some (Categorized
                    {| txDate := currentDate;
                       txDescription := currentDesc;
                       txAmount := formatAmount;
                       txType := transactionType |})
        end
  end.

Definition categorizedLines (lines : list string) : list string :=
  flat_map
    (fun i => match categorizeAt lines i with
              | Some p => [pushedLine p]
              | None => []
              end)
    (seq 0 (List.length lines)).

Definition categorizeTransactions (simplifiedText : string) : string :=
  if isEmpty (trim simplifiedText) then ""
  else
    let lines :=
      filter (fun line => negb (isEmpty (trim line)))
             (split LF simplifiedText) in
    join (LF ++ LF) (categorizedLines lines).

End HDFCParser.

(** ** parsers/KotakParser.js *)

Module KotakParser.

Definition getPatterns : Patterns := {|
  (* /^\d{2}-\d{2}-\d{4}\s+/ *)
  transaction :=
    re (seqs [Bol; times 2 digit; Chr "-"; times 2 digit; Chr "-";
              times 4 digit; plus space]);
  headers := [
    (* /^={3,}\s*PAGE/i *)
    rei (seqs [Bol; atLeast 3 (Chr "="); star space; lit "PAGE"]);
    (* /^(Page|PageNo)[\s:]?\d+(\s+of\s+\d+)?/i *)
    rei (seqs [Bol; Group 1 (Alt (lit "Page") (lit "PageNo"));
               opt (Class [CSpace; CChar ":"]); plus digit;
               opt (Group 2 (seqs [plus space; lit "of"; plus space;
                                   plus digit]))]);
    (* /\b(BANK|MAHINDRA|KOTAK)\b/i *)
    rei (seqs [WordB;
               Group 1 (alts [lit "BANK"; lit "MAHINDRA"; lit "KOTAK"]);
               WordB]);
    (* /\b(IFSC|MICR|RTGS|NEFT)\s+(Code|No)/i *)
    rei (seqs [WordB;
               Group 1 (alts [lit "IFSC"; lit "MICR"; lit "RTGS";
                              lit "NEFT"]);
               plus space; Group 2 (Alt (lit "Code") (lit "No"))]);
    (* /^(Account|Acc)\s+(No|Number)\s*[:=]/i *)
    rei (seqs [Bol; Group 1 (Alt (lit "Account") (lit "Acc")); plus space;
               Group 2 (Alt (lit "No") (lit "Number")); star space;
               Class [CChar ":"; CChar "="]]);
    (* /^(Cust|Customer)\s+/i *)
    rei (seqs [Bol; Group 1 (Alt (lit "Cust") (lit "Customer"));
               plus space]);
    (* /^Currency\s*[:=]/i *)
    rei (seqs [Bol; lit "Currency"; star space;
               Class [CChar ":"; CChar "="]]);
    (* /^Branch\s*[:=]/i *)
    rei (seqs [Bol; lit "Branch"; star space;
               Class [CChar ":"; CChar "="]]);
    (* /^Nominee\s+(Registered|Name)/i *)
    rei (seqs [Bol; lit "Nominee"; plus space;
               Group 1 (Alt (lit "Registered") (lit "Name"))]);
    (* /^(Date|Txn Date)\s+(Narration|Description)/i *)
    rei (seqs [Bol; Group 1 (Alt (lit "Date") (lit "Txn Date")); plus space;
               Group 2 (Alt (lit "Narration") (lit "Description"))]);
    (* /^Statement\s+(Summary|Period)/i *)
    rei (seqs [Bol; lit "Statement"; plus space;
               Group 1 (Alt (lit "Summary") (lit "Period"))]);
    (* /^(Opening|Closing)\s+Balance/i *)
    rei (seqs [Bol; Group 1 (Alt (lit "Opening") (lit "Closing"));
               plus space; lit "Balance"]);
    (* /^Total\s+(Withdrawal|Deposit|Credit|Debit)/i *)
    rei (seqs [Bol; lit "Total"; plus space;
               Group 1 (alts [lit "Withdrawal"; lit "Deposit";
                              lit "Credit"; lit "Debit"])]);
    (* /^(Withdrawal|Deposit|Credit|Debit)\s+(Count|Amount)/i *)
    rei (seqs [Bol;
               Group 1 (alts [lit "Withdrawal"; lit "Deposit";
                              lit "Credit"; lit "Debit"]);
               plus space; Group 2 (Alt (lit "Count") (lit "Amount"))]);
    (* /^(Any|All)\s+discrepancy/i *)
    rei (seqs [Bol; Group 1 (Alt (lit "Any") (lit "All")); plus space;
               lit "discrepancy"]);
    (* /^End\s+of\s+Statement/i *)
    rei (seqs [Bol; lit "End"; plus space; lit "of"; plus space;
               lit "Statement"]);
    (* /^This\s+is\s+(system|computer)/i *)
    rei (seqs [Bol; lit "This"; plus space; lit "is"; plus space;
               Group 1 (Alt (lit "system") (lit "computer"))]);
    (* /^(Generated|Printed)\s+(On|At)/i *)
    rei (seqs [Bol; Group 1 (Alt (lit "Generated") (lit "Printed"));
               plus space; Group 2 (Alt (lit "On") (lit "At"))]);
    (* /does\s+not\s+require\s+(signature|stamp)/i *)
    rei (seqs [lit "does"; plus space; lit "not"; plus space;
               lit "require"; plus space;
               Group 1 (Alt (lit "signature") (lit "stamp"))]);
    (* /^(Registered|Corporate)\s+Office/i *)
    rei (seqs [Bol; Group 1 (Alt (lit "Registered") (lit "Corporate"));
               plus space; lit "Office"]);
    (* /^For\s+(any|more)\s+(queries|information)/i *)
    rei (seqs [Bol; lit "For"; plus space;
               Group 1 (Alt (lit "any") (lit "more")); plus space;
               Group 2 (Alt (lit "queries") (lit "information"))])
  ];
  continuation := [
    (* /^\/UP[Il]?intent$/i *)
    rei (seqs [Bol; lit "/UP"; opt (Class [CChar "I"; CChar "l"]);
               lit "intent"; Eol]);
    (* /^\/Payment(\s|$)/i *)
    rei (seqs [Bol; lit "/Payment"; Group 1 (Alt space Eol)]);
    (* /^from\s+Ph(one)?$/i *)
    rei (seqs [Bol; lit "from"; plus space; lit "Ph";
               opt (Group 1 (lit "one")); Eol]);
    (* /^\[(Rent|EMI|Loan|Bill)\s+for$/i *)
    rei (seqs [Bol; Chr "[";
               Group 1 (alts [lit "Rent"; lit "EMI"; lit "Loan";
                              lit "Bill"]);
               plus space; lit "for"; Eol]);
    (* /^(repayme|repayment)$/i *)
    rei (seqs [Bol; Group 1 (Alt (lit "repayme") (lit "repayment")); Eol]);
    (* /^\/[A-Z][a-z]+pay$/i *)
    rei (seqs [Bol; Chr "/"; Class [CRange "A" "Z"];
               plus (Class [CRange "a" "z"]); lit "pay"; Eol]);
    (* /^I[A-Z][a-z]+Online/i *)
    rei (seqs [Bol; Chr "I"; Class [CRange "A" "Z"];
               plus (Class [CRange "a" "z"]); lit "Online"]);
    (* /^\d+\s+(will?|rs?)$/i *)
    rei (seqs [Bol; plus digit; plus space;
               Group 1 (Alt (seqs [lit "wil"; opt (Chr "l")])
                            (seqs [Chr "r"; opt (Chr "s")]));
               Eol]);
    (* /^(Pay\s+to|Transfer\s+to)$/i *)
    rei (seqs [Bol;
               Group 1 (Alt (seqs [lit "Pay"; plus space; lit "to"])
                            (seqs [lit "Transfer"; plus space; lit "to"]));
               Eol]);
    (* /^[A-Z][a-z]+Pe$/i *)
    rei (seqs [Bol; Class [CRange "A" "Z"]; plus (Class [CRange "a" "z"]);
               lit "Pe"; Eol]);
    (* /^Only\s+Rs\.?$/i *)
    rei (seqs [Bol; lit "Only"; plus space; lit "Rs"; opt (Chr ".");
               Eol])
  ];
  personalInfo := [
    (* /^(MR|MS|MRS|DR|PROF)\.?\s+[A-Z][A-Za-z\s]+$/ *)
    re (seqs [Bol;
              Group 1 (alts [lit "MR"; lit "MS"; lit "MRS"; lit "DR";
                             lit "PROF"]);
              opt (Chr "."); plus space; Class [CRange "A" "Z"];
              plus (Class [CRange "A" "Z"; CRange "a" "z"; CSpace]); Eol]);
    (* /^[A-Z][A-Za-z]+\s+[A-Z][A-Za-z]+(\s+Period)?$/i *)
    rei (seqs [Bol; Class [CRange "A" "Z"];
               plus (Class [CRange "A" "Z"; CRange "a" "z"]); plus space;
               Class [CRange "A" "Z"];
               plus (Class [CRange "A" "Z"; CRange "a" "z"]);
               opt (Group 1 (seqs [plus space; lit "Period"])); Eol]);
    (* /^(FLAT|APARTMENT|HOUSE|BLDG|BUILDING)\s+(NO\.?|NUMBER)\s*\d+/i *)
    rei (seqs [Bol;
               Group 1 (alts [lit "FLAT"; lit "APARTMENT"; lit "HOUSE";
                              lit "BLDG"; lit "BUILDING"]);
               plus space;
               Group 2 (Alt (seqs [lit "NO"; opt (Chr ".")])
                            (lit "NUMBER"));
               star space; plus digit]);
    (* /^(FLOOR|FLR)\s*\d+/i *)
    rei (seqs [Bol; Group 1 (Alt (lit "FLOOR") (lit "FLR")); star space;
               plus digit]);
    (* /^[A-Z\d\s]+(APARTMENT|COMPLEX|RESIDENCY|LAYOUT|COLONY)$/i *)
    rei (seqs [Bol; plus (Class [CRange "A" "Z"; CDigit; CSpace]);
               Group 1 (alts [lit "APARTMENT"; lit "COMPLEX";
                              lit "RESIDENCY"; lit "LAYOUT";
                              lit "COLONY"]);
               Eol]);
    (* /^[A-Z\d\s]+(ROAD|STREET|AVENUE|LANE|CROSS)$/i *)
    rei (seqs [Bol; plus (Class [CRange "A" "Z"; CDigit; CSpace]);
               Group 1 (alts [lit "ROAD"; lit "STREET"; lit "AVENUE";
                              lit "LANE"; lit "CROSS"]);
               Eol]);
    (* /^[A-Z\d\s]+(NAGAR|PURAM|ENCLAVE|SOCIETY)$/i *)
    rei (seqs [Bol; plus (Class [CRange "A" "Z"; CDigit; CSpace]);
               Group 1 (alts [lit "NAGAR"; lit "PURAM"; lit "ENCLAVE";
                              lit "SOCIETY"]);
               Eol]);
    (* /^[A-Z][a-z]+(ABAD|URU|AI|PORE|TAN|GAR)-\d{6}$/i *)
    rei (seqs [Bol; Class [CRange "A" "Z"]; plus (Class [CRange "a" "z"]);
               Group 1 (alts [lit "ABAD"; lit "URU"; lit "AI"; lit "PORE";
                              lit "TAN"; lit "GAR"]);
               Chr "-"; times 6 digit; Eol]);
    (* /^(KARNATAKA|MAHARASHTRA|TAMIL\s+NADU|GUJARAT|DELHI|RAJASTHAN|UP|MP),?\s+(INDIA)?$/i *)
    rei (seqs [Bol;
               Group 1 (alts [lit "KARNATAKA"; lit "MAHARASHTRA";
                              seqs [lit "TAMIL"; plus space; lit "NADU"];
                              lit "GUJARAT"; lit "DELHI"; lit "RAJASTHAN";
                              lit "UP"; lit "MP"]);
               opt (Chr ","); plus space; opt (Group 2 (lit "INDIA"));
               Eol]);
    (* /^INDIA$/i *)
    rei (seqs [Bol; lit "INDIA"; Eol]);
    (* /^(Phone|Mobile|Tel|Contact)\s+(No|Number)\.?\s*[:=]?\s*\d/i *)
    rei (seqs [Bol;
               Group 1 (alts [lit "Phone"; lit "Mobile"; lit "Tel";
                              lit "Contact"]);
               plus space; Group 2 (Alt (lit "No") (lit "Number"));
               opt (Chr "."); star space;
               opt (Class [CChar ":"; CChar "="]); star space; digit]);
    (* /^Email\s*[:=]/i *)
    rei (seqs [Bol; lit "Email"; star space;
               Class [CChar ":"; CChar "="]])
  ]
|}.

Definition patterns : Patterns := getPatterns.

Definition isHeaderLine (line : string) : bool :=
  some (headers patterns) line.
Definition isContinuationLine (line : string) : bool :=
  some (continuation patterns) line.
Definition isPersonalInfoLine (line : string) : bool :=
  some (personalInfo patterns) line.

(** [(Cr|Dr)] as group [n]. *)
Definition crDr (n : nat) : regex := Group n (Alt (lit "Cr") (lit "Dr")).

Definition hasTransactionElements (line : string) : bool :=
  (* /UPI-\d+/ *)
  test (re (seqs [lit "UPI-"; plus digit])) line ||
  (* /IMPS-\d+/ *)
  test (re (seqs [lit "IMPS-"; plus digit])) line ||
  (* /NEFTINW-\d+/ *)
  test (re (seqs [lit "NEFTINW-"; plus digit])) line ||
  (* /MB-\d+/ *)
  test (re (seqs [lit "MB-"; plus digit])) line ||
  (* /BF-[a-z0-9]+/ *)
  test (re (seqs [lit "BF-";
                  plus (Class [CRange "a" "z"; CRange "0" "9"])])) line ||
  (* /\d+\.\d{2}\((Cr|Dr)\)/ *)
  test (re (seqs [plus digit; Chr "."; times 2 digit; Chr "("; crDr 1;
                  Chr ")"])) line.

Definition isTransactionLine (line : string) : bool :=
  test (transaction patterns) line.

(** The inner loop takes a continuation line or a short line with
    transaction elements. *)
Definition takesLine (nextLine : string) : bool :=
  isContinuationLine nextLine ||
  (hasTransactionElements nextLine &&
   Nat.ltb (String.length nextLine) 150).

(** [transactionText += ' ' + nextLine] *)
Definition appendLine (transactionText nextLine : string) : string :=
  transactionText ++ " " ++ nextLine.

(** [transactionText.replace(/\s+/g, ' ').trim()], pushed when it is
    not empty. *)
Definition pushRecord (transactionText : string) : option string :=
  let transactionText := trim (replaceAll whiteSpaces " " transactionText) in
  if isEmpty transactionText then None else Some transactionText.

Definition collectLines : list string -> string -> string * list string :=
  collect isTransactionLine isHeaderLine takesLine appendLine.

(** [transactionLines] of [cleanOCROutput]. *)
Definition transactionLines (lines : list string) : list string :=
  mergeLines isTransactionLine isHeaderLine isPersonalInfoLine
             takesLine appendLine pushRecord lines.

Definition startsLine : string -> bool :=
  startsRecord isTransactionLine isHeaderLine isPersonalInfoLine.

Definition stopsLine : string -> bool :=
  stopsRecord isTransactionLine isHeaderLine.

Definition cleanOCROutput (rawText : string) : string :=
  join (LF ++ LF) (transactionLines (split LF rawText)).

(** [/^(\d{2}-\d{2}-\d{4})\s*\|\s*(.+?)\s*\|\s*([\d,]+\.\d{2})\((Cr|Dr)\)/] *)
Definition transactionRegex : RegExp :=
  re (seqs [Bol;
            Group 1 (seqs [times 2 digit; Chr "-"; times 2 digit; Chr "-";
                           times 4 digit]);
            star space; Chr "|"; star space;
            Group 2 (plusLazy Any);
            star space; Chr "|"; star space;
            Group 3 amountBody;
            Chr "("; crDr 4; Chr ")"]).

(** One round of the loop of [categorizeTransactions]. *)
Definition categorizeLine (line : string) : option Transaction :=
  match exec transactionRegex line with
  | Some mt =>
      let date := group 1 mt in
      let description := group 2 mt in
      let amount := group 3 mt in
      let typeIndicator := group 4 mt in
      let transactionType :=
        if String.eqb typeIndicator "Cr" then CREDIT else DEBIT in
      Some {| txDate := date;
              txDescription := trim description;
              txAmount := amount;
              txType := transactionType |}
  | None => None
  end.

Definition categorizedLines (lines : list string) : list string :=
  flat_map
    (fun line => match categorizeLine line with
                 | Some t => [render t]
                 | None => []
                 end)
    lines.

Definition categorizeTransactions (simplifiedText : string) : string :=
  if isEmpty simplifiedText || isEmpty (trim simplifiedText) then ""
  else
    let lines :=
      filter (fun line => negb (isEmpty (trim line)))
             (split LF simplifiedText) in
    join (LF ++ LF) (categorizedLines lines).

(** [\d{1,3}(?:,\d{3})*\.\d{2}\((?:Dr|Cr)\)]: an amount with its
    indicator. *)
Definition markedAmount : regex :=
  seqs [between 1 3 digit; star (seqs [Chr ","; times 3 digit]);
        Chr "."; times 2 digit; Chr "("; Alt (lit "Dr") (lit "Cr");
        Chr ")"].

(** [/^(\d{2}-\d{2}-\d{4})\s+(.+?)\s+(\d{1,3}(?:,\d{3})*\.\d{2}\((?:Dr|Cr)\)).*$/] *)
Definition baseRegex : RegExp :=
  re (seqs [Bol;
            Group 1 (seqs [times 2 digit; Chr "-"; times 2 digit; Chr "-";
                           times 4 digit]);
            plus space;
            Group 2 (plusLazy Any);
            plus space;
            Group 3 markedAmount;
            star Any; Eol]).

(** [/^NEFT\s+[A-Z0-9]+\s+(.+?)\s+NEFTINW-\d+/] *)
Definition neftRegex : RegExp :=
  re (seqs [Bol; lit "NEFT"; plus space;
            plus (Class [CRange "A" "Z"; CRange "0" "9"]); plus space;
            Group 1 (plusLazy Any); plus space; lit "NEFTINW-";
            plus digit]).

(** [/MB:RECEIVED FROM\s+(.+?)\s+MB-\d+/] *)
Definition mbRegex : RegExp :=
  re (seqs [lit "MB:RECEIVED FROM"; plus space; Group 1 (plusLazy Any);
            plus space; lit "MB-"; plus digit]).

(** [/(?:SentIMPS|Senilupss21)\d*([A-Za-z\s\.]+?)(?:\/|IMPS)/] *)
Definition impsRegex : RegExp :=
  re (seqs [Alt (lit "SentIMPS") (lit "Senilupss21"); star digit;
            Group 1 (plusLazy (Class [CRange "A" "Z"; CRange "a" "z";
                                      CSpace; CChar "."]));
            Alt (Chr "/") (lit "IMPS")]).

(** [(UPI|UPU|UPV|UPl|UP1)] *)
Definition upiTag : regex :=
  Group 1 (alts [lit "UPI"; lit "UPU"; lit "UPV"; lit "UPl"; lit "UP1"]).

(** [/^(UPI|UPU|UPV|UPl|UP1)$/i] *)
Definition upiAlone : RegExp := rei (seqs [Bol; upiTag; Eol]).

(** [/^(UPI|UPU|UPV|UPl|UP1)/i] *)
Definition upiPrefix : RegExp := rei (seqs [Bol; upiTag]).

(** The description shown for a transaction, by its kind. *)
Definition cleanDescription (fullDescription : string) : string :=
  let cleanedDescription := "UNKNOWN" in
  if startsWith fullDescription "NEFT" then
    match exec neftRegex fullDescription with
    | Some neftMatch => group 1 neftMatch
    | None => cleanedDescription
    end
  else if startsWith fullDescription "MB:RECEIVED FROM" then
    match exec mbRegex fullDescription with
    | Some mbMatch => group 1 mbMatch
    | None => cleanedDescription
    end
  else if includes (toUpperCase fullDescription) "IMPS" then
    match exec impsRegex fullDescription with
    | Some impsMatch => group 1 impsMatch
    | None => cleanedDescription
    end
  else if startsWith fullDescription "CASHBACK EARNED" then
    "CASHBACK EARNED"
  else if includes fullDescription "/" then
    let parts := split "/" fullDescription in
    let firstPart := nth 0 parts "" in
    if test upiAlone firstPart then nth 1 parts ""
    else replaceRe upiPrefix "" firstPart
  else cleanedDescription.

(** [null] is [None]. *)
Definition parseTransactionLine (transactionLine : string)
  : option string :=
  match exec baseRegex transactionLine with
  | None => None
  | Some mt =>
      let date := group 1 mt in
      let fullDescription := group 2 mt in
      let amount := group 3 mt in
      let cleanedDescription := cleanDescription fullDescription in
      Some (date ++ " | " ++ trim cleanedDescription ++ " | " ++ amount)
  end.

(** [simplifiedLines] of [cleanOCROutputSimplified]. *)
Definition simplifiedLines (lines : list string) : list string :=
  flat_map
    (fun line =>
       if isEmpty (trim line) then []
       else match parseTransactionLine line with
            | Some simplified =>
                if isEmpty simplified then [] else [simplified]
            | None => []
            end)
    lines.

Definition cleanOCROutputSimplified (rawText : string) : string :=
  join (LF ++ LF) (simplifiedLines (split LF rawText)).

End KotakParser.

(** ** parsers/ICICIParser.js *)

Module ICICIParser.

(** [\d{2}\/\d{2}\/\d{4}] *)
Definition longDate : regex :=
  seqs [times 2 digit; Chr "/"; times 2 digit; Chr "/"; times 4 digit].

Definition getPatterns : Patterns := {|
  (* /^\s*(?:\d+\s+)?\d{2}\/\d{2}\/\d{4}\s+\d{2}\/\d{2}\/\d{4}/ *)
  transaction :=
    re (seqs [Bol; star space; opt (seqs [plus digit; plus space]);
              longDate; plus space; longDate]);
  headers := [
    (* /DETAILED\s+STATEMENT/i *)
    rei (seqs [lit "DETAILED"; plus space; lit "STATEMENT"]);
    (* /Transactions\s+List/i *)
    rei (seqs [lit "Transactions"; plus space; lit "List"]);
    (* /Account\s+Number/i *)
    rei (seqs [lit "Account"; plus space; lit "Number"]);
    (* /^S\s+No\./i *)
    rei (seqs [Bol; Chr "S"; plus space; lit "No."]);
    (* /^Value\s+Date/i *)
    rei (seqs [Bol; lit "Value"; plus space; lit "Date"]);
    (* /^Transaction\s+Date/i *)
    rei (seqs [Bol; lit "Transaction"; plus space; lit "Date"]);
    (* /^Withdrawal\s+Amount/i *)
    rei (seqs [Bol; lit "Withdrawal"; plus space; lit "Amount"]);
    (* /^Deposit\s+Amount/i *)
    rei (seqs [Bol; lit "Deposit"; plus space; lit "Amount"]);
    (* /^Balance\s+\(INR\s+\)/i *)
    rei (seqs [Bol; lit "Balance"; plus space; lit "(INR"; plus space;
               Chr ")"]);
    (* /ICICI\s+Bank/i *)
    rei (seqs [lit "ICICI"; plus space; lit "Bank"])
  ];
  continuation := [
    (* /@[A-Z0-9\-]+/ *)
    re (seqs [Chr "@";
              plus (Class [CRange "A" "Z"; CRange "0" "9"; CChar "-"])]);
    (* /[A-Z]{3,}BANK/i *)
    rei (seqs [atLeast 3 (Class [CRange "A" "Z"]); lit "BANK"]);
    (* /\b\d{12,}\b/ *)
    re (seqs [WordB; atLeast 12 digit; WordB]);
    (* /\b[A-Z0-9]{15,}\b/ *)
    re (seqs [WordB; atLeast 15 (Class [CRange "A" "Z"; CRange "0" "9"]);
              WordB]);
    (* /^\s*[a-zA-Z\s\/]+$/ *)
    re (seqs [Bol; star space;
              plus (Class [CRange "a" "z"; CRange "A" "Z"; CSpace;
                           CChar "/"]);
              Eol])
  ];
  personalInfo := []
|}.

Definition patterns : Patterns := getPatterns.

Definition isHeaderLine (line : string) : bool :=
  some (headers patterns) line.

Definition isTransactionLine (line : string) : bool :=
  test (transaction patterns) line.

(** The outer loop has no personal-information check. *)
Definition isPersonalInfoLine (line : string) : bool := false.

(** The inner loop takes every line up to the next stop. *)
Definition takesLine (nextLine : string) : bool := true.

(** [transactionText += ' ' + nextLine] *)
Definition appendLine (transactionText nextLine : string) : string :=
  transactionText ++ " " ++ nextLine.

(** [transactionLines.push(transactionText)] *)
Definition pushRecord (transactionText : string) : option string :=
  Some transactionText.

Definition collectLines : list string -> string -> string * list string :=
  collect isTransactionLine isHeaderLine takesLine appendLine.

(** [transactionLines] of [cleanOCROutput]. *)
Definition transactionLines (lines : list string) : list string :=
  mergeLines isTransactionLine isHeaderLine isPersonalInfoLine
             takesLine appendLine pushRecord lines.

Definition startsLine : string -> bool :=
  startsRecord isTransactionLine isHeaderLine isPersonalInfoLine.

Definition stopsLine : string -> bool :=
  stopsRecord isTransactionLine isHeaderLine.

Definition cleanOCROutput (rawText : string) : string :=
  join (LF ++ LF) (transactionLines (split LF rawText)).

(** [/^\s*(?:\d+\s+)?\d{2}\/\d{2}\/\d{4}\s+(\d{2}\/\d{2}\/\d{4})\s+(.* )$/]
    (written here with a blank after the star) *)
Definition datedLine : RegExp :=
  re (seqs [Bol; star space; opt (seqs [plus digit; plus space]);
            longDate; plus space; Group 1 longDate; plus space;
            Group 2 (star Any); Eol]).

(** [[\d,.]*\d]: a figure of the amount columns. *)
Definition figure : regex :=
  seqs [star (Class [CDigit; CChar ","; CChar "."]); digit].

(** [/(.* )\s+([\d,.]*\d)\s+([\d,.]*\d)\s+([\d,.]*\d\.\d{2})\b/]
    (written here with a blank after the first star) *)
Definition amountRegex : RegExp :=
  re (seqs [Group 1 (star Any); plus space;
            Group 2 figure; plus space;
            Group 3 figure; plus space;
            Group 4 (seqs [figure; Chr "."; times 2 digit]);
            WordB]).

Definition parseTransactionLine (transactionLine : string)
  : option string :=
  let normalized := trim (replaceAll whiteSpaces " " transactionLine) in
  match exec datedLine normalized with
  | None => None
  | Some dateMatch =>
      let date := group 1 dateMatch in
      let remainingData := group 2 dateMatch in
      match exec amountRegex remainingData with
      | None => None
      | Some amountMatch =>
          let description := group 1 amountMatch in
          let withdrawalAmount := group 2 amountMatch in
          let depositAmount := group 3 amountMatch in
          let balance := group 4 amountMatch in
          Some (date ++ " | " ++ trim description ++ " | "
                     ++ withdrawalAmount ++ " " ++ depositAmount ++ " "
                     ++ balance)
      end
  end.

(** [simplifiedLines] of [cleanOCROutputSimplified]. *)
Definition simplifiedLines (mergedLines : list string) : list string :=
  flat_map
    (fun line =>
       if isEmpty (trim line) then []
       else match parseTransactionLine line with
            | Some simplified =>
                if isEmpty simplified then [] else [simplified]
            | None => []
            end)
    mergedLines.

Definition cleanOCROutputSimplified (rawText : string) : string :=
  let mergedTransactionsText := cleanOCROutput rawText in
  if isEmpty mergedTransactionsText then ""
  else join LF (simplifiedLines (split (LF ++ LF) mergedTransactionsText)).

(** The substitutions that clean a description, in order; all
    global. *)
Definition descriptionNoise : list (RegExp * string) := [
  (* /\/UPI\/[A-Z\s]+BANK/gi *)
  (rei (seqs [lit "/UPI/"; plus (Class [CRange "A" "Z"; CSpace]);
              lit "BANK"]), "");
  (* /\b\d{10,}\b/g *)
  (re (seqs [WordB; atLeast 10 digit; WordB]), "");
  (* /[a-zA-Z0-9.\-_]+@[a-zA-Z0-9]+/g *)
  (re (seqs [plus (Class [CRange "a" "z"; CRange "A" "Z"; CRange "0" "9";
                          CChar "."; CChar "-"; CChar "_"]);
             Chr "@";
             plus (Class [CRange "a" "z"; CRange "A" "Z";
                          CRange "0" "9"])]), " ");
  (* /\b[A-Z0-9]{15,}\b/g *)
  (re (seqs [WordB; atLeast 15 (Class [CRange "A" "Z"; CRange "0" "9"]);
             WordB]), "");
  (* /\s+/g *)
  (whiteSpaces, " ")
].

(** [/[\/-]/] *)
Definition slashOrDash : RegExp := re (Class [CChar "/"; CChar "-"]).

(** What the direction test decides: the direction and the amount
    shown. *)
Definition resolve (withdrawalAmount depositAmount : string)
  : direction * string :=
  let withdrawalNum := amountOf withdrawalAmount in
  let depositNum := amountOf depositAmount in
  if gtb withdrawalNum zero && eqb depositNum zero
  then (DEBIT, withdrawalAmount)
  else if gtb depositNum zero && eqb withdrawalNum zero
       then (CREDIT, depositAmount)
       else (UNKNOWN, "0.00").

(** [amounts]: the third part of the line, trimmed and split at
    white space. *)
Definition columns (parts : list string) : list string :=
  let amountsPart := trim (nth 2 parts "") in
  splitRe whiteSpaces amountsPart.

(** One round of the loop of [categorizeTransactions]. *)
Definition categorizeLine (line : string) : option Transaction :=
  let parts := split "|" line in
  if Nat.ltb (List.length parts) 3 then None
  else
    let date := trim (nth 0 parts "") in
    let description := trim (nth 1 parts "") in
    let amounts := columns parts in
    if Nat.ltb (List.length amounts) 3 then None
    else
      let withdrawalAmount := nth 0 amounts "" in
      let depositAmount := nth 1 amounts "" in
      let '(transactionType, actualAmount) :=
        resolve withdrawalAmount depositAmount in
      let description :=
        trim (hd "" (splitRe slashOrDash
                       (HDFCParser.replaceEach descriptionNoise
                                               description))) in
      Some {| txDate := date;
              txDescription :=
                if isEmpty description then "Transaction" else description;
              txAmount := actualAmount;
              txType := transactionType |}.

Definition categorizedLines (lines : list string) : list string :=
  flat_map
    (fun line => match categorizeLine line with
                 | Some t => [render t]
                 | None => []
                 end)
    lines.

Definition categorizeTransactions (simplifiedText : string) : string :=
  if isEmpty simplifiedText || isEmpty (trim simplifiedText) then ""
  else join (LF ++ LF) (categorizedLines (split LF simplifiedText)).

End ICICIParser.

(** ** parsers/index.js: the factory *)

Inductive parser := HDFC | Kotak | ICICI.

(** What a call yields: a value, or an [Error] thrown with its
    message. *)
Inductive outcome (A : Type) :=
| Returns (a : A)
| Throws (message : string).
Arguments Returns {A} a.
Arguments Throws {A} message.

Definition getParser (docCode : string) : outcome parser :=
  if isEmpty docCode then Throws "Document code cannot be empty."
  else
    let code := toUpperCase docCode in
    if String.eqb code "HDFC" then Returns HDFC
    else if String.eqb code "KOTAK" then Returns Kotak
    else if String.eqb code "ICICI" then Returns ICICI
    else Throws ("Parser not implemented for code: " ++ docCode).

Definition getSupportedBanks : list string := ["HDFC"; "KOTAK"; "ICICI"].

(** ** parsers/pnlParsers/index.js and the GST factory beside it *)

Inductive pnlParser := StandardPnLParser.

Definition getPnLParser (typeCode : string) : outcome pnlParser :=
  if isEmpty typeCode then Throws "P&L type code cannot be empty."
  else
    if String.eqb (toUpperCase typeCode) "STANDARD"
    then Returns StandardPnLParser
    else Throws ("P&L parser not implemented for code: " ++ typeCode).

Definition getSupportedPnLTypes : list string := ["STANDARD"].

Inductive gstParser := GSTParser.

Definition getGSTParser (typeCode : string) : outcome gstParser :=
  if isEmpty typeCode then Throws "GST type code cannot be empty."
  else
    if String.eqb (toUpperCase typeCode) "STANDARD"
    then Returns GSTParser
    else Throws ("GST parser not implemented for code: " ++ typeCode).

Definition getSupportedGSTTypes : list string := ["STANDARD"].

(** ** Entries by category, as [categorizeEntries] of the P&L and
    of the GST parser sorts them

    [categories] is the object of the source in the order of its
    keys: the key and the keywords of each category; the key
    UNCATEGORIZED, which comes last, takes what no other takes. *)

Section CategorizeEntries.

Variable categories : list (string * list string).

(** [category.keywords.some(keyword => lowercaseLine.includes(keyword))] *)
Definition hasKeyword (keywords : list string) (lowercaseLine : string)
  : bool :=
  existsb (fun keyword => includes lowercaseLine keyword) keywords.

(** The inner loop: the key of the first category, UNCATEGORIZED
    apart, one of whose keywords the line holds. *)
Fixpoint firstCategory (cats : list (string * list string))
    (lowercaseLine : string) : option string :=
  match cats with
  | [] => None
  | (categoryKey, keywords) :: cats' =>
      if String.eqb categoryKey "UNCATEGORIZED"
      then firstCategory cats' lowercaseLine
      else if hasKeyword keywords lowercaseLine then Some categoryKey
           else firstCategory cats' lowercaseLine
  end.

Definition categoryOf (line : string) : string :=
  match firstCategory categories (toLowerCase line) with
  | Some categoryKey => categoryKey
  | None => "UNCATEGORIZED"
  end.

(** [entries.push(line)] on the category [key]. *)
Fixpoint push (key line : string) (store : list (string * list string))
  : list (string * list string) :=
  match store with
  | [] => []
  | (k, entries) :: store' =>
      if String.eqb k key then (k, entries ++ [line])%list :: store'
      else (k, entries) :: push key line store'
  end.

(** The outer loop over the lines, from the empty [entries]. *)
Definition sortEntries (lines : list string) : list (string * list string) :=
  fold_left (fun store line => push (categoryOf line) line store)
            lines
            (map (fun c => (fst c, @nil string)) categories).

(** [categoryKey.replace(/_/g, ' ')] *)
Definition categoryName (categoryKey : string) : string :=
  replaceAll (re (Chr "_")) " " categoryKey.

(** The part of the report for the categories that have entries. *)
Definition reportEntries (store : list (string * list string)) : string :=
  String.concat ""
    (map (fun c =>
            match snd c with
            | [] => ""
            | entries =>
                categoryName (fst c) ++ ":" ++ LF ++
                repeatChar "-" (String.length (categoryName (fst c)) + 1)
                ++ LF ++
                String.concat ""
                  (map (fun entry => "  " ++ entry ++ LF) entries) ++
                LF
            end)
         store).

(** [categories.UNCATEGORIZED.entries] *)
Definition uncategorized (store : list (string * list string))
  : list string :=
  match find (fun c => String.eqb (fst c) "UNCATEGORIZED") store with
  | Some c => snd c
  | None => []
  end.

End CategorizeEntries.

(** [simplifiedText.split('\n').filter(line => line.trim())] *)
Definition nonBlankLines (text : string) : list string :=
  filter (fun line => negb (isEmpty (trim line))) (split LF text).

(** ** parsers/pnlParsers/standardPnLParser.js *)

Module StandardPnLParser.

(** [\d+,?\d*\.?\d*]: a figure *)
Definition figure : regex :=
  seqs [plus digit; opt (Chr ","); star digit; opt (Chr "."); star digit].

(** [\w] *)
Definition wordChar : regex :=
  Class [CRange "a" "z"; CRange "A" "Z"; CDigit; CChar "_"].

(** [/=== PAGE \d+ ===/g] *)
Definition pageMarker : RegExp :=
  re (seqs [lit "=== PAGE "; plus digit; lit " ==="]).

(** [/\n\s*\n/g] *)
Definition blankLines : RegExp :=
  re (seqs [Chr "010"; star space; Chr "010"]).

Definition cleanOCROutput (rawText : string) : string :=
  if isEmpty rawText then ""
  else
    let cleanedText := rawText in
    let cleanedText :=
      replaceAll pageMarker (LF ++ "--- PAGE BREAK ---" ++ LF) cleanedText in
    (* /[|]/g *)
    let cleanedText := replaceAll (re (Class [CChar "|"])) " " cleanedText in
    (* /_{3,}/g *)
    let cleanedText := replaceAll (re (atLeast 3 (Chr "_"))) "" cleanedText in
    (* /[-]{3,}/g *)
    let cleanedText :=
      replaceAll (re (atLeast 3 (Class [CChar "-"]))) "" cleanedText in
    (* /(figure)\s*\(\s*(figure)\s*\)/g to '$1 ($2)', with the pattern
       of a figure written out in each group *)
    let cleanedText :=
      replaceAllBy
        (re (seqs [Group 1 figure; star space; Chr "("; star space;
                   Group 2 figure; star space; Chr ")"]))
        [Ref 1; Lit " ("; Ref 2; Lit ")"] cleanedText in
    (* /(\w+)\s+(figure)/g to '$1: $2', likewise *)
    let cleanedText :=
      replaceAllBy
        (re (seqs [Group 1 (plus wordChar); plus space; Group 2 figure]))
        [Ref 1; Lit ": "; Ref 2] cleanedText in
    let cleanedText := replaceAll whiteSpaces " " cleanedText in
    let cleanedText := replaceAll blankLines LF cleanedText in
    trim cleanedText.

Definition pnlKeywords : list string := [
  "revenue"; "income"; "sales"; "gross profit"; "gross loss";
  "operating expenses"; "operating income"; "operating loss";
  "net profit"; "net loss"; "net income"; "ebitda"; "ebit";
  "cost of goods sold"; "cogs"; "total revenue"; "total income";
  "total expenses"; "depreciation"; "amortization"; "interest";
  "tax"; "other income"; "other expenses"
].

(** The test of the loop of [cleanOCROutputSimplified]: the line
    holds a keyword, or an amount and more than five characters. *)
Definition keepsLine (line : string) : bool :=
  let lowercaseLine := toLowerCase line in
  let hasKeyword :=
    existsb (fun keyword => includes lowercaseLine keyword) pnlKeywords in
  let hasAmount := test (re figure) line in
  hasKeyword || (hasAmount && Nat.ltb 5 (String.length line)).

Definition cleanOCROutputSimplified (rawText : string) : string :=
  let cleaned := cleanOCROutput rawText in
  if isEmpty cleaned then ""
  else
    let lines := split LF cleaned in
    join LF (map trim (filter keepsLine lines)).

Definition categories : list (string * list string) := [
  ("REVENUE", ["revenue"; "sales"; "income"; "turnover"; "total revenue";
               "gross sales"]);
  ("COST_OF_GOODS_SOLD", ["cost of goods sold"; "cogs"; "cost of sales";
                          "direct costs"]);
  ("GROSS_PROFIT", ["gross profit"; "gross income"; "gross margin"]);
  ("OPERATING_EXPENSES", ["operating expenses"; "opex";
                          "administrative expenses"; "selling expenses"]);
  ("OPERATING_INCOME", ["operating income"; "operating profit"; "ebitda";
                        "ebit"]);
  ("OTHER_INCOME", ["other income"; "non-operating income";
                    "interest income"]);
  ("OTHER_EXPENSES", ["other expenses"; "non-operating expenses";
                      "interest expense"; "depreciation"; "amortization"]);
  ("NET_INCOME", ["net income"; "net profit"; "net loss";
                  "profit after tax"; "pat"]);
  ("UNCATEGORIZED", [])
].

Definition categorizeEntries (simplifiedText : string) : string :=
  if isEmpty simplifiedText then ""
  else
    let lines := nonBlankLines simplifiedText in
    let store := sortEntries categories lines in
    let totalEntries := List.length lines in
    let categorizedCount :=
      totalEntries - List.length (uncategorized store) in
    "P&L STATEMENT ANALYSIS" ++ LF ++
    "=" ++ repeatChar "=" 50 ++ LF ++ LF ++
    reportEntries store ++
    "SUMMARY:" ++ LF ++
    "--------" ++ LF ++
    "Total entries processed: " ++ natToString totalEntries ++ LF ++
    "Categorized entries: " ++ natToString categorizedCount ++ LF ++
    "Uncategorized entries: "
      ++ natToString (List.length (uncategorized store)) ++ LF ++
    "Categorization rate: "
      ++ toFixed1 (mul (div (ofNat categorizedCount) (ofNat totalEntries))
                       (ofZ 100))
      ++ "%" ++ LF.

End StandardPnLParser.

(** ** parsers/gstParsers/standardGST3BParser.js: the entries by
    category *)

Module StandardGST3BParser.

Definition categories : list (string * list string) := [
  ("OUTWARD_SUPPLIES", ["outward supplies"]);
  ("ELIGIBLE_ITC", ["eligible itc"; "inward supplies"]);
  ("EXEMPT_NONGST", ["exempt"; "non gst"]);
  ("PAYMENT_OF_TAX", ["payment of tax"; "tax payable"]);
  ("INTEREST_LATE_FEE", ["interest"; "late fee"]);
  ("SUMMARY_TOTALS", ["total"]);
  ("UNCATEGORIZED", [])
].

Definition categorizeEntries (simplifiedText : string) : string :=
  if isEmpty simplifiedText then ""
  else
    let lines := nonBlankLines simplifiedText in
    let store := sortEntries categories lines in
    "GST 3B STATEMENT ANALYSIS" ++ LF ++
    repeatChar "=" 50 ++ LF ++ LF ++
    reportEntries store ++
    "SUMMARY:" ++ LF ++ "--------" ++ LF ++
    "Total entries processed: " ++ natToString (List.length lines) ++ LF ++
    "Uncategorized: "
      ++ natToString (List.length (uncategorized store)) ++ LF.

End StandardGST3BParser.

(** ** components/OCRBankStatementReader.js: reading the categorized
    text back into transactions to store

    The calls that only write to the console are left out; a date the
    host refuses throws inside the [try] of the loop, which skips the
    line. *)

Module OCRBankStatementReader.

Record StoredTransaction := {
  date : string;
  description : string;
  amount : number;
  category : string;
  bank : string;
  raw_text : string
}.

(** [/(\d{1,2})\/(\d{1,2})\/(\d{2,4})/] *)
Definition slashDate : RegExp :=
  re (seqs [Group 1 (between 1 2 digit); Chr "/";
            Group 2 (between 1 2 digit); Chr "/";
            Group 3 (between 2 4 digit)]).

(** [/[,\s]/g] *)
Definition commaOrSpace : RegExp := re (Class [CChar ","; CSpace]).

Section Reader.

(** [new Date(text).toISOString()], which is the host's: the ISO text
    of the date read from [text], or [None] where it throws (the date
    is invalid). *)
Variable toISOString : string -> option string.

(** The bank selected in the component's state. *)
Variable selectedBank : string.

(** The text handed to [new Date]. *)
Definition dateText (dateMatch : MatchResult) : string :=
  let day := group 1 dateMatch in
  let month := group 2 dateMatch in
  let year := group 3 dateMatch in
  let year :=
    if Nat.eqb (String.length year) 2
    then (if ltb (parseInt year) (ofZ 50) then "20" ++ year
          else "19" ++ year)
    else year in
  year ++ "-" ++ padStart month 2 "0" ++ "-" ++ padStart day 2 "0".

(** One round of the loop of [parseCategorizedData]: the transaction
    pushed, if any. *)
Definition parseLine (line : string) : option StoredTransaction :=
  let trimmedLine := trim line in
  if isEmpty trimmedLine || startsWith trimmedLine "=" ||
     includes trimmedLine "PAGE"
  then None
  else if includes trimmedLine "|" then
    let parts := map trim (split "|" trimmedLine) in
    if Nat.leb 4 (List.length parts) then
      let dateStr := nth 0 parts "" in
      let description := nth 1 parts "" in
      let amountStr := nth 2 parts "" in
      let transactionType := nth 3 parts "" in
      match exec slashDate dateStr with
      | None => None
      | Some dateMatch =>
          match toISOString (dateText dateMatch) with
          | None => None
          | Some parsedDate =>
              let cleanAmount := replaceAll commaOrSpace "" amountStr in
              let numericAmount := parseFloat cleanAmount in
              if isNaN numericAmount then None
              else
                let numericAmount :=
                  if includes (toUpperCase transactionType) "DEBIT"
                  then abs numericAmount
                  else if includes (toUpperCase transactionType) "CREDIT"
                       then abs numericAmount
                       else numericAmount in
                Some {| date := parsedDate;
                        description :=
                          if isEmpty description then "Unknown Transaction"
                          else description;
                        amount := numericAmount;
                        category :=
                          if isEmpty transactionType then "Uncategorized"
                          else transactionType;
                        bank := selectedBank;
                        raw_text := trimmedLine |}
          end
      end
    else None
  else None.

Definition parseCategorizedData (categorizedText : string)
  : list StoredTransaction :=
  flat_map (fun line => match parseLine line with
                        | Some transaction => [transaction]
                        | None => []
                        end)
           (split LF categorizedText).

End Reader.

End OCRBankStatementReader.
(* ================================================================== *)
(** * What a match says about the text

    The words a pattern can consume, read off the pattern alone: the
    assertions [^], [$] and [\b] consume nothing, a group consumes what
    its body does, and a quantifier a number of rounds within its
    bounds. *)

Fixpoint InLang (ic : bool) (r : regex) (w : chars) : Prop :=
  match r with
  | Empty | Bol | Eol | WordB => w = []
  | Chr c => exists x, w = [x] /\ charMatches ic c x = true
  | Any => exists x, w = [x] /\ isLineTerminator x = false
  | Class items => exists x, w = [x] /\ inClass ic items x = true
  | Seq r1 r2 =>
      exists w1 w2, w = w1 ++ w2 /\ InLang ic r1 w1 /\ InLang ic r2 w2
  | Alt r1 r2 => InLang ic r1 w \/ InLang ic r2 w
  | Group _ r' => InLang ic r' w
  | Rep r' min max _ =>
      exists ws, w = List.concat ws /\ Forall (InLang ic r') ws /\
                 min <= List.length ws /\
                 match max with
                 | Some k => List.length ws <= min + (k - min)
                 | None => True
                 end
  end%list.

(** The groups a match of the pattern is sure to set. *)
Fixpoint defGroups (r : regex) : list nat :=
  match r with
  | Group n r' => n :: defGroups r'
  | Seq r1 r2 => defGroups r1 ++ defGroups r2
  | _ => []
  end%list.

(** [P n w] holds of every text [w] that group [n] can capture. *)
Fixpoint GroupsSat (ic : bool) (P : nat -> chars -> Prop) (r : regex)
  : Prop :=
  match r with
  | Group n r' => (forall w, InLang ic r' w -> P n w) /\ GroupsSat ic P r'
  | Seq r1 r2 | Alt r1 r2 => GroupsSat ic P r1 /\ GroupsSat ic P r2
  | Rep r' _ _ _ => GroupsSat ic P r'
  | _ => True
  end.

Definition capInv (P : nat -> chars -> Prop) (cs : list (nat * chars))
  : Prop :=
  forall n w, In (n, w) cs -> P n w.

Definition hasCap (n : nat) (cs : list (nat * chars)) : Prop :=
  In n (map fst cs).

(** What holds between the state [st] a pattern [r] starts in and a
    state [st'] it hands to its continuation. *)
Definition Post (ic : bool) (P : nat -> chars -> Prop) (r : regex)
    (st st' : mstate) : Prop :=
  (exists w, rest st = (w ++ rest st')%list /\ InLang ic r w) /\
  capInv P (caps st') /\
  (forall n, In n (defGroups r) \/
             (hasCap n (caps st) /\ ~ In n (groups r)) ->
             hasCap n (caps st')).

(** What a number of rounds of [r] leaves: the text of the rounds, and
    the groups outside [r] as they were. *)
Definition PostIter (ic : bool) (P : nat -> chars -> Prop) (r : regex)
    (st st' : mstate) (ws : list chars) : Prop :=
  rest st = (List.concat ws ++ rest st')%list /\
  Forall (InLang ic r) ws /\
  capInv P (caps st') /\
  (forall n, hasCap n (caps st) -> ~ In n (groups r) ->
             hasCap n (caps st')).

(** The number of further rounds is within what the quantifier allows. *)
Definition withinMax (max : option nat) (n : nat) : Prop :=
  match max with
  | Some k => n <= k
  | None => True
  end.


(** ** Non-negative numbers and amounts *)

(** [0 <= x]: a zero, a positive finite number or plus infinity. *)
Definition isNonNegative (x : number) : bool :=
  match x with
  | S754_zero _ => true
  | S754_infinity s | S754_finite s _ _ => negb s
  | S754_nan => false
  end.

(** An amount field read as the parsers and their caller read one:
    commas dropped, then [parseFloat]. *)
Definition nonNegativeAmount (amount : string) : Prop :=
  leb zero (amountOf amount) = true.

(** What [s.replace(/,/g, '')] keeps. *)
Definition notComma (c : ascii) : bool := negb (Ascii.eqb c ",").


(** A text with a character that is not white space. *)
Definition hasInk (s : string) : Prop :=
  exists c, In c (of_string s) /\ isWhiteSpace c = false.

(* ================================================================== *)
(** * Shapes of groups and the inputs of the examples *)

Definition threeRecords : list string :=
  ["01/01/24 | OPENING | 100.00 1000.00";
   "02/01/24 | RENT | 100.00 900.00";
   "03/01/24 | SALARY | 150.00 1050.00"].

(** The rule as the claim words it: DEBIT as soon as the debit
    expectation is within the tolerance. *)
Definition claimedDirection (prevBalance amount balance : number)
  : direction :=
  let debitDiff := abs (sub (sub prevBalance amount) balance) in
  let creditDiff := abs (sub (add prevBalance amount) balance) in
  if ltb debitDiff tolerance then DEBIT
  else if ltb creditDiff tolerance then CREDIT
  else if ltb balance prevBalance then DEBIT else CREDIT.

Definition twoRecords : list string :=
  ["01/01/24 | OPENING | 200.00 500.00";
   "02/01/24 | RENT | 100.00 400.00"].

(** The line kept by the HDFC categorizer: no date, two amounts. *)
Definition undatedLine : string := "No date here 100.00 200.00".

(** What the amount group of a simplified line holds: group 3 has the
    shape [[\d,]+\.\d{2}]. *)
Definition amountGroup (n : nat) (w : chars) : Prop :=
  n = 3 -> InLang false amountBody w.

(** What the column groups of the extractor's pattern hold: groups 2
    and 3 have the shape [[\d,.]*\d]. *)
Definition columnGroup (n : nat) (w : chars) : Prop :=
  n = 2 \/ n = 3 -> InLang false ICICIParser.figure w.

(** The texts the groups of a match hold, group by group: group [n]
    holds a word of each pattern listed for [n]. *)
Definition groupShape (ic : bool) (shapes : list (nat * regex))
    (n : nat) (w : chars) : Prop :=
  forall r, In (n, r) shapes -> InLang ic r w.

(** The line that decides the direction of record [i]: the next one
    for the first record, the one before for the others. *)
Definition neighbour (lines : list string) (i : nat) : option string :=
  match i with
  | O => nth_error lines 1
  | S i' => nth_error lines i'
  end.

(** What round [i] pushes, or the empty text when it pushes
    nothing. *)
Definition pushedAt (lines : list string) (i : nat) : string :=
  match HDFCParser.categorizeAt lines i with
  | Some p => HDFCParser.pushedLine p
  | None => ""
  end.

(** The run of lines taken after a start line ends at [after]: at
    the end of the lines, or at a line that stops the record or that
    the variant does not take. *)
Definition endsRun (stops accepts : string -> bool) (after : list string)
  : Prop :=
  match after with
  | [] => True
  | x :: _ => stops x = true \/ accepts (trim x) = false
  end.

(** A start line, the code line after it and a line that ends the
    record. *)
Definition startAndCode : list string :=
  ["01/04/23 | UPI-SWIGGY"; "  ABCD1234EFGH  "; "plain words"].

(** The length of the run of white space at the start of a text. *)
Definition wsLen (s : chars) : nat :=
  List.length s - List.length (trimStart_l s).

(** [s.replace(/\s+/g, rep)], told directly: each run of white space
    becomes [rep]; [inRun] says that the run has begun. *)
Fixpoint collapse (rep : chars) (inRun : bool) (s : chars) : chars :=
  match s with
  | [] => []
  | c :: s' =>
      if isWhiteSpace c
      then ((if inRun then [] else rep) ++ collapse rep true s')%list
      else c :: collapse rep false s'
  end.

(** A text in which white space is only single spaces;
    [afterSpace] says that a space stands just before. *)
Fixpoint tidy (afterSpace : bool) (s : chars) : bool :=
  match s with
  | [] => true
  | c :: s' =>
      if Ascii.eqb c " " then negb afterSpace && tidy true s'
      else negb (isWhiteSpace c) && tidy false s'
  end.

(** The texts [tokens] stand in [s] one after the other, in this
    order, without overlap. *)
Fixpoint occurIn (tokens : list chars) (s : chars) : Prop :=
  match tokens with
  | [] => True
  | t :: ts => exists a b, s = (a ++ t ++ b)%list /\ occurIn ts b
  end.

(** [\d{2}-\d{2}-\d{4}] *)
Definition dashDate : regex :=
  seqs [times 2 digit; Chr "-"; times 2 digit; Chr "-"; times 4 digit].

(** A text of spaces and line feeds. *)
Definition blankText : string := "  " ++ LF ++ LF ++ " ".

(** A word: a text without white space. *)
Definition isWord (u : chars) : Prop :=
  Forall (fun c => isWhiteSpace c = false) u.

(** A character of a figure or of a date: a digit, a comma, a point
    or a slash. *)
Definition figureChar (c : ascii) : Prop :=
  isDigit c = true \/ c = ","%char \/ c = "."%char \/ c = "/"%char.

(** [[\d,.]*\d\.\d{2}]: the balance. *)
Definition balanceFigure : regex :=
  seqs [ICICIParser.figure; Chr "."; times 2 digit].

(** A character of a categorized Kotak line is no line feed. *)
Definition noLF (c : ascii) : Prop := c <> "010"%char.

(** The amount as the reader takes it from the amount field. *)
Definition readAmount (amountStr : string) : number :=
  parseFloat (replaceAll OCRBankStatementReader.commaOrSpace ""
                         (trim amountStr)).

(** What the reader makes of a categorized transaction, given the
    match of its date. *)
Definition stored (toISOString : string -> option string)
    (selectedBank : string) (t : Transaction)
  : option OCRBankStatementReader.StoredTransaction :=
  match exec OCRBankStatementReader.slashDate (txDate t) with
  | None => None
  | Some dateMatch =>
      match toISOString (OCRBankStatementReader.dateText dateMatch) with
      | None => None
      | Some parsedDate =>
          if isNaN (readAmount (txAmount t)) then None
          else
            Some {| OCRBankStatementReader.date := parsedDate;
                    OCRBankStatementReader.description :=
                      if isEmpty (trim (txDescription t))
                      then "Unknown Transaction"
                      else trim (txDescription t);
                    OCRBankStatementReader.amount :=
                      match txType t with
                      | UNKNOWN => readAmount (txAmount t)
                      | _ => abs (readAmount (txAmount t))
                      end;
                    OCRBankStatementReader.category :=
                      directionName (txType t);
                    OCRBankStatementReader.bank := selectedBank;
                    OCRBankStatementReader.raw_text := render t |}
      end
  end.

(** The HDFC line of a rent payment: stored as a DEBIT of 100 on the
    date the host makes of 2024-01-02. *)
Definition rentRecord : Transaction :=
  {| txDate := "02/01/24"; txDescription := "RENT";
     txAmount := "100.00"; txType := DEBIT |}.

(** The entries of the category [key]. *)
Definition entriesOf (key : string) (store : list (string * list string))
  : list string :=
  match find (fun c => String.eqb (fst c) key) store with
  | Some c => snd c
  | None => []
  end.

(** Three lines of a P&L statement. *)
Definition pnlLines : list string :=
  ["Total Revenue: 100"; "Operating Income 5"; "Rent 3"].

(** The state reads a suffix of [u] and its groups hold parts of
    [u]. *)
Definition Within (u : chars) (st : mstate) : Prop :=
  (exists a, u = (a ++ rest st)%list) /\
  (forall n w, In (n, w) (caps st) -> exists a b, u = (a ++ w ++ b)%list).

(** What is asked of a matcher function: it hands to its continuation
    only states within [u]. *)
Definition keeps (u : chars) (mr : cont -> cont) : Prop :=
  forall k st z, Within u st -> mr k st = Some z ->
                 exists st', Within u st' /\ k st' = Some z.

(** A character of [toFixed(2)]: a digit or one of the signs and
    letters of its texts. *)
Definition numberChar (c : ascii) : Prop :=
  isDigit c = true \/ In c (of_string "-.e+NaInfity").

(** The transactions the reader takes from lines, in order. *)
Definition readLines (toISOString : string -> option string)
    (selectedBank : string) (lines : list string)
  : list OCRBankStatementReader.StoredTransaction :=
  flat_map
    (fun line =>
       match OCRBankStatementReader.parseLine toISOString selectedBank line
       with
       | Some transaction => [transaction]
       | None => []
       end)
    lines.

(** The character just behind once [w] has been read. *)
Fixpoint lastOr (p : option ascii) (w : chars) : option ascii :=
  match w with
  | [] => p
  | c :: w' => lastOr (Some c) w'
  end.

(** The rounds [ws] of a quantified pattern, one after the other; [M]
    tells what a round may read, given the character behind and the
    text after it. *)
Definition Chain (M : option ascii -> chars -> chars -> Prop)
  : option ascii -> list chars -> chars -> Prop :=
  fix chain (p : option ascii) (ws : list chars) (after : chars) : Prop :=
    match ws with
    | [] => True
    | w :: ws' =>
        M p w (List.concat ws' ++ after)%list /\ chain (lastOr p w) ws' after
    end.

(** [Matches ic r p w after]: with [p] just behind and [after] just
    ahead of it, [w] is a word of [r].  The rounds of a quantifier
    beyond its minimum each read something. *)
Fixpoint Matches (ic : bool) (r : regex) (p : option ascii)
    (w after : chars) : Prop :=
  match r with
  | Empty => w = []
  | Chr c => exists x, w = [x] /\ charMatches ic c x = true
  | Any => exists x, w = [x] /\ isLineTerminator x = false
  | Class items => exists x, w = [x] /\ inClass ic items x = true
  | Bol => w = [] /\ p = None
  | Eol => w = [] /\ after = []
  | WordB =>
      w = [] /\ xorb (isWordAt p) (isWordAt (hd_error after)) = true
  | Seq r1 r2 =>
      exists w1 w2, w = (w1 ++ w2)%list /\
                    Matches ic r1 p w1 (w2 ++ after)%list /\
                    Matches ic r2 (lastOr p w1) w2 after
  | Alt r1 r2 => Matches ic r1 p w after \/ Matches ic r2 p w after
  | Group _ r' => Matches ic r' p w after
  | Rep r' min max _ =>
      exists ws1 ws2,
        w = (List.concat ws1 ++ List.concat ws2)%list /\
        List.length ws1 = min /\
        Forall (fun u => u <> []) ws2 /\
        withinMax (maxAfter min max) (List.length ws2) /\
        Chain (Matches ic r') p (ws1 ++ ws2)%list after
  end.

(** What completeness asks of a matcher function for the words [M]. *)
Definition finds (M : option ascii -> chars -> chars -> Prop)
    (mr : cont -> cont) : Prop :=
  forall k st w after,
    rest st = (w ++ after)%list ->
    M (prev st) w after ->
    (forall st', rest st' = after -> prev st' = lastOr (prev st) w ->
                 k st' <> None) ->
    mr k st <> None.

(** The groups [cs] are those of [known], each set. *)
Definition capsAre (cs known : list (nat * chars)) : Prop :=
  (forall n w, In (n, w) cs -> In (n, w) known) /\
  (forall n w, In (n, w) known -> hasCap n cs).

(** The amount a simplified line is read for: digits and commas, a
    point and two digits. *)
Definition amountShape (w : chars) : Prop :=
  exists body d1 d2,
    w = (body ++ "."%char :: [d1; d2])%list /\ body <> [] /\
    Forall (fun c => inClass false [CDigit; CChar ","] c = true) body /\
    isDigit d1 = true /\ isDigit d2 = true.

(** A number that is finite and, in absolute value, below 10^21:
    those [toFixed] writes in fixed notation. *)
Definition belowE21 (x : number) : bool :=
  match x with
  | S754_zero _ => true
  | S754_finite _ mt e =>
      negb ((0 <=? e)%Z && (10 ^ 21 <=? Zpos mt * 2 ^ e)%Z)
  | _ => false
  end.

(** [amount] of [parseTransactionLine]: the currency figure before
    the last one of the line. *)
Definition hdfcAmount (transactionLine : string) : string :=
  let normalized := BaseParser.normalizeWhitespace transactionLine in
  let currencyMatches := BaseParser.extractCurrencyAmounts normalized in
  nth (List.length currencyMatches - 2) currencyMatches "".

(** A text that begins with a date dd/dd/dd. *)
Definition beginsWithDate (text : string) : Prop :=
  exists a b c d e f rest,
    of_string text =
      (a :: b :: "/"%char :: c :: d :: "/"%char :: e :: f :: rest)%list /\
    Forall (fun x => isDigit x = true) [a; b; c; d; e; f].

(** A line that the extractor reads and whose amount is too large to
    be written with two decimals. *)
Definition hugeAmountLine : string :=
  "01/04/23 BIG 1,000,000,000,000,000,000,000.00 5.00".

(** A character of an amount column: a digit, a comma or a point. *)
Definition columnChar (c : ascii) : Prop :=
  isDigit c = true \/ c = ","%char \/ c = "."%char.

(** A raw ICICI line with a [|] in its description. *)
Definition pipeInDescription : string :=
  "01/04/2023 01/04/2023 ATM | CASH 250.00 0.00 10,000.00".

(** A raw ICICI line with a [|] and figures in its description. *)
Definition figuresInDescription : string :=
  "01/04/2023 01/04/2023 A | 7 8 9 x 250.00 0.00 10,000.00".

Unset Implicit Arguments.

(* ================================================================== *)
(** * Soundness of the matcher *)

Lemma first_some (A : Type) (a b : option A) (res : A) :
  match a with Some z => Some z | None => b end = Some res ->
  a = Some res \/ (a = None /\ b = Some res).
Proof. destruct a; auto. Qed.

Lemma NoDup_app_disjoint (A : Type) (l1 l2 : list A) (a : A) :
  NoDup (l1 ++ l2) -> In a l1 -> In a l2 -> False.
Proof.
  induction l1 as [|x l1 IH]; simpl; intros Hnd H1 H2; [contradiction|].
  inversion Hnd as [|? ? Hx Hnd']; subst.
  destruct H1 as [->|H1].
  - apply Hx, in_or_app. auto.
  - apply IH; assumption.
Qed.

Section MatcherSound.

Variable ic : bool.
Variable P : nat -> chars -> Prop.

Lemma capInv_drop gs cs : capInv P cs -> capInv P (dropCaps gs cs).
Proof.
  unfold capInv, dropCaps. intros H n w Hin.
  apply filter_In in Hin. apply H, Hin.
Qed.

Lemma hasCap_drop n gs cs :
  hasCap n cs -> ~ In n gs -> hasCap n (dropCaps gs cs).
Proof.
  unfold hasCap, dropCaps. intros Hin Hn.
  apply in_map_iff in Hin. destruct Hin as [[a w] [Ha Hin]]. simpl in Ha. subst a.
  apply in_map_iff. exists (n, w). split; [reflexivity|].
  apply filter_In. split; [assumption|]. simpl.
  destruct (existsb (Nat.eqb n) gs) eqn:E; [|reflexivity].
  apply existsb_exists in E. destruct E as [x [Hx Heq]].
  apply Nat.eqb_eq in Heq. subst x. contradiction.
Qed.

Lemma defGroups_groups r n : In n (defGroups r) -> In n (groups r).
Proof.
  induction r; simpl; intros H; try contradiction.
  - apply in_app_or in H. apply in_or_app. tauto.
  - destruct H; [left; assumption | right; auto].
Qed.

Lemma firstn_consumed (w t : chars) :
  firstn (List.length (w ++ t) - List.length t) (w ++ t) = w.
Proof.
  rewrite length_app, Nat.add_sub.
  rewrite firstn_app, Nat.sub_diag, firstn_all. simpl. apply app_nil_r.
Qed.

Section Rounds.

Variable r : regex.
Hypothesis body_sound :
  forall k st res,
    capInv P (caps st) ->
    m ic r k st = Some res ->
    exists st', k st' = Some res /\ Post ic P r st st'.

Lemma round_step x y z ws :
  capInv P (caps x) ->
  Post ic P r (resetCaps (groups r) x) y ->
  PostIter ic P r y z ws ->
  exists w, PostIter ic P r x z (w :: ws).
Proof.
  intros Hx [[w [Hw Hl]] [Hc Hg]] [Hr [Hf [Hc' Hg']]].
  exists w. repeat split.
  - simpl in *. rewrite Hw, Hr. apply app_assoc.
  - constructor; assumption.
  - assumption.
  - intros n Hn Hnot. apply Hg'; [|assumption]. apply Hg. right.
    split; [|assumption]. simpl. apply hasCap_drop; assumption.
Qed.

Lemma repeatMin_sound n : forall k x res,
  capInv P (caps x) ->
  repeatMin (m ic r) (groups r) n k x = Some res ->
  exists y ws, k y = Some res /\ PostIter ic P r x y ws /\ List.length ws = n.
Proof.
  induction n as [|n IH]; simpl; intros k x res Hx H.
  - exists x, []. repeat split; auto.
  - apply body_sound in H; [|apply capInv_drop; assumption].
    destruct H as [y [Hy Hpost]].
    assert (Hcy : capInv P (caps y)) by apply Hpost.
    apply IH in Hy; [|assumption].
    destruct Hy as [z [ws [Hz [Hi Hlen]]]].
    destruct (round_step _ _ _ _ Hx Hpost Hi) as [w Hw].
    exists z, (w :: ws). repeat split; try apply Hw; auto.
    simpl. congruence.
Qed.

Lemma repeatMax_sound greedy fuel : forall max k x res,
  capInv P (caps x) ->
  repeatMax (m ic r) (groups r) greedy k fuel max x = Some res ->
  exists y ws, k y = Some res /\ PostIter ic P r x y ws /\
               withinMax max (List.length ws).
Proof.
  induction fuel as [|fuel IH]; simpl; intros max k x res Hx H;
    [discriminate|].
  assert (Hstop : k x = Some res ->
          exists y ws, k y = Some res /\ PostIter ic P r x y ws /\
                       withinMax max (List.length ws)).
  { intros Hk. exists x, []. repeat split; auto; try constructor.
    destruct max; simpl; [apply Nat.le_0_l | exact I]. }
  assert (Hmore : max <> Some 0 ->
          m ic r
            (fun y => if (remaining y <? remaining x)%nat
                      then repeatMax (m ic r) (groups r) greedy k fuel
                             (option_map pred max) y
                      else None) (resetCaps (groups r) x) = Some res ->
          exists y ws, k y = Some res /\ PostIter ic P r x y ws /\
                       withinMax max (List.length ws)).
  { intros Hmax Hm.
    apply body_sound in Hm; [|apply capInv_drop; assumption].
    destruct Hm as [y [Hy Hpost]].
    destruct (remaining y <? remaining x)%nat; [|discriminate].
    assert (Hcy : capInv P (caps y)) by apply Hpost.
    apply IH in Hy; [|assumption].
    destruct Hy as [z [ws [Hz [Hi Hlen]]]].
    destruct (round_step _ _ _ _ Hx Hpost Hi) as [w Hw].
    exists z, (w :: ws). repeat split; try apply Hw; auto.
    destruct max as [[|j]|]; simpl in *; try exact I.
    - congruence.
    - apply le_n_S. assumption. }
  destruct max as [[|j]|].
  - apply Hstop. assumption.
  - destruct greedy; apply first_some in H; destruct H as [H|[_ H]];
      auto; apply Hmore; [discriminate|exact H|discriminate|exact H].
  - destruct greedy; apply first_some in H; destruct H as [H|[_ H]];
      auto; apply Hmore; [discriminate|exact H|discriminate|exact H].
Qed.

End Rounds.

Lemma PostIter_trans r x y z ws1 ws2 :
  PostIter ic P r x y ws1 -> PostIter ic P r y z ws2 ->
  PostIter ic P r x z (ws1 ++ ws2).
Proof.
  intros [H1 [F1 [C1 G1]]] [H2 [F2 [C2 G2]]]. repeat split.
  - rewrite H1, H2, concat_app. apply app_assoc.
  - apply Forall_app. split; assumption.
  - assumption.
  - intros n Hn Hnot. apply G2; [|assumption]. apply G1; assumption.
Qed.

(** A pattern that consumes nothing hands its state on; one that
    consumes a character hands on the state after it. *)
Ltac stays st :=
  exists st; split; [assumption|]; split;
  [ exists []; split; [simpl; try reflexivity; assumption | reflexivity]
  | split; [assumption | intros ? [[]|[? _]]; assumption] ].

Ltac steps st x xs :=
  exists (advance st x xs); split; [assumption|]; split;
  [ exists [x]; split; [assumption | simpl; eauto]
  | split; [assumption | intros ? [[]|[? _]]; assumption] ].

(** Soundness: a result comes from the continuation, called on a
    state that the pattern relates to the start state. *)
Theorem m_sound : forall r,
  GroupsSat ic P r -> NoDup (groups r) ->
  forall k st res,
    capInv P (caps st) ->
    m ic r k st = Some res ->
    exists st', k st' = Some res /\ Post ic P r st st'.
Proof.
  induction r as [ | c | | items | | | | r1 IH1 r2 IH2 | r1 IH1 r2 IH2
                   | g r IH | r IH min max greedy ];
    intros Hsat Hnd k st res Hc H; simpl in Hsat, Hnd; cbn [m] in H.
  - (* Empty *) stays st.
  - (* Chr *)
    destruct (rest st) as [|x xs] eqn:E; [discriminate|].
    destruct (charMatches ic c x) eqn:Ec; [|discriminate].
    steps st x xs.
  - (* Any *)
    destruct (rest st) as [|x xs] eqn:E; [discriminate|].
    destruct (isLineTerminator x) eqn:Ec; [discriminate|].
    steps st x xs.
  - (* Class *)
    destruct (rest st) as [|x xs] eqn:E; [discriminate|].
    destruct (inClass ic items x) eqn:Ec; [|discriminate].
    steps st x xs.
  - (* Bol *)
    destruct (prev st); [discriminate|]. stays st.
  - (* Eol *)
    destruct (rest st) eqn:E; [|discriminate]. stays st.
  - (* WordB *)
    destruct (xorb _ _); [|discriminate]. stays st.
  - (* Seq *)
    destruct Hsat as [S1 S2].
    assert (N1 : NoDup (groups r1)) by (eapply NoDup_app_remove_r; eauto).
    assert (N2 : NoDup (groups r2)) by (eapply NoDup_app_remove_l; eauto).
    apply (IH1 S1 N1) in H; [|assumption].
    destruct H as [st1 [H [[w1 [E1 L1]] [C1 G1]]]].
    apply (IH2 S2 N2) in H; [|assumption].
    destruct H as [st2 [H [[w2 [E2 L2]] [C2 G2]]]].
    exists st2. split; [assumption|]. split; [|split; [assumption|]].
    + exists (w1 ++ w2)%list. split.
      * rewrite E1, E2. apply app_assoc.
      * exists w1, w2. auto.
    + intros n Hn. apply G2.
      destruct Hn as [Hn|[Hn Hnot]].
      * apply in_app_or in Hn. destruct Hn as [Hn|Hn]; [|left; assumption].
        right. split; [apply G1; left; assumption|].
        intros Hin. apply defGroups_groups in Hn.
        eapply NoDup_app_disjoint; [exact Hnd | exact Hn | exact Hin].
      * right. split.
        -- apply G1. right. split; [assumption|].
           intros Hin. apply Hnot, in_or_app. auto.
        -- intros Hin. apply Hnot, in_or_app. auto.
  - (* Alt *)
    destruct Hsat as [S1 S2].
    assert (N1 : NoDup (groups r1)) by (eapply NoDup_app_remove_r; eauto).
    assert (N2 : NoDup (groups r2)) by (eapply NoDup_app_remove_l; eauto).
    destruct (m ic r1 k st) as [z|] eqn:E.
    + inversion H; subst z. apply (IH1 S1 N1) in E; [|assumption].
      destruct E as [st1 [E [[w1 [E1 L1]] [C1 G1]]]].
      exists st1. split; [assumption|].
      split; [exists w1; simpl; auto|]. split; [assumption|].
      intros n [[]|[Hn Hnot]]. apply G1. right. split; [assumption|].
      intros Hin. apply Hnot, in_or_app. auto.
    + apply (IH2 S2 N2) in H; [|assumption].
      destruct H as [st2 [H [[w2 [E2 L2]] [C2 G2]]]].
      exists st2. split; [assumption|].
      split; [exists w2; simpl; auto|]. split; [assumption|].
      intros n [[]|[Hn Hnot]]. apply G2. right. split; [assumption|].
      intros Hin. apply Hnot, in_or_app. auto.
  - (* Group *)
    destruct Hsat as [Sg S1]. inversion Hnd as [|? ? Hg N1]; subst.
    apply (IH S1 N1) in H; [|assumption].
    destruct H as [y [H [[w [E L]] [C G]]]].
    eexists. split; [eassumption|].
    split; [exists w; simpl; auto|]. split.
    + unfold remaining. rewrite E, firstn_consumed.
      intros n v [Hin|Hin].
      * inversion Hin; subst. apply Sg. assumption.
      * apply (capInv_drop [g] _ C n v Hin).
    + intros n Hn. unfold hasCap. simpl.
      destruct (Nat.eq_dec g n) as [->|Hne]; [left; reflexivity|].
      right. apply hasCap_drop; [|intros [?|[]]; contradiction].
      apply G. destruct Hn as [[Hn|Hn]|[Hn Hnot]].
      * contradiction.
      * left. assumption.
      * right. split; [assumption|]. intros Hin. apply Hnot. simpl. auto.
  - (* Rep *)
    apply (repeatMin_sound _ (IH Hsat Hnd)) in H; [|assumption].
    destruct H as [y [ws1 [H [Hi1 Hlen]]]].
    assert (Hcy : capInv P (caps y)) by apply Hi1.
    apply (repeatMax_sound _ (IH Hsat Hnd)) in H; [|assumption].
    destruct H as [z [ws2 [H [Hi2 Hmax]]]].
    exists z. split; [assumption|].
    destruct (PostIter_trans _ _ _ _ _ _ Hi1 Hi2) as [E [F [C G]]].
    split; [|split; [assumption|]].
    + exists (List.concat (ws1 ++ ws2)). split; [assumption|].
      exists (ws1 ++ ws2)%list. split; [reflexivity|]. split; [assumption|].
      rewrite length_app, Hlen. split; [apply Nat.le_add_r|].
      destruct max as [j|]; simpl in *; [|exact I].
      apply Nat.add_le_mono_l. assumption.
    + intros n [[]|[Hn Hnot]]. apply G; assumption.
Qed.

End MatcherSound.

(** ** What [exec] and [group] return *)

Lemma find_cap n (cs : list (nat * chars)) :
  hasCap n cs ->
  exists w, find (fun p => Nat.eqb (fst p) n) cs = Some (n, w) /\
            In (n, w) cs.
Proof.
  unfold hasCap. induction cs as [|[a v] cs IH]; simpl; intros H;
    [contradiction|].
  destruct (Nat.eqb a n) eqn:E.
  - apply Nat.eqb_eq in E. subst a. exists v. auto.
  - destruct H as [H|H]; [subst a; rewrite Nat.eqb_refl in E; discriminate|].
    destruct (IH H) as [w [Hf Hin]]. exists w. auto.
Qed.

Lemma of_to_string (l : chars) : of_string (to_string l) = l.
Proof. apply list_ascii_of_string_of_list_ascii. Qed.

Lemma to_of_string (s : string) : to_string (of_string s) = s.
Proof. apply string_of_list_ascii_of_string. Qed.

Lemma matchHere_sound (P : nat -> chars -> Prop) rx p s y :
  GroupsSat (ignoreCase rx) P (pattern rx) ->
  NoDup (groups (pattern rx)) ->
  matchHere rx p s = Some y ->
  (exists w, s = (w ++ rest y)%list /\
             InLang (ignoreCase rx) (pattern rx) w) /\
  capInv P (caps y) /\
  (forall n, In n (defGroups (pattern rx)) -> hasCap n (caps y)).
Proof.
  intros Hsat Hnd H. unfold matchHere in H.
  assert (Hnil : capInv P (caps {| rest := s; prev := p; caps := [] |}))
    by (intros n w []).
  destruct (m_sound _ P _ Hsat Hnd _ _ _ Hnil H) as [st' [Heq [Hw [Hc Hg]]]].
  inversion Heq; subst st'. simpl in Hw.
  split; [assumption|]. split; [assumption|]. intros n Hn. apply Hg. auto.
Qed.

(** A match found by [exec] was found by the matcher at some
    position. *)
Lemma execFrom_inv rx : forall s p idx r,
  execFrom rx p idx s = Some r ->
  exists p' s' y, matchHere rx p' s' = Some y /\ captures r = caps y /\
                  matched r = firstn (List.length s' - remaining y) s'.
Proof.
  induction s as [|c s IH]; intros p idx r H; simpl in H.
  - destruct (matchHere rx p []) as [y|] eqn:E; [|discriminate].
    inversion H; subst r. exists p, [], y. auto.
  - destruct (matchHere rx p (c :: s)) as [y|] eqn:E.
    + inversion H; subst r. exists p, (c :: s), y. auto.
    + apply IH in H. assumption.
Qed.

(** Every group that the pattern is sure to set holds a text that
    the body of the group can consume. *)
Theorem group_sound (P : nat -> chars -> Prop) rx s r n :
  GroupsSat (ignoreCase rx) P (pattern rx) ->
  NoDup (groups (pattern rx)) ->
  In n (defGroups (pattern rx)) ->
  exec rx s = Some r ->
  P n (of_string (group n r)).
Proof.
  intros Hsat Hnd Hn H. unfold exec in H.
  apply execFrom_inv in H. destruct H as [p' [s' [y [Hm [Hc _]]]]].
  destruct (matchHere_sound P rx p' s' y Hsat Hnd Hm) as [_ [Hinv Hg]].
  destruct (find_cap n _ (Hg n Hn)) as [w [Hf Hin]].
  unfold group. rewrite Hc, Hf. simpl. rewrite of_to_string.
  apply (Hinv n w Hin).
Qed.

(** The text matched is a word of the pattern. *)
Theorem matched_sound rx s r :
  NoDup (groups (pattern rx)) ->
  exec rx s = Some r ->
  InLang (ignoreCase rx) (pattern rx) (matched r).
Proof.
  intros Hnd H. unfold exec in H.
  apply execFrom_inv in H. destruct H as [p' [s' [y [Hm [_ Hmt]]]]].
  assert (Hsat : GroupsSat (ignoreCase rx) (fun _ _ => True) (pattern rx)).
  { generalize (pattern rx). induction r0; simpl; auto. }
  destruct (matchHere_sound _ rx p' s' y Hsat Hnd Hm) as [[w [E L]] _].
  rewrite Hmt. unfold remaining. rewrite E, firstn_consumed. assumption.
Qed.

(** ** Words of quantified character classes *)

Lemma InLang_class_rep ic items min max g w :
  InLang ic (Rep (Class items) min max g) w ->
  Forall (fun x => inClass ic items x = true) w /\
  min <= List.length w /\
  match max with
  | Some k => List.length w <= min + (k - min)
  | None => True
  end.
Proof.
  simpl. intros [ws [-> [Hf [Hmin Hmax]]]].
  assert (H : Forall (fun x => inClass ic items x = true) (List.concat ws) /\
              List.length (List.concat ws) = List.length ws).
  { clear Hmin Hmax. induction Hf as [|w ws [x [-> Hx]] _ [IH1 IH2]]; simpl.
    - split; [constructor | reflexivity].
    - split; [constructor; assumption | congruence]. }
  destruct H as [H1 H2]. rewrite H2. auto.
Qed.

(* ================================================================== *)
(** * The fuel of a quantifier is enough

    The matcher depends on its continuation only through the values
    the continuation returns, and the rounds of a quantifier never
    use up the fuel they start with: more fuel changes nothing. *)

Section Fuel.

Variable ic : bool.

Lemma repeatMin_ext (mr : cont -> cont) gs :
  (forall k k' st, (forall y, k y = k' y) -> mr k st = mr k' st) ->
  forall n k k' x,
    (forall y, k y = k' y) ->
    repeatMin mr gs n k x = repeatMin mr gs n k' x.
Proof.
  intros Hmr. induction n as [|n IH]; intros k k' x Hk; simpl.
  - apply Hk.
  - apply Hmr. intros y. apply IH, Hk.
Qed.

Lemma repeatMax_ext (mr : cont -> cont) gs greedy :
  (forall k k' st, (forall y, k y = k' y) -> mr k st = mr k' st) ->
  forall fuel max k k' x,
    (forall y, k y = k' y) ->
    repeatMax mr gs greedy k fuel max x =
    repeatMax mr gs greedy k' fuel max x.
Proof.
  intros Hmr. induction fuel as [|fuel IH]; intros max k k' x Hk;
    [reflexivity|]. cbn [repeatMax].
  rewrite (Hk x).
  rewrite (Hmr _ (fun y => if (remaining y <? remaining x)%nat
                           then repeatMax mr gs greedy k' fuel
                                  (option_map pred max) y
                           else None) (resetCaps gs x)).
  - reflexivity.
  - intros y. destruct (remaining y <? remaining x)%nat; [|reflexivity].
    apply IH, Hk.
Qed.

Lemma m_ext : forall r k k' st,
  (forall y, k y = k' y) -> m ic r k st = m ic r k' st.
Proof.
  induction r as [ | c | | items | | | | r1 IH1 r2 IH2 | r1 IH1 r2 IH2
                   | g r IH | r IH min max greedy ];
    intros k k' st Hk; cbn [m].
  - apply Hk.
  - destruct (rest st); [reflexivity|].
    destruct (charMatches ic c a); [apply Hk | reflexivity].
  - destruct (rest st); [reflexivity|].
    destruct (isLineTerminator a); [reflexivity | apply Hk].
  - destruct (rest st); [reflexivity|].
    destruct (inClass ic items a); [apply Hk | reflexivity].
  - destruct (prev st); [reflexivity | apply Hk].
  - destruct (rest st); [apply Hk | reflexivity].
  - destruct (xorb _ _); [apply Hk | reflexivity].
  - apply IH1. intros y. apply IH2, Hk.
  - rewrite (IH1 k k' st Hk), (IH2 k k' st Hk). reflexivity.
  - apply IH. intros y. apply Hk.
  - apply repeatMin_ext; [exact IH|]. intros x.
    apply repeatMax_ext; [exact IH | exact Hk].
Qed.

(** With more fuel than input ahead, the rounds after the compulsory
    ones give the same result whatever the fuel. *)
Theorem repeatMax_enough_fuel r greedy k : forall fuel1 fuel2 max x,
  remaining x < fuel1 -> remaining x < fuel2 ->
  repeatMax (m ic r) (groups r) greedy k fuel1 max x =
  repeatMax (m ic r) (groups r) greedy k fuel2 max x.
Proof.
  induction fuel1 as [|fuel1 IH]; intros fuel2 max x H1 H2; [lia|].
  destruct fuel2 as [|fuel2]; [lia|]. cbn [repeatMax].
  rewrite (m_ext r _ (fun y => if (remaining y <? remaining x)%nat
                               then repeatMax (m ic r) (groups r) greedy k
                                      fuel2 (option_map pred max) y
                               else None) (resetCaps (groups r) x)).
  - reflexivity.
  - intros y. destruct (remaining y <? remaining x)%nat eqn:E;
      [|reflexivity].
    apply Nat.ltb_lt in E. apply IH; lia.
Qed.

End Fuel.

(* ================================================================== *)
(** * Facts about numbers *)

Lemma leb_zero_iff (x : number) : leb zero x = isNonNegative x.
Proof. destruct x as [s|s| |s m e]; try destruct s; reflexivity. Qed.

Lemma ltb_zero_leb (x : number) : ltb zero x = true -> leb zero x = true.
Proof. destruct x as [s|s| |s m e]; try destruct s; simpl; auto. Qed.

(** ** Rounding keeps the sign *)

Lemma shr_1_nonneg mrs : (0 <= shr_m mrs)%Z -> (0 <= shr_m (shr_1 mrs))%Z.
Proof.
  destruct mrs as [mz r s]. destruct mz as [|p|p]; simpl; intros H.
  - lia.
  - destruct p; simpl; lia.
  - lia.
Qed.

Lemma iter_shr_1_nonneg p : forall mrs,
  (0 <= shr_m mrs)%Z -> (0 <= shr_m (iter_pos shr_1 p mrs))%Z.
Proof.
  induction p as [p IH|p IH|]; simpl; intros mrs H.
  - apply IH, IH, shr_1_nonneg, H.
  - apply IH, IH, H.
  - apply shr_1_nonneg, H.
Qed.

Lemma shr_fexp_nonneg mz e l :
  (0 <= mz)%Z -> (0 <= shr_m (fst (shr_fexp prec emax mz e l)))%Z.
Proof.
  intros H. unfold shr_fexp, shr.
  assert (H0 : (0 <= shr_m (shr_record_of_loc mz l))%Z).
  { destruct l as [|[]]; simpl; assumption. }
  destruct (fexp prec emax (Zdigits2 mz + e) - e)%Z; simpl; auto.
  apply iter_shr_1_nonneg, H0.
Qed.

Lemma round_nearest_even_nonneg mz l :
  (0 <= mz)%Z -> (0 <= round_nearest_even mz l)%Z.
Proof.
  intros H. destruct l as [|[]]; simpl; try assumption.
  - destruct (Z.even mz); lia.
  - lia.
Qed.

Lemma binary_round_aux_nonneg mz e l :
  (0 <= mz)%Z ->
  isNonNegative (binary_round_aux prec emax false mz e l) = true.
Proof.
  intros H. unfold binary_round_aux.
  pose proof (shr_fexp_nonneg mz e l H) as H1.
  destruct (shr_fexp prec emax mz e l) as [mrs' e']. simpl in H1.
  pose proof (shr_fexp_nonneg _ e' loc_Exact
                (round_nearest_even_nonneg _ (loc_of_shr_record mrs') H1))
    as H2.
  destruct (shr_fexp prec emax _ e' loc_Exact) as [mrs'' e'']. simpl in H2.
  destruct (shr_m mrs'') as [|p|p]; try reflexivity.
  - destruct (e'' <=? emax - prec)%Z; reflexivity.
  - lia.
Qed.

Lemma binary_round_nonneg mt e :
  isNonNegative (binary_round prec emax false mt e) = true.
Proof.
  unfold binary_round.
  destruct (shl_align mt e _) as [mz ez].
  apply binary_round_aux_nonneg. lia.
Qed.

(** A decimal without a minus sign reads as a number that is not
    negative (and not NaN). *)
Lemma ofDecimal_nonneg mant e10 :
  isNonNegative (ofDecimal false mant e10) = true.
Proof.
  destruct mant as [|p]; [reflexivity|]. unfold ofDecimal.
  destruct e10 as [|q|q].
  - simpl. apply binary_round_nonneg.
  - assert (H : (0 < Zpos p * 10 ^ Zpos q)%Z) by (apply Z.mul_pos_pos; lia).
    destruct (Zpos p * 10 ^ Zpos q)%Z as [|v|v]; try lia.
    simpl. apply binary_round_nonneg.
  - unfold SFdiv. simpl xorb.
    unfold SFdiv_core_binary.
    match goal with
    | |- context [Z.div_eucl ?a ?b] =>
        pose proof (Z.div_pos a b) as Hq;
        assert (Ha : (0 <= a)%Z);
        [| unfold Z.div in Hq; destruct (Z.div_eucl a b) as [qq rr] ]
    end.
    + destruct (0 - 0 - _)%Z; try lia. apply Z.shiftl_nonneg. lia.
    + apply binary_round_aux_nonneg. apply Hq; [assumption | lia].
Qed.

(** ** Reading an unsigned decimal *)

Ltac each_ascii c :=
  destruct c as [[] [] [] [] [] [] [] []].

Lemma digit_plain c :
  isDigit c = true ->
  isWhiteSpace c = false /\ Ascii.eqb c "-" = false /\
  Ascii.eqb c "+" = false /\ Ascii.eqb "I" c = false /\
  Ascii.eqb c "," = false /\ Ascii.eqb c "." = false.
Proof. each_ascii c; vm_compute; intros H; try discriminate H; auto 10. Qed.

Lemma parseFloat_l_digit c t :
  isDigit c = true ->
  exists v e, parseFloat_l (c :: t) = ofDecimal false v e.
Proof.
  intros Hc. destruct (digit_plain c Hc) as [Hw [Hm [Hp [Hi _]]]].
  unfold parseFloat_l. simpl trimStart_l. rewrite Hw.
  unfold readSign. rewrite Hm, Hp.
  change (isPrefix (of_string "Infinity") (c :: t))
    with (Ascii.eqb "I" c && isPrefix (of_string "nfinity") t).
  rewrite Hi. simpl andb. cbv iota.
  simpl span. rewrite Hc.
  destruct (span isDigit t) as [a b].
  destruct b as [|x b'].
  - simpl. eauto.
  - destruct (Ascii.eqb x ".").
    + destruct (span isDigit b') as [f s3]. simpl. eauto.
    + simpl. eauto.
Qed.

Lemma parseFloat_l_point d t :
  isDigit d = true ->
  exists v e, parseFloat_l ("."%char :: d :: t) = ofDecimal false v e.
Proof.
  intros Hd. unfold parseFloat_l.
  change (trimStart_l ("."%char :: d :: t)) with ("."%char :: d :: t).
  change (readSign ("."%char :: d :: t)) with (false, "."%char :: d :: t).
  change (isPrefix (of_string "Infinity") ("."%char :: d :: t)) with false.
  cbv iota beta.
  change (span isDigit ("."%char :: d :: t))
    with (@nil ascii, "."%char :: d :: t).
  cbv iota beta. change (Ascii.eqb "." ".") with true. cbv iota.
  simpl span. rewrite Hd.
  destruct (span isDigit t) as [a b]. simpl. eauto.
Qed.

(** ** Dropping commas *)

Lemma replaceAll_go_commas : forall s p,
  replaceAll_go commas [] p s 0 = filter notComma s.
Proof.
  induction s as [|c s IH]; intros p; [reflexivity|].
  unfold replaceAll_go; fold replaceAll_go.
  change (filter notComma (c :: s))
    with (if notComma c then c :: filter notComma s else filter notComma s).
  unfold matchHere. simpl m. unfold charMatches, notComma at 1.
  simpl canonicalize.
  rewrite (Ascii.eqb_sym "," c).
  destruct (Ascii.eqb c ","); simpl negb; cbv iota.
  - unfold remaining, advance. simpl rest. simpl List.length.
    replace (S (List.length s) - List.length s) with 1 by lia.
    simpl app. apply IH.
  - simpl app. f_equal. apply IH.
Qed.

Lemma amountOf_chars (l : chars) :
  amountOf (to_string l) = parseFloat_l (filter notComma l).
Proof.
  unfold amountOf, parseFloat, replaceAll.
  rewrite !of_to_string. simpl of_string.
  rewrite replaceAll_go_commas. reflexivity.
Qed.

Lemma amountOf_string (s : string) :
  amountOf s = parseFloat_l (filter notComma (of_string s)).
Proof. rewrite <- (to_of_string s) at 1. apply amountOf_chars. Qed.

(** A text that starts with a digit is a non-negative amount. *)
Lemma digit_first_nonneg c t :
  isDigit c = true -> nonNegativeAmount (to_string (c :: t)).
Proof.
  intros Hc. unfold nonNegativeAmount.
  rewrite amountOf_chars, leb_zero_iff. simpl filter.
  destruct (digit_plain c Hc) as [_ [_ [_ [_ [Hk _]]]]].
  unfold notComma at 1. rewrite Hk. simpl negb. cbv iota.
  destruct (parseFloat_l_digit c (filter notComma t) Hc) as [v [e ->]].
  apply ofDecimal_nonneg.
Qed.

(** ** Writing a number: the first character is a digit *)

Lemma digitChar_isDigit d : (d < 10)%N -> isDigit (digitChar d) = true.
Proof.
  intros H.
  assert (Hd : (d = 0 \/ d = 1 \/ d = 2 \/ d = 3 \/ d = 4 \/ d = 5 \/
                d = 6 \/ d = 7 \/ d = 8 \/ d = 9)%N) by lia.
  repeat (destruct Hd as [->|Hd]; [reflexivity|]). subst d. reflexivity.
Qed.

Lemma decimal_go_head fuel : forall n acc,
  exists d t, decimal_go fuel n acc = d :: t /\ isDigit d = true.
Proof.
  induction fuel as [|fuel IH]; intros n acc; simpl.
  - eexists. eexists. split; [reflexivity|].
    apply digitChar_isDigit, N.mod_lt. discriminate.
  - destruct (n / 10 =? 0)%N.
    + eexists. eexists. split; [reflexivity|].
      apply digitChar_isDigit, N.mod_lt. discriminate.
    + apply IH.
Qed.

Lemma decimal_head n :
  exists d t, decimal n = d :: t /\ isDigit d = true.
Proof. apply decimal_go_head. Qed.

Lemma withPoint_head n :
  exists d t, withPoint n = d :: t /\ isDigit d = true.
Proof.
  unfold withPoint.
  destruct (decimal_head n) as [d [t [E Hd]]]. rewrite E.
  set (ds := (repeat "0"%char (3 - List.length (d :: t)) ++ d :: t)%list).
  assert (Hlen : 3 <= List.length ds).
  { unfold ds. rewrite length_app, repeat_length. lia. }
  assert (Hhd : exists d' t', ds = d' :: t' /\ isDigit d' = true).
  { unfold ds. destruct (3 - List.length (d :: t)); simpl; eauto. }
  destruct Hhd as [d' [t' [E' Hd']]]. rewrite E' in *. simpl in Hlen.
  destruct (List.length (d' :: t') - 2) eqn:Ek; [simpl in Ek; lia|].
  simpl. eauto.
Qed.

Lemma toStringLarge_head x X :
  exists d t, toStringLarge x X = to_string (d :: t) /\ isDigit d = true.
Proof.
  unfold toStringLarge.
  destruct (shortest x X _) as [s0 p0].
  destruct (dropZeros _ s0 p0) as [s p].
  destruct (decimal_head (Z.to_N s)) as [d [t [E Hd]]]. rewrite E.
  destruct t; (eexists; eexists; split; [simpl app; reflexivity | exact Hd]).
Qed.

(** [toFixed(2)] of a number that is not negative is a non-negative
    amount. *)
Lemma toFixed2_nonneg x :
  isNonNegative x = true -> nonNegativeAmount (toFixed2 x).
Proof.
  destruct x as [s|s| |s mt e]; intros H; simpl in H; try discriminate.
  - vm_compute. reflexivity.
  - destruct s; [discriminate|]. vm_compute. reflexivity.
  - destruct s; [discriminate|]. unfold toFixed2.
    change (String.append "" ?s) with s.
    destruct ((0 <=? e)%Z && (10 ^ 21 <=? Zpos mt * 2 ^ e)%Z).
    + destruct (toStringLarge_head (S754_finite false mt e)
                  (Zpos mt * 2 ^ e)%Z) as [d [t [-> Hd]]].
      apply digit_first_nonneg, Hd.
    + destruct (withPoint_head (hundredths mt e)) as [d [t [-> Hd]]].
      apply digit_first_nonneg, Hd.
Qed.

Lemma abs_nonneg x :
  isNonNegative x = true -> isNonNegative (abs x) = true.
Proof. destruct x as [s|s| |s mt e]; simpl; auto. Qed.

(** ** Amounts of the shape [[\d,]+\.\d{2}] *)

Lemma digit_or_comma x :
  inClass false [CDigit; CChar ","] x = true ->
  isDigit x = true \/ notComma x = false.
Proof.
  unfold inClass, notComma. cbn [existsb inItem andb].
  rewrite !orb_false_r, (Ascii.eqb_sym "," x).
  destruct (isDigit x); [auto|]. cbn [orb]. intros ->. auto.
Qed.

Lemma inClass_digit x : inClass false [CDigit] x = true -> isDigit x = true.
Proof.
  unfold inClass. cbn [existsb inItem andb]. rewrite !orb_false_r. auto.
Qed.

Lemma filter_digits_or_commas w :
  Forall (fun x => inClass false [CDigit; CChar ","] x = true) w ->
  Forall (fun x => isDigit x = true) (filter notComma w).
Proof.
  induction 1 as [|x w Hx _ IH]; simpl; [constructor|].
  destruct (digit_or_comma x Hx) as [Hd|Hc].
  - destruct (notComma x); [constructor|]; assumption.
  - rewrite Hc. assumption.
Qed.

Lemma amountBody_unsigned w :
  InLang false amountBody w ->
  exists v e, parseFloat_l (filter notComma w) = ofDecimal false v e.
Proof.
  unfold amountBody, seqs, plus, times, digit.
  intros [w1 [w2 [-> [H1 [w3 [w4 [-> [[x [-> Hx]] H4]]]]]]]].
  apply InLang_class_rep in H1. destruct H1 as [F1 _].
  apply InLang_class_rep in H4. destruct H4 as [F4 [Hmin Hmax]].
  simpl in Hmax.
  destruct w4 as [|d1 [|d2 [|d3 w4]]]; simpl in Hmin, Hmax; try lia.
  inversion F4 as [|? ? Hd1 F4']; subst. apply inClass_digit in Hd1.
  unfold charMatches, canonicalize in Hx. apply Ascii.eqb_eq in Hx. subst x.
  rewrite filter_app.
  pose proof (filter_digits_or_commas w1 F1) as Fd.
  destruct (filter notComma w1) as [|c w1'].
  - simpl app. change (filter notComma ("."%char :: d1 :: d2 :: nil))
      with ("."%char :: filter notComma (d1 :: d2 :: nil)).
    simpl filter. destruct (digit_plain d1 Hd1) as [_ [_ [_ [_ [Hk _]]]]].
    unfold notComma at 1. rewrite Hk. simpl negb. cbv iota.
    apply parseFloat_l_point, Hd1.
  - inversion Fd; subst. simpl app. apply parseFloat_l_digit. assumption.
Qed.

(** An amount of that shape is a non-negative amount. *)
Lemma amountBody_nonneg w :
  InLang false amountBody w -> isNonNegative (amountOf (to_string w)) = true.
Proof.
  intros H. rewrite amountOf_chars.
  destruct (amountBody_unsigned w H) as [v [e ->]]. apply ofDecimal_nonneg.
Qed.

(* ================================================================== *)
(** * Facts about the record merger *)

Section MergerFacts.

Variables isTransaction isHeaderLine isPersonalInfoLine accepts
  : string -> bool.
Variable append : string -> string -> string.
Variable finish : string -> option string.

Let collect' := collect isTransaction isHeaderLine accepts append.
Let scan' :=
  scan isTransaction isHeaderLine isPersonalInfoLine accepts append finish.
Let starts := startsRecord isTransaction isHeaderLine isPersonalInfoLine.
Let stops := stopsRecord isTransaction isHeaderLine.

(** The inner loop stops at a stop line and leaves it to the outer
    loop. *)
Lemma collect_stop l more text :
  stops l = true -> collect' (l :: more) text = (text, l :: more).
Proof.
  unfold stops, stopsRecord, collect'. simpl. intros ->. reflexivity.
Qed.

(** It takes an accepted line, appending it. *)
Lemma collect_accept l more text :
  stops l = false -> accepts (trim l) = true ->
  collect' (l :: more) text = collect' more (append text (trim l)).
Proof.
  unfold stops, stopsRecord, collect'. simpl. intros -> ->. reflexivity.
Qed.

(** The lines the inner loop takes are no transaction-start lines,
    and what it leaves is the more of its input. *)
Lemma collect_rest : forall more text,
  exists taken,
    more = (taken ++ snd (collect' more text))%list /\
    Forall (fun l => starts l = false) taken.
Proof.
  induction more as [|l more IH]; intros text; simpl.
  - exists []. split; [reflexivity | constructor].
  - destruct (isEmpty (trim l) || isTransaction (trim l) ||
              isHeaderLine (trim l)) eqn:Estop.
    + exists []. split; [reflexivity | constructor].
    + destruct (accepts (trim l)).
      * destruct (IH (append text (trim l))) as [taken [E F]].
        exists (l :: taken). split; [simpl; f_equal; exact E|].
        constructor; [|assumption].
        unfold starts, startsRecord.
        apply orb_false_elim in Estop. destruct Estop as [Estop _].
        apply orb_false_elim in Estop. destruct Estop as [_ ->].
        apply andb_false_r.
      * exists []. split; [reflexivity | constructor].
Qed.

Lemma filter_none (A : Type) (f : A -> bool) (l : list A) :
  Forall (fun x => f x = false) l -> filter f l = [].
Proof.
  induction 1 as [|x l Hx _ IH]; simpl; [reflexivity|]. rewrite Hx. exact IH.
Qed.

Lemma collect_count more text :
  List.length (filter starts (snd (collect' more text))) =
  List.length (filter starts more).
Proof.
  destruct (collect_rest more text) as [taken [E F]].
  rewrite E at 2. rewrite filter_app, (filter_none _ _ _ F). reflexivity.
Qed.

Lemma collect_shorter more text :
  List.length (snd (collect' more text)) <= List.length more.
Proof.
  destruct (collect_rest more text) as [taken [E _]].
  rewrite E at 2. rewrite length_app. lia.
Qed.

(** The outer loop skips a header line. *)
Lemma scan_header fuel l more :
  isHeaderLine (trim l) = true ->
  scan' (S fuel) (l :: more) = scan' fuel more.
Proof.
  unfold scan'. simpl. intros ->. simpl.
  destruct (isEmpty (trim l)); reflexivity.
Qed.

(** At a transaction-start line it collects a record. *)
Lemma scan_start fuel l more :
  starts l = true ->
  scan' (S fuel) (l :: more) =
  match finish (fst (collect' more (trim l))) with
  | Some t => t :: scan' fuel (snd (collect' more (trim l)))
  | None => scan' fuel (snd (collect' more (trim l)))
  end.
Proof.
  intros Hs. unfold starts, startsRecord in Hs.
  apply andb_prop in Hs. destruct Hs as [Hs Ht].
  apply andb_prop in Hs. destruct Hs as [He Hn].
  apply negb_true_iff in He. apply negb_true_iff in Hn.
  unfold scan', collect'. cbn [scan]. rewrite He, Hn, Ht.
  destruct (collect _ _ _ _ more (trim l)) as [text more']. reflexivity.
Qed.

(** Enough fuel is as good as more. *)
Lemma scan_fuel : forall fuel1 fuel2 lines,
  List.length lines <= fuel1 -> List.length lines <= fuel2 ->
  scan' fuel1 lines = scan' fuel2 lines.
Proof.
  induction fuel1 as [|fuel1 IH]; intros fuel2 lines H1 H2.
  - destruct lines; [|simpl in H1; lia]. destruct fuel2; reflexivity.
  - destruct lines as [|l more]; [destruct fuel2; reflexivity|].
    destruct fuel2 as [|fuel2]; [simpl in H2; lia|].
    simpl in H1, H2. unfold scan'. simpl. fold scan'.
    assert (Hrest : scan' fuel1 more = scan' fuel2 more)
      by (apply IH; lia).
    destruct (isEmpty (trim l)); [exact Hrest|].
    destruct (isHeaderLine (trim l) || isPersonalInfoLine (trim l));
      [exact Hrest|].
    destruct (isTransaction (trim l)); [|exact Hrest].
    pose proof (collect_shorter more (trim l)) as Hs. fold collect'.
    destruct (collect' more (trim l)) as [text more']. simpl in Hs.
    rewrite (IH fuel2 more') by lia. reflexivity.
Qed.

Section Count.

(** A property of the record text that holds from the start line on
    and makes [finish] push. *)
Variable Good : string -> Prop.
Hypothesis good_start : forall l, starts l = true -> Good (trim l).
Hypothesis good_append : forall t n, Good t -> Good (append t n).
Hypothesis good_finish : forall t, Good t -> exists r, finish t = Some r.

Lemma collect_good : forall more text,
  Good text -> Good (fst (collect' more text)).
Proof.
  induction more as [|l more IH]; intros text H; simpl; [assumption|].
  destruct (isEmpty (trim l) || isTransaction (trim l) ||
            isHeaderLine (trim l)); [assumption|].
  destruct (accepts (trim l)); [|assumption].
  apply IH, good_append, H.
Qed.

(** One record per transaction-start line. *)
Lemma scan_count : forall fuel lines,
  List.length lines <= fuel ->
  List.length (scan' fuel lines) = List.length (filter starts lines).
Proof.
  induction fuel as [|fuel IH]; intros lines H.
  - destruct lines; [reflexivity | simpl in H; lia].
  - destruct lines as [|l more]; [reflexivity|]. simpl in H.
    assert (Hrest : List.length (scan' fuel more) =
                    List.length (filter starts more)) by (apply IH; lia).
    unfold scan'. simpl. fold scan'. fold collect'.
    pose proof (good_start l) as Hg.
    unfold starts at 1, startsRecord.
    unfold starts at 1, startsRecord in Hg.
    destruct (isEmpty (trim l)); [exact Hrest|].
    destruct (isHeaderLine (trim l) || isPersonalInfoLine (trim l));
      [exact Hrest|].
    destruct (isTransaction (trim l)); [|exact Hrest].
    simpl in Hg |- *. specialize (Hg eq_refl).
    pose proof (collect_shorter more (trim l)) as Hs.
    pose proof (collect_count more (trim l)) as Hc.
    pose proof (collect_good more (trim l) Hg) as Hf.
    destruct (collect' more (trim l)) as [text more'].
    simpl in Hs, Hc, Hf.
    destruct (good_finish text Hf) as [r ->].
    simpl. rewrite IH by lia. rewrite Hc. reflexivity.
Qed.

Lemma mergeLines_count lines :
  List.length
    (mergeLines isTransaction isHeaderLine isPersonalInfoLine accepts
                append finish lines) =
  List.length (filter starts lines).
Proof. apply scan_count. apply Nat.le_refl. Qed.

End Count.

(** A header line after a transaction-start line ends the record at
    once; the scan goes on behind it. *)
Lemma mergeLines_header start l more :
  starts start = true -> isHeaderLine (trim l) = true ->
  mergeLines isTransaction isHeaderLine isPersonalInfoLine accepts
             append finish (start :: l :: more) =
  (match finish (trim start) with Some t => [t] | None => [] end ++
   mergeLines isTransaction isHeaderLine isPersonalInfoLine accepts
              append finish more)%list.
Proof.
  intros Hs Hh. unfold mergeLines. fold scan'.
  change (List.length (start :: l :: more))
    with (S (S (List.length more))).
  rewrite scan_start by assumption.
  rewrite collect_stop
    by (unfold stops, stopsRecord; rewrite Hh; apply orb_true_r).
  cbn [fst snd]. rewrite scan_header by assumption.
  destruct (finish (trim start)); reflexivity.
Qed.

(** While no record is open, a header line is skipped. *)
Lemma mergeLines_skip_header l more :
  isHeaderLine (trim l) = true ->
  mergeLines isTransaction isHeaderLine isPersonalInfoLine accepts
             append finish (l :: more) =
  mergeLines isTransaction isHeaderLine isPersonalInfoLine accepts
             append finish more.
Proof.
  intros Hh. unfold mergeLines. fold scan'.
  change (List.length (l :: more)) with (S (List.length more)).
  apply scan_header, Hh.
Qed.

End MergerFacts.

(* ================================================================== *)
(** * Facts about strings and white space *)

Lemma of_string_app (s t : string) :
  of_string (s ++ t) = (of_string s ++ of_string t)%list.
Proof.
  induction s as [|c s IH]; simpl; [reflexivity|].
  unfold of_string in *. simpl. rewrite IH. reflexivity.
Qed.

Lemma isEmpty_to_string (l : chars) :
  isEmpty (to_string l) = match l with [] => true | _ => false end.
Proof. destruct l; reflexivity. Qed.

Lemma trimStart_keeps c : forall l,
  In c l -> isWhiteSpace c = false -> In c (trimStart_l l).
Proof.
  induction l as [|x l IH]; simpl; intros Hin Hc; [contradiction|].
  destruct (isWhiteSpace x) eqn:E.
  - destruct Hin as [->|Hin]; [congruence | auto].
  - exact Hin.
Qed.

Lemma trimStart_head : forall l c t,
  trimStart_l l = c :: t -> isWhiteSpace c = false.
Proof.
  induction l as [|x l IH]; simpl; intros c t H; [discriminate|].
  destruct (isWhiteSpace x) eqn:E.
  - eapply IH, H.
  - inversion H; subst. exact E.
Qed.

Lemma trim_l_keeps c l :
  In c l -> isWhiteSpace c = false -> In c (trim_l l).
Proof.
  intros Hin Hc. unfold trim_l.
  apply -> in_rev. apply trimStart_keeps; [|assumption].
  apply -> in_rev. apply trimStart_keeps; assumption.
Qed.

(** A line that is not blank has ink left after trimming. *)
Lemma trim_hasInk l : isEmpty (trim l) = false -> hasInk (trim l).
Proof.
  unfold trim, hasInk. rewrite isEmpty_to_string, of_to_string.
  unfold trim_l.
  destruct (trimStart_l (of_string l)) as [|c t] eqn:E; [discriminate|].
  intros _. exists c. pose proof (trimStart_head _ _ _ E) as Hc.
  split; [|assumption].
  apply -> in_rev. apply trimStart_keeps; [|assumption].
  apply -> in_rev. left. reflexivity.
Qed.

Lemma hasInk_app_l s t : hasInk s -> hasInk (s ++ t).
Proof.
  intros [c [Hin Hc]]. exists c. split; [|assumption].
  rewrite of_string_app. apply in_or_app. auto.
Qed.

(** ** Collapsing white space keeps the ink *)

Lemma whiteSpaces_match p s y :
  matchHere whiteSpaces p s = Some y ->
  exists w, s = (w ++ rest y)%list /\
            Forall (fun x => isWhiteSpace x = true) w /\
            1 <= List.length w.
Proof.
  intros H.
  assert (Hsat : GroupsSat false (fun _ _ => True) (pattern whiteSpaces))
    by exact I.
  assert (Hnd : NoDup (groups (pattern whiteSpaces))) by constructor.
  destruct (matchHere_sound _ whiteSpaces p s y Hsat Hnd H)
    as [[w [E L]] _].
  exists w. split; [assumption|].
  apply InLang_class_rep in L. destruct L as [F [Hmin _]].
  split; [|assumption].
  eapply Forall_impl; [|exact F]. intros x Hx.
  unfold inClass in Hx. cbn [existsb inItem andb] in Hx.
  rewrite !orb_false_r in Hx. exact Hx.
Qed.

Lemma replaceAll_go_keeps rep c :
  isWhiteSpace c = false ->
  forall s p skip,
    Forall (fun x => isWhiteSpace x = true) (firstn skip s) ->
    In c s ->
    In c (replaceAll_go whiteSpaces rep p s skip).
Proof.
  intros Hc. induction s as [|x s IH]; intros p skip Hskip Hin;
    [contradiction|].
  destruct skip as [|k].
  - cbn [replaceAll_go].
    destruct (matchHere whiteSpaces p (x :: s)) as [y|] eqn:E.
    + destruct (whiteSpaces_match _ _ _ E) as [w [Ew [Fw Hlen]]].
      apply in_or_app. right.
      unfold remaining. rewrite Ew, length_app, Nat.add_sub.
      destruct w as [|x' w]; [simpl in Hlen; lia|].
      simpl in Ew. injection Ew as Ex Es.
      inversion Fw as [|? ? Hx Fw']. subst x'.
      cbn [List.length]. apply IH.
      * rewrite Es, firstn_app, Nat.sub_diag, firstn_all. simpl.
        rewrite app_nil_r. assumption.
      * destruct Hin as [Hin|Hin]; [congruence | assumption].
    + destruct Hin as [->|Hin]; [left; reflexivity|].
      right. apply IH; [constructor | assumption].
  - cbn [replaceAll_go]. simpl in Hskip.
    inversion Hskip as [|? ? Hx Hskip']; subst.
    apply IH; [assumption|].
    destruct Hin as [->|Hin]; [congruence | assumption].
Qed.

Lemma normalize_hasInk s :
  hasInk s -> hasInk (trim (replaceAll whiteSpaces " " s)).
Proof.
  intros [c [Hin Hc]]. exists c. split; [|assumption].
  unfold trim, replaceAll. rewrite !of_to_string.
  apply trim_l_keeps; [|assumption].
  apply replaceAll_go_keeps; [assumption | constructor | assumption].
Qed.

Lemma hasInk_not_empty s : hasInk s -> isEmpty s = false.
Proof. intros [c [Hin _]]. destruct s; [contradiction | reflexivity]. Qed.

(* ================================================================== *)
(** * The factory *)

Lemma toUpperCase_not_empty s :
  In (toUpperCase s) getSupportedBanks -> isEmpty s = false.
Proof.
  destruct s; [|reflexivity]. vm_compute.
  intros [H|[H|[H|[]]]]; discriminate H.
Qed.

Lemma getParser_returns s p :
  getParser s = Returns p ->
  (toUpperCase s = "HDFC" /\ p = HDFC) \/
  (toUpperCase s = "KOTAK" /\ p = Kotak) \/
  (toUpperCase s = "ICICI" /\ p = ICICI).
Proof.
  unfold getParser. destruct (isEmpty s); [discriminate|].
  destruct (String.eqb_spec (toUpperCase s) "HDFC") as [E1|_].
  { intros H; inversion H. auto. }
  destruct (String.eqb_spec (toUpperCase s) "KOTAK") as [E2|_].
  { intros H; inversion H. auto. }
  destruct (String.eqb_spec (toUpperCase s) "ICICI") as [E3|_].
  { intros H; inversion H. auto. }
  discriminate.
Qed.

(** C9: requesting a parser for a code that is empty, or whose upper
    case is none of HDFC, KOTAK and ICICI, throws: [getParser] returns
    no parser for it, whatever the code. *)
Theorem C9_unsupported_variant_throws :
  forall docCode : string,
    docCode = "" \/ ~ In (toUpperCase docCode) getSupportedBanks ->
    exists message, getParser docCode = Throws message.
Proof.
  intros s [->|Hn]; [eexists; reflexivity|].
  unfold getParser. destruct (isEmpty s); [eexists; reflexivity|].
  destruct (String.eqb_spec (toUpperCase s) "HDFC") as [E|_].
  { exfalso. apply Hn. rewrite E. simpl. auto. }
  destruct (String.eqb_spec (toUpperCase s) "KOTAK") as [E|_].
  { exfalso. apply Hn. rewrite E. simpl. auto. }
  destruct (String.eqb_spec (toUpperCase s) "ICICI") as [E|_].
  { exfalso. apply Hn. rewrite E. simpl. auto. }
  eexists; reflexivity.
Qed.

Lemma SBI_unsupported :
  "SBI" = "" \/ ~ In (toUpperCase "SBI") getSupportedBanks.
Proof. right. vm_compute. intros [H|[H|[H|[]]]]; discriminate H. Defined.

(** The code "SBI" is not registered, and asking for it throws. *)
Lemma C9_witness_SBI :
  ("SBI" = "" \/ ~ In (toUpperCase "SBI") getSupportedBanks) /\
  exists message, getParser "SBI" = Throws message.
Proof.
  split; [exact SBI_unsupported|].
  exact (C9_unsupported_variant_throws "SBI" SBI_unsupported).
Defined.

(** C10: the factory selects by the upper case of the code: it
    returns a parser exactly when the upper-cased code is HDFC, KOTAK
    or ICICI, and then the parser it returns for the upper-cased
    code; "hdfc" and "HDFC" both give the HDFC parser. *)
Theorem C10_case_insensitive_selection :
  (forall s : string,
     ((exists p, getParser s = Returns p) <->
      In (toUpperCase s) getSupportedBanks) /\
     (forall p, getParser s = Returns p ->
                getParser (toUpperCase s) = Returns p)) /\
  getParser "hdfc" = Returns HDFC /\ getParser "HDFC" = Returns HDFC.
Proof.
  split; [|split; reflexivity]. intros s. split; [split|].
  - intros [p H]. apply getParser_returns in H. simpl.
    destruct H as [[E _]|[[E _]|[E _]]]; rewrite E; auto.
  - intros H. pose proof (toUpperCase_not_empty s H) as He.
    unfold getParser. rewrite He. simpl in H.
    destruct H as [H|[H|[H|[]]]]; rewrite <- H; eexists; reflexivity.
  - intros p H. apply getParser_returns in H.
    destruct H as [[E ->]|[[E ->]|[E ->]]]; rewrite E; reflexivity.
Qed.

(* ================================================================== *)
(** * The record merger of each variant *)

Lemma hdfc_count lines :
  List.length (HDFCParser.transactionLines lines) =
  List.length (filter HDFCParser.startsLine lines).
Proof.
  apply (mergeLines_count _ _ _ _ _ _ (fun _ => True)); auto.
  intros t _. exists t. reflexivity.
Qed.

Lemma icici_count lines :
  List.length (ICICIParser.transactionLines lines) =
  List.length (filter ICICIParser.startsLine lines).
Proof.
  apply (mergeLines_count _ _ _ _ _ _ (fun _ => True)); auto.
  intros t _. exists t. reflexivity.
Qed.

Lemma kotak_pushes t : hasInk t -> exists r, KotakParser.pushRecord t = Some r.
Proof.
  intros H. unfold KotakParser.pushRecord.
  rewrite (hasInk_not_empty _ (normalize_hasInk _ H)). eauto.
Qed.

Lemma kotak_count lines :
  List.length (KotakParser.transactionLines lines) =
  List.length (filter KotakParser.startsLine lines).
Proof.
  apply (mergeLines_count _ _ _ _ _ _ hasInk).
  - intros l H. apply trim_hasInk.
    unfold startsRecord in H.
    apply andb_prop in H. destruct H as [H _].
    apply andb_prop in H. destruct H as [H _].
    apply negb_true_iff in H. exact H.
  - intros t n H. apply hasInk_app_l, H.
  - apply kotak_pushes.
Qed.


Lemma kotak_pushes_start start :
  KotakParser.startsLine start = true ->
  KotakParser.pushRecord (trim start) =
  Some (BaseParser.normalizeWhitespace (trim start)).
Proof.
  intros H. unfold KotakParser.pushRecord, BaseParser.normalizeWhitespace.
  assert (Hink : hasInk (trim start)).
  { apply trim_hasInk. unfold KotakParser.startsLine, startsRecord in H.
    apply andb_prop in H. destruct H as [H _].
    apply andb_prop in H. destruct H as [H _].
    apply negb_true_iff in H. exact H. }
  rewrite (hasInk_not_empty _ (normalize_hasInk _ Hink)). reflexivity.
Qed.

(** C4: a header line is a header line whatever else it matches, a
    continuation pattern included.  For HDFC, for Kotak and for ICICI:
    while a record is open the inner loop stops at it and leaves the record
    text as it is; a record started on the line before is pushed
    without it; and while no record is open it is skipped. *)
Theorem C4_header_before_continuation :
  forall l : string,
    (HDFCParser.isHeaderLine (trim l) = true ->
     (forall more text,
        HDFCParser.collectLines (l :: more) text = (text, l :: more)) /\
     (forall start more,
        HDFCParser.startsLine start = true ->
        HDFCParser.transactionLines (start :: l :: more) =
        trim start :: HDFCParser.transactionLines more) /\
     (forall more,
        HDFCParser.transactionLines (l :: more) =
        HDFCParser.transactionLines more)) /\
    (KotakParser.isHeaderLine (trim l) = true ->
     (forall more text,
        KotakParser.collectLines (l :: more) text = (text, l :: more)) /\
     (forall start more,
        KotakParser.startsLine start = true ->
        KotakParser.transactionLines (start :: l :: more) =
        BaseParser.normalizeWhitespace (trim start)
          :: KotakParser.transactionLines more) /\
     (forall more,
        KotakParser.transactionLines (l :: more) =
        KotakParser.transactionLines more)) /\
    (ICICIParser.isHeaderLine (trim l) = true ->
     (forall more text,
        ICICIParser.collectLines (l :: more) text = (text, l :: more)) /\
     (forall start more,
        ICICIParser.startsLine start = true ->
        ICICIParser.transactionLines (start :: l :: more) =
        trim start :: ICICIParser.transactionLines more) /\
     (forall more,
        ICICIParser.transactionLines (l :: more) =
        ICICIParser.transactionLines more)).
Proof.
  intros l. split; [|split]; intros Hh; (split; [|split]).
  - intros more text. apply collect_stop.
    unfold stopsRecord. rewrite Hh. apply orb_true_r.
  - intros start more Hs. unfold HDFCParser.transactionLines.
    rewrite mergeLines_header by assumption. reflexivity.
  - intros more. apply mergeLines_skip_header, Hh.
  - intros more text. apply collect_stop.
    unfold stopsRecord. rewrite Hh. apply orb_true_r.
  - intros start more Hs. unfold KotakParser.transactionLines.
    rewrite mergeLines_header by assumption.
    rewrite (kotak_pushes_start start Hs). reflexivity.
  - intros more. apply mergeLines_skip_header, Hh.
  - intros more text. apply collect_stop.
    unfold stopsRecord. rewrite Hh. apply orb_true_r.
  - intros start more Hs. unfold ICICIParser.transactionLines.
    rewrite mergeLines_header by assumption. reflexivity.
  - intros more. apply mergeLines_skip_header, Hh.
Qed.

(** "HDFC BANK @OKAXIS" matches the header pattern [/HDFC\s+BANK/i]
    and the continuation pattern [/@[A-Z0-9\-]+/]; after the start
    line "01/01/24 | UPI-FOO" it ends the record. *)
Lemma C4_witness_hdfc :
  HDFCParser.isHeaderLine (trim "HDFC BANK @OKAXIS") = true /\
  HDFCParser.isContinuationLine (trim "HDFC BANK @OKAXIS") = true /\
  HDFCParser.startsLine "01/01/24 | UPI-FOO" = true /\
  HDFCParser.transactionLines
    ["01/01/24 | UPI-FOO"; "HDFC BANK @OKAXIS"; "@OKAXIS"] =
  trim "01/01/24 | UPI-FOO" :: HDFCParser.transactionLines ["@OKAXIS"].
Proof.
  assert (Hh : HDFCParser.isHeaderLine (trim "HDFC BANK @OKAXIS") = true)
    by (vm_compute; reflexivity).
  assert (Hs : HDFCParser.startsLine "01/01/24 | UPI-FOO" = true)
    by (vm_compute; reflexivity).
  split; [exact Hh|]. split; [vm_compute; reflexivity|].
  split; [exact Hs|].
  exact (proj1 (proj2 (proj1 (C4_header_before_continuation
                                "HDFC BANK @OKAXIS") Hh))
               "01/01/24 | UPI-FOO" ["@OKAXIS"] Hs).
Defined.

(** C8, as the code has it: when the inner loop takes the next line,
    Kotak and ICICI append it to the record after a single space and
    HDFC appends it with nothing in between; ICICI takes every line
    that does not stop the record.  Only Kotak normalizes white space,
    and it does so once, when it pushes the record. *)
Theorem C8_append_by_variant :
  forall (l : string) (more : list string) (text : string),
    (KotakParser.stopsLine l = false ->
     KotakParser.takesLine (trim l) = true ->
     KotakParser.collectLines (l :: more) text =
     KotakParser.collectLines more (text ++ " " ++ trim l)) /\
    (ICICIParser.stopsLine l = false ->
     ICICIParser.collectLines (l :: more) text =
     ICICIParser.collectLines more (text ++ " " ++ trim l)) /\
    (HDFCParser.stopsLine l = false ->
     HDFCParser.takesLine (trim l) = true ->
     HDFCParser.collectLines (l :: more) text =
     HDFCParser.collectLines more (text ++ trim l)) /\
    KotakParser.pushRecord text =
      (if isEmpty (BaseParser.normalizeWhitespace text) then None
       else Some (BaseParser.normalizeWhitespace text)) /\
    ICICIParser.pushRecord text = Some text /\
    HDFCParser.pushRecord text = Some text.
Proof.
  intros l more text. repeat split.
  - intros Hs Ht. apply collect_accept; assumption.
  - intros Hs. apply collect_accept; [assumption | reflexivity].
  - intros Hs Ht. apply collect_accept; assumption.
Qed.

(** The Kotak line "/UPIintent" after "01-04-2023 UPI/FOO": taken,
    and appended after a space. *)
Lemma C8_witness_kotak :
  KotakParser.stopsLine "/UPIintent" = false /\
  KotakParser.takesLine (trim "/UPIintent") = true /\
  KotakParser.collectLines ["/UPIintent"] "01-04-2023 UPI/FOO" =
  KotakParser.collectLines [] ("01-04-2023 UPI/FOO" ++ " " ++ trim "/UPIintent").
Proof.
  assert (Hs : KotakParser.stopsLine "/UPIintent" = false)
    by (vm_compute; reflexivity).
  assert (Ht : KotakParser.takesLine (trim "/UPIintent") = true)
    by (vm_compute; reflexivity).
  split; [exact Hs|]. split; [exact Ht|].
  exact (proj1 (C8_append_by_variant "/UPIintent" [] "01-04-2023 UPI/FOO")
               Hs Ht).
Defined.

(** C8 fails for HDFC: the continuation line "@OKAXIS" is taken and
    appended to "01/01/24 | UPI-FOO" with no space in between. *)
Lemma C8_counterexample_hdfc :
  HDFCParser.stopsLine "@OKAXIS" = false /\
  HDFCParser.takesLine (trim "@OKAXIS") = true /\
  HDFCParser.collectLines ["@OKAXIS"] "01/01/24 | UPI-FOO" =
    ("01/01/24 | UPI-FOO@OKAXIS", []) /\
  HDFCParser.cleanOCROutput (join LF ["01/01/24 | UPI-FOO"; "@OKAXIS"]) =
    "01/01/24 | UPI-FOO@OKAXIS" /\
  "01/01/24 | UPI-FOO@OKAXIS" <> "01/01/24 | UPI-FOO @OKAXIS".
Proof. repeat split; try (vm_compute; reflexivity). discriminate. Qed.

(* ================================================================== *)
(** * HDFC: categorizing by balance reconciliation *)

Lemma simplifiedLine_not_empty l cm :
  exec HDFCParser.simplifiedLine (trim l) = Some cm ->
  isEmpty (trim l) = false.
Proof.
  destruct (trim l); [|reflexivity]. vm_compute. discriminate.
Qed.

(** A line of the simplified shape is categorized; the direction
    comes from the next line for the first one and from the line
    before for the others. *)
Lemma categorizeAt_parsed lines i l cm :
  nth_error lines i = Some l ->
  exec HDFCParser.simplifiedLine (trim l) = Some cm ->
  HDFCParser.categorizeAt lines i =
  Some (HDFCParser.Categorized
          {| txDate := group 1 cm;
             txDescription := group 2 cm;
             txAmount := toFixed2 (abs (amountOf (group 3 cm)));
             txType :=
               match i with
               | O => HDFCParser.resolveFirst lines (amountOf (group 4 cm))
               | S i' =>
                   HDFCParser.resolveLater (trim (nth i' lines ""))
                     (amountOf (group 3 cm)) (amountOf (group 4 cm))
               end |}).
Proof.
  intros Hl Hm. unfold HDFCParser.categorizeAt. rewrite Hl.
  cbv zeta. rewrite (simplifiedLine_not_empty l cm Hm), Hm. reflexivity.
Qed.

(** A line of another shape is kept as it is. *)
Lemma categorizeAt_kept lines i l :
  nth_error lines i = Some l ->
  isEmpty (trim l) = false ->
  exec HDFCParser.simplifiedLine (trim l) = None ->
  HDFCParser.categorizeAt lines i = Some (HDFCParser.Kept (trim l)).
Proof.
  intros Hl He Hm. unfold HDFCParser.categorizeAt. rewrite Hl.
  cbv zeta. rewrite He, Hm. reflexivity.
Qed.

(** C1, as the code has it: for a record with a record before it
    that parses, the direction is DEBIT when the debit expectation
    [balance[i-1] - amount[i]] is closer to [balance[i]] than the
    credit expectation and within 0.01 of it, CREDIT when the credit
    expectation [balance[i-1] + amount[i]] is the closer one and
    within 0.01, and otherwise DEBIT if the balance went down and
    CREDIT if not.  For balances 1000.00, 900.00, 1050.00 and amounts
    100.00 and 150.00, record 1 is a DEBIT and record 2 a CREDIT. *)
Theorem C1_balance_reconciliation :
  (forall (lines : list string) (i : nat) (l p : string)
          (cm pm : MatchResult),
     nth_error lines (S i) = Some l ->
     nth_error lines i = Some p ->
     exec HDFCParser.simplifiedLine (trim l) = Some cm ->
     exec HDFCParser.simplifiedLine (trim p) = Some pm ->
     let prevBalance := amountOf (group 4 pm) in
     let amount := amountOf (group 3 cm) in
     let balance := amountOf (group 4 cm) in
     let debitDiff := abs (sub (sub prevBalance amount) balance) in
     let creditDiff := abs (sub (add prevBalance amount) balance) in
     exists t,
       HDFCParser.categorizeAt lines (S i) = Some (HDFCParser.Categorized t) /\
       txType t =
         if ltb debitDiff creditDiff && ltb debitDiff tolerance then DEBIT
         else if ltb creditDiff debitDiff && ltb creditDiff tolerance
              then CREDIT
              else if ltb balance prevBalance then DEBIT else CREDIT) /\
  HDFCParser.categorizedLines threeRecords =
    ["01/01/24 | OPENING | 100.00 | CREDIT";
     "02/01/24 | RENT | 100.00 | DEBIT";
     "03/01/24 | SALARY | 150.00 | CREDIT"].
Proof.
  split; [|vm_compute; reflexivity].
  intros lines i l p cm pm Hl Hp Hcm Hpm. cbv zeta.
  eexists. split; [apply (categorizeAt_parsed lines (S i) l cm Hl Hcm)|].
  cbn [txType]. unfold HDFCParser.resolveLater.
  rewrite (nth_error_nth lines i "" Hp), Hpm. reflexivity.
Qed.

(** Record 1 of the three records: 1000.00 - 100.00 is 900.00, so it
    is a DEBIT. *)
Lemma C1_witness_record_1 :
  exists t,
    HDFCParser.categorizeAt threeRecords 1 =
      Some (HDFCParser.Categorized t) /\
    txType t = DEBIT.
Proof.
  assert (Hl : nth_error threeRecords 1 =
               Some "02/01/24 | RENT | 100.00 900.00") by reflexivity.
  assert (Hp : nth_error threeRecords 0 =
               Some "01/01/24 | OPENING | 100.00 1000.00") by reflexivity.
  destruct (exec HDFCParser.simplifiedLine
              (trim "02/01/24 | RENT | 100.00 900.00")) as [cm|] eqn:Hcm;
    [|vm_compute in Hcm; discriminate Hcm].
  destruct (exec HDFCParser.simplifiedLine
              (trim "01/01/24 | OPENING | 100.00 1000.00")) as [pm|] eqn:Hpm;
    [|vm_compute in Hpm; discriminate Hpm].
  destruct (proj1 C1_balance_reconciliation threeRecords 0 _ _ cm pm
                  Hl Hp Hcm Hpm) as [t [Ht Hty]].
  exists t. split; [exact Ht|]. rewrite Hty.
  vm_compute in Hcm. vm_compute in Hpm.
  inversion Hcm; subst cm. inversion Hpm; subst pm.
  vm_compute. reflexivity.
Defined.

(** C1 fails as stated: with amount 0.00 and the balance unchanged at
    1000.00 both expectations are met exactly; neither is the closer
    one, so the code falls back to the balance change and says CREDIT,
    where the claim has DEBIT. *)
Lemma C1_counterexample_zero_amount :
  HDFCParser.categorizedLines
    ["01/01/24 | OPENING | 100.00 1000.00";
     "02/01/24 | NOTHING | 0.00 1000.00"] =
    ["01/01/24 | OPENING | 100.00 | DEBIT";
     "02/01/24 | NOTHING | 0.00 | CREDIT"] /\
  HDFCParser.reconcile (amountOf "1000.00") (amountOf "0.00")
                       (amountOf "1000.00") = CREDIT /\
  claimedDirection (amountOf "1000.00") (amountOf "0.00")
                   (amountOf "1000.00") = DEBIT.
Proof. repeat split; vm_compute; reflexivity. Qed.

(** C2, as the code has it: the first record is resolved by looking
    ahead to record 1.  It is a CREDIT when its balance is higher than
    that of record 1 and the difference is within 0.01 of the amount
    of record 1, and a DEBIT otherwise; it is UNKNOWN when record 1
    does not parse or when there is no record 1.  With balances 500.00
    and 400.00 and amount 100.00 at record 1, record 0 is a CREDIT. *)
Theorem C2_first_record_lookahead :
  (forall (lines : list string) (l : string) (cm : MatchResult),
     nth_error lines 0 = Some l ->
     exec HDFCParser.simplifiedLine (trim l) = Some cm ->
     exists t,
       HDFCParser.categorizeAt lines 0 = Some (HDFCParser.Categorized t) /\
       txType t =
         match nth_error lines 1 with
         | None => UNKNOWN
         | Some l1 =>
             match exec HDFCParser.simplifiedLine (trim l1) with
             | None => UNKNOWN
             | Some nm =>
                 let balance := amountOf (group 4 cm) in
                 let nextBalance := amountOf (group 4 nm) in
                 let nextAmount := amountOf (group 3 nm) in
                 if ltb (abs (sub (sub balance nextBalance) nextAmount))
                        tolerance && gtb balance nextBalance
                 then CREDIT
                 else DEBIT
             end
         end) /\
  HDFCParser.categorizedLines twoRecords =
    ["01/01/24 | OPENING | 200.00 | CREDIT";
     "02/01/24 | RENT | 100.00 | DEBIT"] /\
  HDFCParser.categorizedLines ["01/01/24 | OPENING | 200.00 500.00"] =
    ["01/01/24 | OPENING | 200.00 | UNKNOWN"].
Proof.
  split; [|split; vm_compute; reflexivity].
  intros lines l cm Hl Hcm.
  eexists. split; [apply (categorizeAt_parsed lines 0 l cm Hl Hcm)|].
  cbn [txType]. unfold HDFCParser.resolveFirst.
  destruct (nth_error lines 1) as [l1|]; [|reflexivity].
  destruct (exec HDFCParser.simplifiedLine (trim l1)); reflexivity.
Qed.

(** A single record has no record 1: its direction is UNKNOWN. *)
Lemma C2_witness_single_record :
  exists t,
    HDFCParser.categorizeAt ["01/01/24 | OPENING | 200.00 500.00"] 0 =
      Some (HDFCParser.Categorized t) /\
    txType t = UNKNOWN.
Proof.
  assert (Hl : nth_error ["01/01/24 | OPENING | 200.00 500.00"] 0 =
               Some "01/01/24 | OPENING | 200.00 500.00") by reflexivity.
  destruct (exec HDFCParser.simplifiedLine
              (trim "01/01/24 | OPENING | 200.00 500.00")) as [cm|] eqn:Hcm;
    [|vm_compute in Hcm; discriminate Hcm].
  destruct (proj1 C2_first_record_lookahead _ _ cm Hl Hcm) as [t [Ht Hty]].
  exists t. split; [exact Ht | exact Hty].
Defined.

(** C2 fails as stated: with balances 500.00 and 400.00 and amount
    100.00 at record 1, the lookahead makes record 0 a CREDIT, not a
    DEBIT. *)
Lemma C2_counterexample_credit :
  HDFCParser.categorizeAt twoRecords 0 =
    Some (HDFCParser.Categorized
            {| txDate := "01/01/24"; txDescription := "OPENING";
               txAmount := "200.00"; txType := CREDIT |}) /\
  HDFCParser.categorizeTransactions
    (join LF ["01/01/24 | OPENING | 200.00 500.00"; "";
              "02/01/24 | RENT | 100.00 400.00"]) =
    join LF ["01/01/24 | OPENING | 200.00 | CREDIT"; "";
             "02/01/24 | RENT | 100.00 | DEBIT"] /\
  CREDIT <> DEBIT.
Proof. repeat split; try (vm_compute; reflexivity). discriminate. Qed.

(* ================================================================== *)
(** * HDFC: lines that do not parse *)

Lemma isEmpty_app (a b : string) :
  isEmpty (a ++ b) = isEmpty a && isEmpty b.
Proof. destruct a; reflexivity. Qed.

Lemma some_inj (A : Type) (a b : A) : Some a = Some b -> a = b.
Proof. intros H. injection H as H. exact H. Qed.

(** What [parseTransactionLine] returns is never the empty string. *)
Lemma parseTransactionLine_not_empty line s :
  HDFCParser.parseTransactionLine line = Some s -> isEmpty s = false.
Proof.
  unfold HDFCParser.parseTransactionLine.
  destruct (exec HDFCParser.leadingDate _); [|discriminate].
  destruct (Nat.ltb _ 2); [discriminate|].
  intros H. apply some_inj in H. rewrite <- H, isEmpty_app.
  apply andb_false_intro2. reflexivity.
Qed.


(* ================================================================== *)
(** * Amounts are not negative *)

Ltac no_dup :=
  repeat (constructor; [simpl; intuition discriminate|]); constructor.

Lemma hdfc_amount_shape s cm :
  exec HDFCParser.simplifiedLine s = Some cm ->
  InLang false amountBody (of_string (group 3 cm)).
Proof.
  intros H.
  apply (group_sound amountGroup HDFCParser.simplifiedLine s cm 3);
    [| | |exact H|reflexivity].
  - cbn. repeat split; try exact I; intros w Hw E; try discriminate E.
    exact Hw.
  - cbn. no_dup.
  - cbn. auto.
Qed.

Lemma kotak_amount_shape s mt :
  exec KotakParser.transactionRegex s = Some mt ->
  InLang false amountBody (of_string (group 3 mt)).
Proof.
  intros H.
  apply (group_sound amountGroup KotakParser.transactionRegex s mt 3);
    [| | |exact H|reflexivity].
  - cbn. repeat split; try exact I; intros w Hw E; try discriminate E.
    exact Hw.
  - cbn. no_dup.
  - cbn. auto.
Qed.

Lemma amount_shape_nonneg (s : string) :
  InLang false amountBody (of_string s) ->
  isNonNegative (amountOf s) = true.
Proof.
  intros H. rewrite <- (to_of_string s). apply amountBody_nonneg, H.
Qed.

Lemma nonNegativeAmount_iff s :
  nonNegativeAmount s <-> isNonNegative (amountOf s) = true.
Proof. unfold nonNegativeAmount. rewrite leb_zero_iff. tauto. Qed.

Lemma icici_resolve_nonneg w d :
  nonNegativeAmount (snd (ICICIParser.resolve w d)).
Proof.
  unfold ICICIParser.resolve.
  destruct (gtb (amountOf w) zero && eqb (amountOf d) zero) eqn:E1.
  - apply andb_prop in E1. destruct E1 as [E1 _].
    apply ltb_zero_leb, E1.
  - destruct (gtb (amountOf d) zero && eqb (amountOf w) zero) eqn:E2.
    + apply andb_prop in E2. destruct E2 as [E2 _].
      apply ltb_zero_leb, E2.
    + vm_compute. reflexivity.
Qed.

(** C6: the amount of every categorized transaction is non-negative,
    for each variant: read as a number (commas dropped), the amount
    field the categorizer writes is at least zero, whatever the
    source line. *)
Theorem C6_amount_non_negative :
  (forall (lines : list string) (i : nat) (t : Transaction),
     HDFCParser.categorizeAt lines i = Some (HDFCParser.Categorized t) ->
     nonNegativeAmount (txAmount t)) /\
  (forall (line : string) (t : Transaction),
     KotakParser.categorizeLine line = Some t ->
     nonNegativeAmount (txAmount t)) /\
  (forall (line : string) (t : Transaction),
     ICICIParser.categorizeLine line = Some t ->
     nonNegativeAmount (txAmount t)).
Proof.
  split; [|split].
  - intros lines i t. unfold HDFCParser.categorizeAt.
    destruct (nth_error lines i) as [l|]; [|discriminate].
    cbv zeta. destruct (isEmpty (trim l)); [discriminate|].
    destruct (exec HDFCParser.simplifiedLine (trim l)) as [cm|] eqn:E;
      [|discriminate].
    intros H. apply some_inj in H.
    apply (f_equal (fun p => match p with
                             | HDFCParser.Categorized t' => txAmount t'
                             | HDFCParser.Kept _ => ""
                             end)) in H.
    cbn [txAmount] in H. rewrite <- H. apply toFixed2_nonneg, abs_nonneg, amount_shape_nonneg.
    apply (hdfc_amount_shape _ _ E).
  - intros line t. unfold KotakParser.categorizeLine.
    destruct (exec KotakParser.transactionRegex line) as [mt|] eqn:E;
      [|discriminate].
    intros H. apply some_inj in H. rewrite <- H. cbn [txAmount].
    apply nonNegativeAmount_iff, amount_shape_nonneg.
    apply (kotak_amount_shape _ _ E).
  - intros line t. unfold ICICIParser.categorizeLine. cbv zeta.
    destruct (Nat.ltb _ 3); [discriminate|].
    destruct (Nat.ltb _ 3); [discriminate|].
    pose proof (icici_resolve_nonneg
                  (nth 0 (ICICIParser.columns (split "|" line)) "")
                  (nth 1 (ICICIParser.columns (split "|" line)) "")) as Hr.
    destruct (ICICIParser.resolve _ _) as [ty amt]. simpl in Hr.
    intros H. apply some_inj in H. rewrite <- H. exact Hr.
Qed.

(** A Kotak line with amount 250.00: the amount written is
    non-negative. *)
Lemma C6_witness_kotak :
  exists t,
    KotakParser.categorizeLine "01-04-2023 | Swiggy | 250.00(Dr)" = Some t /\
    nonNegativeAmount (txAmount t).
Proof.
  destruct (KotakParser.categorizeLine "01-04-2023 | Swiggy | 250.00(Dr)")
    as [t|] eqn:E; [|vm_compute in E; discriminate E].
  exists t. split; [reflexivity|].
  exact (proj1 (proj2 C6_amount_non_negative)
               "01-04-2023 | Swiggy | 250.00(Dr)" t E).
Defined.


(** ** The columns the field extractor writes *)

Lemma parseFloat_l_figure : forall l,
  Forall (fun c => isDigit c = true \/ c = "."%char) l ->
  parseFloat_l l = NaN \/ exists v e, parseFloat_l l = ofDecimal false v e.
Proof.
  intros [|c t] H; [left; reflexivity|].
  inversion H as [|? ? Hc Ht]; subst.
  destruct Hc as [Hc| ->]; [right; apply parseFloat_l_digit, Hc|].
  destruct t as [|d t]; [left; reflexivity|].
  inversion Ht as [|? ? Hd _]; subst.
  destruct Hd as [Hd| ->]; [right; apply parseFloat_l_point, Hd|].
  left. reflexivity.
Qed.

Lemma figure_char x :
  inClass false [CDigit; CChar ","; CChar "."] x = true ->
  notComma x = false \/ isDigit x = true \/ x = "."%char.
Proof.
  unfold inClass, notComma. cbn [existsb inItem andb].
  rewrite !orb_false_r, (Ascii.eqb_sym "," x).
  destruct (isDigit x); [auto|]. cbn [orb].
  destruct (Ascii.eqb x ","); [auto|]. cbn [orb]. intros H.
  apply Ascii.eqb_eq in H. auto.
Qed.

Lemma filter_figure w :
  Forall (fun x => inClass false [CDigit; CChar ","; CChar "."] x = true) w ->
  Forall (fun c => isDigit c = true \/ c = "."%char) (filter notComma w).
Proof.
  induction 1 as [|x w Hx _ IH]; simpl; [constructor|].
  destruct (figure_char x Hx) as [Hc|Hd].
  - rewrite Hc. assumption.
  - destruct (notComma x); [constructor|]; assumption.
Qed.

(** A word of [[\d,.]*\d] reads as no number or as a number that is
    not negative. *)
Lemma figure_unsigned w :
  InLang false ICICIParser.figure w ->
  amountOf (to_string w) = NaN \/
  isNonNegative (amountOf (to_string w)) = true.
Proof.
  unfold ICICIParser.figure, seqs, star, digit.
  intros [w1 [w2 [-> [H1 [d [-> Hd]]]]]].
  apply InLang_class_rep in H1. destruct H1 as [F1 _].
  apply inClass_digit in Hd.
  rewrite amountOf_chars.
  assert (F : Forall (fun c => isDigit c = true \/ c = "."%char)
                     (filter notComma (w1 ++ [d]))).
  { rewrite filter_app. apply Forall_app. split.
    - apply filter_figure, F1.
    - simpl. destruct (notComma d); constructor; auto. }
  destruct (parseFloat_l_figure _ F) as [-> |[v [e ->]]]; [auto|].
  right. apply ofDecimal_nonneg.
Qed.

Lemma icici_columns_unsigned s r n :
  n = 2 \/ n = 3 ->
  exec ICICIParser.amountRegex s = Some r ->
  amountOf (group n r) = NaN \/ isNonNegative (amountOf (group n r)) = true.
Proof.
  intros Hn H. rewrite <- (to_of_string (group n r)).
  apply figure_unsigned.
  apply (group_sound columnGroup ICICIParser.amountRegex s r n);
    [| | |exact H|exact Hn].
  - cbn. repeat split; try exact I; intros w Hw E;
      try (destruct E as [E|E]; discriminate E); exact Hw.
  - cbn. no_dup.
  - cbn. destruct Hn as [->| ->]; auto.
Qed.
(* ================================================================== *)
(** * ICICI: the direction from the two columns *)

(** For a number that is not negative, above zero is the same as not
    zero. *)
Lemma gtb_zero_nonneg x :
  leb zero x = true -> gtb x zero = negb (eqb x zero).
Proof. destruct x as [s|s| |s mt e]; try destruct s; simpl; auto. Qed.


(* ================================================================== *)
(** * Kotak: the direction is the indicator *)

Ltac shapes_sat :=
  cbn; repeat split; try exact I;
  intros w Hw r Hr; cbn in Hr;
  repeat (destruct Hr as [Hr|Hr];
          [inversion Hr; subst; try exact Hw|]);
  try contradiction.

Lemma lit_word (ic : bool) (s : string) (w : chars) :
  ic = false -> InLang ic (lit s) w -> w = of_string s.
Proof.
  intros ->. unfold lit. revert w.
  induction (of_string s) as [|c l IH]; intros w H.
  - exact H.
  - destruct l as [|c' l'].
    + cbn in H. destruct H as [x [-> Hx]].
      unfold charMatches in Hx. cbn in Hx.
      apply Ascii.eqb_eq in Hx. subst. reflexivity.
    + cbn [map seqs] in H. cbn [InLang] in H.
      destruct H as [w1 [w2 [-> [[x [-> Hx]] H2]]]].
      unfold charMatches in Hx. cbn in Hx.
      apply Ascii.eqb_eq in Hx. subst x.
      cbn [map seqs] in IH. rewrite (IH w2 H2). reflexivity.
Qed.

Lemma kotak_indicator s mt :
  exec KotakParser.transactionRegex s = Some mt ->
  group 4 mt = "Cr" \/ group 4 mt = "Dr".
Proof.
  intros H.
  assert (L : groupShape false [(4, Alt (lit "Cr") (lit "Dr"))] 4
                         (of_string (group 4 mt))).
  { apply (group_sound _ KotakParser.transactionRegex s mt 4);
      [| | |exact H].
    - shapes_sat.
    - cbn. no_dup.
    - cbn. auto 10. }
  specialize (L _ (or_introl eq_refl)).
  rewrite <- (to_of_string (group 4 mt)).
  destruct L as [L|L]; apply lit_word in L; try reflexivity;
    rewrite L; auto.
Qed.

(** X1: the Kotak categorizer takes the direction from the indicator
    after the amount: a line of the simplified shape is categorized
    with the date and the amount it carries, as a CREDIT when the
    indicator is (Cr) and as a DEBIT when it is (Dr) -- there is no
    other indicator; a line of another shape is dropped; no Kotak
    record is UNKNOWN. *)
Theorem kotak_direction_is_indicator :
  (forall (line : string) (mt : MatchResult),
     exec KotakParser.transactionRegex line = Some mt ->
     exists t,
       KotakParser.categorizeLine line = Some t /\
       txDate t = group 1 mt /\
       txAmount t = group 3 mt /\
       ((group 4 mt = "Cr" /\ txType t = CREDIT) \/
        (group 4 mt = "Dr" /\ txType t = DEBIT))) /\
  (forall line : string,
     exec KotakParser.transactionRegex line = None ->
     KotakParser.categorizeLine line = None) /\
  (forall (line : string) (t : Transaction),
     KotakParser.categorizeLine line = Some t ->
     txType t = CREDIT \/ txType t = DEBIT).
Proof.
  split; [|split].
  - intros line mt H. unfold KotakParser.categorizeLine. rewrite H.
    eexists. split; [reflexivity|]. cbn [txDate txAmount txType].
    split; [reflexivity|]. split; [reflexivity|].
    destruct (kotak_indicator line mt H) as [E|E]; rewrite E; auto.
  - intros line H. unfold KotakParser.categorizeLine. rewrite H.
    reflexivity.
  - intros line t. unfold KotakParser.categorizeLine.
    destruct (exec KotakParser.transactionRegex line) as [mt|];
      [|discriminate].
    intros H. apply some_inj in H. rewrite <- H. cbn [txType].
    destruct (String.eqb (group 4 mt) "Cr"); auto.
Qed.

(** A payment of 250.00 marked (Dr) is a DEBIT. *)
Lemma kotak_direction_witness :
  exists mt t,
    exec KotakParser.transactionRegex "01-04-2023 | Swiggy | 250.00(Dr)"
      = Some mt /\
    KotakParser.categorizeLine "01-04-2023 | Swiggy | 250.00(Dr)"
      = Some t /\
    txDate t = "01-04-2023" /\ txAmount t = "250.00" /\ txType t = DEBIT.
Proof.
  destruct (exec KotakParser.transactionRegex
              "01-04-2023 | Swiggy | 250.00(Dr)") as [mt|] eqn:E;
    [|vm_compute in E; discriminate E].
  destruct (proj1 kotak_direction_is_indicator _ mt E)
    as [t [Ht [Hd [Ha Hty]]]].
  exists mt, t. split; [reflexivity|]. split; [exact Ht|].
  assert (Et : KotakParser.categorizeLine
                 "01-04-2023 | Swiggy | 250.00(Dr)" =
               Some {| txDate := "01-04-2023"; txDescription := "Swiggy";
                       txAmount := "250.00"; txType := DEBIT |})
    by (vm_compute; reflexivity).
  rewrite Et in Ht. apply some_inj in Ht. rewrite <- Ht.
  repeat split; reflexivity.
Defined.

(* ================================================================== *)
(** * HDFC: the categorizer keeps every line *)

Lemma flat_map_singletons (A B : Type) (f : A -> list B) (g : A -> B)
    (l : list A) :
  (forall a, In a l -> f a = [g a]) -> flat_map f l = map g l.
Proof.
  induction l as [|a l IH]; intros H; [reflexivity|].
  simpl. rewrite (H a (or_introl eq_refl)), IH; [reflexivity|].
  intros b Hb. apply H. right. exact Hb.
Qed.

Lemma hdfc_categorizeAt_some lines i l :
  nth_error lines i = Some l ->
  isEmpty (trim l) = false ->
  exists p, HDFCParser.categorizeAt lines i = Some p.
Proof.
  intros Hl He. unfold HDFCParser.categorizeAt. rewrite Hl. cbv zeta.
  rewrite He.
  destruct (exec HDFCParser.simplifiedLine (trim l)); eauto.
Qed.

Lemma hdfc_categorizedLines_pushed lines :
  Forall (fun l => isEmpty (trim l) = false) lines ->
  HDFCParser.categorizedLines lines =
  map (pushedAt lines) (seq 0 (List.length lines)).
Proof.
  intros F. unfold HDFCParser.categorizedLines.
  apply flat_map_singletons.
  intros i Hi. apply in_seq in Hi.
  destruct (nth_error lines i) as [l|] eqn:E;
    [|apply nth_error_None in E; lia].
  destruct (hdfc_categorizeAt_some lines i l E) as [p Hp].
  { rewrite Forall_forall in F. apply F. eapply nth_error_In, E. }
  unfold pushedAt. rewrite Hp. reflexivity.
Qed.

Lemma hdfc_categorizedLines_nth lines i p :
  Forall (fun l => isEmpty (trim l) = false) lines ->
  HDFCParser.categorizeAt lines i = Some p ->
  nth_error (HDFCParser.categorizedLines lines) i =
  Some (HDFCParser.pushedLine p).
Proof.
  intros F Hp.
  assert (Hi : i < List.length lines).
  { unfold HDFCParser.categorizeAt in Hp.
    destruct (nth_error lines i) eqn:E; [|discriminate].
    apply nth_error_Some. congruence. }
  rewrite (hdfc_categorizedLines_pushed lines F), nth_error_map.
  rewrite (nth_error_nth' _ 0) by (rewrite length_seq; exact Hi).
  rewrite seq_nth by exact Hi. cbn [option_map Nat.add].
  unfold pushedAt. rewrite Hp. reflexivity.
Qed.

(** X2: the HDFC categorizer never loses a line.  On lines none of
    which is blank (as those of [categorizeTransactions] are, after
    the filter) the output has as many entries as there are lines, and
    entry [i] comes from line [i]: it is the trimmed line itself when
    the line is not a simplified record, and otherwise the record
    [date | description | amount | DIRECTION] made of the first two
    fields of the line, of the absolute value of its amount written
    with two decimals, and of the direction that the next line (for
    the first record) or the line before (for the others) gives. *)
Theorem hdfc_categorizer_keeps_every_line :
  forall lines : list string,
    Forall (fun l => isEmpty (trim l) = false) lines ->
    List.length (HDFCParser.categorizedLines lines) = List.length lines /\
    (forall (i : nat) (l : string),
       nth_error lines i = Some l ->
       (exec HDFCParser.simplifiedLine (trim l) = None ->
        nth_error (HDFCParser.categorizedLines lines) i = Some (trim l)) /\
       (forall cm : MatchResult,
          exec HDFCParser.simplifiedLine (trim l) = Some cm ->
          nth_error (HDFCParser.categorizedLines lines) i =
          Some (group 1 cm ++ " | " ++ group 2 cm ++ " | " ++
                toFixed2 (abs (amountOf (group 3 cm))) ++ " | " ++
                directionName
                  match i with
                  | O => HDFCParser.resolveFirst lines
                           (amountOf (group 4 cm))
                  | S i' =>
                      HDFCParser.resolveLater (trim (nth i' lines ""))
                        (amountOf (group 3 cm)) (amountOf (group 4 cm))
                  end))).
Proof.
  intros lines F. split.
  - rewrite (hdfc_categorizedLines_pushed lines F), length_map, length_seq.
    reflexivity.
  - intros i l Hl.
    assert (He : isEmpty (trim l) = false).
    { rewrite Forall_forall in F. apply F. eapply nth_error_In, Hl. }
    split.
    + intros Hn.
      rewrite (hdfc_categorizedLines_nth lines i _ F
                 (categorizeAt_kept lines i l Hl He Hn)).
      reflexivity.
    + intros cm Hcm.
      rewrite (hdfc_categorizedLines_nth lines i _ F
                 (categorizeAt_parsed lines i l cm Hl Hcm)).
      reflexivity.
Qed.

(** A record and a line of another shape: two entries, the second
    being the line, trimmed. *)
Lemma hdfc_keeps_witness :
  Forall (fun l => isEmpty (trim l) = false)
         ["01/01/24 | OPENING | 100.00 1000.00"; "  carried forward "] /\
  nth_error ["01/01/24 | OPENING | 100.00 1000.00"; "  carried forward "] 1
    = Some "  carried forward " /\
  exec HDFCParser.simplifiedLine (trim "  carried forward ") = None /\
  List.length
    (HDFCParser.categorizedLines
       ["01/01/24 | OPENING | 100.00 1000.00"; "  carried forward "]) = 2 /\
  nth_error
    (HDFCParser.categorizedLines
       ["01/01/24 | OPENING | 100.00 1000.00"; "  carried forward "]) 1
    = Some "carried forward".
Proof.
  assert (F : Forall (fun l => isEmpty (trim l) = false)
                ["01/01/24 | OPENING | 100.00 1000.00";
                 "  carried forward "])
    by (repeat constructor).
  assert (Hl : nth_error ["01/01/24 | OPENING | 100.00 1000.00";
                          "  carried forward "] 1
               = Some "  carried forward ") by reflexivity.
  assert (Hn : exec HDFCParser.simplifiedLine (trim "  carried forward ")
               = None) by (vm_compute; reflexivity).
  split; [exact F|]. split; [exact Hl|]. split; [exact Hn|].
  split.
  - exact (proj1 (hdfc_categorizer_keeps_every_line _ F)).
  - exact (proj1 (proj2 (hdfc_categorizer_keeps_every_line _ F) 1 _ Hl) Hn).
Defined.

(* ================================================================== *)
(** * HDFC: when the direction is UNKNOWN *)

Lemma reconcile_known a b c : HDFCParser.reconcile a b c <> UNKNOWN.
Proof.
  unfold HDFCParser.reconcile. cbv zeta.
  repeat match goal with
         | |- context [if ?x then _ else _] => destruct x
         end; discriminate.
Qed.

Lemma resolveLater_unknown prevLine a b :
  HDFCParser.resolveLater prevLine a b = UNKNOWN <->
  exec HDFCParser.simplifiedLine prevLine = None.
Proof.
  unfold HDFCParser.resolveLater.
  destruct (exec HDFCParser.simplifiedLine prevLine) as [pm|].
  - split; [|discriminate]. intros H. exfalso.
    exact (reconcile_known _ _ _ H).
  - tauto.
Qed.

Lemma resolveFirst_unknown lines b :
  HDFCParser.resolveFirst lines b = UNKNOWN <->
  (forall l, nth_error lines 1 = Some l ->
             exec HDFCParser.simplifiedLine (trim l) = None).
Proof.
  unfold HDFCParser.resolveFirst.
  destruct (nth_error lines 1) as [l1|].
  - cbv zeta.
    destruct (exec HDFCParser.simplifiedLine (trim l1)) as [nm|] eqn:E.
    + split.
      * destruct (_ && _); discriminate.
      * intros H. specialize (H l1 eq_refl). congruence.
    + split; [|reflexivity]. intros _ l H. inversion H; subst. exact E.
  - split; [|reflexivity]. intros _ l H. discriminate H.
Qed.

(** X3: an HDFC record is UNKNOWN exactly when the line that decides
    its direction is missing or is not a simplified record: the next
    line for the first record, the line before for every other
    record.  A line that the categorizer keeps as it is therefore
    makes the record after it UNKNOWN. *)
Theorem hdfc_unknown_iff_neighbour_unparsed :
  forall (lines : list string) (i : nat) (t : Transaction),
    HDFCParser.categorizeAt lines i = Some (HDFCParser.Categorized t) ->
    (txType t = UNKNOWN <->
     forall l, neighbour lines i = Some l ->
               exec HDFCParser.simplifiedLine (trim l) = None).
Proof.
  intros lines i t. unfold HDFCParser.categorizeAt.
  destruct (nth_error lines i) as [l|] eqn:El; [|discriminate].
  cbv zeta. destruct (isEmpty (trim l)); [discriminate|].
  destruct (exec HDFCParser.simplifiedLine (trim l)) as [cm|];
    [|discriminate].
  intros H.
  apply (f_equal (fun p => match p with
                           | Some (HDFCParser.Categorized t') => txType t'
                           | _ => UNKNOWN
                           end)) in H.
  cbn [txType] in H. rewrite <- H. clear H.
  destruct i as [|i']; cbn [neighbour].
  - apply resolveFirst_unknown.
  - rewrite resolveLater_unknown.
    assert (Hi : i' < List.length lines).
    { assert (S i' < List.length lines)
        by (apply nth_error_Some; congruence). lia. }
    destruct (nth_error lines i') as [p|] eqn:Ep;
      [|apply nth_error_None in Ep; lia].
    rewrite (nth_error_nth _ _ "" Ep).
    split.
    + intros Hn l' Hl'. inversion Hl'; subst. exact Hn.
    + intros Hn. apply Hn. reflexivity.
Qed.

(** After the line without a date, which is kept as it is, the
    record is UNKNOWN. *)
Lemma hdfc_unknown_witness :
  exists t,
    HDFCParser.categorizeAt
      [undatedLine; "02/01/24 | RENT | 100.00 900.00"] 1 =
      Some (HDFCParser.Categorized t) /\
    exec HDFCParser.simplifiedLine (trim undatedLine) = None /\
    txType t = UNKNOWN.
Proof.
  destruct (HDFCParser.categorizeAt
              [undatedLine; "02/01/24 | RENT | 100.00 900.00"] 1)
    as [[k|t]|] eqn:E; try (vm_compute in E; discriminate E).
  exists t. split; [reflexivity|].
  assert (Hu : exec HDFCParser.simplifiedLine (trim undatedLine) = None)
    by (vm_compute; reflexivity).
  split; [exact Hu|].
  apply (proj2 (hdfc_unknown_iff_neighbour_unparsed _ 1 t E)).
  intros l Hl. cbn in Hl. inversion Hl; subst. exact Hu.
Defined.

(* ================================================================== *)
(** * The merger: where a record comes from *)

Section MergerShape.

Variables isTransaction isHeaderLine isPersonalInfoLine accepts
  : string -> bool.
Variable append : string -> string -> string.
Variable finish : string -> option string.

Let collect' := collect isTransaction isHeaderLine accepts append.
Let scan' :=
  scan isTransaction isHeaderLine isPersonalInfoLine accepts append finish.
Let starts := startsRecord isTransaction isHeaderLine isPersonalInfoLine.
Let stops := stopsRecord isTransaction isHeaderLine.

(** A line the inner loop takes. *)
Let taken_ok (l : string) : Prop :=
  stops l = false /\ accepts (trim l) = true.

(** The inner loop takes a run of lines and appends them, trimmed, in
    order. *)
Lemma collect_fold : forall more text,
  exists taken,
    more = (taken ++ snd (collect' more text))%list /\
    Forall taken_ok taken /\
    fst (collect' more text) = fold_left append (map trim taken) text.
Proof.
  induction more as [|l more IH]; intros text; simpl.
  - exists []. repeat split. constructor.
  - destruct (isEmpty (trim l) || isTransaction (trim l) ||
              isHeaderLine (trim l)) eqn:Estop.
    + exists []. repeat split. constructor.
    + destruct (accepts (trim l)) eqn:Eacc.
      * destruct (IH (append text (trim l))) as [taken [E [F Hf]]].
        exists (l :: taken). split; [simpl; f_equal; exact E|].
        split; [|exact Hf].
        constructor; [|assumption]. split; assumption.
      * exists []. repeat split. constructor.
Qed.

(** Every record pushed is a start line with the run of lines taken
    after it. *)
Lemma scan_records : forall fuel lines r,
  List.length lines <= fuel ->
  In r (scan' fuel lines) ->
  exists before l taken after,
    lines = (before ++ l :: taken ++ after)%list /\
    starts l = true /\
    Forall taken_ok taken /\
    finish (fold_left append (map trim taken) (trim l)) = Some r.
Proof.
  induction fuel as [|fuel IH]; intros lines r H Hin.
  - destruct lines; contradiction.
  - destruct lines as [|l more]; [contradiction|]. simpl in H.
    assert (Hskip : In r (scan' fuel more) ->
      exists before l0 taken after,
        (l :: more = before ++ l0 :: taken ++ after)%list /\
        starts l0 = true /\ Forall taken_ok taken /\
        finish (fold_left append (map trim taken) (trim l0)) = Some r).
    { intros Hr. destruct (IH more r) as [b [l0 [t [a [E R]]]]];
        [lia | exact Hr|].
      exists (l :: b), l0, t, a. split; [simpl; f_equal; exact E | exact R]. }
    unfold scan' in Hin. simpl in Hin. fold scan' in Hin.
    fold collect' in Hin.
    destruct (isEmpty (trim l)) eqn:He; [auto|].
    destruct (isHeaderLine (trim l) || isPersonalInfoLine (trim l)) eqn:Eh;
      [auto|].
    destruct (isTransaction (trim l)) eqn:Et; [|auto].
    assert (Hs : starts l = true)
      by (unfold starts, startsRecord; rewrite He, Eh, Et; reflexivity).
    destruct (collect_fold more (trim l)) as [taken [E [F Hf]]].
    assert (Hsh : List.length (snd (collect' more (trim l))) <=
                  List.length more)
      by exact (collect_shorter isTransaction isHeaderLine
                  isPersonalInfoLine accepts append more (trim l)).
    destruct (collect' more (trim l)) as [text more'].
    simpl in E, Hf, Hsh.
    assert (Hrest : In r (scan' fuel more') ->
      exists before l0 taken0 after,
        (l :: more = before ++ l0 :: taken0 ++ after)%list /\
        starts l0 = true /\ Forall taken_ok taken0 /\
        finish (fold_left append (map trim taken0) (trim l0)) = Some r).
    { intros Hr. destruct (IH more' r) as [b [l0 [t [a [E' R]]]]];
        [lia | exact Hr|].
      exists (l :: taken ++ b)%list, l0, t, a.
      split; [|exact R]. rewrite E, E'. simpl. f_equal.
      rewrite <- app_assoc. reflexivity. }
    destruct (finish text) as [t|] eqn:Ef; [|auto].
    destruct Hin as [Hr|Hr]; [|auto].
    subst t. exists [], l, taken, more'.
    split; [simpl; f_equal; exact E|].
    split; [exact Hs|]. split; [exact F|]. rewrite <- Hf. exact Ef.
Qed.

(** Lines that are all blank start nothing. *)
Lemma scan_blank : forall fuel lines,
  Forall (fun l => isEmpty (trim l) = true) lines ->
  scan' fuel lines = [].
Proof.
  induction fuel as [|fuel IH]; intros lines F; [reflexivity|].
  destruct lines as [|l more]; [reflexivity|].
  inversion F as [|? ? Hl Hmore]; subst.
  unfold scan'. simpl. rewrite Hl. apply IH, Hmore.
Qed.

End MergerShape.

Lemma string_app_assoc (a b c : string) : (a ++ b) ++ c = a ++ b ++ c.
Proof. induction a as [|x a IH]; simpl; [reflexivity|]. rewrite IH. reflexivity. Qed.

Lemma fold_append_join (sep : string) : forall xs t0,
  fold_left (fun t n => t ++ sep ++ n) xs t0 = join sep (t0 :: xs).
Proof.
  assert (Hj : forall xs a x,
            join sep ((a ++ sep ++ x) :: xs) = a ++ sep ++ join sep (x :: xs)).
  { intros [|y ys] a x; [reflexivity|].
    cbn [join]. rewrite !string_app_assoc. reflexivity. }
  induction xs as [|x xs IH]; intros t0; [reflexivity|].
  cbn [fold_left]. rewrite IH. apply Hj.
Qed.

Section MergerRuns.

Variables isTransaction isHeaderLine isPersonalInfoLine accepts
  : string -> bool.
Variable append : string -> string -> string.
Variable finish : string -> option string.

Let collect' := collect isTransaction isHeaderLine accepts append.
Let scan' :=
  scan isTransaction isHeaderLine isPersonalInfoLine accepts append finish.
Let starts := startsRecord isTransaction isHeaderLine isPersonalInfoLine.
Let stops := stopsRecord isTransaction isHeaderLine.

Let taken_ok (l : string) : Prop :=
  stops l = false /\ accepts (trim l) = true.

Lemma collect_step_stop l more text :
  stops l = true \/ accepts (trim l) = false ->
  collect' (l :: more) text = (text, l :: more).
Proof.
  unfold stops, stopsRecord, collect'. simpl. intros H.
  destruct (isEmpty (trim l) || isTransaction (trim l) ||
            isHeaderLine (trim l)); [reflexivity|].
  destruct H as [H|H]; [discriminate H|]. rewrite H. reflexivity.
Qed.

Lemma collect_step_take l more text :
  taken_ok l ->
  collect' (l :: more) text = collect' more (append text (trim l)).
Proof.
  unfold taken_ok, stops, stopsRecord, collect'. simpl. intros [H1 H2].
  rewrite H1, H2. reflexivity.
Qed.

Lemma taken_or_not l :
  taken_ok l \/ (stops l = true \/ accepts (trim l) = false).
Proof.
  unfold taken_ok. destruct (stops l); [right; left; reflexivity|].
  destruct (accepts (trim l)); [left; split; reflexivity|].
  right; right; reflexivity.
Qed.

(** The inner loop takes the whole run of lines up to the first one
    that ends it. *)
Lemma collect_run : forall taken after text,
  Forall taken_ok taken ->
  endsRun stops accepts after ->
  collect' (taken ++ after)%list text =
  (fold_left append (map trim taken) text, after).
Proof.
  induction taken as [|l taken IH]; intros after text F Hend.
  - destruct after as [|x rest]; [reflexivity|].
    apply collect_step_stop. exact Hend.
  - cbn [app map fold_left].
    rewrite collect_step_take by exact (Forall_inv F).
    apply IH; [exact (Forall_inv_tail F) | exact Hend].
Qed.

Lemma collect_split : forall more text,
  exists taken,
    more = (taken ++ snd (collect' more text))%list /\
    Forall taken_ok taken /\
    endsRun stops accepts (snd (collect' more text)) /\
    fst (collect' more text) = fold_left append (map trim taken) text.
Proof.
  induction more as [|l more IH]; intros text.
  - exists []. repeat split. constructor.
  - destruct (taken_or_not l) as [Hl|Hl].
    + rewrite (collect_step_take l more text Hl).
      destruct (IH (append text (trim l))) as [taken [E [F [Hend Hf]]]].
      exists (l :: taken). split; [simpl; f_equal; exact E|].
      split; [constructor; assumption|]. split; assumption.
    + rewrite (collect_step_stop l more text Hl).
      exists []. repeat split; [constructor | exact Hl].
Qed.

(** Every record pushed is a start line with the whole run of lines
    taken after it. *)
Lemma scan_records_run : forall fuel lines r,
  List.length lines <= fuel ->
  In r (scan' fuel lines) ->
  exists before l taken after,
    lines = (before ++ l :: taken ++ after)%list /\
    starts l = true /\
    Forall taken_ok taken /\
    endsRun stops accepts after /\
    finish (fold_left append (map trim taken) (trim l)) = Some r.
Proof.
  induction fuel as [|fuel IH]; intros lines r H Hin.
  - destruct lines; contradiction.
  - destruct lines as [|l more]; [contradiction|]. simpl in H.
    assert (Hskip : In r (scan' fuel more) ->
      exists before l0 taken after,
        (l :: more = before ++ l0 :: taken ++ after)%list /\
        starts l0 = true /\ Forall taken_ok taken /\
        endsRun stops accepts after /\
        finish (fold_left append (map trim taken) (trim l0)) = Some r).
    { intros Hr. destruct (IH more r) as [b [l0 [t [a [E R]]]]];
        [lia | exact Hr|].
      exists (l :: b), l0, t, a. split; [simpl; f_equal; exact E | exact R]. }
    unfold scan' in Hin. simpl in Hin. fold scan' in Hin.
    fold collect' in Hin.
    destruct (isEmpty (trim l)) eqn:He; [auto|].
    destruct (isHeaderLine (trim l) || isPersonalInfoLine (trim l)) eqn:Eh;
      [auto|].
    destruct (isTransaction (trim l)) eqn:Et; [|auto].
    assert (Hs : starts l = true)
      by (unfold starts, startsRecord; rewrite He, Eh, Et; reflexivity).
    destruct (collect_split more (trim l)) as [taken [E [F [Hend Hf]]]].
    assert (Hsh : List.length (snd (collect' more (trim l))) <=
                  List.length more)
      by exact (collect_shorter isTransaction isHeaderLine
                  isPersonalInfoLine accepts append more (trim l)).
    destruct (collect' more (trim l)) as [text more'].
    simpl in E, Hf, Hsh, Hend.
    assert (Hrest : In r (scan' fuel more') ->
      exists before l0 taken0 after,
        (l :: more = before ++ l0 :: taken0 ++ after)%list /\
        starts l0 = true /\ Forall taken_ok taken0 /\
        endsRun stops accepts after /\
        finish (fold_left append (map trim taken0) (trim l0)) = Some r).
    { intros Hr. destruct (IH more' r) as [b [l0 [t [a [E' R]]]]];
        [lia | exact Hr|].
      exists (l :: taken ++ b)%list, l0, t, a.
      split; [|exact R]. rewrite E, E'. simpl. f_equal.
      rewrite <- app_assoc. reflexivity. }
    destruct (finish text) as [t|] eqn:Ef; [|auto].
    destruct Hin as [Hr|Hr]; [|auto].
    subst t. exists [], l, taken, more'.
    split; [simpl; f_equal; exact E|].
    split; [exact Hs|]. split; [exact F|]. split; [exact Hend|].
    rewrite <- Hf. exact Ef.
Qed.

Lemma starts_stops l : starts l = true -> stops l = true.
Proof.
  unfold starts, stops, startsRecord, stopsRecord. cbv zeta. intros H.
  apply andb_prop in H. destruct H as [_ H]. rewrite H.
  apply orb_true_iff. left. apply orb_true_r.
Qed.

(** The inner loop never passes a start line. *)
Lemma collect_stop_suffix : forall xs l ys text,
  stops l = true ->
  exists xs',
    snd (collect' (xs ++ l :: ys)%list text) = (xs' ++ l :: ys)%list /\
    List.length xs' <= List.length xs.
Proof.
  induction xs as [|x xs IH]; intros l ys text Hl.
  - cbn [app]. rewrite collect_step_stop by (left; exact Hl).
    exists []. split; [reflexivity | apply Nat.le_refl].
  - cbn [app]. destruct (taken_or_not x) as [Hx|Hx].
    + rewrite (collect_step_take x _ text Hx).
      destruct (IH l ys (append text (trim x)) Hl) as [xs' [E Hlen]].
      exists xs'. split; [exact E | simpl; lia].
    + rewrite (collect_step_stop x _ text Hx).
      exists (x :: xs). split; [reflexivity | apply Nat.le_refl].
Qed.

(** Every start line gives the record of its run, when [finish]
    pushes it. *)
Lemma scan_start_in : forall fuel before l rest t,
  List.length (before ++ l :: rest)%list <= fuel ->
  starts l = true ->
  finish (fst (collect' rest (trim l))) = Some t ->
  In t (scan' fuel (before ++ l :: rest)%list).
Proof.
  induction fuel as [|fuel IH]; intros before l rest t Hlen Hs Hf.
  - rewrite length_app in Hlen. simpl in Hlen. lia.
  - destruct before as [|b bs].
    + cbn [app]. unfold scan'. simpl. fold scan'. fold collect'.
      unfold starts, startsRecord in Hs. cbv zeta in Hs.
      apply andb_prop in Hs. destruct Hs as [Hs Ht].
      apply andb_prop in Hs. destruct Hs as [He Hh].
      apply negb_true_iff in He. apply negb_true_iff in Hh.
      rewrite He, Hh, Ht.
      destruct (collect' rest (trim l)) as [text rest'].
      simpl in Hf. rewrite Hf. left. reflexivity.
    + cbn [app]. cbn [app List.length] in Hlen.
      assert (Hnext : In t (scan' fuel (bs ++ l :: rest)%list))
        by (apply IH; [lia | exact Hs | exact Hf]).
      unfold scan'. simpl. fold scan'. fold collect'.
      destruct (isEmpty (trim b)); [exact Hnext|].
      destruct (isHeaderLine (trim b) || isPersonalInfoLine (trim b));
        [exact Hnext|].
      destruct (isTransaction (trim b)); [|exact Hnext].
      destruct (collect_stop_suffix bs l rest (trim b) (starts_stops l Hs))
        as [xs' [E Hxs]].
      destruct (collect' (bs ++ l :: rest)%list (trim b)) as [text rest'].
      simpl in E. subst rest'.
      assert (Hin : In t (scan' fuel (xs' ++ l :: rest)%list)).
      { apply IH; [|exact Hs | exact Hf].
        rewrite length_app in *. simpl in *. lia. }
      destruct (finish text); [right; exact Hin | exact Hin].
Qed.

Lemma scan_run_in lines before l taken after t :
  lines = (before ++ l :: taken ++ after)%list ->
  starts l = true ->
  Forall taken_ok taken ->
  endsRun stops accepts after ->
  finish (fold_left append (map trim taken) (trim l)) = Some t ->
  In t (scan' (List.length lines) lines).
Proof.
  intros E Hs F Hend Hf. subst lines.
  apply scan_start_in; [apply Nat.le_refl | exact Hs|].
  fold collect'. rewrite (collect_run taken after (trim l) F Hend).
  exact Hf.
Qed.

End MergerRuns.

(** X4: the merged records are exactly the transaction-start lines,
    each followed by the whole run of lines the inner loop takes right
    after it, up to the end of the lines or to the first line that
    stops the record or that the variant does not take; each line is
    trimmed, and they are joined without a separator for HDFC, by
    single spaces for ICICI, and by single spaces and then normalized
    for Kotak (which pushes the record when it is not empty).  No text
    of any other line enters a record, and every start line gives its
    record. *)
Theorem merged_record_is_start_line_and_run :
  forall (lines : list string) (r : string),
    (In r (HDFCParser.transactionLines lines) <->
     exists before l taken after,
       lines = (before ++ l :: taken ++ after)%list /\
       HDFCParser.startsLine l = true /\
       Forall (fun x => HDFCParser.stopsLine x = false /\
                        HDFCParser.takesLine (trim x) = true) taken /\
       endsRun HDFCParser.stopsLine HDFCParser.takesLine after /\
       r = join "" (trim l :: map trim taken)) /\
    (In r (ICICIParser.transactionLines lines) <->
     exists before l taken after,
       lines = (before ++ l :: taken ++ after)%list /\
       ICICIParser.startsLine l = true /\
       Forall (fun x => ICICIParser.stopsLine x = false) taken /\
       match after with
       | [] => True
       | x :: _ => ICICIParser.stopsLine x = true
       end /\
       r = join " " (trim l :: map trim taken)) /\
    (In r (KotakParser.transactionLines lines) <->
     exists before l taken after,
       lines = (before ++ l :: taken ++ after)%list /\
       KotakParser.startsLine l = true /\
       Forall (fun x => KotakParser.stopsLine x = false /\
                        KotakParser.takesLine (trim x) = true) taken /\
       endsRun KotakParser.stopsLine KotakParser.takesLine after /\
       r = BaseParser.normalizeWhitespace
             (join " " (trim l :: map trim taken)) /\
       isEmpty r = false).
Proof.
  intros lines r. split; [|split]; split.
  - intros Hin.
    destruct (scan_records_run _ _ _ _ _ _ _ lines r (Nat.le_refl _) Hin)
      as [b [l [t [a [E [Hs [F [Hend Hf]]]]]]]].
    exists b, l, t, a. split; [exact E|]. split; [exact Hs|].
    split; [exact F|]. split; [exact Hend|].
    unfold HDFCParser.pushRecord in Hf. apply some_inj in Hf.
    rewrite <- Hf. apply (fold_append_join "").
  - intros [b [l [t [a [E [Hs [F [Hend Hr]]]]]]]].
    apply (scan_run_in _ _ _ _ _ _ lines b l t a r E Hs F Hend).
    unfold HDFCParser.pushRecord. rewrite Hr. f_equal.
    apply (fold_append_join "").
  - intros Hin.
    destruct (scan_records_run _ _ _ _ _ _ _ lines r (Nat.le_refl _) Hin)
      as [b [l [t [a [E [Hs [F [Hend Hf]]]]]]]].
    exists b, l, t, a. split; [exact E|]. split; [exact Hs|].
    split; [eapply Forall_impl; [|exact F]; intros x [Hx _]; exact Hx|].
    split.
    { destruct a as [|x a']; [exact I|].
      destruct Hend as [Hx|Hx]; [exact Hx | discriminate Hx]. }
    unfold ICICIParser.pushRecord in Hf. apply some_inj in Hf.
    rewrite <- Hf. apply (fold_append_join " ").
  - intros [b [l [t [a [E [Hs [F [Hend Hr]]]]]]]].
    apply (scan_run_in _ _ _ _ _ _ lines b l t a r E Hs).
    + eapply Forall_impl; [|exact F]. intros x Hx. split; [exact Hx|].
      reflexivity.
    + destruct a as [|x a']; [exact I|]. left. exact Hend.
    + unfold ICICIParser.pushRecord. rewrite Hr. f_equal.
      apply (fold_append_join " ").
  - intros Hin.
    destruct (scan_records_run _ _ _ _ _ _ _ lines r (Nat.le_refl _) Hin)
      as [b [l [t [a [E [Hs [F [Hend Hf]]]]]]]].
    exists b, l, t, a. split; [exact E|]. split; [exact Hs|].
    split; [exact F|]. split; [exact Hend|].
    unfold KotakParser.pushRecord in Hf. cbv zeta in Hf.
    change (fold_left KotakParser.appendLine (map trim t) (trim l))
      with (fold_left (fun t n => t ++ " " ++ n) (map trim t) (trim l))
      in Hf.
    rewrite (fold_append_join " ") in Hf.
    destruct (isEmpty _) eqn:Hemp; [discriminate|].
    apply some_inj in Hf. rewrite <- Hf. split; [reflexivity|].
    exact Hemp.
  - intros [b [l [t [a [E [Hs [F [Hend [Hr Hemp]]]]]]]]].
    apply (scan_run_in _ _ _ _ _ _ lines b l t a r E Hs F Hend).
    unfold KotakParser.pushRecord. cbv zeta.
    change (fold_left KotakParser.appendLine (map trim t) (trim l))
      with (fold_left (fun t n => t ++ " " ++ n) (map trim t) (trim l)).
    rewrite (fold_append_join " ").
    change (trim (replaceAll whiteSpaces " "
                    (join " " (trim l :: map trim t))))
      with (BaseParser.normalizeWhitespace
              (join " " (trim l :: map trim t))).
    rewrite <- Hr, Hemp. reflexivity.
Qed.

Lemma merged_record_witness :
  In "01/04/23 | UPI-SWIGGYABCD1234EFGH"
     (HDFCParser.transactionLines startAndCode) /\
  exists before l taken after,
    startAndCode = (before ++ l :: taken ++ after)%list /\
    HDFCParser.startsLine l = true /\
    Forall (fun x => HDFCParser.stopsLine x = false /\
                     HDFCParser.takesLine (trim x) = true) taken /\
    endsRun HDFCParser.stopsLine HDFCParser.takesLine after /\
    "01/04/23 | UPI-SWIGGYABCD1234EFGH" = join "" (trim l :: map trim taken).
Proof.
  assert (Hin : In "01/04/23 | UPI-SWIGGYABCD1234EFGH"
                   (HDFCParser.transactionLines startAndCode))
    by (vm_compute; left; reflexivity).
  split; [exact Hin|].
  exact (proj1 (proj1 (merged_record_is_start_line_and_run startAndCode _))
           Hin).
Defined.

(* ================================================================== *)
(** * White space: what [/\s+/g] matches and what replacing it leaves *)

Lemma trimStart_length s : List.length (trimStart_l s) <= List.length s.
Proof.
  induction s as [|c s IH]; simpl; [lia|].
  destruct (isWhiteSpace c); simpl; lia.
Qed.

Lemma trimStart_split s :
  exists a, s = (a ++ trimStart_l s)%list /\
            Forall (fun c => isWhiteSpace c = true) a.
Proof.
  induction s as [|c s [a [E F]]]; simpl.
  - exists []. split; [reflexivity | constructor].
  - destruct (isWhiteSpace c) eqn:Ec.
    + exists (c :: a). split; [simpl; f_equal; exact E|].
      constructor; assumption.
    + exists []. split; [reflexivity | constructor].
Qed.

Lemma trimStart_fixed s :
  match s with [] => True | c :: _ => isWhiteSpace c = false end ->
  trimStart_l s = s.
Proof. destruct s as [|c s]; simpl; [reflexivity|]. intros ->. reflexivity. Qed.

Lemma trimStart_idem s : trimStart_l (trimStart_l s) = trimStart_l s.
Proof.
  apply trimStart_fixed.
  destruct (trimStart_l s) as [|c t] eqn:E; [exact I|].
  eapply trimStart_head, E.
Qed.

(** The greedy loop of [\s+] runs to the end of the white space. *)
Lemma ws_loop : forall fuel xs q,
  List.length xs < fuel ->
  exists q',
    repeatMax (m false space) [] true Some fuel None
      {| rest := xs; prev := q; caps := [] |} =
    Some {| rest := trimStart_l xs; prev := q'; caps := [] |}.
Proof.
  induction fuel as [|fuel IH]; intros xs q H; [lia|].
  cbn [repeatMax]. unfold resetCaps. cbn [rest prev caps dropCaps filter].
  unfold space. cbn [m rest].
  destruct xs as [|c xs'].
  - exists q. reflexivity.
  - unfold inClass. cbn [existsb inItem andb]. rewrite !orb_false_r.
    simpl in H. cbn [trimStart_l].
    destruct (isWhiteSpace c) eqn:Ec.
    + unfold advance, remaining. cbn [rest prev caps List.length option_map].
      assert (Hlt : Nat.ltb (List.length xs') (S (List.length xs')) = true)
        by (apply Nat.ltb_lt; lia).
      rewrite Hlt.
      destruct (IH xs' (Some c)) as [q' Hq]; [lia|].
      exists q'.
      match goal with
      | |- match ?X with _ => _ end = _ =>
          change X with
            (repeatMax (m false space) [] true Some fuel None
               {| rest := xs'; prev := Some c; caps := [] |})
      end.
      rewrite Hq. reflexivity.
    + exists q. reflexivity.
Qed.

(** [/\s+/] at a position: it fails on a character that is not white
    space and at the end, and takes the whole run otherwise. *)
Lemma matchHere_ws p s :
  match s with
  | [] => matchHere whiteSpaces p s = None
  | c :: s' =>
      if isWhiteSpace c
      then exists q, matchHere whiteSpaces p s =
                     Some {| rest := trimStart_l s'; prev := q; caps := [] |}
      else matchHere whiteSpaces p s = None
  end.
Proof.
  unfold matchHere, whiteSpaces, re, plus. cbn [pattern ignoreCase].
  cbn [m groups]. unfold space. cbn [groups repeatMin].
  unfold resetCaps. cbn [rest prev caps dropCaps filter]. cbn [m rest].
  destruct s as [|c s']; [reflexivity|].
  unfold inClass. cbn [existsb inItem andb]. rewrite !orb_false_r.
  destruct (isWhiteSpace c); [|reflexivity].
  unfold advance, remaining, maxAfter. cbn [rest prev caps option_map].
  apply (ws_loop (S (List.length s')) s' (Some c)). lia.
Qed.

Lemma wsLen_cons c s :
  wsLen (c :: s) = if isWhiteSpace c then S (wsLen s) else 0.
Proof.
  unfold wsLen. cbn [trimStart_l]. pose proof (trimStart_length s).
  destruct (isWhiteSpace c); cbn [List.length]; lia.
Qed.

(** Replacing [/\s+/g] is collapsing the runs of white space. *)
Lemma replaceAll_go_ws rep : forall s p,
  replaceAll_go whiteSpaces rep p s 0 = collapse rep false s /\
  replaceAll_go whiteSpaces rep p s (wsLen s) = collapse rep true s.
Proof.
  induction s as [|c s IH]; intros p.
  - split; reflexivity.
  - assert (H0 : replaceAll_go whiteSpaces rep p (c :: s) 0 =
                 collapse rep false (c :: s)).
    { cbn [replaceAll_go collapse].
      pose proof (matchHere_ws p (c :: s)) as Hm. cbn beta iota in Hm.
      destruct (isWhiteSpace c) eqn:Ec.
      - destruct Hm as [q ->]. unfold remaining. cbn [rest].
        pose proof (trimStart_length s) as Hl.
        replace (List.length (c :: s) - List.length (trimStart_l s))
          with (S (wsLen s)) by (unfold wsLen; cbn [List.length]; lia).
        rewrite (proj2 (IH (Some c))). reflexivity.
      - rewrite Hm. rewrite (proj1 (IH (Some c))). reflexivity. }
    split; [exact H0|].
    rewrite wsLen_cons. destruct (isWhiteSpace c) eqn:Ec.
    + cbn [replaceAll_go collapse]. rewrite Ec.
      rewrite (proj2 (IH (Some c))). reflexivity.
    + rewrite H0. cbn [collapse]. rewrite Ec. reflexivity.
Qed.

Lemma replaceAll_ws rep s :
  of_string (replaceAll whiteSpaces rep s) =
  collapse (of_string rep) false (of_string s).
Proof.
  unfold replaceAll. rewrite of_to_string.
  apply (proj1 (replaceAll_go_ws _ _ None)).
Qed.

Lemma space_is_white c : Ascii.eqb c " " = true -> isWhiteSpace c = true.
Proof. intros H. apply Ascii.eqb_eq in H. subst. reflexivity. Qed.

Lemma collapse_tidy : forall s b, tidy b (collapse [" "%char] b s) = true.
Proof.
  induction s as [|c s IH]; intros b; [reflexivity|].
  cbn [collapse]. destruct (isWhiteSpace c) eqn:Ec.
  - destruct b; cbn [app tidy]; [apply IH|].
    cbn. apply IH.
  - cbn [tidy]. destruct (Ascii.eqb c " ") eqn:E.
    + apply space_is_white in E. congruence.
    + rewrite Ec. apply IH.
Qed.

Lemma tidy_weaken : forall s, tidy true s = true -> tidy false s = true.
Proof.
  intros [|c s]; [reflexivity|]. cbn [tidy].
  destruct (Ascii.eqb c " "); [discriminate | auto].
Qed.

Lemma tidy_collapse : forall s,
  (tidy true s = true -> collapse [" "%char] true s = s) /\
  (tidy false s = true -> collapse [" "%char] false s = s).
Proof.
  induction s as [|c s [IHt IHf]]; [split; reflexivity|].
  cbn [tidy collapse].
  destruct (Ascii.eqb c " ") eqn:E.
  - rewrite (space_is_white c E). apply Ascii.eqb_eq in E. subst c.
    split; [discriminate|]. cbn [negb andb app]. intros H.
    rewrite (IHt H). reflexivity.
  - destruct (isWhiteSpace c); [split; discriminate|].
    cbn [negb andb]. split; intros H; rewrite (IHf H); reflexivity.
Qed.

Lemma tidy_suffix : forall (x y : chars) b,
  tidy b (x ++ y)%list = true -> tidy false y = true.
Proof.
  induction x as [|c x IH]; intros y b H.
  - destruct b; [apply tidy_weaken|]; exact H.
  - cbn [app tidy] in H.
    destruct (Ascii.eqb c " "); apply andb_prop in H; destruct H as [_ H];
      eapply IH, H.
Qed.

Lemma tidy_prefix : forall (x y : chars) b,
  tidy b (x ++ y)%list = true -> tidy b x = true.
Proof.
  induction x as [|c x IH]; intros y b H; [reflexivity|].
  cbn [app tidy] in H |- *.
  destruct (Ascii.eqb c " "); apply andb_prop in H; destruct H as [H1 H];
    rewrite H1; cbn [andb]; eapply IH, H.
Qed.

(** Trimming takes white space off both ends. *)
Lemma trim_l_split s :
  exists a b, s = (a ++ trim_l s ++ b)%list /\
              Forall (fun c => isWhiteSpace c = true) a /\
              Forall (fun c => isWhiteSpace c = true) b.
Proof.
  unfold trim_l.
  destruct (trimStart_split s) as [a [Ea Fa]].
  destruct (trimStart_split (rev (trimStart_l s))) as [b [Eb Fb]].
  exists a, (rev b). split; [|split; [exact Fa|]].
  - rewrite Ea at 1. f_equal.
    rewrite <- rev_app_distr, <- Eb, rev_involutive. reflexivity.
  - apply Forall_rev, Fb.
Qed.

Lemma trim_l_idem s : trim_l (trim_l s) = trim_l s.
Proof.
  unfold trim_l.
  set (t := trimStart_l (rev (trimStart_l s))).
  assert (Ht : trimStart_l t = t) by apply trimStart_idem.
  assert (Hr : trimStart_l (rev t) = rev t).
  { apply trimStart_fixed.
    destruct (rev t) as [|c u] eqn:Er; [exact I|].
    (* [rev t] is a prefix of [trimStart_l s] and starts as it does *)
    destruct (trimStart_split (rev (trimStart_l s))) as [a [Ea _]].
    fold t in Ea.
    assert (E : trimStart_l s = (rev t ++ rev a)%list).
    { rewrite <- rev_app_distr, <- Ea, rev_involutive. reflexivity. }
    rewrite Er in E. simpl in E. eapply trimStart_head, E. }
  rewrite Hr, rev_involutive, Ht. reflexivity.
Qed.

Lemma trim_idem s : trim (trim s) = trim s.
Proof. unfold trim. rewrite of_to_string, trim_l_idem. reflexivity. Qed.

Lemma trim_l_tidy s : tidy false s = true -> tidy false (trim_l s) = true.
Proof.
  intros H. destruct (trim_l_split s) as [a [b [E _]]].
  rewrite E in H. apply tidy_suffix in H. eapply tidy_prefix, H.
Qed.

Lemma tidy_spaces : forall s b c,
  tidy b s = true -> In c s -> isWhiteSpace c = true -> c = " "%char.
Proof.
  induction s as [|x s IH]; intros b c H Hin Hc; [contradiction|].
  cbn [tidy] in H. destruct (Ascii.eqb x " ") eqn:E.
  - apply andb_prop in H. destruct H as [_ H].
    destruct Hin as [->|Hin]; [apply Ascii.eqb_eq, E | eapply IH; eauto].
  - apply andb_prop in H. destruct H as [Hx H].
    destruct Hin as [->|Hin]; [|eapply IH; eauto].
    rewrite Hc in Hx. discriminate.
Qed.

Lemma tidy_no_double : forall (l1 l2 : chars) b,
  tidy b (l1 ++ " "%char :: " "%char :: l2)%list = false.
Proof.
  induction l1 as [|x l1 IH]; intros l2 b.
  - cbn. rewrite andb_false_r. reflexivity.
  - cbn [app tidy]. destruct (Ascii.eqb x " "); rewrite IH;
      apply andb_false_r.
Qed.

Lemma normalizeWhitespace_tidy text :
  tidy false (of_string (BaseParser.normalizeWhitespace text)) = true.
Proof.
  unfold BaseParser.normalizeWhitespace, trim. rewrite of_to_string.
  apply trim_l_tidy. rewrite replaceAll_ws. apply collapse_tidy.
Qed.

(** X5: [normalizeWhitespace] yields a canonical text and changes a
    canonical text no more: in its result every white-space character
    is a space, no two spaces follow each other, and there is no white
    space at either end; applied to its own result it returns it
    unchanged. *)
Theorem normalizeWhitespace_canonical :
  forall text : string,
    let n := BaseParser.normalizeWhitespace text in
    (forall c, In c (of_string n) -> isWhiteSpace c = true -> c = " "%char) /\
    (forall l1 l2, of_string n <> (l1 ++ " "%char :: " "%char :: l2)%list) /\
    trim n = n /\
    BaseParser.normalizeWhitespace n = n.
Proof.
  intros text n. pose proof (normalizeWhitespace_tidy text) as Ht.
  fold n in Ht.
  assert (Htrim : trim n = n)
    by (unfold n, BaseParser.normalizeWhitespace; apply trim_idem).
  split; [|split; [|split]].
  - intros c. apply (tidy_spaces _ false c Ht).
  - intros l1 l2 E. rewrite E, tidy_no_double in Ht. discriminate.
  - exact Htrim.
  - unfold BaseParser.normalizeWhitespace at 1.
    assert (Ec : replaceAll whiteSpaces " " n = n).
    { rewrite <- (to_of_string (replaceAll whiteSpaces " " n)).
      rewrite replaceAll_ws.
      change (of_string " ") with [" "%char].
      rewrite (proj2 (tidy_collapse _) Ht). apply to_of_string. }
    rewrite Ec. exact Htrim.
Qed.

(* ================================================================== *)
(** * The tokens the utilities extract *)

Lemma GroupsSat_True ic r : GroupsSat ic (fun _ _ => True) r.
Proof. induction r; simpl; auto. Qed.

Lemma occurIn_later ts : forall (x b : chars),
  occurIn ts b -> occurIn ts (x ++ b)%list.
Proof.
  destruct ts as [|t ts]; intros x b H; [exact I|].
  destruct H as [a [b' [E H]]]. exists (x ++ a)%list, b'.
  split; [|exact H]. rewrite E, app_assoc. reflexivity.
Qed.

(** Every text that a global match returns is a word of the pattern,
    and the texts stand in the subject in the order returned. *)
Lemma matchAll_go_sound rx :
  NoDup (groups (pattern rx)) ->
  forall s p skip,
    Forall (InLang (ignoreCase rx) (pattern rx)) (matchAll_go rx p s skip) /\
    occurIn (matchAll_go rx p s skip) (skipn skip s).
Proof.
  intros Hnd.
  pose proof (GroupsSat_True (ignoreCase rx) (pattern rx)) as Hsat.
  induction s as [|c s IH]; intros p skip.
  - destruct skip as [|k]; cbn [matchAll_go]; [|split; [constructor|exact I]].
    destruct (matchHere rx p []) as [y|] eqn:E;
      [|split; [constructor|exact I]].
    destruct (matchHere_sound _ rx p [] y Hsat Hnd E) as [[w [Ew L]] _].
    unfold remaining. rewrite firstn_nil.
    pose proof Ew as Ew'. symmetry in Ew'. apply app_eq_nil in Ew'.
    destruct Ew' as [Hw Hr]. subst w.
    split; [constructor; [exact L|constructor]|].
    cbn [skipn occurIn]. exists [], (rest y).
    split; [exact Ew | exact I].
  - destruct skip as [|k]; cbn [matchAll_go].
    + destruct (matchHere rx p (c :: s)) as [y|] eqn:E.
      * destruct (matchHere_sound _ rx p (c :: s) y Hsat Hnd E)
          as [[w [Ew L]] _].
        unfold remaining.
        assert (Hn : List.length (c :: s) - List.length (rest y) =
                     List.length w)
          by (rewrite Ew, length_app; lia).
        assert (Hw : firstn (List.length (c :: s) - List.length (rest y))
                            (c :: s) = w)
          by (rewrite Ew; apply firstn_consumed).
        rewrite Hw, Hn.
        destruct (IH (Some c) (List.length w - 1)) as [F O].
        split; [constructor; assumption|].
        cbn [skipn occurIn].
        destruct w as [|x w'].
        -- exists [], (c :: s). split; [reflexivity|].
           cbn [List.length Nat.sub skipn] in O.
           apply (occurIn_later _ [c] s O).
        -- exists [], (rest y). split; [exact Ew|].
           assert (Hk : List.length (x :: w') - 1 = List.length w')
             by (cbn [List.length]; lia).
           assert (Hsk : skipn (List.length w') s = rest y).
           { simpl in Ew. injection Ew as _ Es.
             rewrite Es, skipn_app, Nat.sub_diag, skipn_all.
             reflexivity. }
           rewrite Hk in O |- *. rewrite Hsk in O. exact O.
      * destruct (IH (Some c) 0) as [F O]. split; [exact F|].
        cbn [skipn] in O |- *. apply (occurIn_later _ [c] s O).
    + apply (IH (Some c) k).
Qed.

Lemma matchAll_sound rx s :
  NoDup (groups (pattern rx)) ->
  Forall (fun t => InLang (ignoreCase rx) (pattern rx) (of_string t))
         (matchAll rx s) /\
  occurIn (map of_string (matchAll rx s)) (of_string s).
Proof.
  intros Hnd. unfold matchAll.
  destruct (matchAll_go_sound rx Hnd (of_string s) None 0) as [F O].
  cbn [skipn] in O. rewrite map_map.
  assert (E : map (fun x => of_string (to_string x))
                  (matchAll_go rx None (of_string s) 0) =
              matchAll_go rx None (of_string s) 0).
  { rewrite <- (map_id (matchAll_go rx None (of_string s) 0)) at 2.
    apply map_ext. intros a. apply of_to_string. }
  rewrite E. split; [|exact O].
  apply Forall_map. eapply Forall_impl; [|exact F].
  intros a Ha. cbv beta. rewrite of_to_string. exact Ha.
Qed.

(** A word of [\d{n}] is [n] digits. *)
Lemma times_digits n w :
  InLang false (times n digit) w ->
  List.length w = n /\ Forall (fun x => isDigit x = true) w.
Proof.
  unfold times, digit. intros H. apply InLang_class_rep in H.
  destruct H as [F [Hmin Hmax]]. rewrite Nat.sub_diag, Nat.add_0_r in Hmax.
  split; [lia|]. eapply Forall_impl; [|exact F].
  intros x. apply inClass_digit.
Qed.

Lemma chr_word c w : InLang false (Chr c) w -> w = [c].
Proof.
  intros [x [-> Hx]]. unfold charMatches in Hx. cbn in Hx.
  apply Ascii.eqb_eq in Hx. subst. reflexivity.
Qed.

(** A word of the currency pattern starts with a digit. *)
Lemma currency_starts_with_digit w :
  InLang false (pattern BaseParser.currencyAmount) w ->
  exists d t, w = d :: t /\ isDigit d = true.
Proof.
  cbn. intros [w1 [w2 [-> [H1 _]]]].
  destruct (InLang_class_rep false [CDigit] 1 (Some 3) true w1 H1)
    as [F [Hmin _]].
  destruct w1 as [|d w1]; [simpl in Hmin; lia|].
  inversion F as [|? ? Hd _]; subst.
  exists d, (w1 ++ w2)%list. split; [reflexivity|].
  apply inClass_digit, Hd.
Qed.

(** A word of the short date pattern is dd/dd/dd. *)
Lemma shortDate_word w :
  InLang false (pattern BaseParser.shortDate) w ->
  exists a b c,
    w = (a ++ "/"%char :: b ++ "/"%char :: c)%list /\
    List.length a = 2 /\ List.length b = 2 /\ List.length c = 2 /\
    Forall (fun x => isDigit x = true) (a ++ b ++ c).
Proof.
  cbn [pattern BaseParser.shortDate re seqs InLang].
  intros [a [w1 [-> [Ha [s1 [w2 [-> [Hs1 [b [w3 [-> [Hb
         [s2 [c [-> [Hs2 Hc]]]]]]]]]]]]]]]].
  apply chr_word in Hs1, Hs2. subst s1 s2.
  apply times_digits in Ha, Hb, Hc.
  destruct Ha as [La Fa], Hb as [Lb Fb], Hc as [Lc Fc].
  exists a, b, c. split; [reflexivity|]. repeat split; try assumption.
  apply Forall_app. split; [assumption|].
  apply Forall_app. split; assumption.
Qed.

Lemma currency_token_nonneg text a :
  In a (BaseParser.extractCurrencyAmounts text) ->
  InLang false (pattern BaseParser.currencyAmount) (of_string a) /\
  nonNegativeAmount a.
Proof.
  intros Hin.
  assert (N1 : NoDup (groups (pattern BaseParser.currencyAmount)))
    by (cbn; no_dup).
  destruct (matchAll_sound BaseParser.currencyAmount text N1) as [F _].
  rewrite Forall_forall in F. pose proof (F a Hin) as Ha.
  split; [exact Ha|].
  destruct (currency_starts_with_digit _ Ha) as [d [t [E Hd]]].
  rewrite <- (to_of_string a), E. apply digit_first_nonneg, Hd.
Qed.

(** X6: what the two extraction utilities return.  Every text of
    [extractCurrencyAmounts] is a word of the currency pattern, starts
    with a digit and reads, commas dropped, as a number that is not
    negative; every text of [extractDates] is two digits, a slash, two
    digits, a slash and two digits.  In both cases the texts stand in
    the subject in the order returned, one after the other. *)
Theorem extracted_tokens_shape :
  forall text : string,
    Forall (fun a =>
              InLang false (pattern BaseParser.currencyAmount) (of_string a) /\
              nonNegativeAmount a)
           (BaseParser.extractCurrencyAmounts text) /\
    occurIn (map of_string (BaseParser.extractCurrencyAmounts text))
            (of_string text) /\
    Forall (fun d =>
              exists a b c,
                of_string d = (a ++ "/"%char :: b ++ "/"%char :: c)%list /\
                List.length a = 2 /\ List.length b = 2 /\
                List.length c = 2 /\
                Forall (fun x => isDigit x = true) (a ++ b ++ c))
           (BaseParser.extractDates text) /\
    occurIn (map of_string (BaseParser.extractDates text)) (of_string text).
Proof.
  intros text.
  assert (N1 : NoDup (groups (pattern BaseParser.currencyAmount)))
    by (cbn; no_dup).
  assert (N2 : NoDup (groups (pattern BaseParser.shortDate)))
    by (cbn; no_dup).
  destruct (matchAll_sound BaseParser.currencyAmount text N1) as [F1 O1].
  destruct (matchAll_sound BaseParser.shortDate text N2) as [F2 O2].
  split; [|split; [exact O1|split; [|exact O2]]].
  - apply Forall_forall. intros a Ha.
    apply (currency_token_nonneg text a Ha).
  - eapply Forall_impl; [|exact F2]. intros d Hd.
    apply shortDate_word, Hd.
Qed.

(* ================================================================== *)
(** * Kotak: what the field extractor writes *)

(** A pattern that starts with [^] matches at the start only. *)
Lemma matchHere_bol rx r' c s :
  pattern rx = Seq Bol r' -> matchHere rx (Some c) s = None.
Proof. unfold matchHere. intros ->. reflexivity. Qed.

Lemma execFrom_bol rx r' :
  pattern rx = Seq Bol r' ->
  forall s c idx, execFrom rx (Some c) idx s = None.
Proof.
  intros Hp. induction s as [|x s IH]; intros c idx; cbn [execFrom];
    rewrite (matchHere_bol rx r' c _ Hp); [reflexivity | apply IH].
Qed.

Lemma exec_bol rx r' s res :
  pattern rx = Seq Bol r' ->
  exec rx s = Some res ->
  exists y, matchHere rx None (of_string s) = Some y /\
            captures res = caps y /\ index res = 0.
Proof.
  intros Hp. unfold exec.
  destruct (of_string s) as [|c l]; cbn [execFrom].
  - destruct (matchHere rx None []) as [y|]; [|discriminate].
    intros H. apply some_inj in H. subst res. exists y. auto.
  - destruct (matchHere rx None (c :: l)) as [y|].
    + intros H. apply some_inj in H. subst res. exists y. auto.
    + rewrite (execFrom_bol rx r' Hp). discriminate.
Qed.

Lemma dashDate_word w :
  InLang false dashDate w ->
  exists a b c,
    w = (a ++ "-"%char :: b ++ "-"%char :: c)%list /\
    List.length a = 2 /\ List.length b = 2 /\ List.length c = 4 /\
    Forall (fun x => isDigit x = true) (a ++ b ++ c).
Proof.
  unfold dashDate. cbn [seqs InLang].
  intros [a [w1 [-> [Ha [s1 [w2 [-> [Hs1 [b [w3 [-> [Hb
         [s2 [c [-> [Hs2 Hc]]]]]]]]]]]]]]]].
  apply chr_word in Hs1, Hs2. subst s1 s2.
  apply times_digits in Ha, Hb, Hc.
  destruct Ha as [La Fa], Hb as [Lb Fb], Hc as [Lc Fc].
  exists a, b, c. split; [reflexivity|]. repeat split; try assumption.
  apply Forall_app. split; [assumption|].
  apply Forall_app. split; assumption.
Qed.

Lemma to_string_app (a b : chars) :
  to_string (a ++ b)%list = to_string a ++ to_string b.
Proof.
  induction a as [|x a IH]; [reflexivity|].
  cbn [app]. unfold to_string in *. cbn [string_of_list_ascii].
  rewrite IH. reflexivity.
Qed.

(** A word of the marked amount is a currency figure and its
    indicator in brackets. *)
Lemma markedAmount_word w :
  InLang false KotakParser.markedAmount w ->
  exists figure ind,
    to_string w = figure ++ "(" ++ ind ++ ")" /\
    (ind = "Dr" \/ ind = "Cr") /\
    InLang false (pattern BaseParser.currencyAmount) (of_string figure).
Proof.
  unfold KotakParser.markedAmount. cbn [seqs InLang].
  intros [w1 [x1 [-> [H1 [w2 [x2 [-> [H2 [w3 [x3 [-> [H3 [w4 [x4 [-> [H4
         [o [x5 [-> [Ho [i [cl [-> [Hi Hcl]]]]]]]]]]]]]]]]]]]]]]]].
  apply chr_word in Ho, Hcl. subst o cl.
  exists (to_string (w1 ++ w2 ++ w3 ++ w4)%list),
         (to_string i).
  split; [|split].
  - rewrite !to_string_app. cbn [to_string string_of_list_ascii].
    rewrite !string_app_assoc. reflexivity.
  - destruct Hi as [Hi|Hi]; apply lit_word in Hi; try reflexivity;
      rewrite Hi; auto.
  - rewrite of_to_string. cbn [pattern BaseParser.currencyAmount re seqs InLang].
    exists w1, (w2 ++ w3 ++ w4)%list. split; [reflexivity|].
    split; [exact H1|].
    exists w2, (w3 ++ w4)%list. split; [reflexivity|].
    split; [exact H2|].
    exists w3, w4. auto.
Qed.

Lemma kotak_base_groups line mt :
  exec KotakParser.baseRegex line = Some mt ->
  InLang false dashDate (of_string (group 1 mt)) /\
  InLang false KotakParser.markedAmount (of_string (group 3 mt)).
Proof.
  intros H.
  assert (G : forall n, n = 1 \/ n = 3 ->
              groupShape false [(1, dashDate); (3, KotakParser.markedAmount)]
                         n (of_string (group n mt))).
  { intros n Hn.
    apply (group_sound _ KotakParser.baseRegex line mt n);
      [| | |exact H].
    - shapes_sat.
    - cbn. no_dup.
    - cbn. destruct Hn as [->| ->]; auto. }
  split.
  - apply (G 1 (or_introl eq_refl)). left. reflexivity.
  - apply (G 3 (or_intror eq_refl)). right. left. reflexivity.
Qed.

(** A line the extractor parses begins with a digit. *)
Lemma kotak_parsed_starts_with_digit line mt :
  exec KotakParser.baseRegex line = Some mt ->
  exists d t, of_string line = d :: t /\ isDigit d = true.
Proof.
  intros H.
  destruct (exec_bol KotakParser.baseRegex _ line mt eq_refl H)
    as [y [Hy _]].
  assert (Hnd : NoDup (groups (pattern KotakParser.baseRegex)))
    by (cbn; no_dup).
  destruct (matchHere_sound _ KotakParser.baseRegex None _ y
              (GroupsSat_True _ _) Hnd Hy) as [[w [Ew L]] _].
  cbn [pattern KotakParser.baseRegex re seqs ignoreCase] in L.
  cbn [InLang] in L.
  destruct L as [w0 [w1 [-> [-> [wd [w2 [-> [Hd _]]]]]]]].
  change (InLang false dashDate wd) in Hd.
  destruct (dashDate_word wd Hd) as [a [b [c [-> [La [_ [_ F]]]]]]].
  destruct a as [|d a]; [discriminate La|].
  inversion F as [|? ? Hdig _]; subst.
  rewrite Ew. cbn [app]. eauto.
Qed.

Lemma digit_not_white d : isDigit d = true -> isWhiteSpace d = false.
Proof. intros H. apply (digit_plain d H). Qed.

Lemma not_blank_of_head line d t :
  of_string line = d :: t -> isWhiteSpace d = false ->
  isEmpty (trim line) = false.
Proof.
  intros E Hd. apply hasInk_not_empty.
  exists d. split; [|exact Hd].
  unfold trim. rewrite of_to_string, E.
  apply trim_l_keeps; [left; reflexivity | exact Hd].
Qed.

(** X7: what the Kotak field extractor writes and what it reads.  A
    line it parses begins with a digit (so a line with white space in
    front is not parsed, although the merger trims its lines first),
    and the simplified line is a date dd-dd-dddd, a trimmed
    description and an amount made of a currency figure and its
    indicator (Dr) or (Cr), separated by [" | "]; the list of
    simplified lines holds one line for every line that parses. *)
Theorem kotak_extractor_shape :
  (forall line s : string,
     KotakParser.parseTransactionLine line = Some s ->
     (exists d t, of_string line = d :: t /\ isDigit d = true) /\
     exists date desc figure ind,
       s = date ++ " | " ++ desc ++ " | " ++ figure ++ "(" ++ ind ++ ")" /\
       InLang false dashDate (of_string date) /\
       trim desc = desc /\
       InLang false (pattern BaseParser.currencyAmount) (of_string figure) /\
       (ind = "Dr" \/ ind = "Cr")) /\
  (forall lines : list string,
     KotakParser.simplifiedLines lines =
     flat_map (fun line => match KotakParser.parseTransactionLine line with
                           | Some simplified => [simplified]
                           | None => []
                           end)
              lines).
Proof.
  assert (Hshape : forall line s : string,
     KotakParser.parseTransactionLine line = Some s ->
     (exists d t, of_string line = d :: t /\ isDigit d = true) /\
     exists date desc figure ind,
       s = date ++ " | " ++ desc ++ " | " ++ figure ++ "(" ++ ind ++ ")" /\
       InLang false dashDate (of_string date) /\
       trim desc = desc /\
       InLang false (pattern BaseParser.currencyAmount) (of_string figure) /\
       (ind = "Dr" \/ ind = "Cr")).
  { intros line s. unfold KotakParser.parseTransactionLine.
    destruct (exec KotakParser.baseRegex line) as [mt|] eqn:E;
      [|discriminate].
    cbv zeta. intros H. apply some_inj in H.
    split; [exact (kotak_parsed_starts_with_digit line mt E)|].
    destruct (kotak_base_groups line mt E) as [Hd Ha].
    destruct (markedAmount_word _ Ha) as [figure [ind [Ef [Hi Hf]]]].
    rewrite to_of_string in Ef.
    exists (group 1 mt),
           (trim (KotakParser.cleanDescription (group 2 mt))), figure, ind.
    split; [rewrite <- H, Ef; reflexivity|].
    split; [exact Hd|]. split; [apply trim_idem|]. auto. }
  split; [exact Hshape|].
  intros lines. unfold KotakParser.simplifiedLines.
  apply flat_map_ext. intros line.
  destruct (KotakParser.parseTransactionLine line) as [s|] eqn:E.
  - destruct (Hshape line s E)
      as [[d [t [El Hd]]] [date [desc [figure [ind [Es [Hdate _]]]]]]].
    rewrite (not_blank_of_head line d t El (digit_not_white d Hd)).
    destruct (dashDate_word _ Hdate) as [a [b [c [Ea [La _]]]]].
    destruct s as [|x s']; [|reflexivity].
    exfalso. destruct date as [|x date'].
    + destruct a; discriminate.
    + discriminate Es.
  - destruct (isEmpty (trim line)); reflexivity.
Qed.

(** A payment by UPI: the merchant is the text after the first
    slash. *)
Lemma kotak_extractor_witness :
  KotakParser.parseTransactionLine
    "01-04-2023 UPI/SWIGGY/309112345678/Food UPI-309112345678 250.00(Dr) 10,000.00(Cr)"
    = Some "01-04-2023 | SWIGGY | 250.00(Dr)" /\
  exists date desc figure ind,
    "01-04-2023 | SWIGGY | 250.00(Dr)" =
      date ++ " | " ++ desc ++ " | " ++ figure ++ "(" ++ ind ++ ")" /\
    InLang false dashDate (of_string date) /\
    trim desc = desc /\
    InLang false (pattern BaseParser.currencyAmount) (of_string figure) /\
    (ind = "Dr" \/ ind = "Cr").
Proof.
  assert (E : KotakParser.parseTransactionLine
    "01-04-2023 UPI/SWIGGY/309112345678/Food UPI-309112345678 250.00(Dr) 10,000.00(Cr)"
    = Some "01-04-2023 | SWIGGY | 250.00(Dr)") by (vm_compute; reflexivity).
  split; [exact E|].
  exact (proj2 (proj1 kotak_extractor_shape _ _ E)).
Defined.

(* ================================================================== *)
(** * Empty results *)

Lemma trimStart_nil_white s :
  trimStart_l s = [] -> Forall (fun c => isWhiteSpace c = true) s.
Proof.
  induction s as [|c s IH]; simpl; [constructor|].
  destruct (isWhiteSpace c) eqn:E; [|discriminate].
  intros H. constructor; auto.
Qed.

Lemma white_trimStart s :
  Forall (fun c => isWhiteSpace c = true) s -> trimStart_l s = [].
Proof.
  induction 1 as [|c s Hc _ IH]; simpl; [reflexivity|].
  rewrite Hc. exact IH.
Qed.

(** A text is blank exactly when all its characters are white
    space. *)
Lemma blank_iff_white s :
  isEmpty (trim s) = true <->
  Forall (fun c => isWhiteSpace c = true) (of_string s).
Proof.
  unfold trim. rewrite isEmpty_to_string. unfold trim_l. split.
  - intros H. apply trimStart_nil_white.
    destruct (trimStart_l (of_string s)) as [|c t] eqn:E; [reflexivity|].
    exfalso. pose proof (trimStart_head _ _ _ E) as Hc.
    assert (Hin : In c (trimStart_l (rev (c :: t)))).
    { apply trimStart_keeps; [|exact Hc]. apply -> in_rev. left.
      reflexivity. }
    destruct (trimStart_l (rev (c :: t))) as [|a l]; [contradiction|].
    cbn [rev] in H. destruct (rev l); discriminate.
  - intros F. rewrite (white_trimStart _ F). reflexivity.
Qed.

(** The pieces of a split are made of characters of the text. *)
Lemma split_go_chars sep : forall s skip cur piece c,
  In piece (split_go sep s skip cur) -> In c piece ->
  In c s \/ In c cur.
Proof.
  induction s as [|x s IH]; intros skip cur piece c Hp Hc.
  - simpl in Hp. destruct Hp as [<-|[]]. right. apply in_rev, Hc.
  - cbn [split_go] in Hp. destruct skip as [|k].
    + destruct (isPrefix sep (x :: s)).
      * destruct Hp as [<-|Hp]; [right; apply in_rev, Hc|].
        destruct (IH _ _ _ _ Hp Hc) as [H|[]]. left. right. exact H.
      * destruct (IH _ _ _ _ Hp Hc) as [H|[H|H]];
          [left; right; exact H | left; left; exact H | right; exact H].
    + destruct (IH _ _ _ _ Hp Hc) as [H|H]; [left; right; exact H | auto].
Qed.

Lemma split_blank sep s :
  isEmpty (trim s) = true ->
  Forall (fun l => isEmpty (trim l) = true) (split sep s).
Proof.
  intros H. apply blank_iff_white in H. rewrite Forall_forall in H.
  apply Forall_forall. intros l Hl. unfold split in Hl.
  apply in_map_iff in Hl. destruct Hl as [piece [<- Hp]].
  apply blank_iff_white. rewrite of_to_string.
  apply Forall_forall. intros c Hc.
  destruct (split_go_chars _ _ _ _ _ c Hp Hc) as [Hin|[]].
  apply H, Hin.
Qed.

Lemma flat_map_nil (A B : Type) (f : A -> list B) (l : list A) :
  Forall (fun a => f a = []) l -> flat_map f l = [].
Proof.
  induction 1 as [|a l Ha _ IH]; simpl; [reflexivity|].
  rewrite Ha, IH. reflexivity.
Qed.

Lemma length_zero_nil (A : Type) (l : list A) : List.length l = 0 -> l = [].
Proof. destruct l; [reflexivity | discriminate]. Qed.

(** X8: empty results are empty texts, not errors.  A text none of
    whose lines starts a record is merged to the empty text, for each
    variant; and for a blank text (white space only) every stage of
    each variant returns the empty text: the merger, the field
    extractor, and the categorizer applied to what the extractor
    returned, as the caller applies it. *)
Theorem empty_results :
  forall rawText : string,
    (filter HDFCParser.startsLine (split LF rawText) = [] ->
     HDFCParser.cleanOCROutput rawText = "") /\
    (filter KotakParser.startsLine (split LF rawText) = [] ->
     KotakParser.cleanOCROutput rawText = "") /\
    (filter ICICIParser.startsLine (split LF rawText) = [] ->
     ICICIParser.cleanOCROutput rawText = "") /\
    (isEmpty (trim rawText) = true ->
     HDFCParser.cleanOCROutput rawText = "" /\
     HDFCParser.cleanOCROutputSimplified rawText = "" /\
     HDFCParser.categorizeTransactions
       (HDFCParser.cleanOCROutputSimplified rawText) = "" /\
     KotakParser.cleanOCROutput rawText = "" /\
     KotakParser.cleanOCROutputSimplified rawText = "" /\
     KotakParser.categorizeTransactions
       (KotakParser.cleanOCROutputSimplified rawText) = "" /\
     ICICIParser.cleanOCROutput rawText = "" /\
     ICICIParser.cleanOCROutputSimplified rawText = "" /\
     ICICIParser.categorizeTransactions
       (ICICIParser.cleanOCROutputSimplified rawText) = "").
Proof.
  intros rawText.
  assert (H1 : filter HDFCParser.startsLine (split LF rawText) = [] ->
               HDFCParser.cleanOCROutput rawText = "").
  { intros H. unfold HDFCParser.cleanOCROutput.
    rewrite (length_zero_nil _ (HDFCParser.transactionLines _));
      [reflexivity|]. rewrite hdfc_count, H. reflexivity. }
  assert (H2 : filter KotakParser.startsLine (split LF rawText) = [] ->
               KotakParser.cleanOCROutput rawText = "").
  { intros H. unfold KotakParser.cleanOCROutput.
    rewrite (length_zero_nil _ (KotakParser.transactionLines _));
      [reflexivity|]. rewrite kotak_count, H. reflexivity. }
  assert (H3 : filter ICICIParser.startsLine (split LF rawText) = [] ->
               ICICIParser.cleanOCROutput rawText = "").
  { intros H. unfold ICICIParser.cleanOCROutput.
    rewrite (length_zero_nil _ (ICICIParser.transactionLines _));
      [reflexivity|]. rewrite icici_count, H. reflexivity. }
  split; [exact H1|]. split; [exact H2|]. split; [exact H3|].
  intros Hb. pose proof (split_blank LF rawText Hb) as F.
  assert (Hno : forall isT isH isP,
            filter (startsRecord isT isH isP) (split LF rawText) = []).
  { intros isT isH isP. apply filter_none.
    eapply Forall_impl; [|exact F]. intros l Hl.
    unfold startsRecord. rewrite Hl. reflexivity. }
  assert (S1 : HDFCParser.cleanOCROutputSimplified rawText = "").
  { unfold HDFCParser.cleanOCROutputSimplified, HDFCParser.simplifiedLines.
    rewrite flat_map_nil; [reflexivity|].
    eapply Forall_impl; [|exact F]. intros l Hl. cbv beta.
    rewrite Hl. reflexivity. }
  assert (S2 : KotakParser.cleanOCROutputSimplified rawText = "").
  { unfold KotakParser.cleanOCROutputSimplified,
      KotakParser.simplifiedLines.
    rewrite flat_map_nil; [reflexivity|].
    eapply Forall_impl; [|exact F]. intros l Hl. cbv beta.
    rewrite Hl. reflexivity. }
  assert (C3 : ICICIParser.cleanOCROutput rawText = "")
    by (apply H3, Hno).
  assert (S3 : ICICIParser.cleanOCROutputSimplified rawText = "").
  { unfold ICICIParser.cleanOCROutputSimplified. rewrite C3. reflexivity. }
  rewrite S1, S2, S3.
  repeat split; try reflexivity.
  - apply H1, Hno.
  - apply H2, Hno.
  - exact C3.
Qed.

Lemma empty_results_witness :
  isEmpty (trim blankText) = true /\
  HDFCParser.cleanOCROutput blankText = "" /\
  KotakParser.cleanOCROutputSimplified blankText = "" /\
  ICICIParser.categorizeTransactions
    (ICICIParser.cleanOCROutputSimplified blankText) = "".
Proof.
  assert (Hb : isEmpty (trim blankText) = true) by reflexivity.
  pose proof (proj2 (proj2 (proj2 (empty_results blankText))) Hb) as H.
  split; [exact Hb|].
  split; [exact (proj1 H)|].
  split; [exact (proj1 (proj2 (proj2 (proj2 (proj2 H)))))|].
  exact (proj2 (proj2 (proj2 (proj2 (proj2 (proj2 (proj2 (proj2 H)))))))).
Defined.

(* ================================================================== *)
(** * The P&L and GST factories *)

Lemma standard_not_empty s : toUpperCase s = "STANDARD" -> isEmpty s = false.
Proof. destruct s; [vm_compute; discriminate | reflexivity]. Qed.

(** X9: the P&L and GST factories select by the upper case of the
    type code, as the bank factory does: each returns its parser
    exactly when the upper-cased code is STANDARD, the one supported
    type, and throws otherwise -- for the empty code with the message
    that the code cannot be empty, for any other code with a message
    that ends with the code as given. *)
Theorem type_factories_select_by_upper_case :
  forall typeCode : string,
    ((exists p, getPnLParser typeCode = Returns p) <->
     In (toUpperCase typeCode) getSupportedPnLTypes) /\
    ((exists p, getGSTParser typeCode = Returns p) <->
     In (toUpperCase typeCode) getSupportedGSTTypes) /\
    (~ In (toUpperCase typeCode) getSupportedPnLTypes ->
     getPnLParser typeCode =
       Throws (if isEmpty typeCode then "P&L type code cannot be empty."
               else "P&L parser not implemented for code: " ++ typeCode) /\
     getGSTParser typeCode =
       Throws (if isEmpty typeCode then "GST type code cannot be empty."
               else "GST parser not implemented for code: " ++ typeCode)).
Proof.
  intros s. unfold getPnLParser, getGSTParser, getSupportedPnLTypes,
    getSupportedGSTTypes. cbn [In].
  destruct (String.eqb_spec (toUpperCase s) "STANDARD") as [E|N].
  - rewrite (standard_not_empty s E).
    split; [split; [auto | eauto]|].
    split; [split; [auto | eauto]|].
    intros H. exfalso. apply H. auto.
  - assert (Hn : ~ ("STANDARD" = toUpperCase s \/ False))
      by (intros [H|[]]; apply N; symmetry; exact H).
    split; [|split].
    + split; [|intros H; contradiction].
      intros [p H]. destruct (isEmpty s); discriminate H.
    + split; [|intros H; contradiction].
      intros [p H]. destruct (isEmpty s); discriminate H.
    + intros _. destruct (isEmpty s); split; reflexivity.
Qed.

(** The code "standard" gives the parsers, "quarterly" does not. *)
Lemma type_factories_witness :
  getPnLParser "standard" = Returns StandardPnLParser /\
  getGSTParser "Standard" = Returns GSTParser /\
  getPnLParser "quarterly" =
    Throws "P&L parser not implemented for code: quarterly".
Proof.
  split; [reflexivity|]. split; [reflexivity|].
  refine (proj1 (proj2 (proj2 (type_factories_select_by_upper_case
                                 "quarterly")) _)).
  vm_compute. intros [H|[]]. discriminate H.
Defined.

(* ================================================================== *)
(** * Splitting at a character and at white space *)

Lemma split_go_char c : forall (a r cur : chars),
  ~ In c a ->
  split_go [c] (a ++ c :: r)%list 0 cur =
  (rev cur ++ a)%list :: split_go [c] r 0 [].
Proof.
  induction a as [|x a IH]; intros r cur Hn.
  - cbn [app split_go isPrefix List.length Nat.sub].
    rewrite Ascii.eqb_refl. cbn [andb]. rewrite app_nil_r. reflexivity.
  - cbn [app split_go isPrefix].
    assert (Hx : Ascii.eqb c x = false).
    { apply Ascii.eqb_neq. intros ->. apply Hn. left. reflexivity. }
    rewrite Hx. cbn [andb].
    rewrite IH by (intros H; apply Hn; right; exact H).
    cbn [rev]. rewrite <- app_assoc. reflexivity.
Qed.

Lemma split_go_last c : forall (a cur : chars),
  ~ In c a -> split_go [c] a 0 cur = [(rev cur ++ a)%list].
Proof.
  induction a as [|x a IH]; intros cur Hn.
  - cbn [split_go]. rewrite app_nil_r. reflexivity.
  - cbn [split_go isPrefix].
    assert (Hx : Ascii.eqb c x = false).
    { apply Ascii.eqb_neq. intros ->. apply Hn. left. reflexivity. }
    rewrite Hx. cbn [andb].
    rewrite IH by (intros H; apply Hn; right; exact H).
    cbn [rev]. rewrite <- app_assoc. reflexivity.
Qed.

Lemma splitRe_go_word : forall (u r cur : chars) p fresh,
  isWord u -> u <> [] ->
  exists q,
    splitRe_go whiteSpaces p (u ++ r)%list 0 cur fresh =
    splitRe_go whiteSpaces q r 0 (rev u ++ cur)%list false.
Proof.
  induction u as [|c u IH]; intros r cur p fresh Hu Hne; [congruence|].
  inversion Hu as [|? ? Hc Hu']; subst.
  cbn [app splitRe_go].
  pose proof (matchHere_ws p (c :: u ++ r)%list) as Hm. cbn beta iota in Hm.
  rewrite Hc in Hm. rewrite Hm.
  destruct u as [|c' u'].
  - exists (Some c). reflexivity.
  - destruct (IH r (c :: cur) (Some c) false Hu' ltac:(discriminate))
      as [q Hq].
    exists q. rewrite Hq. cbn [rev]. rewrite <- !app_assoc. reflexivity.
Qed.

Lemma splitRe_go_end p (cur : chars) fresh :
  splitRe_go whiteSpaces p [] 0 cur fresh = [rev cur].
Proof. reflexivity. Qed.

Lemma wsLen_word (u r : chars) :
  isWord u -> u <> [] -> wsLen (u ++ r)%list = 0.
Proof.
  intros Hu Hne. destruct u as [|c u]; [congruence|].
  inversion Hu; subst. cbn [app]. rewrite wsLen_cons.
  destruct (isWhiteSpace c); [discriminate | reflexivity].
Qed.

(** A space between two words splits there. *)
Lemma splitRe_go_space (u r cur : chars) p fresh :
  isWord u -> u <> [] ->
  splitRe_go whiteSpaces p (" "%char :: u ++ r)%list 0 cur fresh =
  rev cur :: splitRe_go whiteSpaces (Some " "%char) (u ++ r)%list 0 [] true.
Proof.
  intros Hu Hne. cbn [splitRe_go].
  pose proof (matchHere_ws p (" "%char :: u ++ r)%list) as Hm.
  cbn beta iota in Hm.
  change (isWhiteSpace " ") with true in Hm. cbv iota in Hm.
  destruct Hm as [q ->]. unfold remaining. cbn [rest].
  pose proof (wsLen_word u r Hu Hne) as Hw. unfold wsLen in Hw.
  pose proof (trimStart_length (u ++ r)%list) as Hl.
  replace (List.length (" "%char :: u ++ r)%list -
           List.length (trimStart_l (u ++ r)%list)) with 1
    by (cbn [List.length]; lia).
  reflexivity.
Qed.

(** Three words with single spaces between them split into the
    three. *)
Lemma splitRe_three (a b c : chars) :
  isWord a -> a <> [] -> isWord b -> b <> [] -> isWord c -> c <> [] ->
  splitRe whiteSpaces
    (to_string (a ++ " "%char :: b ++ " "%char :: c)%list) =
  [to_string a; to_string b; to_string c].
Proof.
  intros Ha Na Hb Nb Hc Nc. unfold splitRe. rewrite of_to_string.
  destruct a as [|x a']; [congruence|].
  change ((x :: a') ++ " "%char :: b ++ " "%char :: c)%list
    with (x :: (a' ++ " "%char :: b ++ " "%char :: c))%list.
  cbv iota.
  change (x :: (a' ++ " "%char :: b ++ " "%char :: c))%list
    with ((x :: a') ++ " "%char :: b ++ " "%char :: c)%list.
  destruct (splitRe_go_word (x :: a') (" "%char :: b ++ " "%char :: c)%list
              [] None true Ha Na) as [q1 ->].
  rewrite (splitRe_go_space b (" "%char :: c)) by assumption.
  destruct (splitRe_go_word b (" "%char :: c) [] (Some " "%char) true Hb Nb)
    as [q2 ->].
  rewrite <- (app_nil_r c) at 1.
  rewrite (splitRe_go_space c []) by assumption.
  destruct (splitRe_go_word c [] [] (Some " "%char) true Hc Nc)
    as [q3 ->].
  rewrite splitRe_go_end. cbn [map]. rewrite !app_nil_r, !rev_involutive.
  reflexivity.
Qed.

(** Trimming takes off white space around a text that starts and
    ends with ink. *)
Lemma trimStart_white_app (a x : chars) :
  Forall (fun c => isWhiteSpace c = true) a ->
  trimStart_l (a ++ x)%list = trimStart_l x.
Proof.
  induction 1 as [|c a Hc _ IH]; [reflexivity|].
  cbn [app trimStart_l]. rewrite Hc. exact IH.
Qed.

Lemma trim_l_exact (a mid b : chars) :
  Forall (fun c => isWhiteSpace c = true) a ->
  Forall (fun c => isWhiteSpace c = true) b ->
  trimStart_l mid = mid -> trimStart_l (rev mid) = rev mid ->
  trim_l (a ++ mid ++ b)%list = mid.
Proof.
  intros Fa Fb Hs He. unfold trim_l.
  rewrite (trimStart_white_app a _ Fa).
  destruct mid as [|x mid'].
  - cbn [app]. rewrite (white_trimStart b Fb). reflexivity.
  - assert (Hx : trimStart_l ((x :: mid') ++ b)%list =
                 ((x :: mid') ++ b)%list).
    { cbn [app trimStart_l] in Hs |- *.
      destruct (isWhiteSpace x); [|reflexivity].
      exfalso. pose proof (trimStart_length mid') as Hl.
      rewrite Hs in Hl. cbn [List.length] in Hl. lia. }
    rewrite Hx, rev_app_distr.
    rewrite (trimStart_white_app (rev b)) by (apply Forall_rev, Fb).
    rewrite He. apply rev_involutive.
Qed.

Lemma word_trimStart u : isWord u -> trimStart_l u = u.
Proof.
  intros H. apply trimStart_fixed. destruct u as [|c u]; [exact I|].
  inversion H; assumption.
Qed.

Lemma word_rev u : isWord u -> isWord (rev u).
Proof. apply Forall_rev. Qed.

Lemma word_app u v : isWord u -> isWord v -> isWord (u ++ v)%list.
Proof. intros Hu Hv. apply Forall_app. split; assumption. Qed.

(* ================================================================== *)
(** * ICICI: from the field extractor to the categorizer *)

Lemma figureChar_plain c :
  figureChar c -> isWhiteSpace c = false /\ c <> "|"%char.
Proof.
  intros [H|[->|[->| ->]]]; try (split; [reflexivity | discriminate]).
  split; [apply digit_not_white, H|].
  intros ->. discriminate H.
Qed.

Lemma figure_class_char x :
  inClass false [CDigit; CChar ","; CChar "."] x = true -> figureChar x.
Proof.
  unfold inClass, figureChar. cbn [existsb inItem andb].
  rewrite !orb_false_r.
  destruct (isDigit x); [auto|]. cbn [orb].
  destruct (Ascii.eqb_spec "," x) as [<-|_]; [auto|]. cbn [orb].
  destruct (Ascii.eqb_spec "." x) as [<-|_]; [auto|]. discriminate.
Qed.

Lemma digits_figureChars w :
  Forall (fun x => isDigit x = true) w -> Forall figureChar w.
Proof. apply Forall_impl. intros x H. left. exact H. Qed.

Lemma figure_word w :
  InLang false ICICIParser.figure w -> Forall figureChar w /\ w <> [].
Proof.
  unfold ICICIParser.figure, seqs, star, digit.
  intros [w1 [w2 [-> [H1 [d [-> Hd]]]]]].
  apply InLang_class_rep in H1. destruct H1 as [F1 _].
  apply inClass_digit in Hd. split.
  - apply Forall_app. split.
    + eapply Forall_impl; [|exact F1]. apply figure_class_char.
    + constructor; [left; exact Hd | constructor].
  - destruct w1; discriminate.
Qed.

Lemma balance_word w :
  InLang false balanceFigure w -> Forall figureChar w /\ w <> [].
Proof.
  unfold balanceFigure. cbn [seqs InLang].
  intros [w1 [x1 [-> [H1 [p [w2 [-> [Hp H2]]]]]]]].
  change (InLang false ICICIParser.figure w1) in H1.
  destruct (figure_word w1 H1) as [F1 N1].
  apply chr_word in Hp. subst p.
  apply times_digits in H2. destruct H2 as [_ F2]. split.
  - apply Forall_app. split; [exact F1|].
    constructor; [right; right; left; reflexivity|].
    apply digits_figureChars, F2.
  - destruct w1; [congruence | discriminate].
Qed.

Lemma longDate_word w :
  InLang false ICICIParser.longDate w -> Forall figureChar w /\ w <> [].
Proof.
  unfold ICICIParser.longDate. cbn [seqs InLang].
  intros [a [w1 [-> [Ha [s1 [w2 [-> [Hs1 [b [w3 [-> [Hb
         [s2 [c [-> [Hs2 Hc]]]]]]]]]]]]]]]].
  apply chr_word in Hs1, Hs2. subst s1 s2.
  apply times_digits in Ha, Hb, Hc.
  destruct Ha as [La Fa], Hb as [Lb Fb], Hc as [Lc Fc]. split.
  - apply Forall_app. split; [apply digits_figureChars, Fa|].
    constructor; [right; right; right; reflexivity|].
    apply Forall_app. split; [apply digits_figureChars, Fb|].
    constructor; [right; right; right; reflexivity|].
    apply digits_figureChars, Fc.
  - destruct a; discriminate.
Qed.

Lemma figureChars_word w : Forall figureChar w -> isWord w.
Proof. apply Forall_impl. intros c H. apply (figureChar_plain c H). Qed.

Lemma figureChars_no_pipe w : Forall figureChar w -> ~ In "|"%char w.
Proof.
  intros F Hin. rewrite Forall_forall in F.
  destruct (figureChar_plain _ (F _ Hin)) as [_ H]. congruence.
Qed.

Lemma icici_dated_group line dm :
  exec ICICIParser.datedLine line = Some dm ->
  InLang false ICICIParser.longDate (of_string (group 1 dm)).
Proof.
  intros H.
  apply (group_sound (groupShape false [(1, ICICIParser.longDate)])
                     ICICIParser.datedLine line dm 1);
    [| | |exact H|left; reflexivity].
  - shapes_sat.
  - cbn. no_dup.
  - cbn. auto 10.
Qed.

Lemma icici_amount_groups text am :
  exec ICICIParser.amountRegex text = Some am ->
  InLang false ICICIParser.figure (of_string (group 2 am)) /\
  InLang false ICICIParser.figure (of_string (group 3 am)) /\
  InLang false balanceFigure (of_string (group 4 am)).
Proof.
  intros H.
  assert (G : forall n, n = 2 \/ n = 3 \/ n = 4 ->
              groupShape false [(2, ICICIParser.figure);
                                (3, ICICIParser.figure);
                                (4, balanceFigure)]
                         n (of_string (group n am))).
  { intros n Hn.
    apply (group_sound _ ICICIParser.amountRegex text am n);
      [| | |exact H].
    - shapes_sat.
    - cbn. no_dup.
    - cbn. destruct Hn as [->|[->| ->]]; auto 10. }
  split; [|split].
  - apply (G 2); [auto|]. left. reflexivity.
  - apply (G 3); [auto|]. right. left. reflexivity.
  - apply (G 4); [auto|]. right. right. left. reflexivity.
Qed.

(** The simplified line of the extractor, read back. *)
Lemma icici_read_back (date description w d b : string) :
  Forall figureChar (of_string date) -> of_string date <> [] ->
  ~ In "|"%char (of_string description) ->
  Forall figureChar (of_string w) -> of_string w <> [] ->
  Forall figureChar (of_string d) -> of_string d <> [] ->
  Forall figureChar (of_string b) -> of_string b <> [] ->
  exists t,
    ICICIParser.categorizeLine
      (date ++ " | " ++ description ++ " | " ++ w ++ " " ++ d ++ " " ++ b)
      = Some t /\
    txDate t = date /\
    (txType t, txAmount t) = ICICIParser.resolve w d.
Proof.
  intros Fdate Ndate Hdesc Fw Nw Fd Nd Fb Nb.
  set (cols := (of_string w ++ " "%char :: of_string d ++
                " "%char :: of_string b)%list).
  assert (Hsplit :
    split "|" (date ++ " | " ++ description ++ " | " ++ w ++ " " ++ d
                    ++ " " ++ b) =
    [to_string (of_string date ++ [" "%char])%list;
     to_string (" "%char :: of_string description ++ [" "%char])%list;
     to_string (" "%char :: cols)]).
  { unfold split. rewrite !of_string_app.
    change (of_string "|") with ["|"%char].
    change (of_string " | ") with [" "%char; "|"%char; " "%char].
    change (of_string " ") with [" "%char].
    replace (of_string date ++ [" "%char; "|"%char; " "%char] ++
             of_string description ++ [" "%char; "|"%char; " "%char] ++
             of_string w ++ [" "%char] ++ of_string d ++ [" "%char] ++
             of_string b)%list
      with ((of_string date ++ [" "%char]) ++ "|"%char ::
            (" "%char :: of_string description ++ [" "%char]) ++ "|"%char ::
            (" "%char :: cols))%list
      by (unfold cols; cbn [app]; rewrite <- !app_assoc; reflexivity).
    rewrite split_go_char.
    2:{ intros Hin. apply in_app_or in Hin.
        destruct Hin as [Hin|[Hin|[]]];
          [exact (figureChars_no_pipe _ Fdate Hin) | discriminate Hin]. }
    rewrite split_go_char.
    2:{ intros [Hin|Hin]; [discriminate Hin|].
        apply in_app_or in Hin.
        destruct Hin as [Hin|[Hin|[]]]; [exact (Hdesc Hin) | discriminate Hin]. }
    rewrite split_go_last.
    2:{ intros [Hin|Hin]; [discriminate Hin|]. unfold cols in Hin.
        apply in_app_or in Hin. destruct Hin as [Hin|[Hin|Hin]];
          [exact (figureChars_no_pipe _ Fw Hin) | discriminate Hin|].
        apply in_app_or in Hin. destruct Hin as [Hin|[Hin|Hin]];
          [exact (figureChars_no_pipe _ Fd Hin) | discriminate Hin|].
        exact (figureChars_no_pipe _ Fb Hin). }
    reflexivity. }
  assert (Wd : isWord (of_string date)) by (apply figureChars_word, Fdate).
  assert (Ww : isWord (of_string w)) by (apply figureChars_word, Fw).
  assert (Wdd : isWord (of_string d)) by (apply figureChars_word, Fd).
  assert (Wb : isWord (of_string b)) by (apply figureChars_word, Fb).
  assert (Hdate : trim (to_string (of_string date ++ [" "%char])%list) = date).
  { unfold trim. rewrite of_to_string.
    rewrite <- (to_of_string date) at 2. f_equal.
    apply (trim_l_exact [] (of_string date) [" "%char]);
      [constructor | repeat constructor| |].
    - apply word_trimStart, Wd.
    - apply word_trimStart, word_rev, Wd. }
  assert (Hcols : trim (to_string (" "%char :: cols)) = to_string cols).
  { unfold trim. rewrite of_to_string. f_equal.
    rewrite <- (app_nil_r cols) at 1.
    apply (trim_l_exact [" "%char] cols []);
      [repeat constructor | constructor| |].
    - unfold cols. destruct (of_string w) as [|x w'] eqn:Ew; [congruence|].
      inversion Ww; subst. cbn [app trimStart_l].
      destruct (isWhiteSpace x); [discriminate | reflexivity].
    - unfold cols.
      change (of_string w ++ " "%char :: of_string d ++ " "%char :: of_string b)%list
        with (of_string w ++ [" "%char] ++ of_string d ++ [" "%char] ++ of_string b)%list.
      rewrite !rev_app_distr.
      destruct (rev (of_string b)) as [|x b'] eqn:Eb.
      + exfalso. apply Nb. rewrite <- (rev_involutive (of_string b)), Eb.
        reflexivity.
      + pose proof (word_rev _ Wb) as Wr. rewrite Eb in Wr.
        inversion Wr; subst. cbn [app trimStart_l].
        destruct (isWhiteSpace x); [discriminate | reflexivity]. }
  unfold ICICIParser.categorizeLine. rewrite Hsplit.
  cbn [List.length Nat.ltb Nat.leb nth]. cbv zeta.
  unfold ICICIParser.columns. cbn [nth]. rewrite Hcols, Hdate.
  unfold cols. rewrite (splitRe_three _ _ _ Ww Nw Wdd Nd Wb Nb).
  rewrite !to_of_string.
  cbn [List.length Nat.ltb Nat.leb nth].
  destruct (ICICIParser.resolve w d) as [ty amt].
  eexists. split; [reflexivity|]. split; reflexivity.
Qed.

(** X10: from the ICICI field extractor to the ICICI categorizer.
    The simplified line the extractor writes is a date dd/dd/dddd, a
    trimmed description, and the withdrawal, deposit and balance
    figures, separated by [" | "] and single spaces.  When the
    description holds no [|], the categorizer accepts this line and
    reads back what was written: its record has the extractor's date,
    and its direction and amount are decided by the extractor's
    withdrawal and deposit figures. *)
Theorem icici_extractor_to_categorizer :
  forall line s : string,
    ICICIParser.parseTransactionLine line = Some s ->
    exists date description withdrawal deposit balance,
      s = date ++ " | " ++ description ++ " | " ++ withdrawal ++ " "
               ++ deposit ++ " " ++ balance /\
      InLang false ICICIParser.longDate (of_string date) /\
      trim description = description /\
      InLang false ICICIParser.figure (of_string withdrawal) /\
      InLang false ICICIParser.figure (of_string deposit) /\
      InLang false balanceFigure (of_string balance) /\
      (~ In "|"%char (of_string description) ->
       exists t,
         ICICIParser.categorizeLine s = Some t /\
         txDate t = date /\
         (txType t, txAmount t) = ICICIParser.resolve withdrawal deposit).
Proof.
  intros line s. unfold ICICIParser.parseTransactionLine. cbv zeta.
  destruct (exec ICICIParser.datedLine _) as [dm|] eqn:Ed; [|discriminate].
  destruct (exec ICICIParser.amountRegex _) as [am|] eqn:Ea; [|discriminate].
  intros H. apply some_inj in H.
  pose proof (icici_dated_group _ dm Ed) as Hdate.
  destruct (icici_amount_groups _ am Ea) as [Hw [Hd Hb]].
  exists (group 1 dm), (trim (group 1 am)), (group 2 am), (group 3 am),
         (group 4 am).
  split; [symmetry; exact H|]. split; [exact Hdate|].
  split; [apply trim_idem|]. split; [exact Hw|]. split; [exact Hd|].
  split; [exact Hb|]. intros Hdesc. rewrite <- H.
  destruct (longDate_word _ Hdate) as [F1 N1].
  destruct (figure_word _ Hw) as [F2 N2].
  destruct (figure_word _ Hd) as [F3 N3].
  destruct (balance_word _ Hb) as [F4 N4].
  apply icici_read_back; assumption.
Qed.

(** A withdrawal of 250.00 goes from the raw line to a DEBIT. *)
Lemma icici_pipeline_witness :
  ICICIParser.parseTransactionLine
    "1 01/04/2023 01/04/2023 ATM CASH 250.00 0.00 10,000.00"
    = Some "01/04/2023 | ATM CASH | 250.00 0.00 10,000.00" /\
  ICICIParser.categorizeLine "01/04/2023 | ATM CASH | 250.00 0.00 10,000.00"
    = Some {| txDate := "01/04/2023"; txDescription := "ATM CASH";
              txAmount := "250.00"; txType := DEBIT |} /\
  exists date description withdrawal deposit balance,
    "01/04/2023 | ATM CASH | 250.00 0.00 10,000.00" =
      date ++ " | " ++ description ++ " | " ++ withdrawal ++ " "
           ++ deposit ++ " " ++ balance /\
    InLang false ICICIParser.longDate (of_string date) /\
    trim description = description /\
    InLang false ICICIParser.figure (of_string withdrawal) /\
    InLang false ICICIParser.figure (of_string deposit) /\
    InLang false balanceFigure (of_string balance) /\
    (~ In "|"%char (of_string description) ->
     exists t,
       ICICIParser.categorizeLine
         "01/04/2023 | ATM CASH | 250.00 0.00 10,000.00" = Some t /\
       txDate t = date /\
       (txType t, txAmount t) = ICICIParser.resolve withdrawal deposit).
Proof.
  assert (E : ICICIParser.parseTransactionLine
                "1 01/04/2023 01/04/2023 ATM CASH 250.00 0.00 10,000.00"
              = Some "01/04/2023 | ATM CASH | 250.00 0.00 10,000.00")
    by (vm_compute; reflexivity).
  split; [exact E|]. split; [vm_compute; reflexivity|].
  exact (icici_extractor_to_categorizer _ _ E).
Defined.

(* ================================================================== *)
(** * The reader of the categorized text *)

Lemma trim_l_ends s :
  trimStart_l (trim_l s) = trim_l s /\
  trimStart_l (rev (trim_l s)) = rev (trim_l s).
Proof.
  unfold trim_l.
  set (t := trimStart_l (rev (trimStart_l s))).
  assert (Ht : trimStart_l t = t) by apply trimStart_idem.
  split; [|rewrite rev_involutive; exact Ht].
  apply trimStart_fixed.
  destruct (rev t) as [|c u] eqn:Er; [exact I|].
  destruct (trimStart_split (rev (trimStart_l s))) as [a [Ea _]].
  fold t in Ea.
  assert (E : trimStart_l s = (rev t ++ rev a)%list).
  { rewrite <- rev_app_distr, <- Ea, rev_involutive. reflexivity. }
  rewrite Er in E. simpl in E. eapply trimStart_head, E.
Qed.

(** White space around a text does not change what trimming
    leaves. *)
Lemma trim_l_pad (a x b : chars) :
  Forall (fun c => isWhiteSpace c = true) a ->
  Forall (fun c => isWhiteSpace c = true) b ->
  trim_l (a ++ x ++ b)%list = trim_l x.
Proof.
  intros Fa Fb. destruct (trim_l_split x) as [a' [b' [E [Fa' Fb']]]].
  destruct (trim_l_ends x) as [H1 H2].
  rewrite E at 1.
  replace (a ++ (a' ++ trim_l x ++ b') ++ b)%list
    with ((a ++ a') ++ trim_l x ++ (b' ++ b))%list
    by (rewrite <- !app_assoc; reflexivity).
  apply trim_l_exact; try assumption; apply Forall_app; split; assumption.
Qed.

Lemma nonneg_abs x : isNaN x = false -> isNonNegative (abs x) = true.
Proof. destruct x as [s|s| |s mt e]; simpl; auto; discriminate. Qed.

Lemma isNaN_abs x : isNaN (abs x) = isNaN x.
Proof. destruct x; reflexivity. Qed.

(** X11: what the reader stores.  Every transaction that
    [parseCategorizedData] returns was read from a line of the text
    and keeps that line, trimmed, as its raw text; the line is not
    blank, does not start with [=] and does not contain PAGE.  Its
    amount is a number, and it is not negative when the category
    names a DEBIT or a CREDIT in any letter case: debits are stored as
    positive amounts.  Its description and its category are never
    empty.  This holds whatever the host's date conversion does. *)
Theorem stored_transactions_invariant :
  forall (toISOString : string -> option string)
         (selectedBank categorizedText : string)
         (t : OCRBankStatementReader.StoredTransaction),
    In t (OCRBankStatementReader.parseCategorizedData
            toISOString selectedBank categorizedText) ->
    (exists line,
       In line (split LF categorizedText) /\
       OCRBankStatementReader.raw_text t = trim line) /\
    isEmpty (OCRBankStatementReader.raw_text t) = false /\
    startsWith (OCRBankStatementReader.raw_text t) "=" = false /\
    includes (OCRBankStatementReader.raw_text t) "PAGE" = false /\
    isNaN (OCRBankStatementReader.amount t) = false /\
    (includes (toUpperCase (OCRBankStatementReader.category t)) "DEBIT"
       = true \/
     includes (toUpperCase (OCRBankStatementReader.category t)) "CREDIT"
       = true ->
     leb zero (OCRBankStatementReader.amount t) = true) /\
    isEmpty (OCRBankStatementReader.description t) = false /\
    isEmpty (OCRBankStatementReader.category t) = false /\
    OCRBankStatementReader.bank t = selectedBank.
Proof.
  intros iso bank text t Hin.
  unfold OCRBankStatementReader.parseCategorizedData in Hin.
  apply in_flat_map in Hin. destruct Hin as [line [Hline Ht]].
  destruct (OCRBankStatementReader.parseLine iso bank line) as [t'|] eqn:E;
    [|contradiction].
  destruct Ht as [<-|[]].
  split; [exists line|].
  - split; [exact Hline|].
    revert E. unfold OCRBankStatementReader.parseLine. cbv zeta.
    repeat match goal with
           | |- context [if ?x then _ else _] => destruct x
           | |- context [match ?x with Some _ => _ | None => _ end] =>
               destruct x
           end; try discriminate;
      intros H; apply some_inj in H; rewrite <- H; reflexivity.
  - revert E. unfold OCRBankStatementReader.parseLine. cbv zeta.
    destruct (isEmpty (trim line)) eqn:He; [discriminate|].
    destruct (startsWith (trim line) "=") eqn:Hs; [discriminate|].
    destruct (includes (trim line) "PAGE") eqn:Hp; [discriminate|].
    cbn [orb].
    destruct (includes (trim line) "|"); [|discriminate].
    destruct (Nat.leb 4 _); [|discriminate].
    destruct (exec OCRBankStatementReader.slashDate _) as [dm|];
      [|discriminate].
    destruct (iso _) as [parsedDate|]; [|discriminate].
    set (x := parseFloat _).
    destruct (isNaN x) eqn:Hx; [discriminate|].
    set (ty := nth 3 _ "").
    intros H. apply some_inj in H. rewrite <- H.
    cbn [OCRBankStatementReader.raw_text OCRBankStatementReader.amount
         OCRBankStatementReader.category OCRBankStatementReader.description
         OCRBankStatementReader.bank].
    split; [exact He|]. split; [exact Hs|]. split; [exact Hp|].
    split; [|split; [|split; [|split; [|reflexivity]]]].
    + destruct (includes (toUpperCase ty) "DEBIT");
        [rewrite isNaN_abs; exact Hx|].
      destruct (includes (toUpperCase ty) "CREDIT");
        [rewrite isNaN_abs; exact Hx | exact Hx].
    + rewrite leb_zero_iff. destruct (isEmpty ty) eqn:Ety.
      * intros [Hc|Hc]; vm_compute in Hc; discriminate Hc.
      * intros [Hc|Hc].
        -- rewrite Hc. apply nonneg_abs, Hx.
        -- rewrite Hc.
           destruct (includes (toUpperCase ty) "DEBIT");
             apply nonneg_abs, Hx.
    + destruct (isEmpty (nth 1 _ "")) eqn:Ed; [reflexivity | exact Ed].
    + destruct (isEmpty ty) eqn:Ety; [reflexivity | exact Ety].
Qed.

(** A debit written with a minus sign is stored as 5. *)
Lemma stored_transactions_witness :
  In {| OCRBankStatementReader.date := "2049-04-03";
        OCRBankStatementReader.description := "x";
        OCRBankStatementReader.amount := ofZ 5;
        OCRBankStatementReader.category := "debit card";
        OCRBankStatementReader.bank := "HDFC";
        OCRBankStatementReader.raw_text := "3/4/49 | x | -5.00 | debit card" |}
     (OCRBankStatementReader.parseCategorizedData Some "HDFC"
        "3/4/49 | x | -5.00 | debit card") /\
  leb zero (ofZ 5) = true.
Proof.
  assert (Hin : In {| OCRBankStatementReader.date := "2049-04-03";
        OCRBankStatementReader.description := "x";
        OCRBankStatementReader.amount := ofZ 5;
        OCRBankStatementReader.category := "debit card";
        OCRBankStatementReader.bank := "HDFC";
        OCRBankStatementReader.raw_text := "3/4/49 | x | -5.00 | debit card" |}
     (OCRBankStatementReader.parseCategorizedData Some "HDFC"
        "3/4/49 | x | -5.00 | debit card"))
    by (vm_compute; left; reflexivity).
  split; [exact Hin|].
  refine (proj1 (proj2 (proj2 (proj2 (proj2 (proj2
            (stored_transactions_invariant _ _ _ _ Hin)))))) _).
  left. vm_compute. reflexivity.
Defined.

(* ================================================================== *)
(** * Lines of a joined text, and matches that need a character *)

Lemma firstn_In (A : Type) (n : nat) (l : list A) (x : A) :
  In x (firstn n l) -> In x l.
Proof.
  intros H. rewrite <- (firstn_skipn n l). apply in_or_app. left. exact H.
Qed.

(** The text matched is a part of the subject. *)
Lemma execFrom_incl rx : forall s p idx r,
  execFrom rx p idx s = Some r -> incl (matched r) s.
Proof.
  induction s as [|c s IH]; intros p idx r H; cbn [execFrom] in H.
  - destruct (matchHere rx p []) as [y|]; [|discriminate].
    apply some_inj in H. subst r. cbn [matched]. rewrite firstn_nil.
    apply incl_refl.
  - destruct (matchHere rx p (c :: s)) as [y|].
    + apply some_inj in H. subst r. cbn [matched].
      intros x Hx. eapply firstn_In, Hx.
    + intros x Hx. right. exact (IH _ _ _ H x Hx).
Qed.

(** A pattern all of whose words hold [c] matches nothing in a text
    without [c]. *)
Lemma exec_needs_char rx c s :
  NoDup (groups (pattern rx)) ->
  (forall w, InLang (ignoreCase rx) (pattern rx) w -> In c w) ->
  ~ In c (of_string s) ->
  exec rx s = None.
Proof.
  intros Hnd Hc Hs. destruct (exec rx s) as [r|] eqn:E; [|reflexivity].
  exfalso. apply Hs.
  apply (execFrom_incl rx _ _ _ r E), Hc, (matched_sound rx s r Hnd E).
Qed.

Lemma slashDate_needs_slash w :
  InLang false (pattern OCRBankStatementReader.slashDate) w ->
  In "/"%char w.
Proof.
  cbn [pattern OCRBankStatementReader.slashDate re seqs InLang].
  intros [w1 [x1 [-> [_ [sl [x2 [-> [Hs _]]]]]]]].
  apply chr_word in Hs. subst sl.
  apply in_or_app. right. left. reflexivity.
Qed.

(** The lines of records joined by two line feeds are the records
    and empty lines, when no record holds a line feed. *)
Lemma lines_of_joined : forall (rs : list string) (l : string),
  Forall (fun r => ~ In "010"%char (of_string r)) rs ->
  In l (split LF (join (LF ++ LF) rs)) ->
  l = "" \/ In l rs.
Proof.
  unfold split. change (of_string LF) with ["010"%char].
  induction rs as [|r rs IH]; intros l F Hin.
  - cbn in Hin. destruct Hin as [<-|[]]. left. reflexivity.
  - inversion F as [|? ? Hr F']; subst.
    destruct rs as [|r2 rs'].
    + cbn [join] in Hin. rewrite (split_go_last _ _ [] Hr) in Hin.
      cbn [rev app map In] in Hin. destruct Hin as [<-|[]].
      right. left. symmetry. apply to_of_string.
    + change (join (LF ++ LF) (r :: r2 :: rs'))
        with (r ++ (LF ++ LF) ++ join (LF ++ LF) (r2 :: rs')) in Hin.
      rewrite !of_string_app in Hin.
      change (of_string LF) with ["010"%char] in Hin.
      cbn [app] in Hin.
      set (J := of_string (join (LF ++ LF) (r2 :: rs'))) in *.
      rewrite (split_go_char _ _ _ [] Hr) in Hin.
      pose proof (split_go_char "010"%char [] J [] (fun H => H)) as Hs.
      cbn [rev app] in Hs. rewrite Hs in Hin.
      cbn [rev app map In] in Hin.
      destruct Hin as [<-|[<-|Hin]].
      * right. left. symmetry. apply to_of_string.
      * left. reflexivity.
      * destruct (IH l F' Hin) as [H|H]; [left; exact H|].
        right. right. exact H.
Qed.

(* ================================================================== *)
(** * Kotak records and the reader *)

Lemma InLang_any_rep ic min max g w :
  InLang ic (Rep Any min max g) w ->
  Forall (fun x => isLineTerminator x = false) w.
Proof.
  simpl. intros [ws [-> [Hf _]]].
  induction Hf as [|w ws [x [-> Hx]] _ IH]; simpl; [constructor|].
  constructor; assumption.
Qed.

Lemma digit_noLF c : isDigit c = true -> noLF c.
Proof. intros H ->. discriminate H. Qed.

Lemma amountBody_chars w :
  InLang false amountBody w ->
  Forall (fun c => isDigit c = true \/ c = ","%char \/ c = "."%char) w.
Proof.
  unfold amountBody, seqs, plus, times, digit.
  intros [w1 [w2 [-> [H1 [w3 [w4 [-> [Hp H4]]]]]]]].
  apply InLang_class_rep in H1. destruct H1 as [F1 _].
  apply InLang_class_rep in H4. destruct H4 as [F4 _].
  apply chr_word in Hp. subst w3.
  apply Forall_app. split.
  - eapply Forall_impl; [|exact F1]. intros x Hx.
    destruct (digit_or_comma x Hx) as [H|H]; [auto|].
    right. left. unfold notComma in H. apply negb_false_iff in H.
    apply Ascii.eqb_eq in H. exact H.
  - constructor; [auto|].
    eapply Forall_impl; [|exact F4]. intros x Hx. left.
    apply inClass_digit, Hx.
Qed.

Lemma kotak_record_groups line mt :
  exec KotakParser.transactionRegex line = Some mt ->
  InLang false dashDate (of_string (group 1 mt)) /\
  InLang false (plusLazy Any) (of_string (group 2 mt)) /\
  InLang false amountBody (of_string (group 3 mt)).
Proof.
  intros H.
  assert (G : forall n, n = 1 \/ n = 2 \/ n = 3 ->
              groupShape false [(1, dashDate); (2, plusLazy Any);
                                (3, amountBody)]
                         n (of_string (group n mt))).
  { intros n Hn.
    apply (group_sound _ KotakParser.transactionRegex line mt n);
      [| | |exact H].
    - shapes_sat.
    - cbn. no_dup.
    - cbn. destruct Hn as [->|[->| ->]]; auto 10. }
  split; [|split].
  - apply (G 1); [auto|]. left. reflexivity.
  - apply (G 2); [auto|]. right. left. reflexivity.
  - apply (G 3); [auto|]. right. right. left. reflexivity.
Qed.

Lemma dashDate_chars w :
  InLang false dashDate w ->
  Forall (fun c => isDigit c = true \/ c = "-"%char) w /\ w <> [].
Proof.
  intros H. destruct (dashDate_word w H) as [a [b [c [-> [La [_ [_ F]]]]]]].
  apply Forall_app in F. destruct F as [Fa F].
  apply Forall_app in F. destruct F as [Fb Fc].
  assert (D : forall l, Forall (fun x => isDigit x = true) l ->
              Forall (fun c => isDigit c = true \/ c = "-"%char) l)
    by (intros l; apply Forall_impl; auto).
  split; [|destruct a; discriminate].
  apply Forall_app. split; [apply D, Fa|].
  constructor; [auto|]. apply Forall_app. split; [apply D, Fb|].
  constructor; [auto|]. apply D, Fc.
Qed.

Lemma render_chars (t : Transaction) :
  of_string (render t) =
  (of_string (txDate t) ++ [" "; "|"; " "]%char ++
   of_string (txDescription t) ++ [" "; "|"; " "]%char ++
   of_string (txAmount t) ++ [" "; "|"; " "]%char ++
   of_string (directionName (txType t)))%list.
Proof. unfold render. rewrite !of_string_app. reflexivity. Qed.

(** A categorized Kotak line: its date has no slash and no [|], and
    the line holds no line feed and no white space at its ends. *)
Lemma kotak_record_plain line t :
  KotakParser.categorizeLine line = Some t ->
  ~ In "/"%char (of_string (txDate t)) /\
  ~ In "|"%char (of_string (txDate t)) /\
  isWord (of_string (txDate t)) /\
  of_string (txDate t) <> [] /\
  ~ In "010"%char (of_string (render t)).
Proof.
  unfold KotakParser.categorizeLine.
  destruct (exec KotakParser.transactionRegex line) as [mt|] eqn:E;
    [|discriminate].
  intros H. apply some_inj in H.
  destruct (kotak_record_groups line mt E) as [H1 [H2 H3]].
  destruct (dashDate_chars _ H1) as [F1 N1].
  apply InLang_any_rep in H2. apply amountBody_chars in H3.
  rewrite render_chars. rewrite <- H.
  cbn [txDate txDescription txAmount txType].
  rewrite Forall_forall in F1.
  split; [|split; [|split; [|split]]].
  - intros Hin. destruct (F1 _ Hin) as [Hd|Hd]; discriminate Hd.
  - intros Hin. destruct (F1 _ Hin) as [Hd|Hd]; discriminate Hd.
  - apply Forall_forall. intros c Hc.
    destruct (F1 _ Hc) as [Hd| ->]; [apply digit_not_white, Hd | reflexivity].
  - exact N1.
  - intros Hin.
    apply in_app_or in Hin. destruct Hin as [Hin|Hin].
    { destruct (F1 _ Hin) as [Hd|Hd]; discriminate Hd. }
    apply in_app_or in Hin. destruct Hin as [Hin|Hin].
    { cbn in Hin. intuition discriminate. }
    apply in_app_or in Hin. destruct Hin as [Hin|Hin].
    { unfold trim in Hin. rewrite of_to_string in Hin.
      destruct (trim_l_split (of_string (group 2 mt))) as [a [b [Es _]]].
      rewrite Forall_forall in H2.
      assert (Hl : isLineTerminator "010" = false).
      { apply H2. rewrite Es. apply in_or_app. right.
        apply in_or_app. left. exact Hin. }
      discriminate Hl. }
    apply in_app_or in Hin. destruct Hin as [Hin|Hin].
    { cbn in Hin. intuition discriminate. }
    apply in_app_or in Hin. destruct Hin as [Hin|Hin].
    { rewrite Forall_forall in H3.
      destruct (H3 _ Hin) as [Hd|[Hd|Hd]]; discriminate Hd. }
    apply in_app_or in Hin. destruct Hin as [Hin|Hin].
    { cbn in Hin. intuition discriminate. }
    destruct (String.eqb (group 4 mt) "Cr"); cbn in Hin;
      intuition discriminate.
Qed.

(** A line whose first field holds no slash is not stored. *)
Lemma reader_needs_slash toISOString selectedBank (line d more : string) :
  trim line = d ++ " |" ++ more ->
  isWord (of_string d) -> of_string d <> [] ->
  ~ In "|"%char (of_string d) -> ~ In "/"%char (of_string d) ->
  OCRBankStatementReader.parseLine toISOString selectedBank line = None.
Proof.
  intros Et Wd Nd Hp Hs. unfold OCRBankStatementReader.parseLine.
  cbv zeta. rewrite Et.
  destruct (_ || _ || _); [reflexivity|].
  destruct (includes _ "|"); [|reflexivity].
  assert (Hsplit : exists rest',
            split "|" (d ++ " |" ++ more) =
            to_string (of_string d ++ [" "%char])%list :: rest').
  { unfold split. rewrite !of_string_app.
    change (of_string "|") with ["|"%char].
    change (of_string " |") with [" "%char; "|"%char].
    replace (of_string d ++ [" "%char; "|"%char] ++ of_string more)%list
      with ((of_string d ++ [" "%char]) ++ "|"%char :: of_string more)%list
      by (rewrite <- app_assoc; reflexivity).
    rewrite split_go_char.
    - cbn [rev app map]. eauto.
    - intros Hin. apply in_app_or in Hin.
      destruct Hin as [Hin|[Hin|[]]]; [exact (Hp Hin) | discriminate Hin]. }
  destruct Hsplit as [rest' ->]. cbn [map nth].
  destruct (Nat.leb 4 _); [|reflexivity].
  assert (Hd : trim (to_string (of_string d ++ [" "%char])%list) = d).
  { unfold trim. rewrite of_to_string.
    rewrite <- (to_of_string d) at 2. f_equal.
    apply (trim_l_exact [] (of_string d) [" "%char]);
      [constructor | repeat constructor| |].
    - apply word_trimStart, Wd.
    - apply word_trimStart, word_rev, Wd. }
  rewrite Hd.
  rewrite (exec_needs_char OCRBankStatementReader.slashDate "/"%char d);
    [reflexivity | cbn; no_dup | apply slashDate_needs_slash | exact Hs].
Qed.

Lemma render_trimmed (t : Transaction) :
  isWord (of_string (txDate t)) -> of_string (txDate t) <> [] ->
  trim (render t) = render t.
Proof.
  intros Wd Nd. unfold trim.
  rewrite <- (to_of_string (render t)) at 2. f_equal.
  rewrite <- (app_nil_r (of_string (render t))) at 1.
  apply (trim_l_exact [] _ []); [constructor | constructor| |].
  - rewrite render_chars.
    destruct (of_string (txDate t)) as [|x d'] eqn:Ed; [congruence|].
    inversion Wd; subst. cbn [app trimStart_l].
    destruct (isWhiteSpace x); [discriminate | reflexivity].
  - rewrite render_chars, !rev_app_distr.
    destruct (txType t); reflexivity.
Qed.

(** X12: no Kotak record reaches the database.  The reader looks for
    a date with slashes in the first field of a line, and the Kotak
    categorizer writes its dates with dashes: whatever text the Kotak
    categorizer is given, and whatever the host's date conversion does,
    [parseCategorizedData] returns no transaction for its output. *)
Theorem kotak_records_are_not_stored :
  forall (toISOString : string -> option string)
         (selectedBank simplifiedText : string),
    OCRBankStatementReader.parseCategorizedData toISOString selectedBank
      (KotakParser.categorizeTransactions simplifiedText) = [].
Proof.
  intros iso bank text.
  unfold OCRBankStatementReader.parseCategorizedData.
  apply flat_map_nil. apply Forall_forall. intros l Hl.
  assert (Hnone : OCRBankStatementReader.parseLine iso bank l = None);
    [|rewrite Hnone; reflexivity].
  unfold KotakParser.categorizeTransactions in Hl.
  destruct (isEmpty text || isEmpty (trim text)).
  { cbn in Hl. destruct Hl as [<-|[]]. reflexivity. }
  cbv zeta in Hl.
  set (lines := filter _ _) in Hl.
  assert (Hrec : forall r, In r (KotakParser.categorizedLines lines) ->
            exists line t, KotakParser.categorizeLine line = Some t /\
                           r = render t).
  { intros r Hr. unfold KotakParser.categorizedLines in Hr.
    apply in_flat_map in Hr. destruct Hr as [line [_ Hr]].
    destruct (KotakParser.categorizeLine line) as [t|] eqn:E;
      [|contradiction].
    destruct Hr as [<-|[]]. eauto. }
  apply lines_of_joined in Hl.
  - destruct Hl as [->|Hl]; [reflexivity|].
    destruct (Hrec l Hl) as [line [t [E ->]]].
    destruct (kotak_record_plain line t E) as [Hs [Hp [Wd [Nd _]]]].
    apply (reader_needs_slash iso bank (render t) (txDate t)
             (" " ++ txDescription t ++ " | " ++ txAmount t ++ " | "
                  ++ directionName (txType t)));
      try assumption.
    rewrite (render_trimmed t Wd Nd). reflexivity.
  - apply Forall_forall. intros r Hr.
    destruct (Hrec r Hr) as [line [t [E ->]]].
    apply (kotak_record_plain line t E).
Qed.

(* ================================================================== *)
(** * From a categorized line back to its fields *)

Lemma includes_char (c : ascii) : forall s : chars,
  In c s -> includes_l s [c] = true.
Proof.
  induction s as [|x s IH]; intros H; [contradiction|].
  cbn [includes_l isPrefix].
  destruct (Ascii.eqb_spec c x) as [->|N]; [reflexivity|].
  destruct H as [H|H]; [congruence|].
  cbn [andb orb]. apply IH, H.
Qed.

Lemma trim_to_string_pad (a x b : chars) :
  Forall (fun c => isWhiteSpace c = true) a ->
  Forall (fun c => isWhiteSpace c = true) b ->
  trim (to_string (a ++ x ++ b)%list) = trim (to_string x).
Proof.
  intros Fa Fb. unfold trim. rewrite !of_to_string.
  rewrite trim_l_pad by assumption. reflexivity.
Qed.

Lemma trim_fixed_head d :
  trim d = d -> d <> "" ->
  exists x t, of_string d = x :: t /\ isWhiteSpace x = false.
Proof.
  intros Ht Hn. unfold trim in Ht.
  assert (E : trim_l (of_string d) = of_string d)
    by (rewrite <- Ht at 2; rewrite of_to_string; reflexivity).
  destruct (trim_l_ends (of_string d)) as [H1 _]. rewrite E in H1.
  destruct (of_string d) as [|x t] eqn:Ed.
  - exfalso. apply Hn. rewrite <- (to_of_string d), Ed. reflexivity.
  - exists x, t. split; [reflexivity|]. eapply trimStart_head, H1.
Qed.

(** X13: the line a categorizer writes for a transaction is read
    back field by field.  For a transaction whose date is trimmed and
    not empty, whose date, description and amount hold no [|], and
    whose line does not start with [=] and does not contain PAGE, the
    reader finds the four fields again: the category stored is the
    direction written, the description is the description written,
    trimmed (or the default for an empty one), and the amount is the
    number in the amount field, made positive for a DEBIT or a CREDIT;
    the transaction is stored if the date has the form d/m/y, the host
    accepts it, and the amount is a number. *)
Theorem categorized_line_read_back :
  forall (toISOString : string -> option string) (selectedBank : string)
         (t : Transaction),
    trim (txDate t) = txDate t -> txDate t <> "" ->
    ~ In "|"%char (of_string (txDate t)) ->
    ~ In "|"%char (of_string (txDescription t)) ->
    ~ In "|"%char (of_string (txAmount t)) ->
    startsWith (render t) "=" = false ->
    includes (render t) "PAGE" = false ->
    OCRBankStatementReader.parseLine toISOString selectedBank (render t) =
    stored toISOString selectedBank t.
Proof.
  intros iso bank t Hd Nd P1 P2 P3 Hs Hp.
  destruct (trim_fixed_head _ Hd Nd) as [x [d' [Ed Hx]]].
  assert (Htrim : trim (render t) = render t).
  { unfold trim. rewrite <- (to_of_string (render t)) at 2. f_equal.
    rewrite <- (app_nil_r (of_string (render t))) at 1.
    apply (trim_l_exact [] _ []); [constructor | constructor| |].
    - rewrite render_chars, Ed. cbn [app trimStart_l]. rewrite Hx.
      reflexivity.
    - rewrite render_chars, !rev_app_distr.
      destruct (txType t); reflexivity. }
  assert (Hne : isEmpty (render t) = false).
  { rewrite <- (to_of_string (render t)), render_chars, Ed. reflexivity. }
  assert (Hpipe : includes (render t) "|" = true).
  { unfold includes. change (of_string "|") with ["|"%char].
    apply includes_char. rewrite render_chars.
    apply in_or_app. right. right. left. reflexivity. }
  assert (Hname : ~ In "|"%char
                    (" "%char :: of_string (directionName (txType t)))).
  { destruct (txType t); cbn; intuition discriminate. }
  assert (Hsplit :
    split "|" (render t) =
    [to_string (of_string (txDate t) ++ [" "%char])%list;
     to_string ([" "%char] ++ of_string (txDescription t) ++ [" "%char])%list;
     to_string ([" "%char] ++ of_string (txAmount t) ++ [" "%char])%list;
     to_string (" "%char :: of_string (directionName (txType t)))]).
  { unfold split. rewrite render_chars.
    change (of_string "|") with ["|"%char].
    replace (of_string (txDate t) ++ [" "%char; "|"%char; " "%char] ++
             of_string (txDescription t) ++ [" "%char; "|"%char; " "%char] ++
             of_string (txAmount t) ++ [" "%char; "|"%char; " "%char] ++
             of_string (directionName (txType t)))%list
      with ((of_string (txDate t) ++ [" "%char]) ++ "|"%char ::
            ([" "%char] ++ of_string (txDescription t) ++ [" "%char]) ++
            "|"%char ::
            ([" "%char] ++ of_string (txAmount t) ++ [" "%char]) ++
            "|"%char ::
            (" "%char :: of_string (directionName (txType t))))%list
      by (cbn [app]; rewrite <- !app_assoc; reflexivity).
    rewrite split_go_char.
    2:{ intros Hin. apply in_app_or in Hin.
        destruct Hin as [Hin|[Hin|[]]]; [exact (P1 Hin) | discriminate Hin]. }
    rewrite split_go_char.
    2:{ intros Hin. cbn [app] in Hin.
        destruct Hin as [Hin|Hin]; [discriminate Hin|].
        apply in_app_or in Hin.
        destruct Hin as [Hin|[Hin|[]]]; [exact (P2 Hin) | discriminate Hin]. }
    rewrite split_go_char.
    2:{ intros Hin. cbn [app] in Hin.
        destruct Hin as [Hin|Hin]; [discriminate Hin|].
        apply in_app_or in Hin.
        destruct Hin as [Hin|[Hin|[]]]; [exact (P3 Hin) | discriminate Hin]. }
    rewrite (split_go_last _ _ [] Hname). reflexivity. }
  assert (W : Forall (fun c => isWhiteSpace c = true) [" "%char])
    by (repeat constructor).
  unfold OCRBankStatementReader.parseLine, stored. cbv zeta.
  rewrite Htrim, Hne, Hs, Hp, Hpipe, Hsplit. cbn [orb map List.length nth].
  change (Nat.leb 4 4) with true. cbv iota.
  rewrite <- (app_nil_l (of_string (txDate t) ++ [" "%char])%list).
  rewrite (trim_to_string_pad [] (of_string (txDate t)) [" "%char]),
          (trim_to_string_pad [" "%char] (of_string (txDescription t))
                              [" "%char]),
          (trim_to_string_pad [" "%char] (of_string (txAmount t)) [" "%char])
    by (assumption || constructor).
  rewrite !to_of_string, Hd.
  destruct (exec OCRBankStatementReader.slashDate (txDate t)) as [dm|];
    [|reflexivity].
  destruct (iso _) as [parsedDate|]; [|reflexivity].
  fold (readAmount (txAmount t)).
  destruct (isNaN (readAmount (txAmount t))); [reflexivity|].
  destruct (txType t); reflexivity.
Qed.

Lemma read_back_witness :
  render rentRecord = "02/01/24 | RENT | 100.00 | DEBIT" /\
  OCRBankStatementReader.parseLine Some "HDFC" (render rentRecord) =
  Some {| OCRBankStatementReader.date := "2024-01-02";
          OCRBankStatementReader.description := "RENT";
          OCRBankStatementReader.amount := ofZ 100;
          OCRBankStatementReader.category := "DEBIT";
          OCRBankStatementReader.bank := "HDFC";
          OCRBankStatementReader.raw_text :=
            "02/01/24 | RENT | 100.00 | DEBIT" |}.
Proof.
  split; [reflexivity|].
  rewrite (categorized_line_read_back Some "HDFC" rentRecord
             eq_refl
             ltac:(discriminate)
             ltac:(cbn; intuition discriminate)
             ltac:(cbn; intuition discriminate)
             ltac:(cbn; intuition discriminate)
             eq_refl eq_refl).
  vm_compute. reflexivity.
Defined.

(* ================================================================== *)
(** * HDFC: what the field extractor writes *)

(** A global replacement brings in no character: what it returns is
    made of characters of the subject and of the replacement. *)
Lemma replaceAll_go_chars rx rep c : forall s p skip,
  In c (replaceAll_go rx rep p s skip) -> In c s \/ In c rep.
Proof.
  induction s as [|x s IH]; intros p skip H.
  - destruct skip; cbn [replaceAll_go] in H; [|contradiction].
    destruct (matchHere rx p []); [|contradiction].
    rewrite app_nil_r in H. right. exact H.
  - destruct skip as [|k]; cbn [replaceAll_go] in H.
    + destruct (matchHere rx p (x :: s)) as [y|].
      * apply in_app_or in H. destruct H as [H|H]; [right; exact H|].
        destruct (List.length (x :: s) - remaining y).
        -- destruct H as [->|H]; [left; left; reflexivity|].
           destruct (IH _ _ H); [left; right|right]; assumption.
        -- destruct (IH _ _ H); [left; right|right]; assumption.
      * destruct H as [->|H]; [left; left; reflexivity|].
        destruct (IH _ _ H); [left; right|right]; assumption.
    + destruct (IH _ _ H); [left; right|right]; assumption.
Qed.

Lemma replaceAll_chars rx rep s c :
  In c (of_string (replaceAll rx rep s)) ->
  In c (of_string s) \/ In c (of_string rep).
Proof.
  unfold replaceAll. rewrite of_to_string. apply replaceAll_go_chars.
Qed.

(** Replacing every [c] by nothing leaves no [c]. *)
Lemma replaceAll_go_chr c : forall s p,
  replaceAll_go (re (Chr c)) [] p s 0 =
  filter (fun x => negb (Ascii.eqb c x)) s.
Proof.
  induction s as [|x s IH]; intros p; [reflexivity|].
  unfold replaceAll_go; fold replaceAll_go.
  cbn [filter]. unfold matchHere. cbn [pattern ignoreCase re m rest].
  unfold charMatches. cbn [canonicalize].
  destruct (Ascii.eqb c x); cbn [negb].
  - unfold remaining, advance. cbn [rest List.length].
    replace (S (List.length s) - List.length s) with 1 by lia.
    cbn [app]. apply IH.
  - cbn [app]. f_equal. apply IH.
Qed.

Lemma replaceAll_chr_removes c s :
  ~ In c (of_string (replaceAll (re (Chr c)) "" s)).
Proof.
  unfold replaceAll. rewrite of_to_string.
  change (of_string "") with (@nil ascii). rewrite replaceAll_go_chr.
  intros H. apply filter_In in H. destruct H as [_ H].
  rewrite Ascii.eqb_refl in H. discriminate H.
Qed.

(** The cleaned description holds no [|] and only single spaces. *)
Lemma hdfc_description_clean (description : string) :
  let cleaned :=
    trim (HDFCParser.replaceEach HDFCParser.descriptionNoise description) in
  ~ In "|"%char (of_string cleaned) /\
  tidy false (of_string cleaned) = true /\
  trim cleaned = cleaned.
Proof.
  cbv zeta. unfold HDFCParser.replaceEach, HDFCParser.descriptionNoise.
  cbn [fold_left fst snd].
  match goal with
  | |- context [replaceAll whiteSpaces " " ?X] => set (last := X)
  end.
  split; [|split].
  - intros Hin. unfold trim in Hin. rewrite of_to_string in Hin.
    destruct (trim_l_split (of_string (replaceAll whiteSpaces " " last)))
      as [a [b [E _]]].
    assert (H : In "|"%char (of_string (replaceAll whiteSpaces " " last))).
    { rewrite E. apply in_or_app. right. apply in_or_app. left. exact Hin. }
    clear Hin E.
    unfold last in H.
    do 9 (apply replaceAll_chars in H;
          destruct H as [H|H]; [|cbn in H; intuition discriminate]).
    exact (replaceAll_chr_removes _ _ H).
  - unfold trim. rewrite of_to_string. apply trim_l_tidy.
    rewrite replaceAll_ws. apply collapse_tidy.
  - apply trim_idem.
Qed.

Lemma hdfc_leading_date text dm :
  exec HDFCParser.leadingDate text = Some dm ->
  InLang false (pattern BaseParser.shortDate) (of_string (group 1 dm)).
Proof.
  intros H.
  apply (group_sound
           (groupShape false [(1, pattern BaseParser.shortDate)])
           HDFCParser.leadingDate text dm 1);
    [| | |exact H|left; reflexivity].
  - shapes_sat.
  - cbn. no_dup.
  - cbn. auto.
Qed.

Lemma nth_In_tail (l : list string) (k : nat) :
  k < List.length l -> In (nth k l "") l.
Proof. intros H. apply nth_In, H. Qed.

(** X14: what the HDFC field extractor writes.  The simplified line
    is a date dd/dd/dd, a description, an amount and a balance,
    separated by [" | "] and a space.  The description holds no [|]
    and no white space but single spaces between its words.  The
    balance is the last currency figure of the line and the amount is
    the absolute value, with two decimals, of the one before it; the
    amount reads as a number that is not negative. *)
Theorem hdfc_extractor_shape :
  forall line s : string,
    HDFCParser.parseTransactionLine line = Some s ->
    let normalized := BaseParser.normalizeWhitespace line in
    let figures := BaseParser.extractCurrencyAmounts normalized in
    exists date description,
      2 <= List.length figures /\
      s = date ++ " | " ++ description ++ " | "
               ++ toFixed2 (abs (amountOf
                                   (nth (List.length figures - 2) figures "")))
               ++ " " ++ nth (List.length figures - 1) figures "" /\
      InLang false (pattern BaseParser.shortDate) (of_string date) /\
      ~ In "|"%char (of_string description) /\
      (forall c, In c (of_string description) -> isWhiteSpace c = true ->
                 c = " "%char) /\
      (forall l1 l2, of_string description <>
                     (l1 ++ " "%char :: " "%char :: l2)%list) /\
      trim description = description /\
      nonNegativeAmount
        (toFixed2 (abs (amountOf (nth (List.length figures - 2) figures "")))).
Proof.
  intros line s. unfold HDFCParser.parseTransactionLine. cbv zeta.
  destruct (exec HDFCParser.leadingDate _) as [dm|] eqn:Ed; [|discriminate].
  destruct (Nat.ltb _ 2) eqn:El; [discriminate|].
  apply Nat.ltb_ge in El.
  intros H. apply some_inj in H.
  set (normalized := BaseParser.normalizeWhitespace line) in *.
  set (figures := BaseParser.extractCurrencyAmounts normalized) in *.
  match type of H with
  | context [trim (HDFCParser.replaceEach HDFCParser.descriptionNoise ?X)] =>
      destruct (hdfc_description_clean X) as [Hp [Ht Htrim]];
      exists (group 1 dm),
             (trim (HDFCParser.replaceEach HDFCParser.descriptionNoise X))
  end.
  split; [exact El|]. split; [symmetry; exact H|].
  split; [exact (hdfc_leading_date _ dm Ed)|].
  split; [exact Hp|].
  split; [intros c; apply (tidy_spaces _ false c Ht)|].
  split; [intros l1 l2 E; rewrite E, tidy_no_double in Ht; discriminate|].
  split; [exact Htrim|].
  apply toFixed2_nonneg, abs_nonneg.
  assert (Hin : In (nth (List.length figures - 2) figures "") figures)
    by (apply nth_In; lia).
  destruct (currency_token_nonneg normalized _ Hin) as [_ Hn].
  apply nonNegativeAmount_iff, Hn.
Qed.

(** A cash withdrawal: 500.00 taken, 11,845.67 left. *)
Lemma hdfc_extractor_witness :
  HDFCParser.parseTransactionLine "03/04/23 | ATM WDL 500.00 11,845.67"
    = Some "03/04/23 | ATM WDL | 500.00 11,845.67" /\
  BaseParser.extractCurrencyAmounts
    (BaseParser.normalizeWhitespace "03/04/23 | ATM WDL 500.00 11,845.67")
    = ["500.00"; "11,845.67"] /\
  exists date description,
    "03/04/23 | ATM WDL | 500.00 11,845.67" =
      date ++ " | " ++ description ++ " | "
           ++ toFixed2 (abs (amountOf "500.00")) ++ " " ++ "11,845.67" /\
    ~ In "|"%char (of_string description) /\
    nonNegativeAmount (toFixed2 (abs (amountOf "500.00"))).
Proof.
  assert (E : HDFCParser.parseTransactionLine
                "03/04/23 | ATM WDL 500.00 11,845.67"
              = Some "03/04/23 | ATM WDL | 500.00 11,845.67")
    by (vm_compute; reflexivity).
  assert (Ef : BaseParser.extractCurrencyAmounts
                 (BaseParser.normalizeWhitespace
                    "03/04/23 | ATM WDL 500.00 11,845.67")
               = ["500.00"; "11,845.67"]) by (vm_compute; reflexivity).
  split; [exact E|]. split; [exact Ef|].
  pose proof (hdfc_extractor_shape _ _ E) as H. cbv zeta in H.
  rewrite Ef in H. cbn [List.length Nat.sub nth] in H.
  destruct H as [date [description [_ [Es [_ [Hp [_ [_ [_ Hn]]]]]]]]].
  exists date, description. auto.
Defined.

(* ================================================================== *)
(** * The P&L cleaner returns one line *)

(** A pattern all of whose words hold [c] replaces nothing in a text
    without [c]. *)
Lemma replaceAll_go_no_match rx rep c :
  NoDup (groups (pattern rx)) ->
  (forall w, InLang (ignoreCase rx) (pattern rx) w -> In c w) ->
  forall s p, ~ In c s -> replaceAll_go rx rep p s 0 = s.
Proof.
  intros Hnd Hc.
  assert (Hnone : forall s p, ~ In c s -> matchHere rx p s = None).
  { intros s p Hs. destruct (matchHere rx p s) as [y|] eqn:E; [|reflexivity].
    exfalso. apply Hs.
    destruct (matchHere_sound _ rx p s y (GroupsSat_True _ _) Hnd E)
      as [[w [Ew L]] _].
    rewrite Ew. apply in_or_app. left. apply Hc, L. }
  induction s as [|x s IH]; intros p Hs; cbn [replaceAll_go];
    rewrite (Hnone _ p Hs); [reflexivity|].
  f_equal. apply IH. intros H. apply Hs. right. exact H.
Qed.

Lemma blankLines_need_LF w :
  InLang false (pattern StandardPnLParser.blankLines) w -> In "010"%char w.
Proof.
  cbn [pattern StandardPnLParser.blankLines re seqs InLang].
  intros [w1 [x1 [-> [H1 _]]]]. apply chr_word in H1. subst w1.
  left. reflexivity.
Qed.

Lemma tidy_no_LF s : tidy false s = true -> ~ In "010"%char s.
Proof.
  intros H Hin.
  pose proof (tidy_spaces s false "010"%char H Hin eq_refl) as E.
  discriminate E.
Qed.

Lemma trim_l_incl s c : In c (trim_l s) -> In c s.
Proof.
  intros H. destruct (trim_l_split s) as [a [b [E _]]].
  rewrite E. apply in_or_app. right. apply in_or_app. left. exact H.
Qed.

(** X15: the P&L cleaner returns a single line.  Its last steps
    replace every run of white space, line feeds included, by one
    space, so that the step that should merge blank lines finds none:
    the cleaned text holds no line feed, no white space but single
    spaces, and none at its ends.  The simplified output, which
    filters the cleaned text line by line, is therefore all or
    nothing: the whole cleaned text when it passes the test of a line
    (a keyword, or an amount and more than five characters), and the
    empty text otherwise. *)
Theorem pnl_cleaned_text_is_one_line :
  forall rawText : string,
    let cleaned := StandardPnLParser.cleanOCROutput rawText in
    ~ In "010"%char (of_string cleaned) /\
    (forall c, In c (of_string cleaned) -> isWhiteSpace c = true ->
               c = " "%char) /\
    (forall l1 l2, of_string cleaned <>
                   (l1 ++ " "%char :: " "%char :: l2)%list) /\
    trim cleaned = cleaned /\
    StandardPnLParser.cleanOCROutputSimplified rawText =
      (if StandardPnLParser.keepsLine cleaned then cleaned else "").
Proof.
  intros rawText cleaned.
  assert (Ht : tidy false (of_string cleaned) = true /\
               trim cleaned = cleaned).
  { unfold cleaned, StandardPnLParser.cleanOCROutput.
    destruct (isEmpty rawText); [split; reflexivity|]. cbv zeta.
    match goal with
    | |- context [replaceAll whiteSpaces " " ?Z] =>
        set (Y := replaceAll whiteSpaces " " Z)
    end.
    assert (HY : tidy false (of_string Y) = true)
      by (unfold Y; rewrite replaceAll_ws; apply collapse_tidy).
    assert (E : replaceAll StandardPnLParser.blankLines LF Y = Y).
    { unfold replaceAll.
      rewrite (replaceAll_go_no_match _ _ "010"%char);
        [apply to_of_string | cbn; no_dup | apply blankLines_need_LF|].
      apply tidy_no_LF, HY. }
    rewrite E. split; [|apply trim_idem].
    unfold trim. rewrite of_to_string. apply trim_l_tidy, HY. }
  destruct Ht as [Ht Htrim].
  pose proof (tidy_no_LF _ Ht) as Hno.
  split; [exact Hno|].
  split; [intros c; apply (tidy_spaces _ false c Ht)|].
  split; [intros l1 l2 E; rewrite E, tidy_no_double in Ht; discriminate|].
  split; [exact Htrim|].
  unfold StandardPnLParser.cleanOCROutputSimplified. cbv zeta.
  fold cleaned.
  destruct (isEmpty cleaned) eqn:He.
  - destruct cleaned; [|discriminate].
    destruct (StandardPnLParser.keepsLine ""); reflexivity.
  - unfold split. change (of_string LF) with ["010"%char].
    rewrite (split_go_last _ _ [] Hno). cbn [rev app map filter].
    rewrite to_of_string.
    destruct (StandardPnLParser.keepsLine cleaned); [|reflexivity].
    cbn [map join]. exact Htrim.
Qed.

(* ================================================================== *)
(** * Entries by category *)

Lemma entriesOf_push key line k : forall store,
  In k (map fst store) ->
  entriesOf k (push key line store) =
  (entriesOf k store ++ (if String.eqb key k then [line] else []))%list.
Proof.
  unfold entriesOf.
  induction store as [|[k0 es] store IH]; intros Hin; [contradiction|].
  cbn [push find fst snd].
  destruct (String.eqb_spec k0 key) as [E0|N0].
  - subst k0. cbn [find fst snd].
    destruct (String.eqb_spec key k) as [E|N]; [reflexivity|].
    rewrite app_nil_r. reflexivity.
  - cbn [find fst snd].
    destruct (String.eqb_spec k0 k) as [E|N].
    + subst k0. destruct (String.eqb_spec key k) as [E'|_]; [congruence|].
      rewrite app_nil_r. reflexivity.
    + simpl in Hin. destruct Hin as [Hin|Hin]; [exfalso; exact (N Hin)|].
      apply IH, Hin.
Qed.

Lemma push_keys key line : forall store,
  map fst (push key line store) = map fst store.
Proof.
  induction store as [|[k0 es] store IH]; [reflexivity|].
  cbn [push]. destruct (String.eqb k0 key); cbn [map fst]; [reflexivity|].
  rewrite IH. reflexivity.
Qed.

Lemma sort_fold categories k : forall lines store,
  In k (map fst store) ->
  map fst (fold_left (fun st line => push (categoryOf categories line) line st)
                     lines store) = map fst store /\
  entriesOf k (fold_left
                 (fun st line => push (categoryOf categories line) line st)
                 lines store) =
  (entriesOf k store ++
   filter (fun line => String.eqb (categoryOf categories line) k) lines)%list.
Proof.
  induction lines as [|l lines IH]; intros store Hin.
  - cbn [fold_left filter]. rewrite app_nil_r. auto.
  - cbn [fold_left filter].
    destruct (IH (push (categoryOf categories l) l store)) as [IHk IHe];
      [rewrite push_keys; exact Hin|].
    rewrite IHk, IHe, push_keys, (entriesOf_push _ _ _ _ Hin).
    split; [reflexivity|].
    destruct (String.eqb (categoryOf categories l) k);
      rewrite <- app_assoc; reflexivity.
Qed.

Lemma entriesOf_empty k (categories : list (string * list string)) :
  entriesOf k (map (fun c => (fst c, @nil string)) categories) = [].
Proof.
  unfold entriesOf. induction categories as [|[k0 ks] cs IH]; [reflexivity|].
  cbn [map find fst snd]. destruct (String.eqb k0 k); [reflexivity|].
  exact IH.
Qed.

(** Each line is entered once, under the category it belongs to. *)
Lemma sortEntries_spec categories lines k :
  In k (map fst categories) ->
  map fst (sortEntries categories lines) = map fst categories /\
  entriesOf k (sortEntries categories lines) =
  filter (fun line => String.eqb (categoryOf categories line) k) lines.
Proof.
  intros Hin. unfold sortEntries.
  assert (Hk : In k (map fst (map (fun c => (fst c, @nil string))
                                  categories)))
    by (rewrite map_map; exact Hin).
  destruct (sort_fold categories k lines _ Hk) as [H1 H2].
  split.
  - rewrite H1, map_map. reflexivity.
  - rewrite H2, entriesOf_empty. reflexivity.
Qed.

Lemma filter_length_le (A : Type) (f : A -> bool) (l : list A) :
  List.length (filter f l) <= List.length l.
Proof.
  induction l as [|a l IH]; simpl; [lia|].
  destruct (f a); simpl; lia.
Qed.

(** X16: how [categorizeEntries] sorts the lines, for the P&L and
    for the GST parser.  Every category keeps its place, and its
    entries are, in the order of the text, the lines whose category
    it is: the first category, in the order of the table, one of
    whose keywords the lower-cased line contains, and UNCATEGORIZED
    when there is none.  So each line is entered exactly once, and
    the uncategorized entries are never more than the lines.  For
    P&L a line that mentions income is entered under REVENUE,
    whatever else it mentions: the keywords "operating income",
    "other income", "interest income" and "net income" of the later
    categories never decide. *)
Theorem entries_sorted_by_first_category :
  forall (lines : list string) (key : string),
    (In key (map fst StandardPnLParser.categories) ->
     entriesOf key (sortEntries StandardPnLParser.categories lines) =
     filter (fun line =>
               String.eqb (categoryOf StandardPnLParser.categories line) key)
            lines) /\
    (In key (map fst StandardGST3BParser.categories) ->
     entriesOf key (sortEntries StandardGST3BParser.categories lines) =
     filter (fun line =>
               String.eqb (categoryOf StandardGST3BParser.categories line)
                          key)
            lines) /\
    map fst (sortEntries StandardPnLParser.categories lines) =
      map fst StandardPnLParser.categories /\
    map fst (sortEntries StandardGST3BParser.categories lines) =
      map fst StandardGST3BParser.categories /\
    List.length (uncategorized
                   (sortEntries StandardPnLParser.categories lines))
      <= List.length lines /\
    List.length (uncategorized
                   (sortEntries StandardGST3BParser.categories lines))
      <= List.length lines /\
    (forall line,
       includes (toLowerCase line) "income" = true ->
       categoryOf StandardPnLParser.categories line = "REVENUE").
Proof.
  intros lines key.
  assert (U1 : In "UNCATEGORIZED" (map fst StandardPnLParser.categories))
    by (cbn; auto 20).
  assert (U2 : In "UNCATEGORIZED" (map fst StandardGST3BParser.categories))
    by (cbn; auto 20).
  split; [intros H; apply (sortEntries_spec _ lines key H)|].
  split; [intros H; apply (sortEntries_spec _ lines key H)|].
  split; [apply (sortEntries_spec _ lines _ U1)|].
  split; [apply (sortEntries_spec _ lines _ U2)|].
  split; [|split].
  - change (uncategorized (sortEntries StandardPnLParser.categories lines))
      with (entriesOf "UNCATEGORIZED"
              (sortEntries StandardPnLParser.categories lines)).
    rewrite (proj2 (sortEntries_spec _ lines _ U1)).
    apply filter_length_le.
  - change (uncategorized (sortEntries StandardGST3BParser.categories lines))
      with (entriesOf "UNCATEGORIZED"
              (sortEntries StandardGST3BParser.categories lines)).
    rewrite (proj2 (sortEntries_spec _ lines _ U2)).
    apply filter_length_le.
  - intros line H. unfold categoryOf, StandardPnLParser.categories.
    cbn [firstCategory]. change (String.eqb "REVENUE" "UNCATEGORIZED")
      with false. cbv iota.
    unfold hasKeyword. cbn [existsb]. rewrite H.
    rewrite !orb_true_r. reflexivity.
Qed.

Lemma entries_sorted_witness :
  In "REVENUE" (map fst StandardPnLParser.categories) /\
  entriesOf "REVENUE" (sortEntries StandardPnLParser.categories pnlLines) =
    ["Total Revenue: 100"; "Operating Income 5"] /\
  includes (toLowerCase "Operating Income 5") "income" = true /\
  categoryOf StandardPnLParser.categories "Operating Income 5" = "REVENUE".
Proof.
  assert (Hin : In "REVENUE" (map fst StandardPnLParser.categories))
    by (cbn; auto).
  assert (Hinc : includes (toLowerCase "Operating Income 5") "income" = true)
    by reflexivity.
  pose proof (entries_sorted_by_first_category pnlLines "REVENUE") as H.
  split; [exact Hin|]. split.
  - rewrite (proj1 H Hin). vm_compute. reflexivity.
  - split; [exact Hinc|].
    exact (proj2 (proj2 (proj2 (proj2 (proj2 (proj2 H))))) _ Hinc).
Defined.

(* ================================================================== *)
(** * The report for a text without entries *)

Lemma sortEntries_nil categories :
  sortEntries categories [] = map (fun c => (fst c, @nil string)) categories.
Proof. reflexivity. Qed.

Lemma pnl_report_title text :
  text <> "" ->
  exists rest,
    StandardPnLParser.categorizeEntries text =
    "P&L STATEMENT ANALYSIS" ++ LF ++ rest.
Proof.
  intros Hne. unfold StandardPnLParser.categorizeEntries.
  destruct text; [exfalso; apply Hne; reflexivity|].
  cbn [isEmpty]. cbv zeta. eexists. reflexivity.
Qed.

Lemma gst_report_title text :
  text <> "" ->
  exists rest,
    StandardGST3BParser.categorizeEntries text =
    "GST 3B STATEMENT ANALYSIS" ++ LF ++ rest.
Proof.
  intros Hne. unfold StandardGST3BParser.categorizeEntries.
  destruct text; [exfalso; apply Hne; reflexivity|].
  cbn [isEmpty]. cbv zeta. eexists. reflexivity.
Qed.

(** X17: the report is empty for the empty text and for no other.
    Every text that is not empty gets a report that begins with the
    title, whatever its lines are; a text that is not empty but has
    only blank lines gets the title and the summary and no category:
    the totals are 0, and the P&L rate, 0 divided by 0, is written
    NaN%. *)
Theorem report_of_blank_lines :
  forall simplifiedText : string,
    (StandardPnLParser.categorizeEntries simplifiedText = "" <->
     simplifiedText = "") /\
    (StandardGST3BParser.categorizeEntries simplifiedText = "" <->
     simplifiedText = "") /\
    (simplifiedText <> "" ->
     (exists rest,
        StandardPnLParser.categorizeEntries simplifiedText =
        "P&L STATEMENT ANALYSIS" ++ LF ++ rest) /\
     (exists rest,
        StandardGST3BParser.categorizeEntries simplifiedText =
        "GST 3B STATEMENT ANALYSIS" ++ LF ++ rest)) /\
    (simplifiedText <> "" -> isEmpty (trim simplifiedText) = true ->
     StandardPnLParser.categorizeEntries simplifiedText =
       "P&L STATEMENT ANALYSIS" ++ LF ++
       "===================================================" ++ LF ++ LF ++
       "SUMMARY:" ++ LF ++ "--------" ++ LF ++
       "Total entries processed: 0" ++ LF ++
       "Categorized entries: 0" ++ LF ++
       "Uncategorized entries: 0" ++ LF ++
       "Categorization rate: NaN%" ++ LF /\
     StandardGST3BParser.categorizeEntries simplifiedText =
       "GST 3B STATEMENT ANALYSIS" ++ LF ++
       "==================================================" ++ LF ++ LF ++
       "SUMMARY:" ++ LF ++ "--------" ++ LF ++
       "Total entries processed: 0" ++ LF ++
       "Uncategorized: 0" ++ LF).
Proof.
  intros text.
  assert (Dec : text = "" \/ text <> "")
    by (destruct text; [left; reflexivity | right; discriminate]).
  split; [|split; [|split]].
  - split; [|intros ->; reflexivity].
    intros H. destruct Dec as [E|Hne]; [exact E|].
    destruct (pnl_report_title text Hne) as [rest E].
    rewrite E in H. discriminate H.
  - split; [|intros ->; reflexivity].
    intros H. destruct Dec as [E|Hne]; [exact E|].
    destruct (gst_report_title text Hne) as [rest E].
    rewrite E in H. discriminate H.
  - intros Hne. split; [apply pnl_report_title | apply gst_report_title];
      exact Hne.
  - intros Hne Hb.
    assert (He : isEmpty text = false)
      by (destruct text; [exfalso; apply Hne; reflexivity | reflexivity]).
    assert (Hl : nonBlankLines text = []).
    { unfold nonBlankLines. apply filter_none.
      eapply Forall_impl; [|exact (split_blank LF text Hb)].
      intros l Hl. cbv beta. rewrite Hl. reflexivity. }
    unfold StandardPnLParser.categorizeEntries,
      StandardGST3BParser.categorizeEntries.
    rewrite He, Hl. split; vm_compute; reflexivity.
Qed.

Lemma report_of_blank_lines_witness :
  " " <> "" /\ isEmpty (trim " ") = true /\
  StandardGST3BParser.categorizeEntries " " =
    "GST 3B STATEMENT ANALYSIS" ++ LF ++
    "==================================================" ++ LF ++ LF ++
    "SUMMARY:" ++ LF ++ "--------" ++ LF ++
    "Total entries processed: 0" ++ LF ++
    "Uncategorized: 0" ++ LF.
Proof.
  assert (Hn : " " <> "") by discriminate.
  assert (Hb : isEmpty (trim " ") = true) by reflexivity.
  split; [exact Hn|]. split; [exact Hb|].
  exact (proj2 (proj2 (proj2 (proj2 (report_of_blank_lines " "))) Hn Hb)).
Defined.

(* ================================================================== *)
(** * The groups of a match are parts of the subject *)

Lemma within_advance u st x xs :
  Within u st -> rest st = x :: xs -> Within u (advance st x xs).
Proof.
  intros [[a Ea] Hc] Hr. split; [|exact Hc].
  exists (a ++ [x])%list. cbn [advance rest].
  rewrite Ea, Hr, <- app_assoc. reflexivity.
Qed.

Lemma within_reset u gs st : Within u st -> Within u (resetCaps gs st).
Proof.
  intros [Ha Hc]. split; [exact Ha|].
  intros n w Hin. cbn [resetCaps caps] in Hin. unfold dropCaps in Hin.
  apply filter_In in Hin. apply (Hc n w), Hin.
Qed.

Lemma within_setCap u n j st y :
  Within u st -> Within u y -> Within u (setCap n (firstn j (rest st)) y).
Proof.
  intros [[a Ea] _] [Hy Hc]. split; [exact Hy|].
  intros k w Hin. cbn [setCap caps] in Hin. destruct Hin as [Hin|Hin].
  - injection Hin as _ Ew. rewrite <- Ew. exists a, (skipn j (rest st)).
    rewrite firstn_skipn. exact Ea.
  - unfold dropCaps in Hin. apply filter_In in Hin. apply (Hc k w), Hin.
Qed.

Lemma repeatMin_within u mr gs :
  keeps u mr ->
  forall n k st z, Within u st -> repeatMin mr gs n k st = Some z ->
                   exists st', Within u st' /\ k st' = Some z.
Proof.
  intros Hmr. induction n as [|n IH]; intros k st z Hw H.
  - exists st. auto.
  - cbn [repeatMin] in H.
    destruct (Hmr _ _ _ (within_reset u gs st Hw) H) as [st1 [Hw1 H1]].
    apply (IH k st1 z Hw1 H1).
Qed.

Lemma repeatMax_within u mr gs greedy k :
  keeps u mr ->
  forall fuel max x z, Within u x ->
    repeatMax mr gs greedy k fuel max x = Some z ->
    exists st', Within u st' /\ k st' = Some z.
Proof.
  intros Hmr. induction fuel as [|fuel IH]; intros max x z Hw H;
    [discriminate|].
  cbn [repeatMax] in H.
  assert (Hd : forall y, Within u y ->
            (if Nat.ltb (remaining y) (remaining x)
             then repeatMax mr gs greedy k fuel (option_map pred max) y
             else None) = Some z ->
            exists st', Within u st' /\ k st' = Some z).
  { intros y Hy Hy'. destruct (Nat.ltb _ _); [|discriminate].
    apply (IH _ y z Hy Hy'). }
  assert (Hgo : (if greedy
                 then match mr (fun y =>
                          if Nat.ltb (remaining y) (remaining x)
                          then repeatMax mr gs greedy k fuel
                                 (option_map pred max) y
                          else None) (resetCaps gs x) with
                      | Some z' => Some z'
                      | None => k x
                      end
                 else match k x with
                      | Some z' => Some z'
                      | None => mr (fun y =>
                          if Nat.ltb (remaining y) (remaining x)
                          then repeatMax mr gs greedy k fuel
                                 (option_map pred max) y
                          else None) (resetCaps gs x)
                      end) = Some z ->
                exists st', Within u st' /\ k st' = Some z).
  { intros Hg. destruct greedy.
    - apply first_some in Hg. destruct Hg as [Hg|[_ Hg]].
      + destruct (Hmr _ _ _ (within_reset u gs x Hw) Hg) as [y [Hy Hy']].
        apply (Hd y Hy Hy').
      + exists x. auto.
    - apply first_some in Hg. destruct Hg as [Hg|[_ Hg]].
      + exists x. auto.
      + destruct (Hmr _ _ _ (within_reset u gs x Hw) Hg) as [y [Hy Hy']].
        apply (Hd y Hy Hy'). }
  destruct max as [[|mx]|]; [exists x; auto | apply Hgo, H | apply Hgo, H].
Qed.

Lemma m_within ic u : forall r, keeps u (m ic r).
Proof.
  unfold keeps.
  induction r as [|c| |items| | | |r1 IH1 r2 IH2|r1 IH1 r2 IH2|n r IH
                  |r IH min max greedy]; intros k st z Hw H; cbn [m] in H.
  - exists st. auto.
  - destruct (rest st) as [|x xs] eqn:Er; [discriminate|].
    destruct (charMatches ic c x); [|discriminate].
    exists (advance st x xs). split; [apply within_advance|]; assumption.
  - destruct (rest st) as [|x xs] eqn:Er; [discriminate|].
    destruct (isLineTerminator x); [discriminate|].
    exists (advance st x xs). split; [apply within_advance|]; assumption.
  - destruct (rest st) as [|x xs] eqn:Er; [discriminate|].
    destruct (inClass ic items x); [|discriminate].
    exists (advance st x xs). split; [apply within_advance|]; assumption.
  - destruct (prev st); [discriminate|]. exists st. auto.
  - destruct (rest st); [|discriminate]. exists st. auto.
  - destruct (xorb _ _); [|discriminate]. exists st. auto.
  - destruct (IH1 _ _ _ Hw H) as [st1 [Hw1 H1]].
    apply (IH2 _ _ _ Hw1 H1).
  - apply first_some in H. destruct H as [H|[_ H]].
    + apply (IH1 _ _ _ Hw H).
    + apply (IH2 _ _ _ Hw H).
  - destruct (IH _ _ _ Hw H) as [y [Hy Hy']].
    eexists. split; [|exact Hy']. apply within_setCap; assumption.
  - destruct (repeatMin_within u (m ic r) (groups r) IH _ _ _ _ Hw H)
      as [x [Hx Hx']].
    apply (repeatMax_within u (m ic r) (groups r) greedy k IH _ _ _ _ Hx Hx').
Qed.

Lemma matchHere_within rx p s y :
  matchHere rx p s = Some y ->
  forall n w, In (n, w) (caps y) -> exists a b, s = (a ++ w ++ b)%list.
Proof.
  unfold matchHere. intros H.
  assert (W0 : Within s {| rest := s; prev := p; caps := [] |}).
  { split; [exists []; reflexivity | intros n w []]. }
  destruct (m_within (ignoreCase rx) s (pattern rx) Some _ y W0 H)
    as [st' [[_ Hc] E]].
  apply some_inj in E. subst st'. exact Hc.
Qed.

Lemma execFrom_within rx : forall s p idx r,
  execFrom rx p idx s = Some r ->
  forall n w, In (n, w) (captures r) -> exists a b, s = (a ++ w ++ b)%list.
Proof.
  induction s as [|c s IH]; intros p idx r H n w Hin; cbn [execFrom] in H.
  - destruct (matchHere rx p []) as [y|] eqn:E; [|discriminate].
    apply some_inj in H. subst r. apply (matchHere_within rx p [] y E n w Hin).
  - destruct (matchHere rx p (c :: s)) as [y|] eqn:E.
    + apply some_inj in H. subst r.
      apply (matchHere_within rx p _ y E n w Hin).
    + destruct (IH _ _ _ H n w Hin) as [a [b Es]].
      exists (c :: a), b. rewrite Es. reflexivity.
Qed.

(** Every group of a match is a part of the subject. *)
Lemma group_in_subject rx s r n :
  exec rx s = Some r ->
  exists a b, of_string s = (a ++ of_string (group n r) ++ b)%list.
Proof.
  intros H. unfold group.
  destruct (find (fun p => Nat.eqb (fst p) n) (captures r)) as [[k w]|] eqn:E.
  - apply find_some in E. destruct E as [Hin _].
    cbn [snd]. rewrite of_to_string.
    apply (execFrom_within rx _ _ _ r H k w Hin).
  - exists [], (of_string s). reflexivity.
Qed.

Lemma group_chars rx s r n c :
  exec rx s = Some r -> In c (of_string (group n r)) -> In c (of_string s).
Proof.
  intros H Hin. destruct (group_in_subject rx s r n H) as [a [b E]].
  rewrite E. apply in_or_app. right. apply in_or_app. left. exact Hin.
Qed.

(* ================================================================== *)
(** * Joining and splitting again *)

Lemma split_go_sep2 c : forall (a r cur : chars),
  ~ In c a ->
  split_go [c; c] (a ++ c :: c :: r)%list 0 cur =
  (rev cur ++ a)%list :: split_go [c; c] r 0 [].
Proof.
  induction a as [|x a IH]; intros r cur Hn.
  - cbn [app split_go isPrefix List.length Nat.sub].
    rewrite Ascii.eqb_refl. cbn [andb]. rewrite app_nil_r. reflexivity.
  - cbn [app split_go isPrefix].
    assert (Hx : Ascii.eqb c x = false).
    { apply Ascii.eqb_neq. intros ->. apply Hn. left. reflexivity. }
    rewrite Hx. cbn [andb].
    rewrite IH by (intros H; apply Hn; right; exact H).
    cbn [rev]. rewrite <- app_assoc. reflexivity.
Qed.

Lemma split_go_last2 c : forall (a cur : chars),
  ~ In c a -> split_go [c; c] a 0 cur = [(rev cur ++ a)%list].
Proof.
  induction a as [|x a IH]; intros cur Hn.
  - cbn [split_go]. rewrite app_nil_r. reflexivity.
  - cbn [split_go isPrefix].
    assert (Hx : Ascii.eqb c x = false).
    { apply Ascii.eqb_neq. intros ->. apply Hn. left. reflexivity. }
    rewrite Hx. cbn [andb].
    rewrite IH by (intros H; apply Hn; right; exact H).
    cbn [rev]. rewrite <- app_assoc. reflexivity.
Qed.

(** Texts without a line feed, joined by one line feed, are the lines
    of the joined text. *)
Lemma split_join_lines : forall rs : list string,
  rs <> [] ->
  Forall (fun r => ~ In "010"%char (of_string r)) rs ->
  split LF (join LF rs) = rs.
Proof.
  unfold split. change (of_string LF) with ["010"%char].
  induction rs as [|r rs IH]; intros Hne F; [congruence|].
  inversion F as [|? ? Hr F']; subst.
  destruct rs as [|r2 rs'].
  - cbn [join]. rewrite (split_go_last _ _ [] Hr). cbn [rev app map].
    rewrite to_of_string. reflexivity.
  - change (join LF (r :: r2 :: rs')) with (r ++ LF ++ join LF (r2 :: rs')).
    set (J := join LF (r2 :: rs')) in *.
    rewrite !of_string_app. change (of_string LF) with ["010"%char].
    cbn [app]. rewrite (split_go_char _ _ _ [] Hr). cbn [rev app map].
    rewrite to_of_string. f_equal. apply IH; [discriminate | exact F'].
Qed.

(** Texts without a line feed, joined by two line feeds, are the parts
    of the joined text between two line feeds. *)
Lemma split_join_records : forall rs : list string,
  rs <> [] ->
  Forall (fun r => ~ In "010"%char (of_string r)) rs ->
  split (LF ++ LF) (join (LF ++ LF) rs) = rs.
Proof.
  unfold split. change (of_string (LF ++ LF)) with ["010"%char; "010"%char].
  induction rs as [|r rs IH]; intros Hne F; [congruence|].
  inversion F as [|? ? Hr F']; subst.
  destruct rs as [|r2 rs'].
  - cbn [join]. rewrite (split_go_last2 _ _ [] Hr). cbn [rev app map].
    rewrite to_of_string. reflexivity.
  - change (join (LF ++ LF) (r :: r2 :: rs'))
      with (r ++ (LF ++ LF) ++ join (LF ++ LF) (r2 :: rs')).
    set (J := join (LF ++ LF) (r2 :: rs')) in *.
    rewrite !of_string_app. change (of_string LF) with ["010"%char].
    rewrite <- !app_assoc. cbn [app]. rewrite (split_go_sep2 _ _ _ [] Hr). cbn [rev app map].
    rewrite to_of_string. f_equal. apply IH; [discriminate | exact F'].
Qed.

(** Texts that are not blank and hold no line feed, joined by two line
    feeds, are the lines of the joined text that are not blank. *)
Lemma split_join_nonblank : forall rs : list string,
  Forall (fun r => ~ In "010"%char (of_string r)) rs ->
  Forall (fun r => isEmpty (trim r) = false) rs ->
  filter (fun line => negb (isEmpty (trim line)))
         (split LF (join (LF ++ LF) rs)) = rs.
Proof.
  unfold split. change (of_string LF) with ["010"%char].
  induction rs as [|r rs IH]; intros F N; [reflexivity|].
  inversion F as [|? ? Hr F']; subst.
  inversion N as [|? ? Nr N']; subst.
  destruct rs as [|r2 rs'].
  - cbn [join]. rewrite (split_go_last _ _ [] Hr). cbn [rev app map filter].
    rewrite to_of_string, Nr. reflexivity.
  - change (join (LF ++ LF) (r :: r2 :: rs'))
      with (r ++ (LF ++ LF) ++ join (LF ++ LF) (r2 :: rs')).
    set (J := join (LF ++ LF) (r2 :: rs')) in *.
    rewrite !of_string_app. change (of_string LF) with ["010"%char].
    rewrite <- !app_assoc. cbn [app]. rewrite (split_go_char _ _ _ [] Hr).
    pose proof (split_go_char "010"%char [] (of_string J) []
                  (fun H : In "010"%char [] => H)) as E0.
    cbn [app rev] in E0. rewrite E0.
    cbn [rev app map filter]. rewrite to_of_string, Nr.
    change (isEmpty (trim (to_string []))) with true. cbn [negb].
    f_equal. apply IH; assumption.
Qed.

Lemma split_go_no_char c : forall s cur piece,
  ~ In c cur -> In piece (split_go [c] s 0 cur) -> ~ In c piece.
Proof.
  induction s as [|x s IH]; intros cur piece Hn Hin.
  - cbn [split_go] in Hin. destruct Hin as [<-|[]].
    intros H. apply Hn, in_rev, H.
  - cbn [split_go isPrefix List.length Nat.sub] in Hin.
    destruct (Ascii.eqb c x) eqn:Ex; cbn [andb] in Hin.
    + destruct Hin as [<-|Hin].
      * intros H. apply Hn, in_rev, H.
      * apply (IH [] piece); [intros []|exact Hin].
    + apply (IH (x :: cur) piece); [|exact Hin].
      intros [->|H]; [|apply Hn, H].
      rewrite Ascii.eqb_refl in Ex. discriminate.
Qed.

(** A line of a text holds no line feed. *)
Lemma lines_no_LF text l :
  In l (split LF text) -> ~ In "010"%char (of_string l).
Proof.
  unfold split. change (of_string LF) with ["010"%char].
  intros Hin. apply in_map_iff in Hin. destruct Hin as [piece [<- Hp]].
  rewrite of_to_string.
  apply (split_go_no_char "010"%char (of_string text) [] piece);
    [intros []|exact Hp].
Qed.

Lemma occurIn_chars : forall (ts : list chars) (s t : chars) c,
  occurIn ts s -> In t ts -> In c t -> In c s.
Proof.
  induction ts as [|t0 ts IH]; intros s t c O Hin Hc; [contradiction|].
  destruct O as [a [b [E O]]]. rewrite E.
  apply in_or_app. right. apply in_or_app. destruct Hin as [->|Hin].
  - left. exact Hc.
  - right. apply (IH b t c O Hin Hc).
Qed.

(* ================================================================== *)
(** * The characters of a formatted amount *)

Lemma decimal_go_digits fuel : forall n acc,
  Forall (fun c => isDigit c = true) acc ->
  Forall (fun c => isDigit c = true) (decimal_go fuel n acc).
Proof.
  induction fuel as [|fuel IH]; intros n acc F; simpl.
  - constructor; [|exact F].
    apply digitChar_isDigit, N.mod_lt. discriminate.
  - assert (F' : Forall (fun c => isDigit c = true)
                        (digitChar (n mod 10) :: acc)).
    { constructor; [|exact F].
      apply digitChar_isDigit, N.mod_lt. discriminate. }
    destruct (n / 10 =? 0)%N; [exact F' | apply IH, F'].
Qed.

Lemma decimal_digits n : Forall numberChar (decimal n).
Proof.
  eapply Forall_impl; [|apply decimal_go_digits; constructor].
  intros c H. left. exact H.
Qed.

Lemma letters_numberChars (s : string) :
  forallb (fun c => isDigit c ||
                    existsb (Ascii.eqb c) (of_string "-.e+NaInfity"))
          (of_string s) = true ->
  Forall numberChar (of_string s).
Proof.
  intros H. rewrite forallb_forall in H. apply Forall_forall.
  intros c Hc. specialize (H c Hc). apply orb_prop in H.
  destruct H as [H|H]; [left; exact H|]. right.
  apply existsb_exists in H.
  destruct H as [x [Hx E]]. apply Ascii.eqb_eq in E. subst x. exact Hx.
Qed.

Lemma toFixed2_chars x : Forall numberChar (of_string (toFixed2 x)).
Proof.
  destruct x as [s|s| |s mt e]; cbn [toFixed2].
  - apply (letters_numberChars "0.00"). reflexivity.
  - destruct s; [apply (letters_numberChars "-Infinity")
                |apply (letters_numberChars "Infinity")]; reflexivity.
  - apply (letters_numberChars "NaN"). reflexivity.
  - rewrite of_string_app. apply Forall_app. split.
    + destruct s; [apply (letters_numberChars "-"); reflexivity|constructor].
    + destruct ((0 <=? e)%Z && (10 ^ 21 <=? Zpos mt * 2 ^ e)%Z).
      * unfold toStringLarge.
        destruct (shortest _ _ _) as [s0 p0].
        destruct (dropZeros _ _ _) as [s1 p1].
        rewrite of_to_string.
        pose proof (decimal_digits (Z.to_N s1)) as D.
        apply Forall_app. split; [|apply Forall_app; split].
        -- destruct (decimal (Z.to_N s1)) as [|d [|d2 more]];
             [constructor | exact D|].
           inversion D; subst. constructor; [assumption|].
           constructor; [right; cbn; tauto | assumption].
        -- apply (letters_numberChars "e+"). reflexivity.
        -- apply decimal_digits.
      * rewrite of_to_string. unfold withPoint.
        set (ds := (repeat "0"%char _ ++ decimal _)%list).
        assert (D : Forall numberChar ds).
        { apply Forall_app. split; [|apply decimal_digits].
          apply Forall_forall. intros c Hc. apply repeat_spec in Hc.
          subst c. left. reflexivity. }
        rewrite <- (firstn_skipn (List.length ds - 2) ds) in D.
        apply Forall_app in D. destruct D as [D1 D2].
        apply Forall_app. split; [exact D1|].
        constructor; [right; cbn; tauto | exact D2].
Qed.

Lemma toFixed2_no_LF x : ~ In "010"%char (of_string (toFixed2 x)).
Proof.
  intros Hin. pose proof (toFixed2_chars x) as F.
  rewrite Forall_forall in F. destruct (F _ Hin) as [H|H].
  - discriminate H.
  - cbn in H. repeat (destruct H as [H|H]; [discriminate H|]). exact H.
Qed.

(* ================================================================== *)
(** * No line feed in a line that a stage writes *)

Lemma skipn_In (A : Type) (n : nat) (l : list A) (x : A) :
  In x (skipn n l) -> In x l.
Proof.
  intros H. rewrite <- (firstn_skipn n l). apply in_or_app. right. exact H.
Qed.

Lemma trim_no_LF s :
  ~ In "010"%char (of_string s) -> ~ In "010"%char (of_string (trim s)).
Proof.
  intros H Hin. unfold trim in Hin. rewrite of_to_string in Hin.
  apply H, trim_l_incl, Hin.
Qed.

(** The lines pushed by a field extractor are the simplified forms of
    the lines it reads. *)
Lemma simplified_parsed (parse : string -> option string) lines s :
  In s (flat_map
          (fun line =>
             if isEmpty (trim line) then []
             else match parse line with
                  | Some simplified =>
                      if isEmpty simplified then [] else [simplified]
                  | None => []
                  end)
          lines) ->
  exists line, In line lines /\ parse line = Some s.
Proof.
  intros H. apply in_flat_map in H. destruct H as [line [Hl H]].
  exists line. split; [exact Hl|].
  destruct (isEmpty (trim line)); [contradiction|].
  destruct (parse line) as [x|]; [|contradiction].
  destruct (isEmpty x); [contradiction|].
  destruct H as [->|[]]. reflexivity.
Qed.

Lemma hdfc_simplified_plain line s :
  HDFCParser.parseTransactionLine line = Some s ->
  ~ In "010"%char (of_string s) /\ isEmpty (trim s) = false.
Proof.
  unfold HDFCParser.parseTransactionLine.
  set (normalized := BaseParser.normalizeWhitespace line).
  cbv zeta.
  destruct (exec HDFCParser.leadingDate normalized) as [dm|] eqn:E;
    [|discriminate].
  set (toks := BaseParser.extractCurrencyAmounts normalized).
  destruct (Nat.ltb (List.length toks) 2); [discriminate|].
  intros H. apply some_inj in H. subst s.
  assert (Hn : ~ In "010"%char (of_string normalized))
    by (apply tidy_no_LF, normalizeWhitespace_tidy).
  split.
  - rewrite !of_string_app. intros Hin.
    apply in_app_or in Hin. destruct Hin as [Hin|Hin];
      [apply Hn, (group_chars _ _ _ _ _ E Hin)|].
    apply in_app_or in Hin. destruct Hin as [Hin|Hin];
      [cbn in Hin; intuition discriminate|].
    apply in_app_or in Hin. destruct Hin as [Hin|Hin].
    { match type of Hin with
      | In _ (of_string (trim (HDFCParser.replaceEach _ ?d))) =>
          destruct (hdfc_description_clean d) as [_ [T _]]
      end.
      exact (tidy_no_LF _ T Hin). }
    apply in_app_or in Hin. destruct Hin as [Hin|Hin];
      [cbn in Hin; intuition discriminate|].
    apply in_app_or in Hin. destruct Hin as [Hin|Hin];
      [exact (toFixed2_no_LF _ Hin)|].
    apply in_app_or in Hin. destruct Hin as [Hin|Hin];
      [cbn in Hin; intuition discriminate|].
    destruct (nth_in_or_default (List.length toks - 1) toks "") as [Hi|Hd].
    + assert (N1 : NoDup (groups (pattern BaseParser.currencyAmount)))
        by (cbn; no_dup).
      destruct (matchAll_sound BaseParser.currencyAmount normalized N1)
        as [_ O].
      apply Hn.
      apply (occurIn_chars _ _ _ _ O (in_map of_string _ _ Hi) Hin).
    + rewrite Hd in Hin. exact Hin.
  - destruct (shortDate_word _ (hdfc_leading_date _ _ E))
      as [a [b [c [Ew [La [_ [_ F]]]]]]].
    destruct a as [|d a']; [discriminate La|].
    apply Forall_app in F. destruct F as [Fa _]. inversion Fa; subst.
    eapply not_blank_of_head; [|apply digit_not_white; eassumption].
    rewrite of_string_app, Ew. reflexivity.
Qed.

Lemma cleanDescription_no_LF d :
  ~ In "010"%char (of_string d) ->
  ~ In "010"%char (of_string (KotakParser.cleanDescription d)).
Proof.
  intros Hd. unfold KotakParser.cleanDescription. cbv zeta.
  assert (U : ~ In "010"%char (of_string "UNKNOWN"))
    by (cbn; intuition discriminate).
  destruct (startsWith d "NEFT").
  { destruct (exec KotakParser.neftRegex d) as [r|] eqn:E; [|exact U].
    intros H. apply Hd, (group_chars _ _ _ _ _ E H). }
  destruct (startsWith d "MB:RECEIVED FROM").
  { destruct (exec KotakParser.mbRegex d) as [r|] eqn:E; [|exact U].
    intros H. apply Hd, (group_chars _ _ _ _ _ E H). }
  destruct (includes (toUpperCase d) "IMPS").
  { destruct (exec KotakParser.impsRegex d) as [r|] eqn:E; [|exact U].
    intros H. apply Hd, (group_chars _ _ _ _ _ E H). }
  destruct (startsWith d "CASHBACK EARNED");
    [cbn; intuition discriminate|].
  destruct (includes d "/"); [|exact U].
  assert (P : forall k, ~ In "010"%char (of_string (nth k (split "/" d) ""))).
  { intros k H. unfold split in H.
    destruct (nth_in_or_default k
                (map to_string (split_go (of_string "/") (of_string d) 0 []))
                "") as [Hi|He].
    - apply in_map_iff in Hi.
      destruct Hi as [piece [Ep Hp]]. rewrite <- Ep, of_to_string in H.
      destruct (split_go_chars _ _ _ _ _ _ Hp H) as [Hin|[]].
      apply Hd, Hin.
    - rewrite He in H. exact H. }
  destruct (test KotakParser.upiAlone _); [apply P|].
  unfold replaceRe.
  destruct (exec KotakParser.upiPrefix _) as [r|]; [|apply P].
  cbv zeta. rewrite of_to_string. intros H.
  apply in_app_or in H. destruct H as [H|H].
  - apply (P 0), (firstn_In _ _ _ _ H).
  - cbn [of_string app] in H. apply (P 0), (skipn_In _ _ _ _ H).
Qed.

Lemma kotak_simplified_plain line s :
  ~ In "010"%char (of_string line) ->
  KotakParser.parseTransactionLine line = Some s ->
  ~ In "010"%char (of_string s) /\ isEmpty (trim s) = false.
Proof.
  intros Hl. unfold KotakParser.parseTransactionLine.
  destruct (exec KotakParser.baseRegex line) as [mt|] eqn:E; [|discriminate].
  cbv zeta. intros H. apply some_inj in H. subst s. split.
  - rewrite !of_string_app. intros Hin.
    apply in_app_or in Hin. destruct Hin as [Hin|Hin];
      [apply Hl, (group_chars _ _ _ _ _ E Hin)|].
    apply in_app_or in Hin. destruct Hin as [Hin|Hin];
      [cbn in Hin; intuition discriminate|].
    apply in_app_or in Hin. destruct Hin as [Hin|Hin].
    { revert Hin. apply trim_no_LF, cleanDescription_no_LF.
      intros H. apply Hl, (group_chars _ _ _ _ _ E H). }
    apply in_app_or in Hin. destruct Hin as [Hin|Hin];
      [cbn in Hin; intuition discriminate|].
    apply Hl, (group_chars _ _ _ _ _ E Hin).
  - destruct (kotak_base_groups line mt E) as [Hd _].
    destruct (dashDate_word _ Hd) as [a [b [c [Ew [La [_ [_ F]]]]]]].
    destruct a as [|d a']; [discriminate La|].
    apply Forall_app in F. destruct F as [Fa _]. inversion Fa; subst.
    eapply not_blank_of_head; [|apply digit_not_white; eassumption].
    rewrite of_string_app, Ew. reflexivity.
Qed.

Lemma fold_append_plain : forall (xs : list string) (t0 : string),
  ~ In "010"%char (of_string t0) ->
  Forall (fun x => ~ In "010"%char (of_string x)) xs ->
  isEmpty t0 = false ->
  ~ In "010"%char (of_string (fold_left ICICIParser.appendLine xs t0)) /\
  isEmpty (fold_left ICICIParser.appendLine xs t0) = false.
Proof.
  induction xs as [|x xs IH]; intros t0 H0 F N; [split; assumption|].
  inversion F as [|? ? Hx F']; subst. cbn [fold_left].
  apply IH; [|exact F'|].
  - unfold ICICIParser.appendLine. rewrite !of_string_app. intros Hin.
    apply in_app_or in Hin. destruct Hin as [Hin|Hin]; [exact (H0 Hin)|].
    apply in_app_or in Hin. destruct Hin as [Hin|Hin]; [|exact (Hx Hin)].
    cbn in Hin. intuition discriminate.
  - unfold ICICIParser.appendLine. destruct t0; [discriminate N|reflexivity].
Qed.

Lemma icici_records_plain lines r :
  Forall (fun l => ~ In "010"%char (of_string l)) lines ->
  In r (ICICIParser.transactionLines lines) ->
  ~ In "010"%char (of_string r) /\ isEmpty r = false.
Proof.
  intros F Hin.
  destruct (scan_records _ _ _ _ _ _ _ lines r (Nat.le_refl _) Hin)
    as [b [l [t [a [E [Hs [_ Hf]]]]]]].
  unfold ICICIParser.pushRecord in Hf. apply some_inj in Hf. subst r.
  rewrite E in F. apply Forall_app in F. destruct F as [_ F].
  inversion F as [|? ? Fl F']; subst.
  apply Forall_app in F'. destruct F' as [Ft _].
  apply fold_append_plain.
  - apply trim_no_LF, Fl.
  - apply Forall_forall. intros x Hx. apply in_map_iff in Hx.
    destruct Hx as [y [<- Hy]]. rewrite Forall_forall in Ft.
    apply trim_no_LF, Ft, Hy.
  - unfold startsRecord in Hs. cbv zeta in Hs.
    apply andb_prop in Hs. destruct Hs as [Hs _].
    apply andb_prop in Hs. destruct Hs as [Hs _].
    apply negb_true_iff in Hs. exact Hs.
Qed.

Lemma figureChar_not_white c : figureChar c -> isWhiteSpace c = false.
Proof.
  intros [H|[->|[->| ->]]]; [apply digit_not_white, H|..]; reflexivity.
Qed.

Lemma icici_simplified_plain line s :
  ICICIParser.parseTransactionLine line = Some s ->
  ~ In "010"%char (of_string s) /\ isEmpty (trim s) = false.
Proof.
  unfold ICICIParser.parseTransactionLine.
  change (trim (replaceAll whiteSpaces " " line))
    with (BaseParser.normalizeWhitespace line).
  set (normalized := BaseParser.normalizeWhitespace line).
  cbv zeta.
  destruct (exec ICICIParser.datedLine normalized) as [dm|] eqn:E;
    [|discriminate].
  destruct (exec ICICIParser.amountRegex (group 2 dm)) as [am|] eqn:Ea;
    [|discriminate].
  intros H. apply some_inj in H. subst s.
  assert (Hn : ~ In "010"%char (of_string normalized))
    by (apply tidy_no_LF, normalizeWhitespace_tidy).
  assert (Hr : ~ In "010"%char (of_string (group 2 dm)))
    by (intros H; apply Hn, (group_chars _ _ _ _ _ E H)).
  assert (Hg : forall n, ~ In "010"%char (of_string (group n am)))
    by (intros n H; apply Hr, (group_chars _ _ _ _ _ Ea H)).
  split.
  - rewrite !of_string_app. intros Hin.
    apply in_app_or in Hin. destruct Hin as [Hin|Hin];
      [apply Hn, (group_chars _ _ _ _ _ E Hin)|].
    apply in_app_or in Hin. destruct Hin as [Hin|Hin];
      [cbn in Hin; intuition discriminate|].
    apply in_app_or in Hin. destruct Hin as [Hin|Hin];
      [exact (trim_no_LF _ (Hg 1) Hin)|].
    apply in_app_or in Hin. destruct Hin as [Hin|Hin];
      [cbn in Hin; intuition discriminate|].
    apply in_app_or in Hin. destruct Hin as [Hin|Hin];
      [exact (Hg 2 Hin)|].
    apply in_app_or in Hin. destruct Hin as [Hin|Hin];
      [cbn in Hin; intuition discriminate|].
    apply in_app_or in Hin. destruct Hin as [Hin|Hin];
      [exact (Hg 3 Hin)|].
    apply in_app_or in Hin. destruct Hin as [Hin|Hin];
      [cbn in Hin; intuition discriminate|].
    exact (Hg 4 Hin).
  - destruct (longDate_word _ (icici_dated_group _ _ E)) as [F Hne].
    destruct (of_string (group 1 dm)) as [|d t] eqn:Ed; [congruence|].
    inversion F; subst.
    eapply not_blank_of_head; [|apply figureChar_not_white; eassumption].
    rewrite of_string_app, Ed. reflexivity.
Qed.

Lemma join_head_chars sep (s0 : string) rest c :
  In c (of_string s0) -> In c (of_string (join sep (s0 :: rest))).
Proof.
  intros H. destruct rest as [|s1 rest']; [exact H|].
  change (join sep (s0 :: s1 :: rest'))
    with (s0 ++ sep ++ join sep (s1 :: rest')).
  rewrite of_string_app. apply in_or_app. left. exact H.
Qed.

Lemma join_not_blank sep (s0 : string) rest :
  isEmpty (trim s0) = false ->
  isEmpty (trim (join sep (s0 :: rest))) = false.
Proof.
  intros H. destruct (isEmpty (trim (join sep (s0 :: rest)))) eqn:E;
    [|reflexivity].
  apply blank_iff_white in E. rewrite Forall_forall in E.
  assert (B : isEmpty (trim s0) = true).
  { apply blank_iff_white. apply Forall_forall. intros c Hc.
    apply E, join_head_chars, Hc. }
  congruence.
Qed.

Lemma not_blank_not_empty s : isEmpty (trim s) = false -> isEmpty s = false.
Proof. destruct s; [intros H; discriminate H | reflexivity]. Qed.

(** X18: the texts handed from stage to stage carry exactly the lines
    of the stage before.  For every raw text, the HDFC and the Kotak
    categorizer applied to the text of the field extractor categorize
    exactly the extractor's lines, in order; the ICICI field extractor
    reads exactly the records of the ICICI merger, and the ICICI
    categorizer exactly the extractor's lines: no line is lost, cut or
    added by joining and splitting again. *)
Theorem stages_hand_over_their_lines :
  forall rawText : string,
    HDFCParser.categorizeTransactions
      (HDFCParser.cleanOCROutputSimplified rawText) =
    join (LF ++ LF)
      (HDFCParser.categorizedLines
         (HDFCParser.simplifiedLines (split LF rawText))) /\
    KotakParser.categorizeTransactions
      (KotakParser.cleanOCROutputSimplified rawText) =
    join (LF ++ LF)
      (KotakParser.categorizedLines
         (KotakParser.simplifiedLines (split LF rawText))) /\
    ICICIParser.cleanOCROutputSimplified rawText =
    join LF
      (ICICIParser.simplifiedLines
         (ICICIParser.transactionLines (split LF rawText))) /\
    ICICIParser.categorizeTransactions
      (ICICIParser.cleanOCROutputSimplified rawText) =
    join (LF ++ LF)
      (ICICIParser.categorizedLines
         (ICICIParser.simplifiedLines
            (ICICIParser.transactionLines (split LF rawText)))).
Proof.
  intros rawText.
  assert (HI : ICICIParser.cleanOCROutputSimplified rawText =
               join LF
                 (ICICIParser.simplifiedLines
                    (ICICIParser.transactionLines (split LF rawText)))).
  { unfold ICICIParser.cleanOCROutputSimplified, ICICIParser.cleanOCROutput.
    cbv zeta.
    assert (P : Forall (fun r => ~ In "010"%char (of_string r) /\
                                 isEmpty r = false)
                       (ICICIParser.transactionLines (split LF rawText))).
    { apply Forall_forall. intros r Hr.
      apply (icici_records_plain (split LF rawText)); [|exact Hr].
      apply Forall_forall. intros l Hl. apply (lines_no_LF rawText l Hl). }
    destruct (ICICIParser.transactionLines (split LF rawText))
      as [|r0 rs] eqn:Er; [reflexivity|].
    assert (N : isEmpty (join (LF ++ LF) (r0 :: rs)) = false).
    { inversion P as [|? ? [_ N0] _]; subst.
      destruct r0; [discriminate N0|]. destruct rs; reflexivity. }
    rewrite N. rewrite split_join_records; [reflexivity|discriminate|].
    eapply Forall_impl; [|exact P]. intros r [H _]. exact H. }
  split; [|split; [|split; [exact HI|]]].
  - unfold HDFCParser.categorizeTransactions,
      HDFCParser.cleanOCROutputSimplified.
    assert (P : Forall (fun s => ~ In "010"%char (of_string s) /\
                                 isEmpty (trim s) = false)
                       (HDFCParser.simplifiedLines (split LF rawText))).
    { apply Forall_forall. intros s Hs.
      apply simplified_parsed in Hs. destruct Hs as [line [_ Hp]].
      apply (hdfc_simplified_plain line s Hp). }
    destruct (HDFCParser.simplifiedLines (split LF rawText))
      as [|s0 sl] eqn:Es; [reflexivity|].
    rewrite join_not_blank
      by (inversion P as [|? ? [_ N0] _]; exact N0).
    rewrite split_join_nonblank; [reflexivity| |];
      (eapply Forall_impl; [|exact P]); intros s [H1 H2]; assumption.
  - unfold KotakParser.categorizeTransactions,
      KotakParser.cleanOCROutputSimplified.
    assert (P : Forall (fun s => ~ In "010"%char (of_string s) /\
                                 isEmpty (trim s) = false)
                       (KotakParser.simplifiedLines (split LF rawText))).
    { apply Forall_forall. intros s Hs.
      apply simplified_parsed in Hs. destruct Hs as [line [Hl Hp]].
      apply (kotak_simplified_plain line s (lines_no_LF rawText line Hl) Hp). }
    destruct (KotakParser.simplifiedLines (split LF rawText))
      as [|s0 sl] eqn:Es; [reflexivity|].
    assert (N : isEmpty (trim (join (LF ++ LF) (s0 :: sl))) = false)
      by (apply join_not_blank; inversion P as [|? ? [_ N0] _]; exact N0).
    rewrite N, (not_blank_not_empty _ N). cbn [orb].
    rewrite split_join_nonblank; [reflexivity| |];
      (eapply Forall_impl; [|exact P]); intros s [H1 H2]; assumption.
  - rewrite HI. unfold ICICIParser.categorizeTransactions.
    assert (P : Forall (fun s => ~ In "010"%char (of_string s) /\
                                 isEmpty (trim s) = false)
                       (ICICIParser.simplifiedLines
                          (ICICIParser.transactionLines (split LF rawText)))).
    { apply Forall_forall. intros s Hs.
      apply simplified_parsed in Hs. destruct Hs as [line [_ Hp]].
      apply (icici_simplified_plain line s Hp). }
    destruct (ICICIParser.simplifiedLines
                (ICICIParser.transactionLines (split LF rawText)))
      as [|s0 sl] eqn:Es; [reflexivity|].
    assert (N : isEmpty (trim (join LF (s0 :: sl))) = false)
      by (apply join_not_blank; inversion P as [|? ? [_ N0] _]; exact N0).
    rewrite N, (not_blank_not_empty _ N). cbn [orb].
    rewrite split_join_lines; [reflexivity|discriminate|].
    eapply Forall_impl; [|exact P]. intros s [H _]. exact H.
Qed.

(* ================================================================== *)
(** * From the categorizer to the reader *)

Lemma read_joined toISOString selectedBank : forall rs : list string,
  Forall (fun r => ~ In "010"%char (of_string r)) rs ->
  OCRBankStatementReader.parseCategorizedData toISOString selectedBank
    (join (LF ++ LF) rs) =
  readLines toISOString selectedBank rs.
Proof.
  unfold OCRBankStatementReader.parseCategorizedData, readLines, split.
  change (of_string LF) with ["010"%char].
  induction rs as [|r rs IH]; intros F; [reflexivity|].
  inversion F as [|? ? Hr F']; subst.
  destruct rs as [|r2 rs'].
  - cbn [join]. rewrite (split_go_last _ _ [] Hr). cbn [rev app map flat_map].
    rewrite to_of_string. reflexivity.
  - change (join (LF ++ LF) (r :: r2 :: rs'))
      with (r ++ (LF ++ LF) ++ join (LF ++ LF) (r2 :: rs')).
    set (J := join (LF ++ LF) (r2 :: rs')) in *.
    rewrite !of_string_app. change (of_string LF) with ["010"%char].
    rewrite <- !app_assoc. cbn [app]. rewrite (split_go_char _ _ _ [] Hr).
    pose proof (split_go_char "010"%char [] (of_string J) []
                  (fun H : In "010"%char [] => H)) as E0.
    cbn [app rev] in E0. rewrite E0.
    cbn [rev app map flat_map]. rewrite to_of_string.
    rewrite (IH F'). reflexivity.
Qed.

Lemma directionName_no_LF d : ~ In "010"%char (of_string (directionName d)).
Proof. destruct d; cbn; intuition discriminate. Qed.

Lemma render_no_LF (t : Transaction) :
  ~ In "010"%char (of_string (txDate t)) ->
  ~ In "010"%char (of_string (txDescription t)) ->
  ~ In "010"%char (of_string (txAmount t)) ->
  ~ In "010"%char (of_string (render t)).
Proof.
  intros H1 H2 H3. rewrite render_chars. intros Hin.
  apply in_app_or in Hin. destruct Hin as [Hin|Hin]; [exact (H1 Hin)|].
  apply in_app_or in Hin. destruct Hin as [Hin|Hin];
    [cbn in Hin; intuition discriminate|].
  apply in_app_or in Hin. destruct Hin as [Hin|Hin]; [exact (H2 Hin)|].
  apply in_app_or in Hin. destruct Hin as [Hin|Hin];
    [cbn in Hin; intuition discriminate|].
  apply in_app_or in Hin. destruct Hin as [Hin|Hin]; [exact (H3 Hin)|].
  apply in_app_or in Hin. destruct Hin as [Hin|Hin];
    [cbn in Hin; intuition discriminate|].
  exact (directionName_no_LF _ Hin).
Qed.

Lemma hdfc_records_plain lines rec :
  Forall (fun l => ~ In "010"%char (of_string l)) lines ->
  In rec (HDFCParser.categorizedLines lines) ->
  ~ In "010"%char (of_string rec).
Proof.
  intros F Hin. unfold HDFCParser.categorizedLines in Hin.
  apply in_flat_map in Hin. destruct Hin as [i [_ Hin]].
  destruct (HDFCParser.categorizeAt lines i) as [p|] eqn:E; [|contradiction].
  destruct Hin as [<-|[]]. unfold HDFCParser.categorizeAt in E.
  destruct (nth_error lines i) as [l|] eqn:El; [|discriminate].
  apply nth_error_In in El. rewrite Forall_forall in F.
  pose proof (trim_no_LF l (F l El)) as Hl. cbv zeta in E.
  destruct (isEmpty (trim l)); [discriminate|].
  destruct (exec HDFCParser.simplifiedLine (trim l)) as [mt|] eqn:Em;
    apply some_inj in E; subst p; cbn [HDFCParser.pushedLine];
    [|exact Hl].
  apply render_no_LF; cbn [txDate txDescription txAmount].
  - intros H. apply Hl, (group_chars _ _ _ _ _ Em H).
  - intros H. apply Hl, (group_chars _ _ _ _ _ Em H).
  - apply toFixed2_no_LF.
Qed.

Lemma splitRe_go_chars rx : forall s p skip cur fresh piece c,
  In piece (splitRe_go rx p s skip cur fresh) -> In c piece ->
  In c s \/ In c cur.
Proof.
  induction s as [|x s IH]; intros p skip cur fresh piece c Hp Hc.
  - cbn [splitRe_go] in Hp. destruct Hp as [<-|[]].
    right. apply in_rev, Hc.
  - assert (K : forall p' skip' cur' fresh',
              In piece (splitRe_go rx p' s skip' cur' fresh') ->
              (forall z, In z cur' -> z = x \/ In z cur) ->
              In c (x :: s) \/ In c cur).
    { intros p' skip' cur' fresh' H Hcur.
      destruct (IH _ _ _ _ _ _ H Hc) as [H1|H1]; [left; right; exact H1|].
      destruct (Hcur _ H1) as [->|H2]; [left; left; reflexivity|].
      right. exact H2. }
    assert (R : In piece [rev cur] -> In c (x :: s) \/ In c cur).
    { intros [<-|[]]. right. apply in_rev, Hc. }
    cbn [splitRe_go] in Hp. destruct skip as [|k].
    + destruct (matchHere rx p (x :: s)) as [y|].
      * destruct (List.length (x :: s) - remaining y) as [|n'].
        -- destruct fresh.
           ++ apply (K _ _ _ _ Hp). intros z [<-|Hz]; auto.
           ++ destruct Hp as [Hp|Hp]; [apply R; left; exact Hp|].
              apply (K _ _ _ _ Hp). intros z [<-|[]]. auto.
        -- destruct Hp as [Hp|Hp]; [apply R; left; exact Hp|].
           apply (K _ _ _ _ Hp). intros z [].
      * apply (K _ _ _ _ Hp). intros z [<-|Hz]; auto.
    + apply (K _ _ _ _ Hp). intros z Hz. right. exact Hz.
Qed.

Lemma splitRe_chars rx s piece c :
  In piece (splitRe rx s) -> In c (of_string piece) -> In c (of_string s).
Proof.
  unfold splitRe. destruct (of_string s) as [|x l] eqn:E.
  - destruct (matchHere rx None []); [intros []|].
    intros [<-|[]] [].
  - intros Hp Hc. apply in_map_iff in Hp. destruct Hp as [q [<- Hq]].
    rewrite of_to_string in Hc.
    destruct (splitRe_go_chars _ _ _ _ _ _ _ _ Hq Hc) as [H|[]]. exact H.
Qed.

Lemma split_chars sep s piece c :
  In piece (split sep s) -> In c (of_string piece) -> In c (of_string s).
Proof.
  unfold split. intros Hp Hc. apply in_map_iff in Hp.
  destruct Hp as [q [<- Hq]]. rewrite of_to_string in Hc.
  destruct (split_go_chars _ _ _ _ _ _ Hq Hc) as [H|[]]. exact H.
Qed.

Lemma nth_no_LF (l : list string) k :
  Forall (fun x => ~ In "010"%char (of_string x)) l ->
  ~ In "010"%char (of_string (nth k l "")).
Proof.
  intros F. destruct (nth_in_or_default k l "") as [Hi|He].
  - rewrite Forall_forall in F. apply F, Hi.
  - rewrite He. intros [].
Qed.

Lemma icici_categorized_plain line t :
  ~ In "010"%char (of_string line) ->
  ICICIParser.categorizeLine line = Some t ->
  ~ In "010"%char (of_string (render t)).
Proof.
  intros Hl. unfold ICICIParser.categorizeLine. cbv zeta.
  assert (Fp : Forall (fun x => ~ In "010"%char (of_string x))
                      (split "|" line)).
  { apply Forall_forall. intros x Hx H.
    apply Hl, (split_chars _ _ _ _ Hx H). }
  assert (Fa : Forall (fun x => ~ In "010"%char (of_string x))
                      (ICICIParser.columns (split "|" line))).
  { apply Forall_forall. intros x Hx H. unfold ICICIParser.columns in Hx.
    cbv zeta in Hx. apply (splitRe_chars _ _ _ _ Hx) in H.
    revert H. apply trim_no_LF, nth_no_LF, Fp. }
  destruct (Nat.ltb (List.length (split "|" line)) 3); [discriminate|].
  destruct (Nat.ltb (List.length (ICICIParser.columns (split "|" line))) 3);
    [discriminate|].
  destruct (ICICIParser.resolve _ _) as [ty amt] eqn:Er.
  intros H. apply some_inj in H. subst t.
  apply render_no_LF; cbn [txDate txDescription txAmount].
  - apply trim_no_LF, nth_no_LF, Fp.
  - assert (D : ~ In "010"%char
                  (of_string
                     (trim (hd "" (splitRe ICICIParser.slashOrDash
                        (HDFCParser.replaceEach ICICIParser.descriptionNoise
                           (trim (nth 1 (split "|" line) "")))))))).
    { apply trim_no_LF.
      set (X := HDFCParser.replaceEach _ _).
      assert (HX : ~ In "010"%char (of_string X)).
      { unfold X, HDFCParser.replaceEach, ICICIParser.descriptionNoise.
        cbn [fold_left fst snd]. apply tidy_no_LF.
        rewrite replaceAll_ws. apply collapse_tidy. }
      destruct (splitRe ICICIParser.slashOrDash X) as [|h tl] eqn:Es;
        [intros []|].
      cbn [hd]. intros H. apply HX.
      apply (splitRe_chars ICICIParser.slashOrDash X h); [|exact H].
      rewrite Es. left. reflexivity. }
    destruct (isEmpty _); [cbn; intuition discriminate | exact D].
  - unfold ICICIParser.resolve in Er. cbv zeta in Er.
    destruct (_ && _) in Er.
    + injection Er as _ <-. apply nth_no_LF, Fa.
    + destruct (_ && _) in Er; injection Er as _ <-;
        [apply nth_no_LF, Fa | cbn; intuition discriminate].
Qed.

Lemma icici_blank_line line :
  isEmpty (trim line) = true -> ICICIParser.categorizeLine line = None.
Proof.
  intros H. apply blank_iff_white in H.
  unfold ICICIParser.categorizeLine. cbv zeta.
  assert (E : split "|" line = [line]).
  { unfold split. change (of_string "|") with ["|"%char].
    rewrite split_go_last.
    - cbn [rev app map]. rewrite to_of_string. reflexivity.
    - intros Hin. rewrite Forall_forall in H. specialize (H _ Hin).
      discriminate H. }
  rewrite E. reflexivity.
Qed.

(** X19: the reader takes the categorized records one by one.  For
    every text handed to the HDFC or the ICICI categorizer and every
    date reading of the host, the transactions that
    [parseCategorizedData] returns for the categorizer's text are
    those it takes from each categorized record, in the order of the
    records; the blank lines between the records add nothing. *)
Theorem reader_takes_categorized_records :
  forall (toISOString : string -> option string)
         (selectedBank simplifiedText : string),
    OCRBankStatementReader.parseCategorizedData toISOString selectedBank
      (HDFCParser.categorizeTransactions simplifiedText) =
    readLines toISOString selectedBank
      (HDFCParser.categorizedLines
         (filter (fun line => negb (isEmpty (trim line)))
                 (split LF simplifiedText))) /\
    OCRBankStatementReader.parseCategorizedData toISOString selectedBank
      (ICICIParser.categorizeTransactions simplifiedText) =
    readLines toISOString selectedBank
      (ICICIParser.categorizedLines (split LF simplifiedText)).
Proof.
  intros toISOString selectedBank text. split.
  - unfold HDFCParser.categorizeTransactions.
    destruct (isEmpty (trim text)) eqn:Eb.
    + assert (E : filter (fun line => negb (isEmpty (trim line)))
                         (split LF text) = []).
      { pose proof (split_blank LF text Eb) as F.
        induction (split LF text) as [|l ls IH]; [reflexivity|].
        inversion F; subst. cbn [filter].
        match goal with H : isEmpty (trim l) = true |- _ => rewrite H end.
        cbn [negb]. apply IH. assumption. }
      rewrite E. reflexivity.
    + apply read_joined. apply Forall_forall. intros rec Hrec.
      eapply hdfc_records_plain; [|exact Hrec].
      apply Forall_forall. intros l Hl. apply filter_In in Hl.
      apply (lines_no_LF text l), Hl.
  - unfold ICICIParser.categorizeTransactions.
    destruct (isEmpty text || isEmpty (trim text)) eqn:Eb.
    + assert (Eb' : isEmpty (trim text) = true).
      { apply orb_prop in Eb. destruct Eb as [Eb|Eb]; [|exact Eb].
        destruct text; [reflexivity | discriminate Eb]. }
      assert (E : ICICIParser.categorizedLines (split LF text) = []).
      { pose proof (split_blank LF text Eb') as F.
        unfold ICICIParser.categorizedLines.
        induction (split LF text) as [|l ls IH]; [reflexivity|].
        inversion F; subst. cbn [flat_map].
        rewrite icici_blank_line by assumption. apply IH. assumption. }
      rewrite E. reflexivity.
    + apply read_joined. apply Forall_forall. intros rec Hrec.
      unfold ICICIParser.categorizedLines in Hrec.
      apply in_flat_map in Hrec. destruct Hrec as [line [Hl Hrec]].
      destruct (ICICIParser.categorizeLine line) as [t|] eqn:Et;
        [|contradiction].
      destruct Hrec as [<-|[]].
      apply (icici_categorized_plain line t (lines_no_LF text line Hl) Et).
Qed.

(* ================================================================== *)
(** * Completeness of the matcher

    A pattern matches wherever it can: if the text ahead can be cut
    into a word of the pattern and a remainder on which the
    continuation succeeds, the backtracking search succeeds. *)

Lemma lastOr_app : forall (w1 w2 : chars) p,
  lastOr p (w1 ++ w2)%list = lastOr (lastOr p w1) w2.
Proof.
  induction w1 as [|c w1 IH]; intros w2 p; [reflexivity|].
  cbn [app lastOr]. apply IH.
Qed.

Lemma Chain_app M : forall (ws1 ws2 : list chars) p after,
  Chain M p (ws1 ++ ws2)%list after ->
  Chain M p ws1 (List.concat ws2 ++ after)%list /\
  Chain M (lastOr p (List.concat ws1)) ws2 after.
Proof.
  induction ws1 as [|w ws1 IH]; intros ws2 p after H.
  - split; [exact I | exact H].
  - cbn [app Chain] in H. destruct H as [Hw H].
    destruct (IH _ _ _ H) as [H1 H2]. split.
    + cbn [Chain]. split; [|exact H1].
      rewrite concat_app, <- app_assoc in Hw. exact Hw.
    + cbn [List.concat]. rewrite lastOr_app. exact H2.
Qed.

Lemma repeatMin_complete M mr gs :
  finds M mr ->
  forall (ws : list chars) k st after,
    rest st = (List.concat ws ++ after)%list ->
    Chain M (prev st) ws after ->
    (forall st', rest st' = after ->
                 prev st' = lastOr (prev st) (List.concat ws) ->
                 k st' <> None) ->
    repeatMin mr gs (List.length ws) k st <> None.
Proof.
  intros Hmr. induction ws as [|w ws IH]; intros k st after Hr Hc Hk.
  - cbn [List.length repeatMin]. apply Hk; [exact Hr | reflexivity].
  - cbn [List.length repeatMin]. cbn [Chain] in Hc. destruct Hc as [Hw Hc].
    apply (Hmr _ (resetCaps gs st) w (List.concat ws ++ after)%list).
    + cbn [resetCaps rest]. rewrite Hr. cbn [List.concat].
      rewrite <- app_assoc. reflexivity.
    + exact Hw.
    + cbn [resetCaps prev]. intros st' Hr' Hp'.
      apply (IH k st' after Hr').
      * rewrite Hp'. exact Hc.
      * intros st'' Hr'' Hp''. apply Hk; [exact Hr''|].
        rewrite Hp'', Hp'. cbn [List.concat]. rewrite lastOr_app.
        reflexivity.
Qed.

Lemma repeatMax_complete M mr gs greedy k :
  finds M mr ->
  forall (ws : list chars) fuel max st after,
    rest st = (List.concat ws ++ after)%list ->
    Forall (fun u => u <> []) ws ->
    withinMax max (List.length ws) ->
    Chain M (prev st) ws after ->
    remaining st < fuel ->
    (forall st', rest st' = after ->
                 prev st' = lastOr (prev st) (List.concat ws) ->
                 k st' <> None) ->
    repeatMax mr gs greedy k fuel max st <> None.
Proof.
  intros Hmr.
  induction ws as [|w ws IH]; intros fuel max st after Hr Hne Hmax Hc Hf Hk;
    (destruct fuel as [|fuel]; [inversion Hf|]); cbn [repeatMax].
  - assert (Hkst : k st <> None) by (apply Hk; [exact Hr | reflexivity]).
    destruct max as [[|mx]|]; [exact Hkst| |];
      (destruct greedy;
       [match goal with
        | |- match ?X with _ => _ end <> None =>
            destruct X; [discriminate | exact Hkst]
        end
       |destruct (k st); [discriminate | congruence]]).
  - cbn [Chain] in Hc. destruct Hc as [Hw Hc].
    inversion Hne as [|? ? Hw0 Hne']; subst.
    assert (Hd : forall mx',
              withinMax mx' (List.length ws) ->
              mr (fun y =>
                    if Nat.ltb (remaining y) (remaining st)
                    then repeatMax mr gs greedy k fuel mx' y
                    else None) (resetCaps gs st) <> None).
    { intros mx' Hmx'.
      apply (Hmr _ (resetCaps gs st) w (List.concat ws ++ after)%list).
      - cbn [resetCaps rest]. rewrite Hr. cbn [List.concat].
        rewrite <- app_assoc. reflexivity.
      - exact Hw.
      - cbn [resetCaps prev]. intros st' Hr' Hp'.
        assert (Hlt : remaining st' < remaining st).
        { unfold remaining. rewrite Hr, Hr'. cbn [List.concat].
          rewrite <- app_assoc, (length_app w).
          destruct w; [congruence|]. cbn [List.length]. lia. }
        apply Nat.ltb_lt in Hlt. rewrite Hlt.
        apply (IH fuel mx' st' after Hr' Hne' Hmx').
        + rewrite Hp'. exact Hc.
        + apply Nat.ltb_lt in Hlt. lia.
        + intros st'' Hr'' Hp''. apply Hk; [exact Hr''|].
          rewrite Hp'', Hp'. cbn [List.concat]. rewrite lastOr_app.
          reflexivity. }
    destruct max as [[|mx]|]; cbn [withinMax List.length] in Hmax.
    + lia.
    + specialize (Hd (Some mx)). cbn [option_map pred].
      assert (Hm : withinMax (Some mx) (List.length ws))
        by (cbn [withinMax]; lia).
      specialize (Hd Hm).
      destruct greedy.
      * match goal with
        | |- match ?X with _ => _ end <> None =>
            destruct X; [discriminate | congruence]
        end.
      * destruct (k st); [discriminate | exact Hd].
    + specialize (Hd None I). cbn [option_map].
      destruct greedy.
      * match goal with
        | |- match ?X with _ => _ end <> None =>
            destruct X; [discriminate | congruence]
        end.
      * destruct (k st); [discriminate | exact Hd].
Qed.

Theorem m_complete ic : forall r, finds (Matches ic r) (m ic r).
Proof.
  unfold finds.
  induction r as [|c| |items| | | |r1 IH1 r2 IH2|r1 IH1 r2 IH2|n r IH
                  |r IH min max greedy]; intros k st w after Hr HM Hk;
    cbn [Matches] in HM; cbn [m].
  - subst w. apply Hk; [exact Hr | reflexivity].
  - destruct HM as [x [-> Hx]]. rewrite Hr. cbn [app]. rewrite Hx.
    apply Hk; reflexivity.
  - destruct HM as [x [-> Hx]]. rewrite Hr. cbn [app]. rewrite Hx.
    apply Hk; reflexivity.
  - destruct HM as [x [-> Hx]]. rewrite Hr. cbn [app]. rewrite Hx.
    apply Hk; reflexivity.
  - destruct HM as [-> Hp]. rewrite Hp. apply Hk; [exact Hr | reflexivity].
  - destruct HM as [-> Ha]. rewrite Hr, Ha. cbn [app].
    apply Hk; [rewrite Hr, Ha|]; reflexivity.
  - destruct HM as [-> Hx]. rewrite Hr. cbn [app]. rewrite Hx.
    apply Hk; [exact Hr | reflexivity].
  - destruct HM as [w1 [w2 [-> [H1 H2]]]].
    apply (IH1 _ st w1 (w2 ++ after)%list);
      [rewrite Hr, <- app_assoc; reflexivity | exact H1|].
    intros st1 Hr1 Hp1.
    apply (IH2 _ st1 w2 after Hr1); [rewrite Hp1; exact H2|].
    intros st2 Hr2 Hp2. apply Hk; [exact Hr2|].
    rewrite Hp2, Hp1, lastOr_app. reflexivity.
  - destruct HM as [H1|H2].
    + pose proof (IH1 k st w after Hr H1 Hk) as H.
      destruct (m ic r1 k st); [discriminate | congruence].
    + destruct (m ic r1 k st); [discriminate|].
      apply (IH2 k st w after Hr H2 Hk).
  - apply (IH _ st w after Hr HM). intros st' Hr' Hp'.
    apply Hk; [exact Hr' | exact Hp'].
  - destruct HM as [ws1 [ws2 [-> [Hlen [Hne [Hmax Hc]]]]]].
    apply Chain_app in Hc. destruct Hc as [Hc1 Hc2]. rewrite <- Hlen.
    apply (repeatMin_complete (Matches ic r) (m ic r) (groups r) IH
             ws1 _ st (List.concat ws2 ++ after)%list);
      [rewrite Hr, <- app_assoc; reflexivity | exact Hc1|].
    intros st1 Hr1 Hp1.
    apply (repeatMax_complete (Matches ic r) (m ic r) (groups r) greedy k IH
             ws2 _ _ st1 after Hr1 Hne);
      [rewrite Hlen; exact Hmax | rewrite Hp1; exact Hc2 | lia|].
    intros st2 Hr2 Hp2. apply Hk; [exact Hr2|].
    rewrite Hp2, Hp1, lastOr_app. reflexivity.
Qed.

(** A pattern that matches the whole of a text from its start is
    found there. *)
Lemma exec_complete rx (s : string) (w after : chars) :
  of_string s = (w ++ after)%list ->
  Matches (ignoreCase rx) (pattern rx) None w after ->
  exists y, matchHere rx None (of_string s) = Some y /\
            exec rx s = Some {| index := 0;
                                matched :=
                                  firstn (List.length (of_string s) -
                                          remaining y) (of_string s);
                                captures := caps y |}.
Proof.
  intros Es HM.
  assert (H : matchHere rx None (of_string s) <> None).
  { unfold matchHere.
    apply (m_complete (ignoreCase rx) (pattern rx) Some
             {| rest := of_string s; prev := None; caps := [] |} w after);
      [exact Es | exact HM | discriminate]. }
  destruct (matchHere rx None (of_string s)) as [y|] eqn:E; [|congruence].
  exists y. split; [reflexivity|].
  unfold exec. destruct (of_string s) as [|c l]; cbn [execFrom];
    rewrite E; reflexivity.
Qed.

(* ================================================================== *)
(** * Words read character by character *)

Lemma Chain_singletons (M : option ascii -> chars -> chars -> Prop)
    (Q : ascii -> Prop) :
  (forall x p after, Q x -> M p [x] after) ->
  forall (w : chars) p after,
    Forall Q w -> Chain M p (map (fun x => [x]) w) after.
Proof.
  intros HQ. induction w as [|x w IH]; intros p after F; [exact I|].
  inversion F; subst. cbn [map Chain]. split; [apply HQ; assumption|].
  apply IH. assumption.
Qed.

Lemma concat_singletons (w : chars) :
  List.concat (map (fun x => [x]) w) = w.
Proof. induction w as [|x w IH]; [reflexivity|]. cbn. rewrite IH. reflexivity. Qed.

(** A run of characters each of which the body accepts is a word of
    the quantified body, when its length is within the bounds. *)
Lemma rep_chars_matches ic r (Q : ascii -> Prop) min max g
    (w : chars) p after :
  (forall x p after, Q x -> Matches ic r p [x] after) ->
  Forall Q w -> min <= List.length w ->
  withinMax (maxAfter min max) (List.length w - min) ->
  Matches ic (Rep r min max g) p w after.
Proof.
  intros HQ F Hmin Hmax. cbn [Matches].
  exists (map (fun x => [x]) (firstn min w)),
         (map (fun x => [x]) (skipn min w)).
  rewrite !concat_singletons, firstn_skipn. split; [reflexivity|].
  split; [rewrite length_map, length_firstn; lia|].
  split.
  { apply Forall_forall. intros u Hu. apply in_map_iff in Hu.
    destruct Hu as [x [<- _]]. discriminate. }
  split; [rewrite length_map, length_skipn; exact Hmax|].
  rewrite <- map_app, firstn_skipn. apply (Chain_singletons _ Q HQ), F.
Qed.

Lemma Matches_seq ic r1 r2 p (w1 w2 after : chars) :
  Matches ic r1 p w1 (w2 ++ after)%list ->
  Matches ic r2 (lastOr p w1) w2 after ->
  Matches ic (Seq r1 r2) p (w1 ++ w2)%list after.
Proof. intros H1 H2. exists w1, w2. auto. Qed.

Lemma space_matches x p after :
  isWhiteSpace x = true -> Matches false space p [x] after.
Proof.
  intros H. exists x. split; [reflexivity|].
  unfold inClass. cbn. rewrite H. reflexivity.
Qed.

Lemma digit_matches x p after :
  isDigit x = true -> Matches false digit p [x] after.
Proof.
  intros H. exists x. split; [reflexivity|].
  unfold inClass. cbn. rewrite H. reflexivity.
Qed.

Lemma chr_matches c p after : Matches false (Chr c) p [c] after.
Proof.
  exists c. split; [reflexivity|]. unfold charMatches. cbn.
  apply Ascii.eqb_refl.
Qed.

Lemma spaces_star (s : chars) p after :
  Forall (fun x => isWhiteSpace x = true) s ->
  Matches false (star space) p s after.
Proof.
  intros F.
  apply (rep_chars_matches false space (fun x => isWhiteSpace x = true));
    [apply space_matches | exact F | lia | exact I].
Qed.

Lemma spaces_plus (s : chars) p after :
  Forall (fun x => isWhiteSpace x = true) s -> s <> [] ->
  Matches false (plus space) p s after.
Proof.
  intros F N.
  apply (rep_chars_matches false space (fun x => isWhiteSpace x = true));
    [apply space_matches | exact F | destruct s; [congruence|cbn; lia]
    | exact I].
Qed.

Lemma digits_times n (w : chars) p after :
  Forall (fun x => isDigit x = true) w -> List.length w = n ->
  Matches false (times n digit) p w after.
Proof.
  intros F L.
  apply (rep_chars_matches false digit (fun x => isDigit x = true));
    [apply digit_matches | exact F | lia|].
  cbn. lia.
Qed.

Lemma any_plusLazy (w : chars) p after :
  Forall (fun x => isLineTerminator x = false) w -> w <> [] ->
  Matches false (plusLazy Any) p w after.
Proof.
  intros F N.
  apply (rep_chars_matches false Any (fun x => isLineTerminator x = false));
    [|exact F | destruct w; [congruence|cbn; lia] | exact I].
  intros x p' after' Hx. exists x. auto.
Qed.

(* ================================================================== *)
(** * The groups of a pattern read piece by piece *)

Lemma GroupsSat_plain ic P r : groups r = [] -> GroupsSat ic P r.
Proof.
  induction r; cbn [groups GroupsSat]; intros H; try exact I.
  - apply app_eq_nil in H. destruct H. split; auto.
  - apply app_eq_nil in H. destruct H. split; auto.
  - discriminate H.
  - auto.
Qed.

(** A piece without groups reads a word of its own and leaves the
    groups as they are. *)
Lemma peel_plain ic r k st z known :
  groups r = [] -> capsAre (caps st) known ->
  m ic r k st = Some z ->
  exists st' w,
    k st' = Some z /\ rest st = (w ++ rest st')%list /\ InLang ic r w /\
    capsAre (caps st') known.
Proof.
  intros Hg [K1 K2] H.
  destruct (m_sound ic (fun n w => In (n, w) (caps st)) r
              (GroupsSat_plain _ _ r Hg)
              ltac:(rewrite Hg; constructor)
              k st z (fun n w Hin => Hin) H)
    as [st' [Hk [[w [Hr Hw]] [Hc Hh]]]].
  exists st', w. split; [exact Hk|]. split; [exact Hr|].
  split; [exact Hw|]. split.
  - intros n u Hin. apply K1, Hc, Hin.
  - intros n u Hin. apply Hh. right. split; [apply (K2 n u Hin)|].
    rewrite Hg. intros [].
Qed.

(** A group whose body has no groups reads a word of the body and
    is set to it. *)
Lemma peel_group ic g r k st z known :
  groups r = [] -> capsAre (caps st) known ->
  ~ In g (map fst known) ->
  m ic (Group g r) k st = Some z ->
  exists st' w,
    k st' = Some z /\ rest st = (w ++ rest st')%list /\ InLang ic r w /\
    capsAre (caps st') ((g, w) :: known).
Proof.
  intros Hg K Hnew H. cbn [m] in H.
  destruct (peel_plain ic r _ st z known Hg K H)
    as [y [w [Hk [Hr [Hw [K1 K2]]]]]].
  unfold remaining in Hk. rewrite Hr, firstn_consumed in Hk.
  exists (setCap g w y), w. split; [exact Hk|].
  split; [exact Hr|]. split; [exact Hw|]. split.
  - intros n u [Hin|Hin]; [left; exact Hin|right].
    unfold dropCaps in Hin. apply filter_In in Hin. apply K1, Hin.
  - intros n u [Hin|Hin].
    + injection Hin as <- <-. left. reflexivity.
    + right. apply hasCap_drop; [apply (K2 n u Hin)|].
      intros [<-|[]]. apply Hnew.
      apply in_map_iff. exists (g, u). auto.
Qed.

(** The text of a group whose value is known. *)
Lemma group_known (r : MatchResult) known n (w : chars) :
  capsAre (captures r) known -> NoDup (map fst known) ->
  In (n, w) known ->
  group n r = to_string w.
Proof.
  intros [K1 K2] Hnd Hin. unfold group.
  destruct (find (fun p => Nat.eqb (fst p) n) (captures r))
    as [[n' u]|] eqn:E.
  - apply find_some in E. destruct E as [Hc En]. cbn [fst] in En.
    apply Nat.eqb_eq in En. subst n'. cbn [snd]. f_equal.
    apply K1 in Hc. clear K1 K2.
    induction known as [|[a b] known IH]; [contradiction|].
    cbn [map fst] in Hnd. inversion Hnd as [|? ? Ha Hnd']; subst.
    destruct Hin as [Hin|Hin], Hc as [Hc|Hc].
    + congruence.
    + injection Hin as -> ->. exfalso. apply Ha.
      apply in_map_iff. exists (n, u). auto.
    + injection Hc as -> ->. exfalso. apply Ha.
      apply in_map_iff. exists (n, w). auto.
    + apply IH; assumption.
  - exfalso. pose proof (K2 n w Hin) as Hh. unfold hasCap in Hh.
    apply in_map_iff in Hh. destruct Hh as [[n' u] [En Hu]].
    cbn [fst] in En. subst n'.
    apply (find_none _ _ E) in Hu. cbn [fst] in Hu.
    rewrite Nat.eqb_refl in Hu. discriminate Hu.
Qed.

(* ================================================================== *)
(** * One way only to cut a text *)

(** A text with one mark is cut at the mark. *)
Lemma cut_at_mark (c : ascii) : forall (x' y' x y : chars),
  ~ In c x' -> ~ In c y' ->
  (x ++ c :: y)%list = (x' ++ c :: y')%list ->
  x = x' /\ y = y'.
Proof.
  induction x' as [|a x' IH]; intros y' x y Hx Hy E.
  - destruct x as [|b x]; cbn [app] in E.
    + injection E as E. auto.
    + injection E as -> E. exfalso. apply Hy. rewrite <- E.
      apply in_or_app. right. left. reflexivity.
  - destruct x as [|b x]; cbn [app] in E.
    + injection E as -> E. exfalso. apply Hx. left. reflexivity.
    + injection E as -> E.
      destruct (IH y' x y (fun H => Hx (or_intror H)) Hy E) as [-> ->].
      auto.
Qed.

(** A run of white space ends where the first other character
    stands. *)
Lemma cut_after_run : forall (s s' : chars) (c c' : ascii) (r r' : chars),
  Forall (fun x => isWhiteSpace x = true) s ->
  Forall (fun x => isWhiteSpace x = true) s' ->
  isWhiteSpace c = false -> isWhiteSpace c' = false ->
  (s ++ c :: r)%list = (s' ++ c' :: r')%list ->
  s = s' /\ c = c' /\ r = r'.
Proof.
  induction s as [|a s IH]; intros s' c c' r r' F F' Hc Hc' E.
  - destruct s' as [|b s']; cbn [app] in E.
    + injection E as -> ->. auto.
    + injection E as -> E. inversion F'; subst. congruence.
  - destruct s' as [|b s']; cbn [app] in E.
    + injection E as -> E. inversion F; subst. congruence.
    + injection E as -> E. inversion F; inversion F'; subst.
      destruct (IH s' c c' r r') as [-> [-> ->]]; auto.
Qed.

(** A word ends where the first white space stands. *)
Lemma cut_after_word : forall (u u' : chars) (c c' : ascii) (r r' : chars),
  isWord u -> isWord u' ->
  isWhiteSpace c = true -> isWhiteSpace c' = true ->
  (u ++ c :: r)%list = (u' ++ c' :: r')%list ->
  u = u' /\ c = c' /\ r = r'.
Proof.
  induction u as [|a u IH]; intros u' c c' r r' F F' Hc Hc' E.
  - destruct u' as [|b u']; cbn [app] in E.
    + injection E as -> ->. auto.
    + injection E as -> E. inversion F'; subst. congruence.
  - destruct u' as [|b u']; cbn [app] in E.
    + injection E as -> E. inversion F; subst. congruence.
    + injection E as -> E. inversion F; inversion F'; subst.
      destruct (IH u' c c' r r') as [-> [-> ->]]; auto.
Qed.

(* ================================================================== *)
(** * From the HDFC field extractor to the HDFC categorizer *)

Lemma inClass_dc_plain c :
  inClass false [CDigit; CChar ","] c = true ->
  isWhiteSpace c = false /\ c <> "|"%char.
Proof.
  intros H. destruct (digit_or_comma c H) as [Hd|Hc].
  - split; [apply digit_not_white, Hd|]. intros ->. discriminate Hd.
  - unfold notComma in Hc. apply negb_false_iff, Ascii.eqb_eq in Hc.
    subst c. split; [reflexivity | discriminate].
Qed.

Lemma amountShape_word w :
  amountShape w ->
  isWord w /\ ~ In "|"%char w /\
  (exists x t, w = x :: t /\ isWhiteSpace x = false) /\
  (exists z t, rev w = z :: t /\ isWhiteSpace z = false).
Proof.
  intros [body [d1 [d2 [-> [Hne [F [H1 H2]]]]]]].
  assert (Fp : Forall (fun c => isWhiteSpace c = false /\ c <> "|"%char)
                      (body ++ "."%char :: [d1; d2])).
  { apply Forall_app. split.
    - eapply Forall_impl; [|exact F]. intros c. apply inClass_dc_plain.
    - constructor; [split; [reflexivity | discriminate]|].
      constructor; [|constructor; [|constructor]].
      + split; [apply digit_not_white, H1|]. intros ->. discriminate H1.
      + split; [apply digit_not_white, H2|]. intros ->. discriminate H2. }
  split; [|split; [|split]].
  - eapply Forall_impl; [|exact Fp]. intros c [H _]. exact H.
  - intros Hin. rewrite Forall_forall in Fp.
    destruct (Fp _ Hin) as [_ H]. congruence.
  - destruct body as [|x body']; [congruence|].
    exists x, (body' ++ "."%char :: [d1; d2])%list.
    split; [reflexivity|]. inversion Fp as [|? ? [Hx _] _]. exact Hx.
  - exists d2, (d1 :: "."%char :: rev body).
    split; [|apply digit_not_white, H2].
    rewrite rev_app_distr. reflexivity.
Qed.

Lemma amountShape_matches w p after :
  amountShape w -> Matches false amountBody p w after.
Proof.
  intros [body [d1 [d2 [-> [Hne [F [H1 H2]]]]]]].
  unfold amountBody. cbn [seqs].
  apply Matches_seq.
  - apply (rep_chars_matches false _
             (fun c => inClass false [CDigit; CChar ","] c = true));
      [|exact F | destruct body; [congruence | cbn; lia] | exact I].
    intros x p' after' Hx. exists x. auto.
  - apply (Matches_seq false _ _ _ ["."%char] [d1; d2]);
      [apply chr_matches|].
    apply digits_times; [|reflexivity].
    constructor; [exact H1|]. constructor; [exact H2 | constructor].
Qed.

Lemma amountShape_of_body w : InLang false amountBody w -> amountShape w.
Proof.
  unfold amountBody, seqs, plus.
  intros [w1 [w2 [-> [H1 [w3 [w4 [-> [Hp H4]]]]]]]].
  apply InLang_class_rep in H1. destruct H1 as [F1 [L1 _]].
  apply chr_word in Hp. subst w3.
  apply times_digits in H4. destruct H4 as [L4 F4].
  destruct w4 as [|d1 [|d2 [|? ?]]]; try discriminate L4.
  inversion F4 as [|? ? Hd1 F4']; subst.
  inversion F4' as [|? ? Hd2 _]; subst.
  exists w1, d1, d2. split; [reflexivity|].
  split; [destruct w1; [cbn in L1; lia | discriminate]|]. auto.
Qed.

Lemma digit_in_dc c :
  isDigit c = true -> inClass false [CDigit; CChar ","] c = true.
Proof. intros H. unfold inClass. cbn. rewrite H. reflexivity. Qed.

Lemma currency_amountShape w :
  InLang false (pattern BaseParser.currencyAmount) w -> amountShape w.
Proof.
  cbn [pattern BaseParser.currencyAmount re seqs InLang].
  intros [a [w1 [-> [Ha [b [w2 [-> [Hb [c [d [-> [Hc Hd]]]]]]]]]]]].
  change (InLang false (between 1 3 digit) a) in Ha.
  unfold between, digit in Ha.
  apply InLang_class_rep in Ha. destruct Ha as [Fa [La _]].
  change (InLang false (Chr ".") c) in Hc. apply chr_word in Hc. subst c.
  change (InLang false (times 2 digit) d) in Hd.
  apply times_digits in Hd. destruct Hd as [Ld Fd].
  destruct d as [|d1 [|d2 [|? ?]]]; try discriminate Ld.
  inversion Fd as [|? ? Hd1 Fd']; subst.
  inversion Fd' as [|? ? Hd2 _]; subst.
  exists (a ++ b)%list, d1, d2.
  split; [rewrite <- app_assoc; reflexivity|].
  split; [destruct a; [cbn in La; lia | discriminate]|].
  split; [|auto].
  apply Forall_app. split.
  - eapply Forall_impl; [|exact Fa]. intros x Hx.
    apply digit_in_dc, inClass_digit, Hx.
  - destruct Hb as [ws [-> [Fw _]]].
    induction Fw as [|u ws Hu _ IH]; [constructor|].
    cbn [List.concat]. apply Forall_app. split; [|exact IH].
    destruct Hu as [u1 [u2 [-> [Hc1 H3]]]].
    apply chr_word in Hc1. subst u1.
    change (InLang false (times 3 digit) u2) in H3.
    apply times_digits in H3. destruct H3 as [_ F3].
    constructor; [reflexivity|].
    eapply Forall_impl; [|exact F3]. intros x. apply digit_in_dc.
Qed.

Lemma withPoint_shape n : amountShape (withPoint n).
Proof.
  unfold withPoint.
  set (ds := (repeat "0"%char (3 - List.length (decimal n)) ++ decimal n)%list).
  assert (D : Forall (fun c => isDigit c = true) ds).
  { apply Forall_app. split.
    - apply Forall_forall. intros c Hc. apply repeat_spec in Hc.
      subst c. reflexivity.
    - apply decimal_go_digits. constructor. }
  assert (Hlen : 3 <= List.length ds).
  { unfold ds. rewrite length_app, repeat_length. lia. }
  cbv zeta.
  pose proof (firstn_skipn (List.length ds - 2) ds) as E.
  rewrite <- E in D. apply Forall_app in D. destruct D as [D1 D2].
  assert (L2 : List.length (skipn (List.length ds - 2) ds) = 2)
    by (rewrite length_skipn; lia).
  assert (L1 : List.length (firstn (List.length ds - 2) ds) <> 0)
    by (rewrite length_firstn; lia).
  destruct (skipn (List.length ds - 2) ds) as [|d1 [|d2 [|? ?]]];
    try discriminate L2.
  inversion D2 as [|? ? Hd1 D2']; subst.
  inversion D2' as [|? ? Hd2 _]; subst.
  exists (firstn (List.length ds - 2) ds), d1, d2.
  split; [reflexivity|].
  split; [intros H0; rewrite H0 in L1; apply L1; reflexivity|].
  split; [|auto].
  eapply Forall_impl; [|exact D1]. intros x. apply digit_in_dc.
Qed.

(** [toFixed(2)] of the absolute value of a number below 10^21 has
    the shape of an amount. *)
Lemma toFixed2_amountShape y :
  belowE21 (abs y) = true -> amountShape (of_string (toFixed2 (abs y))).
Proof.
  destruct y as [s|s| |s mt e]; cbn [abs SFabs belowE21 toFixed2]; intros H;
    try discriminate H.
  - exists ["0"%char], "0"%char, "0"%char. cbn. repeat split; auto.
    discriminate.
  - apply negb_true_iff in H. rewrite H.
    change (of_string ("" ++ to_string (withPoint (hundredths mt e))))
      with (of_string (to_string (withPoint (hundredths mt e)))).
    rewrite of_to_string. apply withPoint_shape.
Qed.

Lemma shortDate_matches w p after :
  InLang false (pattern BaseParser.shortDate) w ->
  Matches false
    (seqs [times 2 digit; Chr "/"; times 2 digit; Chr "/"; times 2 digit])
    p w after.
Proof.
  intros H. destruct (shortDate_word w H) as [a [b [c [-> [La [Lb [Lc F]]]]]]].
  apply Forall_app in F. destruct F as [Fa F].
  apply Forall_app in F. destruct F as [Fb Fc].
  cbn [seqs].
  apply Matches_seq; [apply digits_times; assumption|].
  apply (Matches_seq false _ _ _ ["/"%char]); [apply chr_matches|].
  apply Matches_seq; [apply digits_times; assumption|].
  apply (Matches_seq false _ _ _ ["/"%char]); [apply chr_matches|].
  apply digits_times; assumption.
Qed.

Lemma lineTerminator_white c :
  isLineTerminator c = true -> isWhiteSpace c = true /\ c <> " "%char.
Proof.
  destruct c as [[] [] [] [] [] [] [] []]; cbn; intros H;
    try discriminate H; split; try reflexivity; discriminate.
Qed.

Lemma tidy_no_terminator (w : chars) :
  tidy false w = true -> Forall (fun x => isLineTerminator x = false) w.
Proof.
  intros T. apply Forall_forall. intros x Hx.
  destruct (isLineTerminator x) eqn:E; [|reflexivity].
  destruct (lineTerminator_white x E) as [Hw Hs].
  exfalso. apply Hs, (tidy_spaces w false x T Hx Hw).
Qed.

Lemma white_no_terminator_space :
  Forall (fun x => isLineTerminator x = false) [" "%char].
Proof. constructor; [reflexivity | constructor]. Qed.

(** The pattern of the categorizer matches a text cut as the pattern
    is. *)
Lemma hdfc_pattern_matches (d w2 s3 a b : chars) :
  InLang false (pattern BaseParser.shortDate) d ->
  Forall (fun x => isLineTerminator x = false) w2 -> w2 <> [] ->
  Forall (fun x => isWhiteSpace x = true) s3 ->
  amountShape a -> amountShape b ->
  Matches false (pattern HDFCParser.simplifiedLine) None
    (d ++ " "%char :: "|"%char :: " "%char :: w2 ++ s3 ++
       "|"%char :: " "%char :: a ++ " "%char :: b)%list [].
Proof.
  intros Hd F2 N2 F3 Ha Hb.
  cbn [pattern HDFCParser.simplifiedLine re seqs].
  apply (Matches_seq false Bol _ None []); [split; reflexivity|].
  apply Matches_seq; [apply shortDate_matches, Hd|].
  apply (Matches_seq false _ _ _ [" "%char]);
    [apply spaces_star; constructor; [reflexivity | constructor]|].
  apply (Matches_seq false _ _ _ ["|"%char]); [apply chr_matches|].
  apply (Matches_seq false _ _ _ [" "%char]);
    [apply spaces_star; constructor; [reflexivity | constructor]|].
  apply Matches_seq; [apply any_plusLazy; assumption|].
  apply Matches_seq; [apply spaces_star, F3|].
  apply (Matches_seq false _ _ _ ["|"%char]); [apply chr_matches|].
  apply (Matches_seq false _ _ _ [" "%char]);
    [apply spaces_star; constructor; [reflexivity | constructor]|].
  apply Matches_seq; [apply amountShape_matches, Ha|].
  apply (Matches_seq false _ _ _ [" "%char]);
    [apply spaces_plus; [constructor; [reflexivity | constructor]
                        |discriminate]|].
  rewrite <- (app_nil_r b).
  apply Matches_seq; [apply amountShape_matches, Hb|].
  split; reflexivity.
Qed.

Lemma m_seq ic a b k st : m ic (Seq a b) k st = m ic a (m ic b k) st.
Proof. reflexivity. Qed.

Lemma spaces_of_star w :
  InLang false (star space) w -> Forall (fun x => isWhiteSpace x = true) w.
Proof.
  unfold star, space. intros H. apply InLang_class_rep in H.
  destruct H as [F _]. eapply Forall_impl; [|exact F].
  intros x Hx. unfold inClass in Hx. cbn in Hx.
  rewrite !orb_false_r in Hx. exact Hx.
Qed.

Lemma spaces_of_plus w :
  InLang false (plus space) w ->
  Forall (fun x => isWhiteSpace x = true) w /\ w <> [].
Proof.
  unfold plus, space. intros H. apply InLang_class_rep in H.
  destruct H as [F [L _]]. split.
  - eapply Forall_impl; [|exact F].
    intros x Hx. unfold inClass in Hx. cbn in Hx.
    rewrite !orb_false_r in Hx. exact Hx.
  - destruct w; [cbn in L; lia | discriminate].
Qed.

Ltac peel_piece H K st w H' E L K' :=
  let P := fresh "P" in
  pose proof (fun G => peel_plain _ _ _ _ _ _ G K H) as P;
  destruct (P eq_refl) as [st [w [H' [E [L K']]]]]; clear P.

Ltac peel_captured H K N st w H' E L K' :=
  let P := fresh "P" in
  pose proof (fun G => peel_group _ _ _ _ _ _ _ G K N H) as P;
  destruct (P eq_refl) as [st [w [H' [E [L K']]]]]; clear P.

(** What a match of the categorizer's pattern at the start of a text
    reads, and what its groups hold. *)
Lemma hdfc_match_parts (l : chars) y :
  matchHere HDFCParser.simplifiedLine None l = Some y ->
  exists d s1 s2 w2 s3 s4 a s5 b,
    l = (d ++ s1 ++ "|"%char :: s2 ++ w2 ++ s3 ++ "|"%char :: s4 ++
         a ++ s5 ++ b)%list /\
    InLang false (pattern BaseParser.shortDate) d /\
    Forall (fun x => isWhiteSpace x = true) s1 /\
    Forall (fun x => isWhiteSpace x = true) s2 /\
    Forall (fun x => isWhiteSpace x = true) s3 /\
    Forall (fun x => isWhiteSpace x = true) s4 /\
    (Forall (fun x => isWhiteSpace x = true) s5 /\ s5 <> []) /\
    amountShape a /\ amountShape b /\
    capsAre (caps y) [(4, b); (3, a); (2, w2); (1, d)].
Proof.
  unfold matchHere.
  cbn [pattern ignoreCase HDFCParser.simplifiedLine re seqs].
  set (st0 := {| rest := l; prev := None; caps := [] |}).
  assert (K0 : capsAre (caps st0) []) by (split; intros n w []).
  intros H.
  rewrite m_seq in H.
  peel_piece H K0 st1 w0 H1 E0 L0 K1.
  rewrite m_seq in H1.
  assert (N1 : ~ In 1 (map fst (@nil (nat * chars)))) by (intros []).
  peel_captured H1 K1 N1 st2 d H2 E1 L1 K2.
  rewrite m_seq in H2.
  peel_piece H2 K2 st3 s1 H3 E2 L2 K3.
  rewrite m_seq in H3.
  peel_piece H3 K3 st4 c1 H4 E3 L3 K4.
  rewrite m_seq in H4.
  peel_piece H4 K4 st5 s2 H5 E4 L4 K5.
  rewrite m_seq in H5.
  assert (N2 : ~ In 2 (map fst [(1, d)]))
    by (cbn; intros [F|[]]; discriminate F).
  peel_captured H5 K5 N2 st6 w2 H6 E5 L5 K6.
  rewrite m_seq in H6.
  peel_piece H6 K6 st7 s3 H7 E6 L6 K7.
  rewrite m_seq in H7.
  peel_piece H7 K7 st8 c2 H8 E7 L7 K8.
  rewrite m_seq in H8.
  peel_piece H8 K8 st9 s4 H9 E8 L8 K9.
  rewrite m_seq in H9.
  assert (N3 : ~ In 3 (map fst [(2, w2); (1, d)]))
    by (cbn; intros [F|[F|[]]]; discriminate F).
  peel_captured H9 K9 N3 st10 a H10 E9 L9 K10.
  rewrite m_seq in H10.
  peel_piece H10 K10 st11 s5 H11 E10 L10 K11.
  rewrite m_seq in H11.
  assert (N4 : ~ In 4 (map fst [(3, a); (2, w2); (1, d)]))
    by (cbn; intros [F|[F|[F|[]]]]; discriminate F).
  peel_captured H11 K11 N4 st12 b H12 E11 L11 K12.
  cbn [m] in H12.
  destruct (rest st12) as [|? ?] eqn:E12; [|discriminate H12].
  apply some_inj in H12. subst y.
  cbn in L0. subst w0.
  apply chr_word in L3, L7. subst c1 c2.
  exists d, s1, s2, w2, s3, s4, a, s5, b.
  split.
  { change (rest st0) with l in E0. rewrite E0, E1, E2, E3, E4, E5, E6, E7,
      E8, E9, E10, E11. cbn [app]. rewrite app_nil_r. reflexivity. }
  split; [exact L1|].
  split; [apply spaces_of_star, L2|].
  split; [apply spaces_of_star, L4|].
  split; [apply spaces_of_star, L6|].
  split; [apply spaces_of_star, L8|].
  split; [apply spaces_of_plus, L10|].
  split; [apply amountShape_of_body, L9|].
  split; [apply amountShape_of_body, L11|].
  exact K12.
Qed.

Lemma app_same_length (A : Type) : forall (a a' b b' : list A),
  List.length a = List.length a' ->
  (a ++ b)%list = (a' ++ b')%list -> a = a' /\ b = b'.
Proof.
  induction a as [|x a IH]; intros [|x' a'] b b' L E;
    try discriminate L; [auto|].
  cbn [app] in E. injection E as -> E. injection L as L.
  destruct (IH _ _ _ L E) as [-> ->]. auto.
Qed.

Lemma shortDate_length w :
  InLang false (pattern BaseParser.shortDate) w -> List.length w = 8.
Proof.
  intros H. destruct (shortDate_word w H) as [a [b [c [-> [La [Lb [Lc _]]]]]]].
  rewrite length_app. cbn [List.length]. rewrite length_app.
  cbn [List.length]. lia.
Qed.

(** In a line that the extractor wrote, a match of the categorizer's
    pattern is cut at the fields. *)
Lemma hdfc_cut_unique (date desc A B d s1 s2 w2 s3 s4 a s5 b : chars) :
  InLang false (pattern BaseParser.shortDate) date ->
  ~ In "|"%char desc -> trim_l desc = desc ->
  amountShape A -> amountShape B ->
  InLang false (pattern BaseParser.shortDate) d ->
  Forall (fun x => isWhiteSpace x = true) s1 ->
  Forall (fun x => isWhiteSpace x = true) s2 ->
  Forall (fun x => isWhiteSpace x = true) s3 ->
  Forall (fun x => isWhiteSpace x = true) s4 ->
  Forall (fun x => isWhiteSpace x = true) s5 -> s5 <> [] ->
  amountShape a -> amountShape b ->
  (date ++ " "%char :: "|"%char :: " "%char :: desc ++
     " "%char :: "|"%char :: " "%char :: A ++ " "%char :: B)%list =
  (d ++ s1 ++ "|"%char :: s2 ++ w2 ++ s3 ++ "|"%char :: s4 ++
     a ++ s5 ++ b)%list ->
  d = date /\ trim_l w2 = desc /\ a = A /\ b = B.
Proof.
  intros Hdate Hdesc Htrim HA HB Hd F1 F2 F3 F4 F5 N5 Ha Hb E.
  destruct (app_same_length _ _ _ _ _
              (eq_trans (shortDate_length _ Hdate)
                        (eq_sym (shortDate_length _ Hd))) E) as [Ed E1].
  split; [symmetry; exact Ed|].
  destruct (cut_after_run [" "%char] s1 "|"%char "|"%char _ _
              ltac:(constructor; [reflexivity | constructor]) F1
              eq_refl eq_refl E1) as [_ [_ E2]].
  destruct (amountShape_word A HA) as [WA [PA [[xa [ta [EA HxA]]] _]]].
  destruct (amountShape_word B HB) as [WB [PB [[xb [tb [EB HxB]]] _]]].
  destruct (amountShape_word a Ha) as [Wa [_ [[ya [ua [Ea Hya]]] _]]].
  destruct (amountShape_word b Hb) as [Wb [_ [[yb [ub [Eb Hyb]]] _]]].
  assert (E3 : ((s2 ++ w2 ++ s3) ++ "|"%char :: s4 ++ a ++ s5 ++ b)%list =
               ((" "%char :: desc ++ [" "%char]) ++
                "|"%char :: " "%char :: A ++ " "%char :: B)%list).
  { rewrite <- !app_assoc. cbn [app]. rewrite <- !app_assoc. cbn [app].
    symmetry. exact E2. }
  apply cut_at_mark in E3.
  - destruct E3 as [Ex Ey].
    split.
    { rewrite <- (trim_l_pad s2 w2 s3 F2 F3), Ex.
      rewrite <- Htrim at 2.
      apply (trim_l_pad [" "%char] desc [" "%char]);
        constructor; (reflexivity || constructor). }
    assert (Ey' : (s4 ++ ya :: (ua ++ s5 ++ b))%list =
                  ([" "%char] ++ xa :: (ta ++ " "%char :: B))%list).
    { rewrite Ea, EA in Ey. cbn [app] in Ey |- *. exact Ey. }
    destruct (cut_after_run s4 [" "%char] ya xa _ _ F4
                ltac:(constructor; [reflexivity | constructor])
                Hya HxA Ey') as [_ [Eya Er]].
    destruct s5 as [|c5 s5']; [congruence|].
    pose proof (Forall_inv F5) as Hc5. cbn beta in Hc5.
    pose proof (Forall_inv_tail F5) as F5'.
    assert (Ew : ((ya :: ua) ++ c5 :: (s5' ++ b))%list =
                 ((xa :: ta) ++ " "%char :: B)%list).
    { cbn [app]. rewrite Eya. f_equal. exact Er. }
    rewrite <- Ea, <- EA in Ew.
    destruct (cut_after_word a A c5 " "%char _ _ Wa WA Hc5 eq_refl Ew)
      as [EaA [_ Eb']].
    split; [exact EaA|].
    rewrite Eb, EB in Eb'.
    assert (Eb'' : (s5' ++ yb :: ub)%list = ([] ++ xb :: tb)%list)
      by exact Eb'.
    destruct (cut_after_run s5' [] yb xb _ _ F5' ltac:(constructor)
                Hyb HxB Eb'') as [_ [-> ->]].
    rewrite Eb, EB. reflexivity.
  - intros [H|H]; [discriminate H|].
    apply in_app_or in H. destruct H as [H|[H|[]]];
      [exact (Hdesc H) | discriminate H].
  - intros [H|H]; [discriminate H|].
    apply in_app_or in H. destruct H as [H|[H|H]];
      [exact (PA H) | discriminate H | exact (PB H)].
Qed.

(** The fields of a line that the extractor wrote. *)
Lemma hdfc_simplified_parts line s :
  HDFCParser.parseTransactionLine line = Some s ->
  exists date desc balance,
    s = date ++ " | " ++ desc ++ " | " ++
        toFixed2 (abs (amountOf (hdfcAmount line))) ++ " " ++ balance /\
    InLang false (pattern BaseParser.shortDate) (of_string date) /\
    ~ In "|"%char (of_string desc) /\
    tidy false (of_string desc) = true /\
    trim desc = desc /\
    InLang false (pattern BaseParser.currencyAmount) (of_string balance).
Proof.
  unfold HDFCParser.parseTransactionLine, hdfcAmount. cbv zeta.
  set (normalized := BaseParser.normalizeWhitespace line).
  destruct (exec HDFCParser.leadingDate normalized) as [dm|] eqn:E;
    [|discriminate].
  set (toks := BaseParser.extractCurrencyAmounts normalized).
  destruct (Nat.ltb (List.length toks) 2) eqn:El; [discriminate|].
  apply Nat.ltb_ge in El.
  intros H. apply some_inj in H.
  match type of H with
  | _ ++ _ ++ trim (HDFCParser.replaceEach _ ?d) ++ _ = _ =>
      destruct (hdfc_description_clean d) as [D1 [D2 D3]];
      set (desc := trim (HDFCParser.replaceEach
                           HDFCParser.descriptionNoise d)) in *
  end.
  exists (group 1 dm), desc, (nth (List.length toks - 1) toks "").
  split; [symmetry; exact H|].
  split; [apply (hdfc_leading_date _ _ E)|].
  split; [exact D1|]. split; [exact D2|]. split; [exact D3|].
  apply (currency_token_nonneg normalized).
  apply nth_In_tail. fold toks. lia.
Qed.

Lemma trimmed_chars (l : chars) x t z u :
  l = x :: t -> rev l = z :: u ->
  isWhiteSpace x = false -> isWhiteSpace z = false ->
  trim_l l = l.
Proof.
  intros El Er Hx Hz.
  rewrite <- (app_nil_r l) at 1.
  apply (trim_l_exact [] l []); try constructor.
  - apply trimStart_fixed. rewrite El. exact Hx.
  - apply trimStart_fixed. rewrite Er. exact Hz.
Qed.

(** The categorizer's pattern accepts a line that the extractor wrote
    with an amount below 10^21, and its groups are the fields of the
    line. *)
Lemma hdfc_line_accepted line s :
  HDFCParser.parseTransactionLine line = Some s ->
  belowE21 (abs (amountOf (hdfcAmount line))) = true ->
  exists mt balance,
    trim s = s /\ isEmpty s = false /\
    exec HDFCParser.simplifiedLine s = Some mt /\
    s = group 1 mt ++ " | " ++ trim (group 2 mt) ++ " | " ++
        group 3 mt ++ " " ++ balance /\
    group 3 mt = toFixed2 (abs (amountOf (hdfcAmount line))).
Proof.
  intros Hs Hb.
  destruct (hdfc_simplified_parts line s Hs)
    as [date [desc [B [Es [Hd [D1 [D2 [D3 HB]]]]]]]].
  set (A := toFixed2 (abs (amountOf (hdfcAmount line)))) in *.
  pose proof (toFixed2_amountShape _ Hb) as SA. fold A in SA.
  pose proof (currency_amountShape _ HB) as SB.
  assert (EL : of_string s =
               (of_string date ++ " "%char :: "|"%char :: " "%char ::
                of_string desc ++ " "%char :: "|"%char :: " "%char ::
                of_string A ++ " "%char :: of_string B)%list).
  { rewrite Es, !of_string_app. reflexivity. }
  assert (Td : trim_l (of_string desc) = of_string desc).
  { unfold trim in D3. rewrite <- D3 at 2. rewrite of_to_string.
    reflexivity. }
  (* the line is trimmed *)
  assert (Ts : trim s = s).
  { unfold trim. rewrite <- (to_of_string s) at 2. f_equal.
    destruct (shortDate_word _ Hd) as [a [b [c [Ew [La [_ [_ F]]]]]]].
    destruct a as [|x a']; [discriminate La|].
    apply Forall_app in F. destruct F as [Fa _].
    destruct (amountShape_word _ SB) as [_ [_ [_ [z [u [Er Hz]]]]]].
    eapply trimmed_chars;
      [rewrite EL, Ew; reflexivity | |
       apply digit_not_white, (Forall_inv Fa) | exact Hz].
    rewrite EL.
    repeat (rewrite rev_app_distr; cbn [rev app]).
    rewrite Er. reflexivity. }
  assert (Ns : isEmpty s = false).
  { destruct (shortDate_word _ Hd) as [a [b [c [Ew [La _]]]]].
    destruct a as [|x a']; [discriminate La|].
    rewrite <- (to_of_string s), EL, Ew. reflexivity. }
  (* the pattern matches *)
  assert (HM : Matches false (pattern HDFCParser.simplifiedLine) None
                 (of_string s) []).
  { rewrite EL.
    destruct (of_string desc) as [|x0 desc'] eqn:Edesc.
    - apply (hdfc_pattern_matches (of_string date) [" "%char] []
               (of_string A) (of_string B));
        [exact Hd | apply white_no_terminator_space | discriminate
        | constructor | exact SA | exact SB].
    - apply (hdfc_pattern_matches (of_string date) (x0 :: desc')
               [" "%char] (of_string A) (of_string B));
        [exact Hd | apply tidy_no_terminator; exact D2 | discriminate
        | constructor; [reflexivity | constructor] | exact SA | exact SB]. }
  destruct (exec_complete HDFCParser.simplifiedLine s (of_string s) []
              (eq_sym (app_nil_r _)) HM) as [y [Hy He]].
  destruct (hdfc_match_parts _ y Hy)
    as (d & s1 & s2 & w2 & s3 & s4 & a & s5 & b & Ecut & Hd' & F1 & F2 &
        F3 & F4 & [F5 N5] & Sa & Sb & K).
  rewrite EL in Ecut.
  destruct (hdfc_cut_unique _ _ _ _ _ _ _ _ _ _ _ _ _
              Hd D1 Td SA SB Hd' F1 F2 F3 F4 F5 N5 Sa Sb Ecut)
    as [-> [Ew2 [-> ->]]].
  assert (Hnd : NoDup (map fst [(4, of_string B); (3, of_string A);
                                (2, w2); (1, of_string date)]))
    by (cbn; no_dup).
  match type of He with
  | _ = Some ?r => set (mt := r) in *
  end.
  assert (Km : capsAre (captures mt)
                 [(4, of_string B); (3, of_string A); (2, w2);
                  (1, of_string date)]) by exact K.
  exists mt, B. split; [exact Ts|]. split; [exact Ns|].
  split; [exact He|].
  rewrite (group_known mt _ 1 (of_string date) Km Hnd) by (cbn; auto).
  rewrite (group_known mt _ 2 w2 Km Hnd) by (cbn; auto).
  rewrite (group_known mt _ 3 (of_string A) Km Hnd) by (cbn; auto).
  rewrite !to_of_string. split; [|reflexivity].
  unfold trim. rewrite of_to_string, Ew2, to_of_string. exact Es.
Qed.

(** X20: the HDFC categorizer takes every line of the HDFC field
    extractor.  A line that the extractor wrote for an amount below
    10^21 is never kept unparsed: wherever it stands among the lines
    handed to the categorizer, the categorizer matches it and pushes a
    record with the date of the line, with its description up to
    blanks around it, and with the amount field of the line read as a
    number and written again with two decimals. *)
Theorem hdfc_extractor_to_categorizer :
  forall (line s : string) (lines : list string) (i : nat),
    HDFCParser.parseTransactionLine line = Some s ->
    belowE21 (abs (amountOf (hdfcAmount line))) = true ->
    nth_error lines i = Some s ->
    exists t amount balance,
      HDFCParser.categorizeAt lines i = Some (HDFCParser.Categorized t) /\
      s = txDate t ++ " | " ++ trim (txDescription t) ++ " | " ++
          amount ++ " " ++ balance /\
      amount = toFixed2 (abs (amountOf (hdfcAmount line))) /\
      txAmount t = toFixed2 (abs (amountOf amount)).
Proof.
  intros line s lines i Hs Hb Hi.
  destruct (hdfc_line_accepted line s Hs Hb)
    as [mt [B [Ts [Ns [He [Es E3]]]]]].
  unfold HDFCParser.categorizeAt. rewrite Hi. cbv zeta.
  rewrite Ts, Ns, He.
  eexists. exists (group 3 mt), B.
  split; [reflexivity|]. cbn [txDate txDescription txAmount].
  split; [exact Es|]. split; [exact E3 | reflexivity].
Qed.

(** A payment of 1,234.56 goes from the raw line to a categorized
    record. *)
Lemma hdfc_pipeline_witness :
  exists t amount balance,
    HDFCParser.categorizeAt
      ["01/04/23 | UPI-SWIGGY | 1234.56 10,000.00"] 0
      = Some (HDFCParser.Categorized t) /\
    "01/04/23 | UPI-SWIGGY | 1234.56 10,000.00" =
      txDate t ++ " | " ++ trim (txDescription t) ++ " | " ++
      amount ++ " " ++ balance /\
    amount =
      toFixed2 (abs (amountOf
                       (hdfcAmount "01/04/23 UPI-SWIGGY 1,234.56 10,000.00")))
    /\
    txAmount t = toFixed2 (abs (amountOf amount)).
Proof.
  apply (hdfc_extractor_to_categorizer
           "01/04/23 UPI-SWIGGY 1,234.56 10,000.00"
           "01/04/23 | UPI-SWIGGY | 1234.56 10,000.00"
           ["01/04/23 | UPI-SWIGGY | 1234.56 10,000.00"] 0);
    vm_compute; reflexivity.
Defined.

(* ================================================================== *)
(** * From the Kotak field extractor to the Kotak categorizer *)

Lemma cleanDescription_chars c d :
  In c (of_string (KotakParser.cleanDescription d)) ->
  In c (of_string d) \/ In c (of_string "UNKNOWN") \/
  In c (of_string "CASHBACK EARNED").
Proof.
  unfold KotakParser.cleanDescription. cbv zeta.
  destruct (startsWith d "NEFT").
  { destruct (exec KotakParser.neftRegex d) as [r|] eqn:E; [|auto].
    intros H. left. apply (group_chars _ _ _ _ _ E H). }
  destruct (startsWith d "MB:RECEIVED FROM").
  { destruct (exec KotakParser.mbRegex d) as [r|] eqn:E; [|auto].
    intros H. left. apply (group_chars _ _ _ _ _ E H). }
  destruct (includes (toUpperCase d) "IMPS").
  { destruct (exec KotakParser.impsRegex d) as [r|] eqn:E; [|auto].
    intros H. left. apply (group_chars _ _ _ _ _ E H). }
  destruct (startsWith d "CASHBACK EARNED"); [auto|].
  destruct (includes d "/"); [|auto].
  assert (P : forall k, In c (of_string (nth k (split "/" d) "")) ->
                        In c (of_string d)).
  { intros k H.
    destruct (nth_in_or_default k (split "/" d) "") as [Hi|He].
    - apply (split_chars _ _ _ _ Hi H).
    - rewrite He in H. destruct H. }
  destruct (test KotakParser.upiAlone _); [intros H; left; apply (P 1 H)|].
  unfold replaceRe.
  destruct (exec KotakParser.upiPrefix _) as [r|];
    [|intros H; left; apply (P 0 H)].
  cbv zeta. rewrite of_to_string. intros H. left.
  apply in_app_or in H. destruct H as [H|H].
  - apply (P 0), (firstn_In _ _ _ _ H).
  - cbn [of_string app] in H. apply (P 0), (skipn_In _ _ _ _ H).
Qed.

Lemma kotak_base_description line mt :
  exec KotakParser.baseRegex line = Some mt ->
  Forall (fun x => isLineTerminator x = false) (of_string (group 2 mt)).
Proof.
  intros H.
  assert (G : groupShape false [(2, plusLazy Any)] 2
                (of_string (group 2 mt))).
  { apply (group_sound _ KotakParser.baseRegex line mt 2);
      [| | |exact H].
    - shapes_sat.
    - cbn. no_dup.
    - cbn. auto. }
  specialize (G _ (or_introl eq_refl)).
  apply (InLang_any_rep _ _ _ _ _ G).
Qed.

(** The fields of a line that the extractor wrote. *)
Lemma kotak_simplified_parts line s :
  KotakParser.parseTransactionLine line = Some s ->
  exists date desc figure ind,
    s = date ++ " | " ++ desc ++ " | " ++ figure ++ "(" ++ ind ++ ")" /\
    InLang false dashDate (of_string date) /\
    trim desc = desc /\
    Forall (fun x => isLineTerminator x = false) (of_string desc) /\
    InLang false (pattern BaseParser.currencyAmount) (of_string figure) /\
    (ind = "Dr" \/ ind = "Cr").
Proof.
  unfold KotakParser.parseTransactionLine.
  destruct (exec KotakParser.baseRegex line) as [mt|] eqn:E; [|discriminate].
  cbv zeta. intros H. apply some_inj in H.
  destruct (kotak_base_groups line mt E) as [Hd Ha].
  destruct (markedAmount_word _ Ha) as [figure [ind [Ef [Hi Hf]]]].
  rewrite to_of_string in Ef.
  exists (group 1 mt),
         (trim (KotakParser.cleanDescription (group 2 mt))), figure, ind.
  split; [rewrite <- H, Ef; reflexivity|].
  split; [exact Hd|]. split; [apply trim_idem|].
  split; [|auto].
  pose proof (kotak_base_description line mt E) as F.
  rewrite Forall_forall in F. apply Forall_forall. intros x Hx.
  unfold trim in Hx. rewrite of_to_string in Hx. apply trim_l_incl in Hx.
  destruct (cleanDescription_chars _ _ Hx) as [H1|[H1|H1]].
  - apply F, H1.
  - cbn in H1. repeat (destruct H1 as [<-|H1]; [reflexivity|]).
    destruct H1.
  - cbn in H1. repeat (destruct H1 as [<-|H1]; [reflexivity|]).
    destruct H1.
Qed.

Lemma dashDate_matches w p after :
  InLang false dashDate w -> Matches false dashDate p w after.
Proof.
  intros H. destruct (dashDate_word w H) as [a [b [c [-> [La [Lb [Lc F]]]]]]].
  apply Forall_app in F. destruct F as [Fa F].
  apply Forall_app in F. destruct F as [Fb Fc].
  unfold dashDate. cbn [seqs].
  apply Matches_seq; [apply digits_times; assumption|].
  apply (Matches_seq false _ _ _ ["-"%char]); [apply chr_matches|].
  apply Matches_seq; [apply digits_times; assumption|].
  apply (Matches_seq false _ _ _ ["-"%char]); [apply chr_matches|].
  apply digits_times; assumption.
Qed.

Lemma dashDate_length w : InLang false dashDate w -> List.length w = 10.
Proof.
  intros H. destruct (dashDate_word w H) as [a [b [c [-> [La [Lb [Lc _]]]]]]].
  rewrite length_app. cbn [List.length]. rewrite length_app.
  cbn [List.length]. lia.
Qed.

Lemma indicator_matches (i : chars) p after :
  i = of_string "Cr" \/ i = of_string "Dr" ->
  Matches false (KotakParser.crDr 4) p i after.
Proof.
  unfold KotakParser.crDr. cbn [Matches].
  intros [->| ->];
    [left;
     apply (Matches_seq false (Chr "C") (Chr "r") p ["C"%char] ["r"%char])
    |right;
     apply (Matches_seq false (Chr "D") (Chr "r") p ["D"%char] ["r"%char])];
    apply chr_matches.
Qed.

(** The pattern of the categorizer matches a text cut as the pattern
    is. *)
Lemma kotak_pattern_matches (d w2 s3 a i : chars) :
  InLang false dashDate d ->
  Forall (fun x => isLineTerminator x = false) w2 -> w2 <> [] ->
  Forall (fun x => isWhiteSpace x = true) s3 ->
  amountShape a ->
  i = of_string "Cr" \/ i = of_string "Dr" ->
  Matches false (pattern KotakParser.transactionRegex) None
    (d ++ " "%char :: "|"%char :: " "%char :: w2 ++ s3 ++
       "|"%char :: " "%char :: a ++ "("%char :: i ++ [")"%char])%list [].
Proof.
  intros Hd F2 N2 F3 Ha Hi.
  cbn [pattern KotakParser.transactionRegex re seqs].
  apply (Matches_seq false Bol _ None []); [split; reflexivity|].
  apply Matches_seq; [apply dashDate_matches, Hd|].
  apply (Matches_seq false _ _ _ [" "%char]);
    [apply spaces_star; constructor; [reflexivity | constructor]|].
  apply (Matches_seq false _ _ _ ["|"%char]); [apply chr_matches|].
  apply (Matches_seq false _ _ _ [" "%char]);
    [apply spaces_star; constructor; [reflexivity | constructor]|].
  apply Matches_seq; [apply any_plusLazy; assumption|].
  apply Matches_seq; [apply spaces_star, F3|].
  apply (Matches_seq false _ _ _ ["|"%char]); [apply chr_matches|].
  apply (Matches_seq false _ _ _ [" "%char]);
    [apply spaces_star; constructor; [reflexivity | constructor]|].
  apply Matches_seq; [apply amountShape_matches, Ha|].
  apply (Matches_seq false _ _ _ ["("%char]); [apply chr_matches|].
  apply Matches_seq; [apply indicator_matches, Hi|].
  apply chr_matches.
Qed.

Lemma indicator_word (i : chars) :
  InLang false (Alt (lit "Cr") (lit "Dr")) i ->
  i = of_string "Cr" \/ i = of_string "Dr".
Proof.
  intros [H|H]; apply lit_word in H; auto.
Qed.

(** What a match of the categorizer's pattern at the start of a text
    reads, and what its groups hold. *)
Lemma kotak_match_parts (l : chars) y :
  matchHere KotakParser.transactionRegex None l = Some y ->
  exists d s1 s2 w2 s3 s4 a i,
    l = (d ++ s1 ++ "|"%char :: s2 ++ w2 ++ s3 ++ "|"%char :: s4 ++
         a ++ "("%char :: i ++ ")"%char :: rest y)%list /\
    InLang false dashDate d /\
    Forall (fun x => isWhiteSpace x = true) s1 /\
    Forall (fun x => isWhiteSpace x = true) s2 /\
    Forall (fun x => isWhiteSpace x = true) s3 /\
    Forall (fun x => isWhiteSpace x = true) s4 /\
    amountShape a /\
    (i = of_string "Cr" \/ i = of_string "Dr") /\
    capsAre (caps y) [(4, i); (3, a); (2, w2); (1, d)].
Proof.
  unfold matchHere.
  cbn [pattern ignoreCase KotakParser.transactionRegex KotakParser.crDr
       re seqs].
  set (st0 := {| rest := l; prev := None; caps := [] |}).
  assert (K0 : capsAre (caps st0) []) by (split; intros n w []).
  intros H.
  rewrite m_seq in H.
  peel_piece H K0 st1 w0 H1 E0 L0 K1.
  rewrite m_seq in H1.
  assert (N1 : ~ In 1 (map fst (@nil (nat * chars)))) by (intros []).
  peel_captured H1 K1 N1 st2 d H2 E1 L1 K2.
  rewrite m_seq in H2.
  peel_piece H2 K2 st3 s1 H3 E2 L2 K3.
  rewrite m_seq in H3.
  peel_piece H3 K3 st4 c1 H4 E3 L3 K4.
  rewrite m_seq in H4.
  peel_piece H4 K4 st5 s2 H5 E4 L4 K5.
  rewrite m_seq in H5.
  assert (N2 : ~ In 2 (map fst [(1, d)]))
    by (cbn; intros [F|[]]; discriminate F).
  peel_captured H5 K5 N2 st6 w2 H6 E5 L5 K6.
  rewrite m_seq in H6.
  peel_piece H6 K6 st7 s3 H7 E6 L6 K7.
  rewrite m_seq in H7.
  peel_piece H7 K7 st8 c2 H8 E7 L7 K8.
  rewrite m_seq in H8.
  peel_piece H8 K8 st9 s4 H9 E8 L8 K9.
  rewrite m_seq in H9.
  assert (N3 : ~ In 3 (map fst [(2, w2); (1, d)]))
    by (cbn; intros [F|[F|[]]]; discriminate F).
  peel_captured H9 K9 N3 st10 a H10 E9 L9 K10.
  rewrite m_seq in H10.
  peel_piece H10 K10 st11 c3 H11 E10 L10 K11.
  rewrite m_seq in H11.
  assert (N4 : ~ In 4 (map fst [(3, a); (2, w2); (1, d)]))
    by (cbn; intros [F|[F|[F|[]]]]; discriminate F).
  peel_captured H11 K11 N4 st12 i H12 E11 L11 K12.
  peel_piece H12 K12 st13 c4 H13 E12 L12 K13.
  apply some_inj in H13. subst y.
  cbn in L0. subst w0.
  apply chr_word in L3, L7, L10, L12. subst c1 c2 c3 c4.
  exists d, s1, s2, w2, s3, s4, a, i.
  split.
  { change (rest st0) with l in E0. rewrite E0, E1, E2, E3, E4, E5, E6, E7,
      E8, E9, E10, E11, E12. cbn [app]. reflexivity. }
  split; [exact L1|].
  split; [apply spaces_of_star, L2|].
  split; [apply spaces_of_star, L4|].
  split; [apply spaces_of_star, L6|].
  split; [apply spaces_of_star, L8|].
  split; [apply amountShape_of_body, L9|].
  split; [apply indicator_word, L11|].
  exact K13.
Qed.

Lemma amountShape_chars w :
  amountShape w ->
  Forall (fun c => isDigit c = true \/ c = ","%char \/ c = "."%char) w.
Proof.
  intros [body [d1 [d2 [-> [_ [F [H1 H2]]]]]]].
  apply Forall_app. split.
  - eapply Forall_impl; [|exact F]. intros c Hc.
    destruct (digit_or_comma c Hc) as [H|H]; [auto|].
    unfold notComma in H. apply negb_false_iff, Ascii.eqb_eq in H. auto.
  - constructor; [auto|]. constructor; [auto|].
    constructor; [auto | constructor].
Qed.

Lemma amountShape_no_paren w : amountShape w -> ~ In "("%char w.
Proof.
  intros H Hin. pose proof (amountShape_chars w H) as F.
  rewrite Forall_forall in F.
  destruct (F _ Hin) as [E|[E|E]]; discriminate E.
Qed.

(** In a line that the extractor wrote with a description free of
    [|], a match of the categorizer's pattern is cut at the fields. *)
Lemma kotak_cut_unique (date desc fig ind d s1 s2 w2 s3 s4 a i r : chars) :
  InLang false dashDate date ->
  ~ In "|"%char desc -> trim_l desc = desc ->
  amountShape fig ->
  ind = of_string "Cr" \/ ind = of_string "Dr" ->
  InLang false dashDate d ->
  Forall (fun x => isWhiteSpace x = true) s1 ->
  Forall (fun x => isWhiteSpace x = true) s2 ->
  Forall (fun x => isWhiteSpace x = true) s3 ->
  Forall (fun x => isWhiteSpace x = true) s4 ->
  amountShape a ->
  i = of_string "Cr" \/ i = of_string "Dr" ->
  (date ++ " "%char :: "|"%char :: " "%char :: desc ++
     " "%char :: "|"%char :: " "%char :: fig ++ "("%char :: ind ++
     [")"%char])%list =
  (d ++ s1 ++ "|"%char :: s2 ++ w2 ++ s3 ++ "|"%char :: s4 ++
     a ++ "("%char :: i ++ ")"%char :: r)%list ->
  d = date /\ trim_l w2 = desc /\ a = fig /\ i = ind /\ r = [].
Proof.
  intros Hdate Hdesc Htrim Hfig Hind Hd F1 F2 F3 F4 Ha Hi E.
  destruct (app_same_length _ _ _ _ _
              (eq_trans (dashDate_length _ Hdate)
                        (eq_sym (dashDate_length _ Hd))) E) as [Ed E1].
  split; [symmetry; exact Ed|].
  destruct (cut_after_run [" "%char] s1 "|"%char "|"%char _ _
              ltac:(constructor; [reflexivity | constructor]) F1
              eq_refl eq_refl E1) as [_ [_ E2]].
  destruct (amountShape_word fig Hfig) as [_ [Pf [[xa [ta [EA HxA]]] _]]].
  destruct (amountShape_word a Ha) as [_ [_ [[ya [ua [Ea Hya]]] _]]].
  assert (Pind : ~ In "|"%char ind /\ ~ In "("%char (ind ++ [")"%char]) /\
                 List.length ind = 2).
  { destruct Hind as [->| ->]; cbn; intuition discriminate. }
  destruct Pind as [Pi1 [Pi2 Li]].
  assert (Li' : List.length i = 2) by (destruct Hi as [->| ->]; reflexivity).
  assert (E3 : ((s2 ++ w2 ++ s3) ++ "|"%char ::
                s4 ++ a ++ "("%char :: i ++ ")"%char :: r)%list =
               ((" "%char :: desc ++ [" "%char]) ++
                "|"%char :: " "%char :: fig ++ "("%char :: ind ++
                [")"%char])%list).
  { rewrite <- !app_assoc. cbn [app]. rewrite <- !app_assoc. cbn [app].
    symmetry. exact E2. }
  apply cut_at_mark in E3.
  - destruct E3 as [Ex Ey].
    split.
    { rewrite <- (trim_l_pad s2 w2 s3 F2 F3), Ex.
      rewrite <- Htrim at 2.
      apply (trim_l_pad [" "%char] desc [" "%char]);
        constructor; (reflexivity || constructor). }
    assert (Ey' : (s4 ++ ya :: (ua ++ "("%char :: i ++ ")"%char :: r))%list =
                  ([" "%char] ++
                   xa :: (ta ++ "("%char :: ind ++ [")"%char]))%list).
    { rewrite Ea, EA in Ey. cbn [app] in Ey |- *. exact Ey. }
    destruct (cut_after_run s4 [" "%char] ya xa _ _ F4
                ltac:(constructor; [reflexivity | constructor])
                Hya HxA Ey') as [_ [Eya Er]].
    assert (Ew : (a ++ "("%char :: (i ++ ")"%char :: r))%list =
                 (fig ++ "("%char :: (ind ++ [")"%char]))%list).
    { rewrite Ea, EA. cbn [app]. rewrite Eya. f_equal. exact Er. }
    apply cut_at_mark in Ew;
      [|apply amountShape_no_paren, Hfig | exact Pi2].
    destruct Ew as [EaA Ei].
    split; [exact EaA|].
    destruct (app_same_length _ _ _ _ _ (eq_trans Li' (eq_sym Li)) Ei)
      as [Eii Err].
    split; [exact Eii|]. injection Err as Err. exact Err.
  - intros [H|H]; [discriminate H|].
    apply in_app_or in H. destruct H as [H|[H|[]]];
      [exact (Hdesc H) | discriminate H].
  - intros [H|H]; [discriminate H|].
    apply in_app_or in H. destruct H as [H|[H|H]];
      [exact (Pf H) | discriminate H|].
    apply in_app_or in H. destruct H as [H|[H|[]]];
      [exact (Pi1 H) | discriminate H].
Qed.

(** X21: the Kotak categorizer takes every line of the Kotak field
    extractor.  A line that the extractor wrote is a date, a
    description, a figure and an indicator; the categorizer accepts it
    with the same date, and, when the description holds no [|], pushes
    a record with exactly this date, description and figure, as a
    CREDIT for (Cr) and as a DEBIT for (Dr). *)
Theorem kotak_extractor_to_categorizer :
  forall line s : string,
    KotakParser.parseTransactionLine line = Some s ->
    exists date desc figure ind,
      s = date ++ " | " ++ desc ++ " | " ++ figure ++ "(" ++ ind ++ ")" /\
      (ind = "Dr" \/ ind = "Cr") /\
      (exists t, KotakParser.categorizeLine s = Some t /\ txDate t = date) /\
      (~ In "|"%char (of_string desc) ->
       KotakParser.categorizeLine s =
       Some {| txDate := date;
               txDescription := desc;
               txAmount := figure;
               txType := if String.eqb ind "Cr" then CREDIT else DEBIT |}).
Proof.
  intros line s Hs.
  destruct (kotak_simplified_parts line s Hs)
    as [date [desc [fig [ind [Es [Hd [D3 [Fd [Hf Hi]]]]]]]]].
  exists date, desc, fig, ind. split; [exact Es|]. split; [exact Hi|].
  pose proof (currency_amountShape _ Hf) as Sf.
  assert (Hi' : of_string ind = of_string "Cr" \/
                of_string ind = of_string "Dr")
    by (destruct Hi as [->| ->]; auto).
  assert (EL : of_string s =
               (of_string date ++ " "%char :: "|"%char :: " "%char ::
                of_string desc ++ " "%char :: "|"%char :: " "%char ::
                of_string fig ++ "("%char :: of_string ind ++
                [")"%char])%list).
  { rewrite Es, !of_string_app. reflexivity. }
  assert (Td : trim_l (of_string desc) = of_string desc).
  { unfold trim in D3. rewrite <- D3 at 2. rewrite of_to_string.
    reflexivity. }
  assert (HM : Matches false (pattern KotakParser.transactionRegex) None
                 (of_string s) []).
  { rewrite EL.
    destruct (of_string desc) as [|x0 desc'] eqn:Edesc.
    - apply (kotak_pattern_matches (of_string date) [" "%char] []
               (of_string fig) (of_string ind));
        [exact Hd | apply white_no_terminator_space | discriminate
        | constructor | exact Sf | exact Hi'].
    - apply (kotak_pattern_matches (of_string date) (x0 :: desc')
               [" "%char] (of_string fig) (of_string ind));
        [exact Hd | exact Fd | discriminate
        | constructor; [reflexivity | constructor] | exact Sf | exact Hi']. }
  destruct (exec_complete KotakParser.transactionRegex s (of_string s) []
              (eq_sym (app_nil_r _)) HM) as [y [Hy He]].
  destruct (kotak_match_parts _ y Hy)
    as (d & s1 & s2 & w2 & s3 & s4 & a & i & Ecut & Hd' & F1 & F2 & F3 &
        F4 & Sa & Hii & K).
  rewrite EL in Ecut.
  match type of He with
  | _ = Some ?r => set (mt := r) in *
  end.
  assert (Km : capsAre (captures mt) [(4, i); (3, a); (2, w2); (1, d)])
    by exact K.
  assert (Hnd : NoDup (map fst [(4, i); (3, a); (2, w2); (1, d)]))
    by (cbn; no_dup).
  unfold KotakParser.categorizeLine. rewrite He. cbv zeta.
  rewrite (group_known mt _ 1 d Km Hnd) by (cbn; auto).
  rewrite (group_known mt _ 2 w2 Km Hnd) by (cbn; auto).
  rewrite (group_known mt _ 3 a Km Hnd) by (cbn; auto).
  rewrite (group_known mt _ 4 i Km Hnd) by (cbn; auto).
  split.
  - eexists. split; [reflexivity|]. cbn [txDate].
    destruct (app_same_length _ _ _ _ _
                (eq_trans (dashDate_length _ Hd)
                          (eq_sym (dashDate_length _ Hd'))) Ecut) as [Ed _].
    rewrite <- Ed. apply to_of_string.
  - intros Hdesc.
    destruct (kotak_cut_unique _ _ _ _ _ _ _ _ _ _ _ _ _
                Hd Hdesc Td Sf Hi' Hd' F1 F2 F3 F4 Sa Hii Ecut)
      as [-> [Ew2 [-> [-> _]]]].
    unfold trim. rewrite of_to_string, Ew2, !to_of_string. reflexivity.
Qed.

(** A payment by UPI marked (Dr) goes from the raw line to a DEBIT. *)
Lemma kotak_pipeline_witness :
  exists date desc figure ind,
    "01-04-2023 | SWIGGY | 250.00(Dr)" =
      date ++ " | " ++ desc ++ " | " ++ figure ++ "(" ++ ind ++ ")" /\
    (ind = "Dr" \/ ind = "Cr") /\
    (exists t, KotakParser.categorizeLine "01-04-2023 | SWIGGY | 250.00(Dr)"
               = Some t /\ txDate t = date) /\
    (~ In "|"%char (of_string desc) ->
     KotakParser.categorizeLine "01-04-2023 | SWIGGY | 250.00(Dr)" =
     Some {| txDate := date;
             txDescription := desc;
             txAmount := figure;
             txType := if String.eqb ind "Cr" then CREDIT else DEBIT |}).
Proof.
  apply (kotak_extractor_to_categorizer
           "01-04-2023 UPI/SWIGGY/309112345678/Food UPI-309112345678 250.00(Dr) 10,000.00(Cr)"
           "01-04-2023 | SWIGGY | 250.00(Dr)").
  vm_compute. reflexivity.
Defined.
(* ================================================================== *)
(** * HDFC: which lines the field extractor keeps *)

Lemma leadingDate_found text :
  beginsWithDate text ->
  exists dm, exec HDFCParser.leadingDate text = Some dm.
Proof.
  intros [a [b [c [d [e [f [rest [E F]]]]]]]].
  inversion F as [|? ? Fa F1]; subst.
  inversion F1 as [|? ? Fb F2]; subst.
  inversion F2 as [|? ? Fc F3]; subst.
  inversion F3 as [|? ? Fd F4]; subst.
  inversion F4 as [|? ? Fe F5]; subst.
  inversion F5 as [|? ? Ff _]; subst.
  destruct (exec_complete HDFCParser.leadingDate text
              [a; b; "/"%char; c; d; "/"%char; e; f] rest E)
    as [y [_ Hy]].
  - cbn [pattern HDFCParser.leadingDate re seqs].
    apply (Matches_seq false Bol _ None []); [split; reflexivity|].
    cbn [lastOr].
    change (Matches false
              (seqs [times 2 digit; Chr "/"; times 2 digit; Chr "/";
                     times 2 digit])
              None
              ([a; b] ++ ["/"%char] ++ [c; d] ++ ["/"%char] ++ [e; f])%list
              rest).
    cbn [seqs].
    apply Matches_seq;
      [apply digits_times; [repeat constructor; assumption | reflexivity]|].
    apply Matches_seq; [apply chr_matches|].
    apply Matches_seq;
      [apply digits_times; [repeat constructor; assumption | reflexivity]|].
    apply Matches_seq; [apply chr_matches|].
    apply digits_times; [repeat constructor; assumption | reflexivity].
  - eexists. exact Hy.
Qed.

Lemma leadingDate_shape text dm :
  exec HDFCParser.leadingDate text = Some dm -> beginsWithDate text.
Proof.
  intros H.
  destruct (exec_bol HDFCParser.leadingDate _ text dm eq_refl H)
    as [y [Hy _]].
  assert (Hs : GroupsSat (ignoreCase HDFCParser.leadingDate)
                         (fun _ _ => True)
                         (pattern HDFCParser.leadingDate))
    by (cbn; repeat split; auto).
  assert (Hn : NoDup (groups (pattern HDFCParser.leadingDate)))
    by (cbn; no_dup).
  destruct (matchHere_sound (fun _ _ => True) HDFCParser.leadingDate
              None (of_string text) y Hs Hn Hy) as [[w [E Hw]] _].
  cbn [pattern HDFCParser.leadingDate re seqs InLang] in Hw.
  destruct Hw as [w1 [w2 [-> [-> Hw]]]].
  destruct (shortDate_word w2) as [a [b [c [-> [La [Lb [Lc F]]]]]]].
  { cbn [pattern BaseParser.shortDate re seqs InLang]. exact Hw. }
  destruct a as [|a1 [|a2 [|? ?]]]; try discriminate La.
  destruct b as [|b1 [|b2 [|? ?]]]; try discriminate Lb.
  destruct c as [|c1 [|c2 [|? ?]]]; try discriminate Lc.
  exists a1, a2, b1, b2, c1, c2, (rest y).
  split; [exact E | exact F].
Qed.

(** The extractor gives a simplified line exactly for the lines that,
    normalized, begin with a date and hold two amounts. *)
Lemma hdfc_parse_some line :
  (exists s, HDFCParser.parseTransactionLine line = Some s) <->
  beginsWithDate (BaseParser.normalizeWhitespace line) /\
  2 <= List.length (BaseParser.extractCurrencyAmounts
                      (BaseParser.normalizeWhitespace line)).
Proof.
  unfold HDFCParser.parseTransactionLine. cbv zeta. split.
  - intros [s H].
    destruct (exec HDFCParser.leadingDate _) as [dm|] eqn:Ed;
      [|discriminate].
    destruct (Nat.ltb _ 2) eqn:El; [discriminate|].
    apply Nat.ltb_ge in El.
    split; [exact (leadingDate_shape _ dm Ed) | exact El].
  - intros [Hd Hl]. destruct (leadingDate_found _ Hd) as [dm ->].
    apply Nat.ltb_ge in Hl. rewrite Hl. eexists. reflexivity.
Qed.

Lemma hdfc_parse_none line :
  HDFCParser.parseTransactionLine line = None <->
  ~ beginsWithDate (BaseParser.normalizeWhitespace line) \/
  List.length (BaseParser.extractCurrencyAmounts
                 (BaseParser.normalizeWhitespace line)) < 2.
Proof.
  split.
  - intros H.
    destruct (Nat.ltb (List.length (BaseParser.extractCurrencyAmounts
                         (BaseParser.normalizeWhitespace line))) 2) eqn:El.
    + right. apply Nat.ltb_lt. exact El.
    + left. intros Hd. apply Nat.ltb_ge in El.
      destruct (proj2 (hdfc_parse_some line) (conj Hd El)) as [s Hs].
      congruence.
  - intros H.
    destruct (HDFCParser.parseTransactionLine line) as [s|] eqn:E;
      [|reflexivity].
    destruct (proj1 (hdfc_parse_some line) (ex_intro _ s E)) as [Hd Hl].
    destruct H as [H|H]; [contradiction | lia].
Qed.

(** C5: the HDFC field extractor gives a simplified line exactly for
    the lines that, whitespace-normalized, begin with a date dd/dd/dd
    and hold at least two monetary tokens; a line without such a date
    or with fewer than two tokens gives none and is left out of the
    output of the stage, which holds, in order, the simplified lines
    of the non-blank lines that gave one.  Every token has the
    monetary shape.  The HDFC categorizer drops nothing: on lines none
    of which is blank its output has one entry per line, and the
    entry of a line that is not of the simplified shape is that line,
    trimmed.  One such line does not stop a document: the other lines
    are read as they are without it. *)
Theorem C5_unparsable_lines :
  (forall line : string,
     let normalized := BaseParser.normalizeWhitespace line in
     ((exists simplified,
         HDFCParser.parseTransactionLine line = Some simplified) <->
      beginsWithDate normalized /\
      2 <= List.length (BaseParser.extractCurrencyAmounts normalized)) /\
     (HDFCParser.parseTransactionLine line = None <->
      ~ beginsWithDate normalized \/
      List.length (BaseParser.extractCurrencyAmounts normalized) < 2) /\
     (forall token,
        In token (BaseParser.extractCurrencyAmounts normalized) ->
        InLang false (pattern BaseParser.currencyAmount)
               (of_string token))) /\
  (forall lines : list string,
     HDFCParser.simplifiedLines lines =
     flat_map (fun line => match HDFCParser.parseTransactionLine line with
                           | Some simplified => [simplified]
                           | None => []
                           end)
              (filter (fun line => negb (isEmpty (trim line))) lines)) /\
  (forall lines : list string,
     Forall (fun l => isEmpty (trim l) = false) lines ->
     List.length (HDFCParser.categorizedLines lines) = List.length lines /\
     (forall (i : nat) (l : string),
        nth_error lines i = Some l ->
        exec HDFCParser.simplifiedLine (trim l) = None ->
        nth_error (HDFCParser.categorizedLines lines) i = Some (trim l))) /\
  BaseParser.extractCurrencyAmounts undatedLine = ["100.00"; "200.00"] /\
  HDFCParser.parseTransactionLine undatedLine = None /\
  HDFCParser.cleanOCROutputSimplified
    (join LF [undatedLine; "03/04/23 | ATM WDL 500.00 11,845.67";
              "04/04/23 | ONE AMOUNT 5.00"]) =
    "03/04/23 | ATM WDL | 500.00 11,845.67".
Proof.
  split; [|split; [|split; [|repeat split; vm_compute; reflexivity]]].
  - intros line. cbv zeta. split; [apply hdfc_parse_some|].
    split; [apply hdfc_parse_none|].
    intros token Hin. exact (proj1 (currency_token_nonneg _ _ Hin)).
  - induction lines as [|l lines IH]; [reflexivity|].
    unfold HDFCParser.simplifiedLines in *. cbn [flat_map filter].
    destruct (isEmpty (trim l)); cbn [negb]; [exact IH|].
    cbn [flat_map]. rewrite IH.
    destruct (HDFCParser.parseTransactionLine l) as [s|] eqn:E;
      [|reflexivity].
    rewrite (parseTransactionLine_not_empty l s E). reflexivity.
  - intros lines F. split.
    + rewrite (hdfc_categorizedLines_pushed lines F), length_map,
        length_seq. reflexivity.
    + intros i l Hl Hn.
      assert (He : isEmpty (trim l) = false).
      { rewrite Forall_forall in F. apply F. eapply nth_error_In, Hl. }
      rewrite (hdfc_categorizedLines_nth lines i _ F
                 (categorizeAt_kept lines i l Hl He Hn)).
      reflexivity.
Qed.

(** The undated line does not begin with a date, and gives no
    simplified line. *)
Lemma C5_witness_undated :
  (~ beginsWithDate (BaseParser.normalizeWhitespace undatedLine) \/
   List.length (BaseParser.extractCurrencyAmounts
                  (BaseParser.normalizeWhitespace undatedLine)) < 2) /\
  HDFCParser.parseTransactionLine undatedLine = None.
Proof.
  assert (H : ~ beginsWithDate (BaseParser.normalizeWhitespace undatedLine) \/
              List.length (BaseParser.extractCurrencyAmounts
                             (BaseParser.normalizeWhitespace undatedLine)) < 2).
  { left. intros [a [b [c [d [e [f [rest [E F]]]]]]]].
    vm_compute in E. injection E as Ea _.
    pose proof (Forall_inv F) as Fa. cbv beta in Fa.
    rewrite <- Ea in Fa. discriminate Fa. }
  split; [exact H|].
  exact (proj2 (proj1 (proj2 (proj1 C5_unparsable_lines undatedLine))) H).
Defined.

(** C5 fails as stated at the HDFC categorizer, which keeps a line it
    cannot read.  The extractor reads the line with the huge amount
    and writes that amount as 1e+21; the line it writes has not the
    simplified shape, and the categorizer hands it on as it is.  So
    does it with the undated line, given directly. *)
Lemma C5_counterexample_kept :
  HDFCParser.cleanOCROutputSimplified hugeAmountLine =
    "01/04/23 | BIG | 1e+21 5.00" /\
  exec HDFCParser.simplifiedLine "01/04/23 | BIG | 1e+21 5.00" = None /\
  HDFCParser.categorizeTransactions
    (HDFCParser.cleanOCROutputSimplified hugeAmountLine) =
    "01/04/23 | BIG | 1e+21 5.00" /\
  exec HDFCParser.simplifiedLine (trim undatedLine) = None /\
  HDFCParser.categorizedLines [undatedLine] = [undatedLine] /\
  HDFCParser.categorizeTransactions undatedLine = undatedLine.
Proof. repeat split; vm_compute; reflexivity. Qed.
(* ================================================================== *)
(** * ICICI: the direction from the two columns *)

Lemma columnChar_figureChar c : columnChar c -> figureChar c.
Proof. intros [H|[H|H]]; [left|right; left|right; right; left]; exact H. Qed.

Lemma columnChar_class c :
  columnChar c ->
  inClass false [CDigit; CChar ","; CChar "."] c = true.
Proof.
  unfold inClass. cbn [existsb inItem andb].
  intros [H|[->| ->]]; [rewrite H|..]; reflexivity.
Qed.

Lemma class_columnChar x :
  inClass false [CDigit; CChar ","; CChar "."] x = true -> columnChar x.
Proof.
  unfold inClass, columnChar. cbn [existsb inItem andb].
  rewrite !orb_false_r.
  destruct (isDigit x); [auto|]. cbn [orb].
  destruct (Ascii.eqb_spec "," x) as [<-|_]; [auto|]. cbn [orb].
  destruct (Ascii.eqb_spec "." x) as [<-|_]; [auto|]. discriminate.
Qed.

Lemma figure_columnChars w :
  InLang false ICICIParser.figure w -> Forall columnChar w /\ w <> [].
Proof.
  unfold ICICIParser.figure, seqs, star, digit.
  intros [w1 [w2 [-> [H1 [d [-> Hd]]]]]].
  apply InLang_class_rep in H1. destruct H1 as [F1 _].
  apply inClass_digit in Hd. split.
  - apply Forall_app. split.
    + eapply Forall_impl; [|exact F1]. apply class_columnChar.
    + constructor; [left; exact Hd | constructor].
  - destruct w1; discriminate.
Qed.

Lemma balance_columnChars w :
  InLang false balanceFigure w -> Forall columnChar w /\ w <> [].
Proof.
  unfold balanceFigure. cbn [seqs InLang].
  intros [w1 [x1 [-> [H1 [p [w2 [-> [Hp H2]]]]]]]].
  change (InLang false ICICIParser.figure w1) in H1.
  destruct (figure_columnChars w1 H1) as [F1 N1].
  apply chr_word in Hp. subst p.
  apply times_digits in H2. destruct H2 as [_ F2]. split.
  - apply Forall_app. split; [exact F1|].
    constructor; [right; right; reflexivity|].
    eapply Forall_impl; [|exact F2]. intros x Hx. left. exact Hx.
  - destruct w1; [congruence | discriminate].
Qed.

(** A column of digits, commas and points reads as no number or as a
    number that is not negative. *)
Lemma column_unsigned (w : string) :
  Forall columnChar (of_string w) ->
  amountOf w = NaN \/ isNonNegative (amountOf w) = true.
Proof.
  intros F. rewrite <- (to_of_string w), amountOf_chars.
  assert (F' : Forall (fun c => isDigit c = true \/ c = "."%char)
                      (filter notComma (of_string w))).
  { apply filter_figure. eapply Forall_impl; [|exact F].
    apply columnChar_class. }
  destruct (parseFloat_l_figure _ F') as [-> |[v [e ->]]]; [auto|].
  right. apply ofDecimal_nonneg.
Qed.

(** The direction test on two columns without a sign. *)
Lemma resolve_unsigned (w d : string) :
  amountOf w = NaN \/ isNonNegative (amountOf w) = true ->
  amountOf d = NaN \/ isNonNegative (amountOf d) = true ->
  (isNaN (amountOf w) = false /\ eqb (amountOf w) zero = false /\
   eqb (amountOf d) zero = true ->
   ICICIParser.resolve w d = (DEBIT, w)) /\
  (isNaN (amountOf d) = false /\ eqb (amountOf d) zero = false /\
   eqb (amountOf w) zero = true ->
   ICICIParser.resolve w d = (CREDIT, d)) /\
  (eqb (amountOf w) zero = eqb (amountOf d) zero ->
   ICICIParser.resolve w d = (UNKNOWN, "0.00")) /\
  (isNaN (amountOf w) = true \/ isNaN (amountOf d) = true ->
   ICICIParser.resolve w d = (UNKNOWN, "0.00")).
Proof.
  unfold ICICIParser.resolve. cbv zeta.
  generalize (amountOf w) (amountOf d). intros x y Hx Hy.
  destruct x as [sx|sx| |sx mx ex]; destruct y as [sy|sy| |sy my ey];
    try (destruct Hx as [Hx|Hx]; [discriminate Hx|]);
    try (destruct Hy as [Hy|Hy]; [discriminate Hy|]);
    try (destruct sx; [discriminate Hx|]);
    try (destruct sy; [discriminate Hy|]);
    cbn; repeat split;
    try (intros [? [? ?]]; try reflexivity; discriminate);
    try (intros [?|?]; try reflexivity; discriminate);
    try (intros ?; try reflexivity; discriminate).
Qed.

(** C7: an ICICI simplified record [date | description | withdrawal
    deposit balance] whose description holds no [|] and whose columns
    are made of digits, commas and points is categorized, with its
    date, from its withdrawal and deposit columns.  When the
    withdrawal is a number other than zero and the deposit is zero,
    the record is a DEBIT with the withdrawal text as its amount; when
    the deposit is a number other than zero and the withdrawal is
    zero, it is a CREDIT with the deposit text as its amount; when
    both are zero or neither is, and whenever a column is no number,
    it is UNKNOWN with the amount 0.00.  The field extractor writes
    records of this form, with columns of this kind, but it leaves a
    [|] of the description where it is. *)
Theorem C7_column_position :
  (forall date description withdrawalAmount depositAmount balance : string,
     Forall figureChar (of_string date) -> of_string date <> [] ->
     ~ In "|"%char (of_string description) ->
     Forall columnChar (of_string withdrawalAmount) ->
     of_string withdrawalAmount <> [] ->
     Forall columnChar (of_string depositAmount) ->
     of_string depositAmount <> [] ->
     Forall columnChar (of_string balance) -> of_string balance <> [] ->
     let withdrawal := amountOf withdrawalAmount in
     let deposit := amountOf depositAmount in
     exists t,
       ICICIParser.categorizeLine
         (date ++ " | " ++ description ++ " | " ++ withdrawalAmount ++ " "
               ++ depositAmount ++ " " ++ balance) = Some t /\
       txDate t = date /\
       (isNaN withdrawal = false /\ eqb withdrawal zero = false /\
        eqb deposit zero = true ->
        txType t = DEBIT /\ txAmount t = withdrawalAmount) /\
       (isNaN deposit = false /\ eqb deposit zero = false /\
        eqb withdrawal zero = true ->
        txType t = CREDIT /\ txAmount t = depositAmount) /\
       (eqb withdrawal zero = eqb deposit zero ->
        txType t = UNKNOWN /\ txAmount t = "0.00") /\
       (isNaN withdrawal = true \/ isNaN deposit = true ->
        txType t = UNKNOWN /\ txAmount t = "0.00")) /\
  (forall line simplified : string,
     ICICIParser.parseTransactionLine line = Some simplified ->
     exists date description withdrawalAmount depositAmount balance,
       simplified =
         date ++ " | " ++ description ++ " | " ++ withdrawalAmount ++ " "
              ++ depositAmount ++ " " ++ balance /\
       Forall figureChar (of_string date) /\ of_string date <> [] /\
       Forall columnChar (of_string withdrawalAmount) /\
       of_string withdrawalAmount <> [] /\
       Forall columnChar (of_string depositAmount) /\
       of_string depositAmount <> [] /\
       Forall columnChar (of_string balance) /\ of_string balance <> []).
Proof.
  split.
  - intros date description w d b Fdate Ndate Hdesc Fw Nw Fd Nd Fb Nb.
    cbv zeta.
    destruct (icici_read_back date description w d b) as [t [Ht [Hdt Hr]]];
      try assumption;
      try (eapply Forall_impl; [|eassumption]; apply columnChar_figureChar).
    exists t. split; [exact Ht|]. split; [exact Hdt|].
    destruct (resolve_unsigned w d (column_unsigned w Fw)
                (column_unsigned d Fd)) as [H1 [H2 [H3 H4]]].
    assert (Hpair : forall ty a, ICICIParser.resolve w d = (ty, a) ->
                                 txType t = ty /\ txAmount t = a).
    { intros ty a E. rewrite E in Hr. injection Hr as -> ->. auto. }
    split; [|split; [|split]]; intros H;
      [apply (Hpair _ _ (H1 H)) | apply (Hpair _ _ (H2 H))
      |apply (Hpair _ _ (H3 H)) | apply (Hpair _ _ (H4 H))].
  - intros line s. unfold ICICIParser.parseTransactionLine. cbv zeta.
    destruct (exec ICICIParser.datedLine _) as [dm|] eqn:Ed; [|discriminate].
    destruct (exec ICICIParser.amountRegex _) as [am|] eqn:Ea;
      [|discriminate].
    intros H. apply some_inj in H.
    destruct (longDate_word _ (icici_dated_group _ dm Ed)) as [F1 N1].
    destruct (icici_amount_groups _ am Ea) as [Hw [Hd Hb]].
    exists (group 1 dm), (trim (group 1 am)), (group 2 am), (group 3 am),
           (group 4 am).
    destruct (figure_columnChars _ Hw) as [F2 N2].
    destruct (figure_columnChars _ Hd) as [F3 N3].
    destruct (balance_columnChars _ Hb) as [F4 N4].
    split; [symmetry; exact H|]. split; [exact F1|]. split; [exact N1|].
    split; [exact F2|]. split; [exact N2|]. split; [exact F3|].
    split; [exact N3|]. split; [exact F4 | exact N4].
Qed.

(** A withdrawal of 250.00 with a deposit of 0.00: a DEBIT of
    250.00. *)
Lemma C7_witness_withdrawal :
  exists t,
    ICICIParser.categorizeLine
      "01/04/2023 | ATM CASH | 250.00 0.00 10,000.00" = Some t /\
    txDate t = "01/04/2023" /\
    txType t = DEBIT /\ txAmount t = "250.00".
Proof.
  assert (Fdate : Forall figureChar (of_string "01/04/2023"))
    by (repeat (apply Forall_cons;
                [first [left; reflexivity
                       |right; right; right; reflexivity]|]);
        apply Forall_nil).
  assert (Fw : Forall columnChar (of_string "250.00"))
    by (repeat (apply Forall_cons;
                [first [left; reflexivity | right; left; reflexivity
                       |right; right; reflexivity]|]);
        apply Forall_nil).
  assert (Fd : Forall columnChar (of_string "0.00"))
    by (repeat (apply Forall_cons;
                [first [left; reflexivity | right; left; reflexivity
                       |right; right; reflexivity]|]);
        apply Forall_nil).
  assert (Fb : Forall columnChar (of_string "10,000.00"))
    by (repeat (apply Forall_cons;
                [first [left; reflexivity | right; left; reflexivity
                       |right; right; reflexivity]|]);
        apply Forall_nil).
  assert (Hdesc : ~ In "|"%char (of_string "ATM CASH"))
    by (cbn; intuition discriminate).
  destruct (proj1 C7_column_position "01/04/2023" "ATM CASH" "250.00"
              "0.00" "10,000.00" Fdate ltac:(discriminate) Hdesc
              Fw ltac:(discriminate) Fd ltac:(discriminate)
              Fb ltac:(discriminate))
    as [t [Ht [Hdt [Hdebit _]]]].
  exists t. split; [exact Ht|]. split; [exact Hdt|].
  apply Hdebit. repeat split; vm_compute; reflexivity.
Defined.

(** C7 fails as stated for a record whose description holds a [|]:
    the columns are then looked for in the third part of the line.
    The record the extractor writes for the first line carries a
    withdrawal of 250.00 and a deposit of 0.00 and is no DEBIT: it is
    dropped, and the output is empty.  The record it writes for the
    second line carries the same columns and is UNKNOWN with the
    amount 0.00, the 7 and the 8 of the description being read as the
    columns.  A withdrawal column that is no number, with a deposit of
    zero, is UNKNOWN as well. *)
Lemma C7_counterexample_pipe :
  ICICIParser.parseTransactionLine pipeInDescription =
    Some "01/04/2023 | ATM | CASH | 250.00 0.00 10,000.00" /\
  ICICIParser.categorizeLine
    "01/04/2023 | ATM | CASH | 250.00 0.00 10,000.00" = None /\
  ICICIParser.cleanOCROutputSimplified pipeInDescription =
    "01/04/2023 | ATM | CASH | 250.00 0.00 10,000.00" /\
  ICICIParser.categorizeTransactions
    (ICICIParser.cleanOCROutputSimplified pipeInDescription) = "" /\
  ICICIParser.parseTransactionLine figuresInDescription =
    Some "01/04/2023 | A | 7 8 9 x | 250.00 0.00 10,000.00" /\
  ICICIParser.categorizeTransactions
    (ICICIParser.cleanOCROutputSimplified figuresInDescription) =
    "01/04/2023 | A | 0.00 | UNKNOWN" /\
  ICICIParser.parseTransactionLine
    "01/04/2023 01/04/2023 CASH ..5 0.00 10.00" =
    Some "01/04/2023 | CASH | ..5 0.00 10.00" /\
  ICICIParser.categorizeTransactions "01/04/2023 | CASH | ..5 0.00 10.00" =
    "01/04/2023 | CASH | 0.00 | UNKNOWN".
Proof. repeat split; vm_compute; reflexivity. Qed.
